(* ===== verification/_CoqProject ===== *)
-Q . S2P
Prelude.v
RustStr.v
Text.v
Crypto.v
BTree.v
Permissions.v
ToolGate.v
Net.v
Ssrf.v
Sse.v
TurnBudget.v
TriageSdk.v
ReplayPhases.v
CanonicalJson.v
TriageRuntime.v
TriagePolicy.v
Answer.v
Terminal.v
Neighborhood.v
FastPacket.v
FastValidate.v
Display.v
Injection.v
Context.v
EvidencePack.v
LinkedContext.v
Grounding.v
RequiredReads.v
Review.v
Causal.v
Contribution.v
AnswerFloor.v
FastPrompt.v
FastRoute.v
ContributionPipeline.v
Redact.v
AuditLog.v
SqlRo.v
Suppression.v
SuppressionLens.v
