(* ===== verification/Prelude.v ===== *)
(** * ContextDesk trusted host core

    ContextDesk is a desktop assistant for engineering knowledge. Its Rust
    workspace ([src/crates]) keeps every security and honesty decision in
    deterministic host code: models propose, the host decides. This library
    models that host code and proves what it promises.

    ** Parts of the program and where they are modelled

    Shared:

    - [Prelude]: Rust's [Result] as a monad, saturating and checked unsigned
      arithmetic, uniqueness scans, the tactics [inv_result], [split_bool] and
      [not_in], and the hint databases [host].
    - [RustStr], [Net], [BTree], [Crypto]: what the code uses of [str], [char],
      [Vec<u8>], [std::net], [BTreeMap], [BTreeSet], stable sorting and digests.
    - [Text] ([text.rs]): truncation at character boundaries.

    Consent and egress:

    - [Permissions] ([permissions.rs], parts of [tools.rs] and
      [harvest/apply.rs]) and [ToolGate] ([tool_host.rs], [mcp_client.rs]): the
      grants and the gate in front of every tool call. [execute_gate] is the part
      of [ToolHost::execute] between resolving a call and running it,
      [complete_permission] the handler of the user's decision; [gate_step] and
      [reachable] are the histories they generate in any order.
    - [Ssrf] ([ssrf.rs]): URL policy, vetting of every resolved address, the
      DNS-pinned client.
    - [SqlRo] ([sql_ro.rs], [connectors.rs]): the statement filter, row limits,
      connection strings and settings.
    - [Redact] ([redact.rs]) and [AuditLog] ([audit.rs]): secret scrubbing with
      its panics, and the hash chain of the audit file with torn writes and a
      poisoned lock.
    - [Injection] ([injection.rs]): the nonce fences around untrusted text.

    Streams, budgets and requests:

    - [Sse] ([sse.rs]): the line decoder and the body accumulator.
    - [TurnBudget] ([router.rs], [deadline_controls.rs],
      [multi_stage_budget.rs], the admission part of the candidate loop of
      [agent.rs]): deadlines, phase plan, source ranking, synthesis reserve.
    - [Context] ([sessions.rs], [chat.rs], part of [agent.rs]): the messages of a
      request: window, summary, truncation, hard budget.
    - [EvidencePack] ([context_budgeting.rs]): packing evidence lines into a
      budget; its floating-point ratios are binary64 values of [SpecFloat].
    - [LinkedContext] ([agent.rs], [context_budgeting.rs], [model_context.rs]):
      the evidence buffer of a turn, linked synthesis requests, telemetry, the
      declared and learned budgets of models.

    Triage contract:

    - [TriageSdk] ([cd-triage-sdk]): the wire documents and all their validators,
      [TriageReplayV1::validate] included; [ReplayPhases] is the abstract
      specification of that validator, an automaton with one state per phase.
    - [CanonicalJson] and [TriageRuntime] ([cd-triage-runtime/src/lib.rs]): the
      request fingerprint, event sink, engine port, dispatch and cancellation
      guards, binding of a replay to its request.
    - [TriagePolicy] ([multi_model/triage_policy.rs], parts of [mod.rs] and
      [contributions.rs]): the policy compiler and the migration of settings.

    Answers:

    - [Answer] and [Display] ([investigation_answer.rs],
      [cd-triage-sdk/src/answer.rs]): the evidence ledger, the validator of model
      answers, the Markdown projection.
    - [Grounding] ([agent.rs], [log_analysis/search.rs]): the citations of linked
      answers: what they cite, whether the host supplied it, what the host
      appends and strips, and how a round ends.
    - [RequiredReads] ([agent.rs]): which sources a linked question asks for,
      which are unavailable, which are still to be read.
    - [Review] ([multi_model/contracts.rs]): candidate findings and review reports
      of the multi-model stages, their validators and projection.
    - [Causal] ([multi_model/causal_topology.rs], [causal_synthesis.rs], part of
      [pipeline.rs]): which rows may be called trigger, symptom, recovery or
      decoy, and the check of a model's relations against that.
    - [Contribution] ([multi_model/contributions.rs]): the routing plan of a panel
      of models, the validation of what they contribute, the deterministic baseline
      and the reconciliation of the panel; [AnswerFloor] (the same file): the answer
      the host builds from it.
    - [ContributionPipeline] ([multi_model/contribution_pipeline.rs]): one bounded
      call for each planned contributor, the conditional reviewer, telemetry,
      events and rendering. A run is a [PanelRun], passed from slot to slot.
    - [Terminal] ([linked_triage_contract.rs], [fast_triage/terminal.rs]):
      normalising and classifying model terminals.
    - [Neighborhood], [FastPacket], [FastValidate], [FastPrompt], [FastRoute]
      ([fast_triage]): evidence neighborhood, packet and its identity, route
      selection and validator, prompts, and the route itself with attempts,
      correction, escalation and telemetry.

    Log evidence:

    - [Suppression] ([log_analysis/suppression.rs]): the rules that hide events of an
      exact template. A rule is previewed, activated by a person, disabled, enabled
      again and removed; every step publishes a new sidecar file atomically under a
      process lock. [SuppressionState] is the file and the two locks,
      [SuppressionStep] the histories of operations, failures and restarts.
    - [SuppressionLens] ([log_analysis/suppression_lens.rs] and the rest of
      [suppression.rs]): which templates the rules authorise a query to hide, with the
      cache, the digest of the policy and the diagnostic snapshot. A call makes a
      sequence of looks at a sidecar and a corpus that change between them.

    They interact as in the code. [ToolGate] asks [Permissions]; [TurnBudget]
    asks [Ssrf] whether a provider is local; [AuditLog] scrubs through [Redact].
    A request is validated by [TriageSdk], fingerprinted through [CanonicalJson]
    and dispatched by [TriageRuntime] to a host engine, whose replay is checked
    by [TriageSdk] and bound back to the request; [TriagePolicy] decides
    beforehand which model slots the run may use. [FastRoute] builds a
    [FastPacket] from a [Neighborhood] and the [Answer] ledger, prompts through
    [FastPrompt] under a [Context] budget, reads the reply with [Terminal] and
    accepts it only through [FastValidate]. [LinkedContext] packs its evidence
    with [EvidencePack] and fits it with [Context]; once [RequiredReads] is
    satisfied, the answer passes [Grounding]. [Causal] reads the findings and
    reviews that [Review] accepted and the [FastPacket] they are about.
    [ContributionPipeline] sends a [FastPacket] to the slots of a [Contribution]
    plan, waiting as [FastRoute] does, reconciles what [Contribution] validates and
    ends with the [AnswerFloor], which passes the validator of [Answer].
    [Suppression] redacts the samples of a preview through [Redact], and
    [SuppressionLens] resolves the documents that [Suppression] loads.

    ** What the theorems show

    - Consent: no write runs without a grant the user gave for this tool and
      target or a session path that covers it; one-shot grants are used once;
      path grants respect path boundaries.
    - Egress: vetted addresses lie outside the internal blocks, written as
      numeric ranges; the client pins only vetted sockets; connection strings
      carry their values unchanged.
    - Secrets and audit: scrubbed text has no credential of a known form and is
      still text; a log written by the host verifies, its tail hash commits to
      every entry, and one entry can silence it.
    - Fences: untrusted text cannot close its fence, evidence rows cannot forge
      lines of a packet, the prompt states exactly what the validator permits.
    - Streams: the incremental decoder refines a specification on the whole byte
      stream, so chunk boundaries are irrelevant, and memory is bounded.
    - Budgets and requests: candidates never use up the synthesis reserve; what
      is sent fits, keeps tool results behind their calls and always comes back;
      packed evidence is evidence; context errors only tighten a budget.
    - Triage contract, runtime, policy: share-safe events leak nothing, replays
      are exactly the runs of the phase automaton, accepted executions are bound
      to their request, compiled policies admit only authorised slots.
    - Answers: the validator accepts exactly the grounded proposals, an accepted
      answer cannot overclaim, displayed text is one literal line; linked answers
      cite only identities the host supplied, stripped text cites nothing and
      what the host appends is read back; no answer is given before the sources
      the question asks for were read; findings and reviews are accepted exactly
      when they stay within their candidates; an accepted trigger or symptom was
      proven by the host; the fast route delivers as verified
      only what the host validated, within its bound of calls.
    - Contributions: a contribution is accepted exactly when it stays in the packet;
      the reconciliation depends neither on the order of arrival nor on wording,
      counts support only from two models and calls a report supported only when
      nothing is open; the panel always ends with a valid answer that claims what
      was validated and nothing else, within its budget of calls and characters, and
      asks a reviewer only on escalation.
    - Suppression: whatever sequence of operations, failures and restarts led to a
      sidecar, replaying its audit gives its rules, all activated by a person from a
      preview; an operation publishes one further revision or nothing; the audit always
      has room to retire a live rule. A query hides exactly the requested templates
      that the policy authorises, whatever changes during the call and whatever the
      cache holds, and nothing without a policy; the digest bound to findings
      identifies the policy, and the diagnostic export agrees with the lens.

    Theorems whose comment describes a shortcoming are the evidence for a defect
    in the code and hold of it as it stands.

    ** Modelling choices

    - Unsigned integers are [Z]; saturation, checks and casts are written at
      the source's width, and ranges are hypotheses only where they matter.
      [usize] has 64 bits.
    - A [str] is the [string] of its UTF-8 bytes, so [len] counts bytes;
      characters are groups of bytes ([chars_of]).
    - [&mut self] is explicit state passing. The state after an error is the
      one the source leaves behind. A panic is [None].
    - Maps whose order is observable are association lists in that order;
      [HashMap]s are [gmap]s, a [HashSet] that is iterated is the list of its
      members in iteration order.
    - The [url], [reqwest], [serde_json], [sha2] and [uuid] crates, the Unicode
      tables behind [to_lowercase] and [is_alphanumeric], the DNS resolver, the
      clock, the file system and the providers are parameters: the classes
      [UrlCrate], [Codec], [AuditCodec], [JsonStrings], [Sha2], [TriageEngine],
      [SidecarCodec], [FastWorld] (over the type of backends), [FastHost] or plain arguments. What is assumed of them is
      stated by the classes [UrlLaws], [CodecLaws], [JsonStringsLaws], [JsonAnswers]
      and the like, and the witnesses instantiate them.
    - Recursion is structural where the code's is. [Sse.drain_lines] recurses on
      the length of the buffer with Equations. Fuel: twenty digits for a [u64]
      ([decimal_bytes]); the length of the text for the scans of [Redact] and
      [Grounding], which consume at least one byte a step (for PEM blocks, the
      number of hyphens); sixty-four halvings of a [u64] ([shrink_keep]); the
      number of messages for [omit_envelopes]; the length of the slice for the
      binary search of [BTree]. Each is proved sufficient, or the
      theorem about it states what is returned.

    ** Not modelled

    The agent loop around the parts above, the tool implementations behind the
    gate, the HTTP provider clients, policy prompt texts, persistence (SQLite,
    keychain, files), logging, log ingestion, queries and indexing, the HTTP server, the
    command line, the benchmark crates and the desktop application. They are I/O,
    heuristics over free text, or glue. Of modules that are modelled, [Display]
    texts of errors are left out unless code depends on them, and so are record
    fields whose type has a single value.

    Deterministic parts that are not modelled, in the order in which they are worth
    adding: the extension contract and the gateway cost ledger. *)
From Stdlib Require Import ZArith Lia.
From stdpp Require Import base tactics option list list_numbers gmap sorting strings.

#[global] Set Default Goal Selector "!".

(** ** Rust [Result] *)

Inductive result (E A : Type) : Type :=
| Ok (a : A)
| Err (e : E).
Arguments Ok {E A} a.
Arguments Err {E A} e.

#[global] Instance result_ret {E} : MRet (result E) := λ A a, Ok a.
#[global] Instance result_bind {E} : MBind (result E) := λ A B k r,
  match r with
  | Ok a => k a
  | Err e => Err e
  end.
#[global] Instance result_fmap {E} : FMap (result E) := λ A B f r,
  match r with
  | Ok a => Ok (f a)
  | Err e => Err e
  end.
#[global] Instance result_eq_dec {E A} `{EqDecision E, EqDecision A} :
  EqDecision (result E A).
Proof. solve_decision. Defined.

Definition is_ok {E A} (r : result E A) : bool :=
  match r with Ok _ => true | Err _ => false end.

Definition is_err {E A} (r : result E A) : bool := negb (is_ok r).

(** [r.map_err(f)]. *)
Definition map_err {E F A} (f : E → F) (r : result E A) : result F A :=
  match r with Ok a => Ok a | Err e => Err (f e) end.

(** [o.ok_or(e)]. *)
Definition ok_or {E A} (o : option A) (e : E) : result E A :=
  match o with Some a => Ok a | None => Err e end.

(** The early return [if bad { return Err(e) }]. *)
Definition reject_if {E} (bad : bool) (e : E) : result E unit :=
  if bad then Err e else Ok tt.

(** [o.is_some()]. *)
Definition is_some {A} (o : option A) : bool :=
  match o with Some _ => true | None => false end.

(** [o.is_some_and(p)]. *)
Definition is_some_and {A} (o : option A) (p : A → bool) : bool :=
  match o with Some a => p a | None => false end.

(** ** Machine integers

    An unsigned integer of the source is a [Z]; the operations below write out
    the overflow behaviour at the width the source uses. [usize] is 64 bits. *)

Definition u8_max : Z := 255.
Definition u32_max : Z := 4294967295.
Definition u64_max : Z := 18446744073709551615.
Definition usize_max : Z := u64_max.

Definition saturating_add (max a b : Z) : Z := Z.min (a + b) max.
Definition saturating_mul (max a b : Z) : Z := Z.min (a * b) max.
Definition saturating_sub (a b : Z) : Z := Z.max (a - b) 0.
Definition checked_add (max a b : Z) : option Z :=
  if (a + b <=? max)%Z then Some (a + b)%Z else None.
Definition checked_mul (max a b : Z) : option Z :=
  if (a * b <=? max)%Z then Some (a * b)%Z else None.

(** [x.clamp(lo, hi)]; Rust panics when [hi < lo], so callers must show
    [lo ≤ hi]. *)
Definition clamp (lo hi x : Z) : Z :=
  if (x <? lo)%Z then lo else if (hi <? x)%Z then hi else x.

(** [v.len()] of a vector. *)
Definition zlen {A} (l : list A) : Z := Z.of_nat (length l).

(** ** Lists *)

(** [HashSet]/[BTreeSet] based uniqueness scan:
    [xs.iter().all(|x| ok(x) && seen.insert(x))]. *)
Fixpoint all_unique_from `{EqDecision A} (ok : A → bool) (seen xs : list A) : bool :=
  match xs with
  | [] => true
  | x :: xs =>
      ok x && bool_decide (x ∉ seen) && all_unique_from ok (x :: seen) xs
  end.
Definition all_unique `{EqDecision A} (ok : A → bool) (xs : list A) : bool :=
  all_unique_from ok [] xs.

(** ** Lemmas on [result] *)

Section result_lemmas.
Context {E A B : Type}.
Implicit Types (r : result E A) (k : A → result E B).

Lemma Ok_inj (a b : A) : @Ok E A a = Ok b → a = b.
Proof. by intros [=]. Qed.

Lemma bind_Ok r k b : (r ≫= k) = Ok b ↔ ∃ a, r = Ok a ∧ k a = Ok b.
Proof. destruct r; cbn; naive_solver. Qed.

Lemma bind_Err r k e :
  (r ≫= k) = Err e ↔ r = Err e ∨ ∃ a, r = Ok a ∧ k a = Err e.
Proof. destruct r; cbn; naive_solver. Qed.

Lemma is_ok_spec r : is_ok r = true ↔ ∃ a, r = Ok a.
Proof. destruct r; cbn; naive_solver. Qed.

Lemma is_ok_false r : is_ok r = false ↔ ∃ e, r = Err e.
Proof. destruct r; cbn; naive_solver. Qed.

Lemma map_err_Ok {F} (f : E → F) r a : map_err f r = Ok a ↔ r = Ok a.
Proof. destruct r; cbn; naive_solver. Qed.

Lemma reject_if_Ok (bad : bool) (e : E) u : reject_if bad e = Ok u ↔ bad = false.
Proof. destruct bad, u; cbn; naive_solver. Qed.

Lemma reject_if_Err (bad : bool) (e e' : E) :
  reject_if bad e = Err e' ↔ bad = true ∧ e = e'.
Proof. destruct bad; cbn; naive_solver. Qed.

Lemma ok_or_Ok (o : option A) (e : E) a : ok_or o e = Ok a ↔ o = Some a.
Proof. destruct o; cbn; naive_solver. Qed.
End result_lemmas.

Lemma is_some_and_true {A} (o : option A) p :
  is_some_and o p = true ↔ ∃ a, o = Some a ∧ p a = true.
Proof. destruct o; cbn; naive_solver. Qed.

Lemma is_some_and_false {A} (o : option A) p :
  is_some_and o p = false ↔ ∀ a, o = Some a → p a = false.
Proof. destruct o; cbn; naive_solver. Qed.

(** ** Lemmas on integers *)

Section integers.
Local Open Scope Z_scope.

Lemma clamp_bounds lo hi x : lo ≤ hi → lo ≤ clamp lo hi x ≤ hi.
Proof. unfold clamp. repeat case_match; lia. Qed.

Lemma clamp_id lo hi x : lo ≤ x ≤ hi → clamp lo hi x = x.
Proof. unfold clamp. repeat case_match; lia. Qed.

Lemma saturating_add_le max a b c :
  c < max → saturating_add max a b ≤ c ↔ a + b ≤ c.
Proof. unfold saturating_add. lia. Qed.

Lemma saturating_add_exact max a b : a + b ≤ max → saturating_add max a b = a + b.
Proof. unfold saturating_add. lia. Qed.

Lemma saturating_add_lower max a b c : saturating_add max a b ≤ c → c < max → a + b ≤ c.
Proof. unfold saturating_add. lia. Qed.

Lemma zlen_nonneg {A} (l : list A) : 0 ≤ zlen l.
Proof. unfold zlen. lia. Qed.

Lemma zlen_app {A} (l k : list A) : zlen (l ++ k) = zlen l + zlen k.
Proof. unfold zlen. rewrite length_app. lia. Qed.

Lemma zlen_cons {A} (x : A) (l : list A) : zlen (x :: l) = 1 + zlen l.
Proof. unfold zlen. cbn. lia. Qed.

Lemma zlen_nil {A} : zlen (@nil A) = 0.
Proof. done. Qed.
End integers.

(** ** Lemmas on lists *)

Section unique.
Context `{EqDecision A}.
Implicit Types (xs seen : list A).

Lemma all_unique_from_spec ok seen xs :
  all_unique_from ok seen xs = true ↔
    Forall (λ x, ok x = true ∧ x ∉ seen) xs ∧ NoDup xs.
Proof.
  revert seen. induction xs as [|x xs IH]; intros seen; cbn.
  { split; [intros _; split; constructor|done]. }
  rewrite !andb_true_iff, bool_decide_eq_true, IH, Forall_cons, NoDup_cons, !Forall_forall.
  setoid_rewrite not_elem_of_cons. naive_solver.
Qed.

Lemma all_unique_spec ok xs :
  all_unique ok xs = true ↔ Forall (λ x, ok x = true) xs ∧ NoDup xs.
Proof.
  unfold all_unique. rewrite all_unique_from_spec, !Forall_forall.
  setoid_rewrite elem_of_nil. naive_solver.
Qed.
End unique.

(** [l.iter().any(p)] and [l.iter().all(p)]. *)
Lemma existsb_elem_of {A} (p : A → bool) (l : list A) :
  existsb p l = true ↔ ∃ x, x ∈ l ∧ p x = true.
Proof. rewrite existsb_exists. by setoid_rewrite list_elem_of_In. Qed.

Lemma existsb_false_Forall {A} (p : A → bool) (l : list A) :
  existsb p l = false ↔ Forall (λ x, p x = false) l.
Proof.
  induction l as [|x l IH]; cbn; [by split|]. by rewrite orb_false_iff, Forall_cons, IH.
Qed.

Lemma elem_of_filter_bool {A} (p : A → bool) (x : A) l :
  x ∈ List.filter p l ↔ x ∈ l ∧ p x = true.
Proof. by rewrite !list_elem_of_In, filter_In. Qed.

Lemma StronglySorted_fmap_filter {A B} (R : relation B) (f : A → B) (p : A → bool) l :
  StronglySorted R (f <$> l) → StronglySorted R (f <$> List.filter p l).
Proof.
  induction l as [|x l IH]; cbn; [done|]. intros [Hl Hx]%StronglySorted_inv.
  destruct (p x); cbn; [|auto]. constructor; [auto|].
  rewrite Forall_forall in Hx |- *. intros y (z & -> & [Hz _]%elem_of_filter_bool)%list_elem_of_fmap.
  apply Hx, list_elem_of_fmap. eauto.
Qed.

Lemma elem_of_rev {A} (x : A) (l : list A) : x ∈ rev l ↔ x ∈ l.
Proof. by rewrite !list_elem_of_In, <-in_rev. Qed.

#[global] Instance filter_bool_perm {A} (p : A → bool) :
  Proper ((≡ₚ) ==> (≡ₚ)) (List.filter p).
Proof.
  intros l k H. induction H as [|x l k _ IH|x y l|l k j _ IH1 _ IH2]; cbn; [done|..].
  - destruct (p x); [by constructor|done].
  - destruct (p x), (p y); [constructor|done..].
  - by etrans.
Qed.

Lemma NoDup_fmap_eq {A B} (f : A → B) l x y :
  NoDup (f <$> l) → x ∈ l → y ∈ l → f x = f y → x = y.
Proof.
  induction l as [|a l IH]; [by intros ? ?%not_elem_of_nil|].
  rewrite fmap_cons, NoDup_cons. intros [Ha Hnd] [->|Hx]%elem_of_cons [->|Hy]%elem_of_cons E;
    [done|destruct Ha; rewrite E; by apply list_elem_of_fmap_2
    |destruct Ha; rewrite <-E; by apply list_elem_of_fmap_2|by apply IH].
Qed.

(** Steps that commute may run in any order. *)
Lemma foldl_perm {S A} (P : S → Prop) (step : S → A → S) s l k :
  (∀ s a, P s → P (step s a)) →
  (∀ s a b, P s → step (step s a) b = step (step s b) a) →
  P s → l ≡ₚ k → foldl step s l = foldl step s k.
Proof.
  intros Hpres Hcomm Hs Hperm. revert s Hs.
  induction Hperm as [|x l k _ IH|x y l|l k j _ IH1 _ IH2]; intros s Hs; cbn; [done|..].
  - by apply IH, Hpres.
  - by rewrite Hcomm.
  - by rewrite IH1, IH2.
Qed.

Lemma exists_snoc {A} (P : A → Prop) l r :
  (∃ x, x ∈ l ++ [r] ∧ P x) ↔ (∃ x, x ∈ l ∧ P x) ∨ P r.
Proof.
  setoid_rewrite elem_of_app. setoid_rewrite list_elem_of_singleton. split.
  - intros (x & [?| ->] & ?); eauto.
  - intros [(x & ? & ?)|?]; eauto.
Qed.

(** A fact that steps only add, or only take away, in a whole fold. *)
Lemma foldl_exists {S A} (P : S → Prop) (Q : A → Prop) (step : S → A → S) s l :
  (∀ s a, P (step s a) ↔ P s ∨ Q a) → P (foldl step s l) ↔ P s ∨ ∃ a, a ∈ l ∧ Q a.
Proof.
  intros Hstep. revert s. induction l as [|b l IH]; intros s; cbn.
  { split; [by left|]. intros [?|(a & Ha & _)]; [done|by apply not_elem_of_nil in Ha]. }
  rewrite IH, Hstep. setoid_rewrite elem_of_cons. naive_solver.
Qed.
Lemma foldl_forall {S A} (P : S → Prop) (Q : A → Prop) (step : S → A → S) s l :
  (∀ s a, P (step s a) ↔ P s ∧ Q a) → P (foldl step s l) ↔ P s ∧ ∀ a, a ∈ l → Q a.
Proof.
  intros Hstep. revert s. induction l as [|b l IH]; intros s; cbn.
  { split; [|by intros [? _]]. intros ?. split; [done|]. by intros a ?%not_elem_of_nil. }
  rewrite IH, Hstep. setoid_rewrite elem_of_cons. naive_solver.
Qed.

Lemma foldl_inv {S A} (P : S → Prop) (step : S → A → S) s l :
  (∀ s a, P s → P (step s a)) → P s → P (foldl step s l).
Proof. intros Hpres. revert s. induction l as [|a l IH]; intros s Hs; cbn; auto. Qed.

Lemma forallb_Forall {A} (p : A → bool) (l : list A) :
  forallb p l = true ↔ Forall (λ x, p x = true) l.
Proof. rewrite forallb_forall, Forall_forall. by setoid_rewrite list_elem_of_In. Qed.

Lemma fmap_eq_elem {A B} (f g : A → B) (l : list A) x : f <$> l = g <$> l → x ∈ l → f x = g x.
Proof.
  induction l as [|a l IH]; [by intros ? ?%not_elem_of_nil|]. rewrite !fmap_cons.
  intros E [->|Hx]%elem_of_cons; injection E; auto.
Qed.

Lemma fmap_eq_Forall2 {A B C} (f : A → C) (g : B → C) (l : list A) (k : list B) :
  Forall2 (λ x y, f x = g y) l k → f <$> l = g <$> k.
Proof. induction 1 as [|x y l k Hxy _ IH]; cbn; [done|]. by rewrite Hxy, IH. Qed.

(** ** Automation *)

(** [inv_result] decomposes hypotheses that say a chain of fallible steps
    succeeded, one equation per step. *)
Ltac inv_result_step :=
  match goal with
  | H : Ok _ = Ok _ |- _ => apply (inj Ok) in H || injection H as H
  | H : Err _ = Err _ |- _ => injection H as H
  | H : Ok _ = Err _ |- _ => discriminate H
  | H : Err _ = Ok _ |- _ => discriminate H
  | H : (_ ≫= _) = Ok _ |- _ =>
      let a := fresh "a" in let Ha := fresh "Hstep" in
      apply bind_Ok in H as (a & Ha & H)
  | H : reject_if _ _ = Ok _ |- _ => apply reject_if_Ok in H
  | H : map_err _ _ = Ok _ |- _ => apply map_err_Ok in H
  | H : ok_or _ _ = Ok _ |- _ => apply ok_or_Ok in H
  | u : unit |- _ => destruct u
  end.
Ltac inv_result := repeat (inv_result_step; try subst).

(** [split_bool] turns boolean guards in the hypotheses into propositions. *)
Ltac split_bool_step :=
  match goal with
  | H : _ && _ = true |- _ => apply andb_true_iff in H as [? ?]
  | H : _ || _ = false |- _ => apply orb_false_iff in H as [? ?]
  | H : negb _ = true |- _ => apply negb_true_iff in H
  | H : negb _ = false |- _ => apply negb_false_iff in H
  | H : bool_decide _ = true |- _ => apply bool_decide_eq_true in H
  | H : bool_decide _ = false |- _ => apply bool_decide_eq_false in H
  | H : (_ <? _)%Z = true |- _ => apply Z.ltb_lt in H
  | H : (_ <? _)%Z = false |- _ => apply Z.ltb_ge in H
  | H : (_ <=? _)%Z = true |- _ => apply Z.leb_le in H
  | H : (_ <=? _)%Z = false |- _ => apply Z.leb_gt in H
  | H : (_ =? _)%Z = true |- _ => apply Z.eqb_eq in H
  | H : (_ =? _)%Z = false |- _ => apply Z.eqb_neq in H
  end.
Ltac split_bool := repeat split_bool_step.

(** An element that a constant list does not have. *)
Ltac not_in :=
  match goal with |- ?P → False => change (¬ P) | |- ¬ _ => idtac end;
  refine (bool_decide_eq_false_1 _ _); vm_compute; reflexivity.

Create HintDb host.
Create Rewrite HintDb host.
#[export] Hint Resolve zlen_nonneg clamp_bounds : host.
