(* ===== verification/RustStr.v ===== *)
(** * The parts of Rust's [str], [char] and [String] the host code uses

    A Rust [str] is a [string] holding its UTF-8 bytes, so [len] counts bytes
    and a literal of the source is the same literal here. A [Vec<u8>] is a
    [list ascii], each [ascii] being one byte. The character predicates that
    look beyond ASCII ([trim], [char::is_whitespace], [char::is_control]) are
    written on the UTF-8 encodings of the code points they name. *)
From Stdlib Require Import ZArith Lia Ascii String.
From stdpp Require Import base tactics option list list_numbers strings.
From S2P Require Import Prelude.

Local Open Scope Z_scope.

Definition bytes (s : string) : list ascii := list_ascii_of_string s.
Definition of_bytes (bs : list ascii) : string := string_of_list_ascii bs.

(** The value of one byte. *)
Definition bv (c : ascii) : Z := Z.of_N (N_of_ascii c).

Definition in_range (lo hi : Z) (c : ascii) : bool := (lo <=? bv c) && (bv c <=? hi).

(** [s.len()] *)
Definition str_len (s : string) : Z := zlen (bytes s).
(** [s.is_empty()] *)
Definition is_empty (s : string) : bool := bool_decide (s = EmptyString).
(** [s.starts_with(p)], [s.ends_with(p)] *)
Definition starts_with (p s : string) : bool :=
  bool_decide (bytes p `prefix_of` bytes s).
Definition ends_with (p s : string) : bool :=
  bool_decide (bytes p `suffix_of` bytes s).
(** [s.contains(needle)] *)
Fixpoint contains_bytes (needle hay : list ascii) : bool :=
  bool_decide (needle `prefix_of` hay) ||
  match hay with
  | [] => false
  | _ :: hay => contains_bytes needle hay
  end.
Definition contains (needle s : string) : bool :=
  contains_bytes (bytes needle) (bytes s).

(** [s.strip_prefix(p)] *)
Definition strip_prefix (p s : string) : option string :=
  if starts_with p s then Some (of_bytes (drop (length (bytes p)) (bytes s))) else None.
(** [s.split_once(sep)]: around the first occurrence. *)
Fixpoint split_once_bytes (sep s : list ascii) : option (list ascii * list ascii) :=
  if bool_decide (sep `prefix_of` s) then Some ([], drop (length sep) s)
  else match s with
       | [] => None
       | a :: r => '(l, t) ← split_once_bytes sep r; Some (a :: l, t)
       end.
Definition split_once (sep s : string) : option (string * string) :=
  '(l, r) ← split_once_bytes (bytes sep) (bytes s); Some (of_bytes l, of_bytes r).

(** The [char::is_whitespace] code points by the length of their encoding. *)
Definition ws1 (a : ascii) : bool := in_range 9 13 a || (bv a =? 32).
Definition ws2 (a b : ascii) : bool :=
  (bv a =? 0xC2) && ((bv b =? 0x85) || (bv b =? 0xA0)).
Definition ws3 (a b c : ascii) : bool :=
  ((bv a =? 0xE1) && (bv b =? 0x9A) && (bv c =? 0x80)) ||
  ((bv a =? 0xE2) && (bv b =? 0x80) &&
     (in_range 0x80 0x8A c || (bv c =? 0xA8) || (bv c =? 0xA9) || (bv c =? 0xAF))) ||
  ((bv a =? 0xE2) && (bv b =? 0x81) && (bv c =? 0x9F)) ||
  ((bv a =? 0xE3) && (bv b =? 0x80) && (bv c =? 0x80)).

Fixpoint trim_start_bytes (s : list ascii) : list ascii :=
  match s with
  | [] => []
  | a :: r1 =>
      if ws1 a then trim_start_bytes r1 else
      match r1 with
      | [] => s
      | b :: r2 =>
          if ws2 a b then trim_start_bytes r2 else
          match r2 with
          | [] => s
          | c :: r3 => if ws3 a b c then trim_start_bytes r3 else s
          end
      end
  end.

(** The same scan from the end, on the reversed bytes. *)
Fixpoint trim_end_rev (s : list ascii) : list ascii :=
  match s with
  | [] => []
  | a :: r1 =>
      if ws1 a then trim_end_rev r1 else
      match r1 with
      | [] => s
      | b :: r2 =>
          if ws2 b a then trim_end_rev r2 else
          match r2 with
          | [] => s
          | c :: r3 => if ws3 c b a then trim_end_rev r3 else s
          end
      end
  end.

(** [s.trim()] *)
Definition trim_bytes (s : list ascii) : list ascii :=
  rev (trim_end_rev (rev (trim_start_bytes s))).
Definition trim (s : string) : string := of_bytes (trim_bytes (bytes s)).

(** [s.trim_end_matches(c)] *)
Fixpoint drop_leading (c : ascii) (s : list ascii) : list ascii :=
  match s with
  | [] => []
  | a :: r => if bool_decide (a = c) then drop_leading c r else s
  end.
Definition trim_end_matches (c : ascii) (s : string) : string :=
  of_bytes (rev (drop_leading c (rev (bytes s)))).

(** [s.chars().any(char::is_control)]: U+0000..U+001F and U+007F..U+009F. *)
Fixpoint any_control (s : list ascii) : bool :=
  match s with
  | [] => false
  | a :: r =>
      (bv a <? 0x20) || (bv a =? 0x7F) ||
      ((bv a =? 0xC2) &&
         match r with b :: _ => in_range 0x80 0x9F b | [] => false end) ||
      any_control r
  end.

(** [s.chars().any(char::is_whitespace)] *)
Fixpoint any_whitespace (s : list ascii) : bool :=
  match s with
  | [] => false
  | a :: r =>
      ws1 a ||
      match r with
      | b :: r' => ws2 a b || match r' with c :: _ => ws3 a b c | [] => false end
      | [] => false
      end || any_whitespace r
  end.

(** [u8::to_ascii_lowercase], [str::to_ascii_lowercase],
    [str::eq_ignore_ascii_case] *)
Definition byte_lower (c : ascii) : ascii :=
  if in_range 65 90 c then ascii_of_N (N_of_ascii c + 32) else c.
Definition to_ascii_lowercase (s : string) : string :=
  of_bytes (byte_lower <$> bytes s).
Definition eq_ignore_ascii_case (s t : string) : bool :=
  bool_decide (to_ascii_lowercase s = to_ascii_lowercase t).

Definition is_ascii_digit (c : ascii) : bool := in_range 48 57 c.
Definition is_ascii_alphanumeric (c : ascii) : bool :=
  in_range 48 57 c || in_range 65 90 c || in_range 97 122 c.

(** [str::parse::<u64>] on a non-empty run of ASCII digits. *)
Definition parse_u64_digits (ds : list ascii) : option Z :=
  foldl (λ acc d, acc ← acc; m ← checked_mul u64_max acc 10;
                  checked_add u64_max m (bv d - 48)) (Some 0) ds.

(** [s.parse::<u64>().ok()]: an optional plus sign and at least one digit. *)
Definition parse_u64 (s : string) : option Z :=
  let ds := match bytes s with
            | c :: rest => if bool_decide (c = "+"%char) then rest else c :: rest
            | [] => []
            end in
  if bool_decide (ds = []) || negb (forallb is_ascii_digit ds) then None
  else parse_u64_digits ds.

(** [u64]'s [Display]; twenty digits are enough for every [u64]. *)
Definition digit (d : Z) : ascii := ascii_of_N (Z.to_N (48 + d)).
Fixpoint decimal_go (fuel : nat) (n : Z) : list ascii :=
  match fuel with
  | O => []
  | S fuel =>
      if n <? 10 then [digit n] else decimal_go fuel (n / 10) ++ [digit (n mod 10)]
  end.
Definition decimal_bytes (n : Z) : list ascii := decimal_go 20 n.
Definition decimal (n : Z) : string := of_bytes (decimal_bytes n).

(** [String::from_utf8]: the well-formed sequences of the Unicode standard. *)
Definition cont (c : ascii) : bool := in_range 0x80 0xBF c.
Definition utf8_3 (a b : ascii) : bool :=
  ((bv a =? 0xE0) && in_range 0xA0 0xBF b) ||
  ((in_range 0xE1 0xEC a || in_range 0xEE 0xEF a) && cont b) ||
  ((bv a =? 0xED) && in_range 0x80 0x9F b).
Definition utf8_4 (a b : ascii) : bool :=
  ((bv a =? 0xF0) && in_range 0x90 0xBF b) ||
  (in_range 0xF1 0xF3 a && cont b) ||
  ((bv a =? 0xF4) && in_range 0x80 0x8F b).
Fixpoint utf8_valid (s : list ascii) : bool :=
  match s with
  | [] => true
  | a :: r1 =>
      if bv a <? 0x80 then utf8_valid r1 else
      match r1 with
      | [] => false
      | b :: r2 =>
          if in_range 0xC2 0xDF a then cont b && utf8_valid r2 else
          match r2 with
          | [] => false
          | c :: r3 =>
              if in_range 0xE0 0xEF a then utf8_3 a b && cont c && utf8_valid r3 else
              match r3 with
              | [] => false
              | d :: r4 => utf8_4 a b && cont c && cont d && utf8_valid r4
              end
          end
      end
  end.
Definition from_utf8 (bs : list ascii) : option string :=
  if utf8_valid bs then Some (of_bytes bs) else None.

(** ** Lemmas *)

Lemma of_bytes_bytes s : of_bytes (bytes s) = s.
Proof. apply string_of_list_ascii_of_string. Qed.

Lemma bytes_of_bytes bs : bytes (of_bytes bs) = bs.
Proof. apply list_ascii_of_string_of_list_ascii. Qed.

#[global] Instance bytes_inj : Inj (=) (=) bytes.
Proof. intros s t H. rewrite <-(of_bytes_bytes s), <-(of_bytes_bytes t). by f_equal. Qed.

#[global] Instance of_bytes_inj : Inj (=) (=) of_bytes.
Proof. intros s t H. rewrite <-(bytes_of_bytes s), <-(bytes_of_bytes t). by f_equal. Qed.

Lemma bytes_app s t : bytes (s +:+ t) = bytes s ++ bytes t.
Proof.
  induction s as [|c s IH]; [done|].
  change (bytes (String c s +:+ t)) with (c :: bytes (s +:+ t)). by rewrite IH.
Qed.

Lemma of_bytes_app s t : of_bytes (s ++ t) = of_bytes s +:+ of_bytes t.
Proof. apply (inj bytes). by rewrite bytes_app, !bytes_of_bytes. Qed.

#[global] Instance str_app_assoc : Assoc (=) String.append.
Proof. intros s t u. apply (inj bytes). by rewrite !bytes_app, (assoc_L (++)). Qed.

Lemma str_app_cancel s t u : s +:+ t = s +:+ u → t = u.
Proof.
  intros H%(f_equal bytes). rewrite !bytes_app in H. apply (inj bytes).
  by apply (inj (app (bytes s))).
Qed.

Lemma str_app_nil_r s : s +:+ EmptyString = s.
Proof. apply (inj bytes). rewrite bytes_app. apply app_nil_r. Qed.

Lemma starts_with_spec p s : starts_with p s = true ↔ ∃ r, s = p +:+ r.
Proof.
  unfold starts_with. rewrite bool_decide_eq_true. split.
  - intros [r Hr]. exists (of_bytes r). apply (inj bytes).
    by rewrite bytes_app, bytes_of_bytes.
  - intros [r ->]. rewrite bytes_app. by apply prefix_app_r.
Qed.

Lemma contains_bytes_spec needle hay :
  contains_bytes needle hay = true ↔ ∃ l r, hay = l ++ needle ++ r.
Proof.
  induction hay as [|a hay IH]; cbn.
  - rewrite orb_false_r, bool_decide_eq_true. split.
    + intros [r Hr]. by exists [], r.
    + intros (l & r & Hl). destruct l; [|done]. by exists r.
  - rewrite orb_true_iff, bool_decide_eq_true, IH. split.
    + intros [[r Hr]|(l & r & ->)]; [by exists [], r|by exists (a :: l), r].
    + intros ([|a' l] & r & Hl); [left; by exists r|].
      right. exists l, r. by injection Hl.
Qed.

Lemma contains_spec needle s :
  contains needle s = true ↔ ∃ l r, s = l +:+ needle +:+ r.
Proof.
  unfold contains. rewrite contains_bytes_spec. split.
  - intros (l & r & H). exists (of_bytes l), (of_bytes r). apply (inj bytes).
    by rewrite !bytes_app, !bytes_of_bytes.
  - intros (l & r & ->). exists (bytes l), (bytes r). by rewrite !bytes_app.
Qed.

Lemma bv_range c : 0 ≤ bv c ≤ 255.
Proof. unfold bv. pose proof (N_ascii_bounded c). lia. Qed.

Lemma bv_inj c d : bv c = bv d → c = d.
Proof.
  unfold bv. intros H. rewrite <-(ascii_N_embedding c), <-(ascii_N_embedding d).
  f_equal. lia.
Qed.

Lemma bv_ascii_of n : 0 ≤ n ≤ 255 → bv (ascii_of_N (Z.to_N n)) = n.
Proof. intros H. unfold bv. rewrite N_ascii_embedding; lia. Qed.

Lemma bv_digit d : 0 ≤ d < 10 → bv (digit d) = 48 + d.
Proof. intros H. unfold digit. apply bv_ascii_of. lia. Qed.

(** A byte that neither is whitespace nor can belong to the encoding of a
    whitespace character stops [trim] on either side. *)
Definition plain (c : ascii) : bool := (bv c <? 0x80) && negb (ws1 c).

Lemma ws_plain_first a b c : plain a = true → ws1 a = false ∧ ws2 a b = false ∧ ws3 a b c = false.
Proof.
  unfold plain. intros H. split_bool. unfold ws2, ws3.
  rewrite !(proj2 (Z.eqb_neq (bv a) _)) by lia. done.
Qed.

Lemma ws_plain_last a b c : plain a = true → ws1 a = false ∧ ws2 b a = false ∧ ws3 c b a = false.
Proof.
  unfold plain. intros H. split_bool. unfold ws2, ws3, in_range.
  rewrite !(proj2 (Z.eqb_neq (bv a) _)), !(proj2 (Z.leb_gt _ (bv a))) by lia.
  by rewrite ?andb_false_r.
Qed.

Lemma trim_start_plain a s : plain a = true → trim_start_bytes (a :: s) = a :: s.
Proof.
  intros Ha. cbn. destruct (ws_plain_first a a a Ha) as [-> _].
  destruct s as [|b [|c s]]; [done|..].
  - by destruct (ws_plain_first a b a Ha) as (_ & -> & _).
  - by destruct (ws_plain_first a b c Ha) as (_ & -> & ->).
Qed.

Lemma trim_end_plain a s : plain a = true → trim_end_rev (a :: s) = a :: s.
Proof.
  intros Ha. cbn. destruct (ws_plain_last a a a Ha) as [-> _].
  destruct s as [|b [|c s]]; [done|..].
  - by destruct (ws_plain_last a b a Ha) as (_ & -> & _).
  - by destruct (ws_plain_last a b c Ha) as (_ & -> & ->).
Qed.

Lemma trim_plain_ends a s b :
  plain a = true → plain b = true → trim_bytes (a :: s ++ [b]) = a :: s ++ [b].
Proof.
  intros Ha Hb. unfold trim_bytes. rewrite trim_start_plain by done.
  rewrite app_comm_cons, rev_app_distr. cbn [rev app].
  rewrite trim_end_plain by done.
  change (b :: rev s ++ [a]) with ([b] ++ rev (a :: s)).
  by rewrite rev_app_distr, rev_involutive.
Qed.

(** ** Characters *)

(** [s.chars()], each character as its bytes: a character ends before the next
    byte that does not continue it. *)
Fixpoint chars_of (s : list ascii) : list (list ascii) :=
  match s with
  | [] => []
  | a :: r =>
      match chars_of r with
      | (b :: c) :: cs => if cont b then (a :: b :: c) :: cs else [a] :: (b :: c) :: cs
      | cs => [a] :: cs
      end
  end.

Lemma chars_of_concat s : concat (chars_of s) = s.
Proof.
  induction s as [|a r IH]; [done|]. cbn. rewrite <-IH at 2.
  destruct (chars_of r) as [|[|b c] cs]; [done..|]. by destruct (cont b).
Qed.

(** [str::lines] and [BufRead::lines]: a line ends at a line feed, which is
    dropped with one carriage return before it. [cur] holds the line so far,
    reversed. *)
Definition LF : ascii := "010"%char.
Definition CR : ascii := "013"%char.
Definition strip_cr (cur : list ascii) : list ascii :=
  match cur with c :: r => if bool_decide (c = CR) then r else cur | [] => [] end.
Fixpoint lines_go (cur s : list ascii) : list (list ascii) :=
  match s with
  | [] => match cur with [] => [] | _ => [rev cur] end
  | c :: r => if bool_decide (c = LF) then rev (strip_cr cur) :: lines_go [] r else lines_go (c :: cur) r
  end.
Definition lines (s : list ascii) : list (list ascii) := lines_go [] s.

Lemma lines_go_line cur l r :
  Forall (λ c, 32 ≤ bv c) l → (l = [] → cur = []) →
  lines_go cur (l ++ LF :: r) = (rev cur ++ l) :: lines_go [] r.
Proof.
  intros Hl. revert cur. induction Hl as [|c l Hc Hl IH]; intros cur Hcur; cbn.
  { by rewrite Hcur. }
  rewrite bool_decide_eq_false_2 by (intros Heq; rewrite Heq in Hc; vm_compute in Hc; congruence).
  destruct l as [|d l].
  - cbn. rewrite (bool_decide_eq_true_2 (LF = LF)) by done. cbn. rewrite bool_decide_eq_false_2 by (intros Heq; rewrite Heq in Hc; vm_compute in Hc; congruence). done.
  - rewrite IH by done. cbn. by rewrite <-(assoc_L (++)).
Qed.

Lemma lines_concat ls :
  Forall (Forall (λ c, 32 ≤ bv c)) ls → lines (concat ((λ l, l ++ [LF]) <$> ls)) = ls.
Proof.
  unfold lines. induction 1 as [|l ls Hl _ IH]; [done|]. cbn. rewrite <-(assoc_L (++)). cbn.
  by rewrite lines_go_line, IH.
Qed.

(** ** Splitting and trimming *)

Lemma strip_prefix_Some p s r : strip_prefix p s = Some r ↔ s = p +:+ r.
Proof.
  unfold strip_prefix. destruct (starts_with p s) eqn:E.
  - apply starts_with_spec in E as [r' ->].
    assert (of_bytes (drop (length (bytes p)) (bytes (p +:+ r'))) = r') as ->.
    { rewrite bytes_app, drop_app_length. apply of_bytes_bytes. }
    split; [by intros [= ->]|by intros ->%str_app_cancel].
  - split; [done|]. intros ->. apply not_true_iff_false in E. destruct E.
    apply starts_with_spec. eauto.
Qed.

Lemma prefix_drop {A} (p s : list A) : p `prefix_of` s → s = p ++ drop (length p) s.
Proof. intros [k ->]. by rewrite drop_app_length. Qed.

Lemma split_once_bytes_Some sep s l t :
  split_once_bytes sep s = Some (l, t) →
  s = l ++ sep ++ t ∧ (sep ≠ [] → ∀ l', l' `prefix_of` l → l' ≠ l → ~ (∃ t', s = l' ++ sep ++ t')).
Proof.
  revert l t. induction s as [|a s IH]; intros l t; cbn; case_bool_decide as Hp.
  - intros [= <- <-]. split; [by apply (prefix_drop sep)|].
    intros _ l' Hl' Hne. by apply prefix_nil_inv in Hl'.
  - done.
  - intros [= <- <-]. split; [by apply (prefix_drop sep)|].
    intros _ l' Hl' Hne. by apply prefix_nil_inv in Hl'.
  - destruct (split_once_bytes sep s) as [[l1 t1]|] eqn:E; [|done]. intros [= <- <-].
    destruct (IH l1 t1 eq_refl) as [-> Hfirst]. split; [done|].
    intros Hne l' Hl' Hneq (t' & Ht'). destruct l' as [|a' l'].
    + apply Hp. exists t'. done.
    + apply prefix_cons_inv_2 in Hl' as Hl2. cbn in Ht'. injection Ht' as <- Ht'.
      apply (Hfirst Hne l'); [done|by intros ->|eauto].
Qed.

Lemma split_once_bytes_None sep s : split_once_bytes sep s = None → contains_bytes sep s = false.
Proof.
  induction s as [|a s IH]; cbn; case_bool_decide; [done..|].
  destruct (split_once_bytes sep s) as [[]|]; [done|]. intros _. by apply IH.
Qed.

Lemma str_assoc s t u : (s +:+ t) +:+ u = s +:+ t +:+ u.
Proof. apply (inj bytes). by rewrite !bytes_app, (assoc_L (++)). Qed.

(** [split_once] cuts around the first occurrence and fails when there is none. *)
Lemma split_once_Some sep s l t :
  split_once sep s = Some (l, t) →
  s = l +:+ sep +:+ t ∧ (sep ≠ EmptyString → contains sep l = false).
Proof.
  unfold split_once. destruct (split_once_bytes _ _) as [[l0 t0]|] eqn:E; [|done].
  intros [= <- <-]. apply split_once_bytes_Some in E as [E Hfirst]. split.
  - apply (inj bytes). by rewrite !bytes_app, !bytes_of_bytes.
  - intros Hne. apply not_true_iff_false. intros (l' & r' & Hl)%contains_spec.
    apply (f_equal bytes) in Hl. rewrite bytes_of_bytes, !bytes_app in Hl.
    assert (bytes sep ≠ []) as Hsep.
    { intros H. apply Hne. by apply (inj bytes). }
    apply (Hfirst Hsep (bytes l')); [by eexists| |].
    + intros Heq. rewrite <-Heq in Hl.
      assert (length (bytes sep) = 0%nat) as ?%length_zero_iff_nil; [|done].
      apply (f_equal length) in Hl. rewrite !length_app in Hl. lia.
    + exists (bytes r' ++ bytes sep ++ t0). rewrite E, Hl. by rewrite <-!(assoc_L (++)).
Qed.

Lemma split_once_None sep s : split_once sep s = None → contains sep s = false.
Proof.
  unfold split_once, contains.
  destruct (split_once_bytes _ _) as [[]|] eqn:E; [done|]. intros _. by apply split_once_bytes_None.
Qed.

(** Runs of whitespace characters. *)
Inductive ws_run : list ascii → Prop :=
| ws_nil : ws_run []
| ws_cons1 a s : ws1 a = true → ws_run s → ws_run (a :: s)
| ws_cons2 a b s : ws2 a b = true → ws_run s → ws_run (a :: b :: s)
| ws_cons3 a b c s : ws3 a b c = true → ws_run s → ws_run (a :: b :: c :: s).

Lemma ws_run_app s t : ws_run s → ws_run t → ws_run (s ++ t).
Proof. intros Hs Ht. induction Hs; cbn; [done|constructor 2|constructor 3|constructor 4]; auto. Qed.

Lemma trim_start_split s : ∃ w, s = w ++ trim_start_bytes s ∧ ws_run w.
Proof.
  revert s. fix IH 1. intros [|a r1]; cbn; [by exists []; repeat constructor|].
  destruct (ws1 a) eqn:H1.
  { destruct (IH r1) as (w & E & ?). exists (a :: w). split; [cbn; by rewrite <-E|by constructor]. }
  destruct r1 as [|b r2]; [by exists []; repeat constructor|].
  destruct (ws2 a b) eqn:H2.
  { destruct (IH r2) as (w & E & ?). exists (a :: b :: w). split; [cbn; by rewrite <-E|by constructor]. }
  destruct r2 as [|c r3]; [by exists []; repeat constructor|].
  destruct (ws3 a b c) eqn:H3; [|by exists []; repeat constructor].
  destruct (IH r3) as (w & E & ?). exists (a :: b :: c :: w).
  split; [cbn; by rewrite <-E|by constructor].
Qed.

Lemma trim_end_split s : ∃ w, s = w ++ trim_end_rev s ∧ ws_run (rev w).
Proof.
  revert s. fix IH 1. intros [|a r1]; cbn; [by exists []; repeat constructor|].
  destruct (ws1 a) eqn:H1.
  { destruct (IH r1) as (w & E & ?). exists (a :: w). split; [cbn; by rewrite <-E|].
    cbn. apply ws_run_app; [done|by repeat constructor]. }
  destruct r1 as [|b r2]; [by exists []; repeat constructor|].
  destruct (ws2 b a) eqn:H2.
  { destruct (IH r2) as (w & E & ?). exists (a :: b :: w). split; [cbn; by rewrite <-E|].
    cbn. rewrite <-(assoc_L (++)). apply ws_run_app; [done|by repeat constructor]. }
  destruct r2 as [|c r3]; [by exists []; repeat constructor|].
  destruct (ws3 c b a) eqn:H3; [|by exists []; repeat constructor].
  destruct (IH r3) as (w & E & ?). exists (a :: b :: c :: w). split; [cbn; by rewrite <-E|].
  cbn. rewrite <-!(assoc_L (++)). apply ws_run_app; [done|by repeat constructor].
Qed.

Lemma trim_start_idem s : trim_start_bytes (trim_start_bytes s) = trim_start_bytes s.
Proof.
  induction s as [s IH] using (induction_ltof1 _ (@length ascii)); unfold ltof in IH.
  destruct s as [|a r1]; [done|]. cbn [trim_start_bytes]. destruct (ws1 a) eqn:E1; [apply IH; cbn; lia|].
  destruct r1 as [|b r2]; cbn match; [cbn; by rewrite E1|].
  destruct (ws2 a b) eqn:E2; [apply IH; cbn; lia|].
  destruct r2 as [|c r3]; cbn match; [cbn; by rewrite E1, E2|].
  destruct (ws3 a b c) eqn:E3; [apply IH; cbn; lia|]. cbn. by rewrite E1, E2, E3.
Qed.
Lemma trim_end_rev_idem s : trim_end_rev (trim_end_rev s) = trim_end_rev s.
Proof.
  induction s as [s IH] using (induction_ltof1 _ (@length ascii)); unfold ltof in IH.
  destruct s as [|a r1]; [done|]. cbn [trim_end_rev]. destruct (ws1 a) eqn:E1; [apply IH; cbn; lia|].
  destruct r1 as [|b r2]; cbn match; [cbn; by rewrite E1|].
  destruct (ws2 b a) eqn:E2; [apply IH; cbn; lia|].
  destruct r2 as [|c r3]; cbn match; [cbn; by rewrite E1, E2|].
  destruct (ws3 c b a) eqn:E3; [apply IH; cbn; lia|]. cbn. by rewrite E1, E2, E3.
Qed.
(** Cutting the end off a text does not expose white space at its start. *)
Lemma trim_start_length s : (length (trim_start_bytes s) ≤ length s)%nat.
Proof.
  destruct (trim_start_split s) as (w & Hw & _). rewrite Hw at 2. rewrite length_app. lia.
Qed.
Lemma trim_start_prefix u t : trim_start_bytes t = t → u `prefix_of` t → trim_start_bytes u = u.
Proof.
  intros Ht [k ->]. destruct u as [|a u]; [done|]. cbn [app trim_start_bytes] in Ht |- *.
  assert (∀ r x, (length r < length x)%nat → trim_start_bytes r ≠ x) as Hlen.
  { intros r x Hr <-. pose proof (trim_start_length r). lia. }
  destruct (ws1 a); [exfalso; by eapply Hlen in Ht; [|cbn; rewrite length_app; lia]|].
  destruct u as [|b u]; [done|]. cbn [app] in Ht.
  destruct (ws2 a b); [exfalso; by eapply Hlen in Ht; [|cbn; rewrite length_app; lia]|].
  destruct u as [|c u]; [done|]. cbn [app] in Ht.
  destruct (ws3 a b c); [exfalso; by eapply Hlen in Ht; [|cbn; rewrite length_app; lia]|]. done.
Qed.

Lemma trim_end_rev_prefix t : rev (trim_end_rev (rev t)) `prefix_of` t.
Proof.
  destruct (trim_end_split (rev t)) as (w & Hw & _). exists (rev w).
  apply (f_equal (@rev ascii)) in Hw. by rewrite rev_involutive, rev_app_distr in Hw.
Qed.
Lemma trim_idem s : trim (trim s) = trim s.
Proof.
  unfold trim. rewrite bytes_of_bytes. f_equal. unfold trim_bytes. set (t := trim_start_bytes (bytes s)).
  rewrite (trim_start_prefix _ t); [by rewrite rev_involutive, trim_end_rev_idem|apply trim_start_idem|].
  apply trim_end_rev_prefix.
Qed.

Definition blank (s : string) : Prop := ws_run (bytes s).

Lemma blank_app s t : blank s → blank t → blank (s +:+ t).
Proof. unfold blank. rewrite bytes_app. apply ws_run_app. Qed.

Lemma blank_nil : blank "".
Proof. constructor. Qed.

(** [trim] takes away blanks at both ends. *)
Lemma trim_split s : ∃ l r, s = l +:+ trim s +:+ r ∧ blank l ∧ blank r.
Proof.
  destruct (trim_start_split (bytes s)) as (w & Hs & Hw).
  destruct (trim_end_split (rev (trim_start_bytes (bytes s)))) as (v & He & Hv).
  exists (of_bytes w), (of_bytes (rev v)). split_and!; [|by unfold blank; rewrite bytes_of_bytes..].
  apply (inj bytes). unfold trim, trim_bytes. rewrite !bytes_app, !bytes_of_bytes.
  rewrite Hs at 1. f_equal. rewrite <-(rev_involutive (trim_start_bytes _)), He at 1.
  by rewrite rev_app_distr.
Qed.

Lemma blank_of_trim s : trim s = "" → blank s.
Proof. intros E. destruct (trim_split s) as (l & r & -> & ? & ?). rewrite E. by apply blank_app. Qed.

(** ** Decimal round trip *)

Lemma parse_u64_digits_snoc ds d :
  parse_u64_digits (ds ++ [d]) =
  acc ← parse_u64_digits ds; m ← checked_mul u64_max acc 10;
  checked_add u64_max m (bv d - 48).
Proof. unfold parse_u64_digits. by rewrite foldl_app. Qed.

Lemma parse_u64_digits_fits ds n :
  forallb is_ascii_digit ds = true → parse_u64_digits ds = Some n → 0 ≤ n ≤ u64_max.
Proof.
  revert n. induction ds as [|d ds IH] using rev_ind; intros n Hd.
  { intros [= <-]. unfold u64_max. lia. }
  rewrite forallb_app in Hd. split_bool. cbn in *. rewrite andb_true_r in *.
  rewrite parse_u64_digits_snoc. intros (acc & Hacc & (m & Hm & Hn)%bind_Some)%bind_Some.
  apply IH in Hacc; [|done]. unfold checked_mul, checked_add, is_ascii_digit, in_range in *.
  repeat case_match; simplify_eq. split_bool. lia.
Qed.

Lemma parse_u64_fits s n : parse_u64 s = Some n → 0 ≤ n ≤ u64_max.
Proof.
  unfold parse_u64. set (ds := match bytes s with [] => [] | c :: rest => _ end). clearbody ds.
  destruct (_ || _) eqn:E; [done|]. split_bool. intros Hp. eapply parse_u64_digits_fits; [|done].
  by destruct (forallb is_ascii_digit ds).
Qed.

Lemma checked_step acc d :
  0 ≤ acc → 0 ≤ d → acc * 10 + d ≤ u64_max →
  (acc ← Some acc; m ← checked_mul u64_max acc 10;
   checked_add u64_max m (48 + d - 48)) = Some (acc * 10 + d).
Proof.
  intros ???. unfold checked_mul, checked_add. cbn [mbind option_bind].
  rewrite (proj2 (Z.leb_le (acc * 10) _)) by lia. cbn [mbind option_bind].
  replace (48 + d - 48) with d by lia. by rewrite (proj2 (Z.leb_le _ _)) by lia.
Qed.

Lemma decimal_go_parse fuel n :
  0 ≤ n ≤ u64_max → n < 10 ^ Z.of_nat fuel →
  parse_u64_digits (decimal_go fuel n) = Some n ∧
  Forall (λ c, is_ascii_digit c = true) (decimal_go fuel n) ∧
  (fuel ≠ 0%nat → decimal_go fuel n ≠ []).
Proof.
  revert n. induction fuel as [|fuel IH]; intros n Hn Hf.
  { assert (n = 0) as -> by (cbn in Hf; lia). done. }
  cbn [decimal_go]. destruct (Z.ltb_spec n 10) as [Hlt|Hge].
  - split_and!; [|constructor; [|constructor]|done].
    + change [digit n] with ([] ++ [digit n]). rewrite parse_u64_digits_snoc.
      rewrite bv_digit by lia. apply (checked_step 0 n); lia.
    + unfold is_ascii_digit, in_range. rewrite bv_digit by lia.
      by rewrite !(proj2 (Z.leb_le _ _)) by lia.
  - pose proof (Z.div_mod n 10 ltac:(lia)) as Hdm.
    pose proof (Z.mod_pos_bound n 10 ltac:(lia)) as Hmod.
    destruct (IH (n / 10)) as (IH1 & IH2 & _).
    { split; [apply Z.div_pos; lia|]. lia. }
    { rewrite Nat2Z.inj_succ, Z.pow_succ_r in Hf by lia.
      apply Z.div_lt_upper_bound; lia. }
    split_and!.
    + rewrite parse_u64_digits_snoc, IH1, bv_digit by lia.
      rewrite (checked_step (n / 10) (n mod 10)); [f_equal|..]; lia.
    + apply Forall_app. split; [done|]. constructor; [|constructor].
      unfold is_ascii_digit, in_range. rewrite bv_digit by lia.
      by rewrite !(proj2 (Z.leb_le _ _)) by lia.
    + intros _. by destruct (decimal_go fuel (n / 10)).
Qed.

(** ** UTF-8 *)

Lemma utf8_3_cont a b : utf8_3 a b = true → cont b = true.
Proof. unfold utf8_3, cont, in_range. repeat case_match; lia. Qed.
Lemma utf8_4_cont a b : utf8_4 a b = true → cont b = true.
Proof. unfold utf8_4, cont, in_range. repeat case_match; lia. Qed.

Lemma utf8_valid_app s t : utf8_valid s = true → utf8_valid t = true → utf8_valid (s ++ t) = true.
Proof.
  intros Hs Ht. revert s Hs. fix IH 1. intros [|a r1]; [done|]. cbn.
  destruct (bv a <? 0x80); [apply IH|]. destruct r1 as [|b r2]; [done|]. cbn.
  destruct (in_range 0xC2 0xDF a).
  { intros [-> H]%andb_true_iff. by apply IH in H. }
  destruct r2 as [|c r3]; [done|]. cbn. destruct (in_range 0xE0 0xEF a).
  { intros [-> H]%andb_true_iff. by apply IH in H. }
  destruct r3 as [|d r4]; [done|]. cbn. intros [-> H]%andb_true_iff. by apply IH in H.
Qed.

Definition is_ascii (c : ascii) : bool := bv c <? 0x80.
Lemma is_ascii_cont c : is_ascii c = true → cont c = false.
Proof. unfold is_ascii, cont, in_range. lia. Qed.

(** A byte below 0x80 is a character by itself: valid text splits around it. *)
Lemma utf8_split_ascii a c b :
  is_ascii c = true → utf8_valid (a ++ c :: b) = true → utf8_valid a = true ∧ utf8_valid b = true.
Proof.
  intros Hc. pose proof (is_ascii_cont c Hc) as Hcont.
  assert (∀ x, utf8_3 x c = false ∧ utf8_4 x c = false) as H34.
  { intros x. split; apply not_true_iff_false; intros H; [apply utf8_3_cont in H|apply utf8_4_cont in H];
      congruence. }
  induction a as [a IH] using (induction_ltof1 _ (@length ascii)); unfold ltof in IH.
  destruct a as [|a1 a]; cbn [utf8_valid app].
  { unfold is_ascii in Hc. by rewrite Hc. }
  destruct (bv a1 <? 0x80); [apply IH; cbn; lia|].
  destruct a as [|a2 a]; cbn [utf8_valid app].
  { destruct (H34 a1) as [-> ->]. rewrite Hcont. cbn. destruct (in_range 0xC2 0xDF a1); [done|].
    destruct b as [|b1 b]; [done|]. destruct (in_range 0xE0 0xEF a1); [done|]. by destruct b. }
  destruct (in_range 0xC2 0xDF a1). { destruct (cont a2); [apply IH; cbn; lia|done]. }
  destruct a as [|a3 a]; cbn [utf8_valid app].
  { rewrite Hcont, !andb_false_r. destruct (in_range 0xE0 0xEF a1); [done|]. by destruct b. }
  destruct (in_range 0xE0 0xEF a1). { destruct (utf8_3 a1 a2 && cont a3); [apply IH; cbn; lia|done]. }
  destruct a as [|a4 a]; cbn [utf8_valid app]; [by rewrite Hcont, !andb_false_r|].
  destruct (utf8_4 a1 a2 && cont a3 && cont a4); [apply IH; cbn; lia|done].
Qed.

Lemma utf8_ascii_app m b : Forall (λ c, is_ascii c = true) m → utf8_valid (m ++ b) = utf8_valid b.
Proof. intros Hm. induction Hm as [|c m Hc _ IH]; [done|]. cbn. unfold is_ascii in Hc. by rewrite Hc. Qed.

(** The first character is one byte when no continuation byte follows. *)
Lemma utf8_head c r :
  utf8_valid (c :: r) = true → match r with d :: _ => cont d | [] => false end = false →
  is_ascii c = true ∧ utf8_valid r = true.
Proof.
  cbn. unfold is_ascii. destruct (bv c <? 0x80); [done|]. destruct r as [|d r]; [done|]. intros H Hd.
  exfalso. revert H. rewrite Hd. destruct (in_range 0xC2 0xDF c); [done|]. destruct r as [|e r]; [done|].
  destruct (utf8_3 c d) eqn:E3; [apply utf8_3_cont in E3; congruence|].
  destruct (utf8_4 c d) eqn:E4; [apply utf8_4_cont in E4; congruence|].
  destruct (in_range 0xE0 0xEF c); [done|]. by destruct r.
Qed.

Lemma from_utf8_Some bs s : from_utf8 bs = Some s → bytes s = bs ∧ utf8_valid bs = true.
Proof.
  unfold from_utf8. destruct (utf8_valid bs); intros [= <-]. by rewrite bytes_of_bytes.
Qed.

#[export] Hint Rewrite of_bytes_bytes bytes_of_bytes bytes_app : host.

(** ** Replacing and finding *)

(** [s.replace(pat, by)]: the occurrences of a nonempty [pat] from the left,
    none overlapping another; [skip] bytes of the current one remain. *)
Fixpoint replace_go (pat by_ : list ascii) (skip : nat) (s : list ascii) : list ascii :=
  match s with
  | [] => []
  | a :: r =>
      match skip with
      | S k => replace_go pat by_ k r
      | O => if bool_decide (pat `prefix_of` s)
             then by_ ++ replace_go pat by_ (pred (length pat)) r
             else a :: replace_go pat by_ 0 r
      end
  end.
Definition replace_bytes (pat by_ s : list ascii) : list ascii := replace_go pat by_ 0 s.
Definition replace (pat by_ s : string) : string :=
  of_bytes (replace_bytes (bytes pat) (bytes by_) (bytes s)).

(** An occurrence of [p] lies on one side of a byte it does not have. *)
Lemma occurs_beside (c : ascii) p x y a b :
  c ∉ p → x ++ c :: y = a ++ p ++ b →
  (∃ b1, b = b1 ++ c :: y ∧ x = a ++ p ++ b1) ∨ (∃ a2, a = x ++ c :: a2 ∧ y = a2 ++ p ++ b).
Proof.
  intros Hc Heq. rewrite (assoc_L (++)) in Heq.
  apply app_eq_inv in Heq as [(k & -> & Hb)|(k & Hap & Hk)].
  - left. exists k. by rewrite <-(assoc_L (++)).
  - destruct k as [|c' k]; cbn in Hk; [left; exists []; cbn; rewrite app_nil_r in Hap; by rewrite app_nil_r, Hap, Hk|].
    injection Hk as <- ->. symmetry in Hap.
    apply app_eq_inv in Hap as [(k' & Hx & ->)|(k' & -> & Hk')].
    + destruct Hc. apply elem_of_app. right. apply elem_of_cons. by left.
    + destruct k' as [|c' k']; cbn in Hk'.
      * destruct Hc. rewrite <-Hk'. apply elem_of_cons. by left.
      * injection Hk' as <- ->. right. exists k'. split; [done|]. by rewrite (assoc_L (++)).
Qed.

Lemma occurs_after (p u y a b : list ascii) :
  Forall (λ c, c ∉ p) u → p ≠ [] → u ++ y = a ++ p ++ b → ∃ a2, y = a2 ++ p ++ b.
Proof.
  intros Hu Hp. revert a. induction Hu as [|c u Hc _ IH]; intros a Heq; cbn in Heq; [eauto|].
  destruct (occurs_beside c p [] (u ++ y) a b Hc Heq) as [(b1 & _ & Hnil)|(a2 & _ & Heq')]; [|eauto].
  destruct a; [destruct p|]; by cbn in Hnil.
Qed.

(** A text that shares no byte with the replacement occurs after replacing only
    where it occurred before. *)
Lemma replace_go_prefix (pat by_ p s b : list ascii) :
  Forall (λ c, c ∉ by_) p → by_ ≠ [] → replace_go pat by_ 0 s = p ++ b → p `prefix_of` s.
Proof.
  intros Hp Hby. revert s. induction Hp as [|c p Hc _ IH]; intros s Heq; [apply prefix_nil|].
  destruct s as [|a s]; [done|]. cbn in Heq. case_bool_decide.
  - destruct by_ as [|d by_]; [done|]. injection Heq as -> _. destruct Hc. apply elem_of_cons. by left.
  - injection Heq as -> Heq. by apply prefix_cons, IH.
Qed.

Lemma replace_go_occurs (pat by_ p : list ascii) n s a b :
  Forall (λ c, c ∉ by_) p → Forall (λ c, c ∉ p) by_ → by_ ≠ [] → p ≠ [] →
  replace_go pat by_ n s = a ++ p ++ b → ∃ a' b', s = a' ++ p ++ b'.
Proof.
  intros Hp Hb Hby Hne. revert n a. induction s as [|c s IH]; intros n a Heq.
  { cbn in Heq. destruct a; [destruct p|]; by cbn in Heq. }
  assert (∀ n a, replace_go pat by_ n s = a ++ p ++ b → ∃ a' b', c :: s = a' ++ p ++ b') as IH'.
  { intros n' a' (a1 & b1 & ->)%IH. by exists (c :: a1), b1. }
  destruct n as [|n]; cbn in Heq; [|by eapply IH'].
  case_bool_decide.
  - apply occurs_after in Heq as [a2 Heq]; [|done..]. by eapply IH'.
  - destruct a as [|a0 a]; cbn in Heq; [|injection Heq as <- Heq; by eapply IH'].
    destruct p as [|p0 p]; [done|]. cbn in Heq. injection Heq as <- Heq.
    apply Forall_cons in Hp as [_ Hp]. apply replace_go_prefix in Heq as [k ->]; [|done..].
    by exists [], k.
Qed.

Lemma replace_go_id (pat by_ s : list ascii) :
  contains_bytes pat s ≠ true → replace_go pat by_ 0 s = s.
Proof.
  induction s as [|a s IH]; intros Hno; [done|]. cbn in Hno |- *.
  case_bool_decide; [done|]. f_equal. by apply IH.
Qed.

Lemma replace_go_skip (pat by_ x r : list ascii) :
  replace_go pat by_ (length x) (x ++ r) = replace_go pat by_ 0 r.
Proof. induction x as [|c x IH]; [done|]. apply IH. Qed.

Lemma replace_go_match (pat by_ r : list ascii) :
  pat ≠ [] → replace_go pat by_ 0 (pat ++ r) = by_ ++ replace_go pat by_ 0 r.
Proof.
  destruct pat as [|c p] eqn:Ep; [done|]. intros _.
  change ((if bool_decide (c :: p `prefix_of` (c :: p) ++ r)
           then by_ ++ replace_go (c :: p) by_ (length p) (p ++ r)
           else c :: replace_go (c :: p) by_ 0 (p ++ r)) = by_ ++ replace_go (c :: p) by_ 0 r).
  rewrite bool_decide_eq_true_2 by (by exists r). by rewrite replace_go_skip.
Qed.

(** ** Words *)

(** [s.split_whitespace()]; [cur] holds the word so far, reversed. *)
Definition flush (cur : list ascii) : list (list ascii) := match cur with [] => [] | _ => [rev cur] end.
Fixpoint words_go (cur s : list ascii) : list (list ascii) :=
  match s with
  | [] => flush cur
  | a :: r1 =>
      if ws1 a then flush cur ++ words_go [] r1
      else match r1 with
           | b :: r2 =>
               if ws2 a b then flush cur ++ words_go [] r2
               else match r2 with
                    | c :: r3 => if ws3 a b c then flush cur ++ words_go [] r3
                                 else words_go (a :: cur) r1
                    | [] => words_go (a :: cur) r1
                    end
           | [] => words_go (a :: cur) r1
           end
  end.
Definition split_whitespace (s : string) : list string := of_bytes <$> words_go [] (bytes s).

(** [words.join(sep)] *)
Definition join (sep : string) (l : list string) : string :=
  match l with [] => EmptyString | s :: l => foldl (λ acc t, acc +:+ sep +:+ t) s l end.

(** [s.take_while(p)] on bytes. *)
Fixpoint take_while (p : ascii → bool) (s : list ascii) : list ascii :=
  match s with
  | [] => []
  | c :: s => if p c then c :: take_while p s else []
  end.

Lemma take_while_app p x c y :
  Forall (λ c, p c = true) x → p c = false → take_while p (x ++ c :: y) = x.
Proof. intros Hx Hc. induction Hx as [|d x Hd _ IH]; cbn; [by rewrite Hc|]. by rewrite Hd, IH. Qed.
