(* ===== verification/Text.v ===== *)
(** * Text: truncation and characters

    [crates/cd-core/src/text.rs], the one place where text is cut at a byte
    position, and the counting and taking of characters ([chars().count()],
    [chars().take(n)]) the components share. *)
From Stdlib Require Import ZArith Lia Ascii String.
From stdpp Require Import base tactics option list list_numbers sets strings.
From S2P Require Import Prelude RustStr.

Local Open Scope string_scope.
Local Open Scope list_scope.
Local Open Scope Z_scope.

(** ** Truncation *)

(** [s.is_char_boundary(i)] *)
Definition is_char_boundary (s : list ascii) (i : nat) : bool :=
  bool_decide (i = 0%nat) || bool_decide (i = length s) ||
  match s !! i with Some c => negb (cont c) | None => false end.
Fixpoint floor_go (s : list ascii) (fin : nat) : nat :=
  match fin with
  | O => O
  | S e => if is_char_boundary s fin then fin else floor_go s e
  end.
Definition floor_char_boundary (s : string) (idx : nat) : nat :=
  floor_go (bytes s) (Nat.min idx (length (bytes s))).
Definition truncate_bytes (s : string) (max_bytes : nat) : string :=
  of_bytes (take (floor_char_boundary s max_bytes) (bytes s)).

(** ** Characters *)

(** [l.take(n)] for a [usize] count. *)
Fixpoint take_z {A} (n : Z) (l : list A) : list A :=
  match l with
  | [] => []
  | x :: l => if n <=? 0 then [] else x :: take_z (n - 1) l
  end.

(** [s.chars().count()] and [s.chars().take(n).collect()] *)
Definition char_len (s : string) : Z := zlen (chars_of (bytes s)).
Definition take_chars (n : Z) (s : string) : string := of_bytes (concat (take_z n (chars_of (bytes s)))).

Lemma take_z_take {A} n (l : list A) : take_z n l = take (Z.to_nat n) l.
Proof.
  revert n. induction l as [|x l IH]; intros n; [by rewrite take_nil|]. cbn [take_z].
  destruct (n <=? 0) eqn:E; [by replace (Z.to_nat n) with O by lia|].
  replace (Z.to_nat n) with (S (Z.to_nat (n - 1))) by lia. cbn. by rewrite IH.
Qed.

Lemma chars_of_nil_inv s : chars_of s = [] → s = [].
Proof. intros H. rewrite <-(chars_of_concat s). by rewrite H. Qed.
(** A character is the whole of itself, and joining texts makes no more of them. *)
Lemma chars_of_char s : Forall (λ g, chars_of g = [g]) (chars_of s).
Proof.
  induction s as [|a r IH]; [constructor|]. cbn. destruct (chars_of r) as [|[|b c] cs]; [by repeat constructor| |].
  { apply Forall_cons in IH as [IH _]. done. }
  apply Forall_cons in IH as [Hb Hcs]. destruct (cont b) eqn:Eb; [|by repeat constructor].
  constructor; [|done]. cbn in Hb |- *. rewrite Hb. by rewrite Eb.
Qed.
(** One more byte in front starts a character, unless the next byte continues it. *)
Lemma chars_of_cons_length a b r :
  length (chars_of (a :: b :: r)) =
  (if cont b then length (chars_of (b :: r)) else S (length (chars_of (b :: r)))).
Proof.
  assert (chars_of (a :: b :: r) = match chars_of (b :: r) with
            | (d :: c) :: cs => if cont d then (a :: d :: c) :: cs else [a] :: (d :: c) :: cs
            | cs => [a] :: cs end) as -> by done.
  pose proof (chars_of_concat (b :: r)) as Hc. pose proof (chars_of_char (b :: r)) as Hg.
  destruct (chars_of (b :: r)) as [|[|d c] cs]; [done|by apply Forall_cons in Hg as [? _]|].
  injection Hc as ->. by destruct (cont b).
Qed.
Lemma chars_of_app_length s t : (length (chars_of (s ++ t)) ≤ length (chars_of s) + length (chars_of t))%nat.
Proof.
  induction s as [|a [|b s] IH]; [done| |].
  - destruct t as [|d t]; [cbn; lia|]. change ([a] ++ d :: t) with (a :: d :: t). rewrite chars_of_cons_length.
    change (length (chars_of [a])) with 1%nat. destruct (cont d); lia.
  - change ((a :: b :: s) ++ t) with (a :: b :: s ++ t). rewrite !chars_of_cons_length.
    change ((b :: s) ++ t) with (b :: s ++ t) in IH. destruct (cont b); lia.
Qed.
Lemma chars_of_groups gs : Forall (λ g, chars_of g = [g]) gs → (length (chars_of (concat gs)) ≤ length gs)%nat.
Proof.
  induction 1 as [|g gs Hg _ IH]; [done|]. cbn. pose proof (chars_of_app_length g (concat gs)) as H.
  rewrite Hg in H. cbn in H. lia.
Qed.

Lemma char_len_app s t : char_len (s +:+ t) ≤ char_len s + char_len t.
Proof. unfold char_len, zlen. rewrite bytes_app. pose proof (chars_of_app_length (bytes s) (bytes t)). lia. Qed.
Lemma take_chars_len n s : 0 ≤ n → char_len (take_chars n s) ≤ n.
Proof.
  intros Hn. unfold char_len, take_chars, zlen. rewrite bytes_of_bytes, take_z_take.
  pose proof (chars_of_groups (take (Z.to_nat n) (chars_of (bytes s)))) as H.
  rewrite length_take in H. specialize (H ltac:(apply Forall_take, chars_of_char)). lia.
Qed.
Lemma take_chars_prefix n s : bytes (take_chars n s) `prefix_of` bytes s.
Proof.
  unfold take_chars. rewrite bytes_of_bytes, take_z_take. rewrite <-(chars_of_concat (bytes s)) at 2.
  rewrite <-(take_drop (Z.to_nat n) (chars_of (bytes s))) at 2. rewrite concat_app. by apply prefix_app_r.
Qed.

(** A text of one-byte characters. *)
Definition ascii_text (s : string) : Prop := Forall (λ c, is_ascii c = true) (bytes s).

Lemma chars_of_ascii l : Forall (λ c, is_ascii c = true) l → chars_of l = (λ c, [c]) <$> l.
Proof.
  induction 1 as [|c l Hc Hl IH]; [done|]. cbn. rewrite IH. destruct Hl as [|d l Hd _]; [done|].
  cbn. by rewrite is_ascii_cont.
Qed.
Lemma char_len_ascii s : ascii_text s → char_len s = str_len s.
Proof. intros Hs. unfold char_len, str_len, zlen. by rewrite chars_of_ascii, length_fmap. Qed.
Lemma take_chars_ascii n s : ascii_text s → bytes (take_chars n s) = take (Z.to_nat n) (bytes s).
Proof.
  intros Hs. unfold take_chars. rewrite bytes_of_bytes, chars_of_ascii, take_z_take, <-fmap_take by done.
  induction (take (Z.to_nat n) (bytes s)) as [|c l IH]; [done|]. cbn in *. by rewrite IH.
Qed.

(** ** Truncation never splits a character *)

Lemma floor_go_spec s n :
  let m := floor_go s n in
  (m ≤ n)%nat ∧ is_char_boundary s m = true ∧
  ∀ k, (k ≤ n)%nat → is_char_boundary s k = true → (k ≤ m)%nat.
Proof.
  induction n as [|n IH]; cbn [floor_go].
  { split_and!; [done|done|]. intros k ? _. lia. }
  destruct (is_char_boundary s (S n)) eqn:E; [split_and!; [done..|]; intros; lia|].
  destruct IH as (? & ? & Hmax). split_and!; [lia|done|]. intros k Hk Hb.
  destruct (decide (k = S n)) as [->|]; [congruence|]. apply Hmax; [lia|done].
Qed.

(** A cut: the start, the end, or before a byte that starts a character. *)
Definition cut (s : list ascii) (m : nat) : Prop :=
  m = 0%nat ∨ m = length s ∨ ∃ c, s !! m = Some c ∧ cont c = false.

Lemma cut_boundary s m : is_char_boundary s m = true ↔ cut s m.
Proof.
  unfold is_char_boundary, cut. rewrite !orb_true_iff, !bool_decide_eq_true.
  destruct (s !! m) as [c|]; [|naive_solver]. rewrite negb_true_iff. naive_solver.
Qed.

Lemma cut_cons a s m : cut (a :: s) (S m) → cut s m.
Proof.
  intros [?|[H|(c & Hc & ?)]]; [done|right; left; cbn in H; lia|]. right; right. eauto.
Qed.
(** There is no cut before a continuation byte. *)
Lemma cut_cont b s m : cont b = true → cut (b :: s) m → m ≠ 0%nat → cut s (pred m).
Proof. intros Hb Hc Hm. destruct m as [|m]; [done|]. by apply (cut_cons b). Qed.
Lemma cut_inside a b s : cont b = true → ~ cut (a :: b :: s) 1.
Proof. intros Hb [?|[?|(c & [= <-] & ?)]]; [done|done|congruence]. Qed.

Lemma take_cut_utf8 s m : utf8_valid s = true → cut s m → utf8_valid (take m s) = true.
Proof.
  revert s m. fix IH 1. intros [|a r1] [|m]; [done..|]. cbn [utf8_valid take].
  destruct (bv a <? 0x80); [intros Hv Hc%cut_cons; by apply IH|].
  destruct r1 as [|b r2]; [done|]. destruct (in_range 0xC2 0xDF a).
  { intros [Hb Hv]%andb_true_iff Hc. destruct m as [|m]; [by apply cut_inside in Hc|].
    cbn [take]. rewrite Hb. by apply IH; [|do 2 apply cut_cons in Hc]. }
  destruct r2 as [|c r3]; [done|]. destruct (in_range 0xE0 0xEF a).
  { intros [[Hb Hcc]%andb_true_iff Hv]%andb_true_iff Hc.
    destruct m as [|[|m]]; [apply cut_inside in Hc; [done|by eapply utf8_3_cont]
      |by apply cut_cons, cut_inside in Hc|].
    cbn [take]. rewrite Hb, Hcc. by apply IH; [|do 3 apply cut_cons in Hc]. }
  destruct r3 as [|d r4]; [done|].
  intros [[[Hb Hcc]%andb_true_iff Hd]%andb_true_iff Hv]%andb_true_iff Hc.
  destruct m as [|[|[|m]]]; [apply cut_inside in Hc; [done|by eapply utf8_4_cont]
    |by apply cut_cons, cut_inside in Hc|by do 2 apply cut_cons in Hc; apply cut_inside in Hc|].
  cbn [take]. rewrite Hb, Hcc, Hd. by apply IH; [|do 4 apply cut_cons in Hc].
Qed.

(** Truncation never splits a character: for text that is valid UTF-8 the
    result is valid UTF-8, a prefix of the text, no longer than the bound, and the
    longest such prefix that ends at a character boundary. *)
Theorem truncation_keeps_whole_characters s max_bytes :
  utf8_valid (bytes s) = true →
  let t := truncate_bytes s max_bytes in
  utf8_valid (bytes t) = true ∧ bytes t `prefix_of` bytes s ∧
  (length (bytes t) ≤ max_bytes)%nat ∧
  ∀ k, (k ≤ max_bytes)%nat → (k ≤ length (bytes s))%nat → is_char_boundary (bytes s) k = true →
    (k ≤ length (bytes t))%nat.
Proof.
  intros Hv. cbn zeta. unfold truncate_bytes, floor_char_boundary. rewrite bytes_of_bytes.
  destruct (floor_go_spec (bytes s) (Nat.min max_bytes (length (bytes s)))) as (Hle & Hb & Hmax).
  set (m := floor_go _ _) in *. rewrite length_take, Nat.min_l by lia. split_and!.
  - by apply take_cut_utf8, cut_boundary.
  - apply prefix_take.
  - lia.
  - intros k ???. apply Hmax; [lia|done].
Qed.

Lemma truncation_keeps_whole_characters_witness :
  utf8_valid (bytes (truncate_bytes (of_bytes ["a"; "195"; "169"]%char) 2)) = true.
Proof.
  exact (proj1 (truncation_keeps_whole_characters (of_bytes ["a"; "195"; "169"]%char) 2 eq_refl)).
Defined.
