(* ===== verification/Crypto.v ===== *)
(** * Hashing and the byte encodings that are hashed

    SHA-256 is the parameter [Sha2]; what the source feeds it is written out.
    An encoding is [self_delimiting] when the bytes that follow cannot change
    how it is read back: then a sequence of such encodings determines every
    value in it, and equal digests mean equal values or a SHA-256 collision. *)
From Stdlib Require Import ZArith Lia Ascii String.
From stdpp Require Import base tactics option list list_numbers sets strings.
From S2P Require Import Prelude RustStr.

Local Open Scope Z_scope.
Local Open Scope list_scope.

(** [format!("{digest:x}")] of [Sha256::digest]. *)
Class Sha2 := { sha256_hex : list ascii → string }.

Definition sha_collision `{Sha2} : Prop := ∃ x y, x ≠ y ∧ sha256_hex x = sha256_hex y.

(** [n.to_le_bytes()] of an integer of [k] bytes. *)
Fixpoint to_le_bytes (k : nat) (n : Z) : list ascii :=
  match k with
  | O => []
  | S k => ascii_of_N (Z.to_N (n mod 256)) :: to_le_bytes k (n / 256)
  end.

(** [hasher.update((bytes.len() as u64).to_le_bytes()); hasher.update(bytes)]. *)
Definition len_field (s : string) : list ascii := to_le_bytes 8 (str_len s) ++ bytes s.

(** [h.update(part.as_bytes()); h.update([0])]. *)
Definition NUL : ascii := "000"%char.
Definition nul_field (s : string) : list ascii := bytes s ++ [NUL].

Definition fits_u64 (n : Z) : Prop := 0 ≤ n ≤ u64_max.
Definition u64_str (s : string) : Prop := str_len s ≤ u64_max.
Definition nul_free (s : string) : Prop := NUL ∉ bytes s.

(** ** Reading an encoding back *)

Definition self_delimiting {A} (ok : A → Prop) (enc : A → list ascii) : Prop :=
  ∀ a b x y, ok a → ok b → enc a ++ x = enc b ++ y → a = b ∧ x = y.

Lemma length_to_le_bytes k n : length (to_le_bytes k n) = k.
Proof. revert n. induction k as [|k IH]; intros n; cbn; [done|]. by rewrite IH. Qed.

Lemma to_le_bytes_inj k a b :
  0 ≤ a < 256 ^ Z.of_nat k → 0 ≤ b < 256 ^ Z.of_nat k →
  to_le_bytes k a = to_le_bytes k b → a = b.
Proof.
  revert a b. induction k as [|k IH]; intros a b Ha Hb H; [cbn in *; lia|].
  rewrite Nat2Z.inj_succ, Z.pow_succ_r in Ha, Hb by lia. cbn in H.
  injection H as H0 H1.
  apply (f_equal bv) in H0. rewrite !bv_ascii_of in H0 by (pose proof (Z.mod_pos_bound a 256);
    pose proof (Z.mod_pos_bound b 256); lia).
  apply IH in H1.
  - pose proof (Z.div_mod a 256). pose proof (Z.div_mod b 256). lia.
  - split; [apply Z.div_pos; lia|apply Z.div_lt_upper_bound; lia].
  - split; [apply Z.div_pos; lia|apply Z.div_lt_upper_bound; lia].
Qed.

Lemma le_u64_self_delimiting : self_delimiting fits_u64 (to_le_bytes 8).
Proof.
  intros a b x y Ha Hb H. apply app_inj_1 in H as [H ->]; [|by rewrite !length_to_le_bytes].
  split; [|done]. unfold fits_u64, u64_max in *.
  apply (to_le_bytes_inj 8); [cbn; lia..|done].
Qed.

Lemma len_field_self_delimiting : self_delimiting u64_str len_field.
Proof.
  intros s t x y Hs Ht H. unfold len_field in H. rewrite <-!(assoc_L (++)) in H.
  apply le_u64_self_delimiting in H as [Hlen H];
    [|unfold fits_u64, u64_str, str_len in *; pose proof (zlen_nonneg (bytes s));
      pose proof (zlen_nonneg (bytes t)); lia..].
  unfold str_len, zlen in Hlen. apply app_inj_1 in H as [H ->]; [|lia].
  split; [by apply (inj bytes)|done].
Qed.

Lemma nul_field_self_delimiting : self_delimiting nul_free nul_field.
Proof.
  intros s t x y Hs Ht H. unfold nul_field in H. rewrite <-!(assoc_L (++)) in H.
  enough (bytes s = bytes t ∧ x = y) as [? ?] by (split; [by apply (inj bytes)|done]).
  revert H Hs Ht. unfold nul_free. generalize (bytes s) (bytes t).
  intros l. induction l as [|a l IH]; intros [|b k] H Hs Ht; cbn in H.
  - by injection H as ->.
  - injection H as Hb _. destruct Ht. rewrite <-Hb. by left.
  - injection H as Ha _. destruct Hs. rewrite Ha. by left.
  - injection H as -> H. apply not_elem_of_cons in Hs as [_ Hs], Ht as [_ Ht].
    by apply IH in H as [-> ->].
Qed.

(** One byte of a tag table. *)
Lemma tag_self_delimiting {A} (tag : A → ascii) :
  Inj (=) (=) tag → self_delimiting (λ _, True) (λ a, [tag a]).
Proof. intros Hinj a b x y _ _ H. injection H as H ->. split; [by apply Hinj|done]. Qed.

(** A list of self-delimiting encodings whose length is known to both sides. *)
Lemma concat_self_delimiting {A} (ok : A → Prop) enc (l k : list A) x y :
  self_delimiting ok enc → Forall ok l → Forall ok k → length l = length k →
  concat (enc <$> l) ++ x = concat (enc <$> k) ++ y → l = k ∧ x = y.
Proof.
  intros Henc Hl. revert k. induction Hl as [|a l Ha _ IH]; intros [|b k] Hk Hlen H; try done.
  cbn in H. rewrite <-!(assoc_L (++)) in H. inversion Hk; subst.
  apply Henc in H as [-> H]; [|done..]. apply IH in H as [-> ->]; [done..|cbn in Hlen; lia].
Qed.

(** Where the bytes end, the list ends. *)
Lemma concat_self_delimiting_end {A} (ok : A → Prop) enc (l k : list A) :
  self_delimiting ok enc → (∀ a, enc a ≠ []) → Forall ok l → Forall ok k →
  concat (enc <$> l) = concat (enc <$> k) → l = k.
Proof.
  intros Henc Hne Hl. revert k. induction Hl as [|a l Ha _ IH]; intros [|b k] Hk H; [done|..].
  - cbn in H. specialize (Hne b). by destruct (enc b).
  - cbn in H. specialize (Hne a). by destruct (enc a).
  - cbn in H. inversion Hk; subst. apply Henc in H as [-> H]; [|done..]. f_equal. by apply IH.
Qed.

(** Equal digests of different bytes are a collision. *)
Lemma digest_eq_or_collision `{Sha2} x y :
  sha256_hex x = sha256_hex y → x = y ∨ sha_collision.
Proof. intros H'. destruct (decide (x = y)); [by left|]. right. by exists x, y. Qed.
