(* ===== verification/BTree.v ===== *)
(** * Ordered maps and sets, stable sorting

    [BTreeMap<K, V>] is an association list with strictly increasing keys,
    [BTreeSet<K>] a strictly increasing list; iterating them gives the source's
    order. [sort_by] is [slice::sort_by], a stable sort. *)
From Stdlib Require Import ZArith Lia Ascii String.
From stdpp Require Import base tactics option list sets sorting strings.
From S2P Require Import Prelude.

Local Open Scope list_scope.

(** [Ord] of a key type. *)
Class KeyOrder (K : Type) := key_le : relation K.
Class KeyOrderOk K `{EqDecision K, KeyOrder K} := {
  key_le_dec :: RelDecision (key_le (K := K));
  key_le_po :: PartialOrder (key_le (K := K));
  key_le_total :: Total (key_le (K := K));
}.

#[global] Instance string_order : KeyOrder string := String.le.
#[global] Instance string_order_ok : KeyOrderOk string.
Proof. split; apply _. Defined.
#[global] Instance Z_order : KeyOrder Z := Z.le.
#[global] Instance Z_order_ok : KeyOrderOk Z.
Proof. split; apply _. Defined.

(** An enumeration with a derived [Ord] compares by the position of its
    constructors. *)
Definition rank_le {K} (rank : K → Z) : relation K := λ a b, (rank a ≤ rank b)%Z.
Lemma rank_order_ok {K} `{EqDecision K} (rank : K → Z) :
  Inj (=) (=) rank → @KeyOrderOk K _ (rank_le rank).
Proof.
  intros Hinj. split.
  - intros a b. unfold key_le, rank_le. apply _.
  - split; [split|].
    + intros a. unfold key_le, rank_le. lia.
    + intros a b c. unfold key_le, rank_le. lia.
    + intros a b. unfold key_le, rank_le. intros ??. apply Hinj. lia.
  - intros a b. unfold key_le, rank_le. lia.
Defined.

(** Tuples compare lexicographically. *)
#[global] Instance pair_order `{KeyOrder A, KeyOrder B} : KeyOrder (A * B) := λ x y,
  (key_le x.1 y.1 ∧ x.1 ≠ y.1) ∨ (x.1 = y.1 ∧ key_le x.2 y.2).
#[global] Instance pair_order_ok `{KeyOrderOk A, KeyOrderOk B} : KeyOrderOk (A * B).
Proof.
  split.
  - intros x y. unfold key_le, pair_order. apply _.
  - split; [split|].
    + intros [a b]. by right.
    + intros [a1 b1] [a2 b2] [a3 b3] [[? ?]|[? ?]] [[? ?]|[? ?]]; cbn in *; subst.
      * left. cbn. split; [by etrans|]. intros ->.
        assert (a2 = a3) by by apply (anti_symm key_le). done.
      * by left.
      * by left.
      * right. split; [done|by etrans].
    + intros [a1 b1] [a2 b2] [[? Hne]|[? ?]] [[? ?]|[? ?]]; cbn in *; subst; try done.
      * destruct Hne. by apply (anti_symm key_le).
      * f_equal. by apply (anti_symm key_le).
  - intros [a1 b1] [a2 b2]. unfold key_le, pair_order. cbn. destruct (decide (a1 = a2)) as [->|Hne].
    + destruct (total key_le b1 b2); auto.
    + destruct (total key_le a1 a2); auto.
Defined.

(** [Option]: [None] is the least. *)
#[global] Instance option_order `{KeyOrder A} : KeyOrder (option A) := λ x y,
  match x, y with
  | None, _ => True
  | Some _, None => False
  | Some a, Some b => key_le a b
  end.
#[global] Instance option_order_ok `{KeyOrderOk A} : KeyOrderOk (option A).
Proof.
  split.
  - intros [a|] [b|]; unfold key_le, option_order; apply _.
  - split; [split|].
    + by intros [a|]; cbn.
    + intros [a|] [b|] [c|]; unfold key_le, option_order; try done. by intros; etrans.
    + intros [a|] [b|]; unfold key_le, option_order; try done.
      intros ??. f_equal. by apply (anti_symm key_le).
  - intros [a|] [b|]; unfold key_le, option_order; auto. apply (total key_le).
Defined.

(** [Vec]: lexicographic. *)
Fixpoint list_le `{KeyOrder A} (l k : list A) : Prop :=
  match l, k with
  | [], _ => True
  | _ :: _, [] => False
  | x :: l, y :: k => (key_le x y ∧ x ≠ y) ∨ (x = y ∧ list_le l k)
  end.
#[global] Instance list_order `{KeyOrder A} : KeyOrder (list A) := list_le.
#[global] Instance list_order_ok `{KeyOrderOk A} : KeyOrderOk (list A).
Proof.
  split.
  - unfold key_le, list_order. intros l. induction l as [|x l IH]; intros [|y k]; cbn; apply _.
  - split; [split|]; unfold key_le, list_order.
    + intros l. induction l; cbn; auto.
    + intros l. induction l as [|x l IH]; intros [|y k] [|z m]; cbn; try done.
      intros [[? ?]|[-> ?]] [[? ?]|[-> ?]]; auto.
      * left. split; [by etrans|]. intros ->.
        assert (y = z) by by apply (anti_symm key_le). done.
      * right. split; [done|by eapply IH].
    + intros l. induction l as [|x l IH]; intros [|y k]; cbn; try done.
      intros [[? Hne]|[-> ?]] [[? ?]|[? ?]]; try done.
      * destruct Hne. by apply (anti_symm key_le).
      * f_equal. by apply IH.
  - unfold key_le, list_order. intros l. induction l as [|x l IH]; intros [|y k]; cbn; auto.
    destruct (decide (x = y)) as [->|Hne].
    + destruct (IH k); auto.
    + destruct (total key_le x y); auto.
Defined.

(** A record with a derived [Ord] compares by its fields in order. *)
Definition proj_le {K A} `{KeyOrder A} (f : K → A) : relation K := λ a b, key_le (f a) (f b).
Lemma proj_order_ok {K A} `{EqDecision K, KeyOrderOk A} (f : K → A) :
  Inj (=) (=) f → @KeyOrderOk K _ (proj_le f).
Proof.
  intros Hinj. split.
  - intros a b. unfold key_le, proj_le. apply _.
  - split; [split|]; unfold key_le, proj_le.
    + intros a. reflexivity.
    + intros a b c ??. by etrans.
    + intros a b ??. apply Hinj. by apply (anti_symm key_le).
  - intros a b. unfold key_le, proj_le. apply (total key_le).
Defined.

Section btree.
Context {K : Type} `{KeyOrderOk K}.

Definition key_lt (a b : K) : Prop := key_le a b ∧ a ≠ b.

(** [BTreeSet::insert], and whether the value was new. *)
Fixpoint set_insert (k : K) (s : list K) : list K :=
  match s with
  | [] => [k]
  | x :: r =>
      if bool_decide (k = x) then s
      else if bool_decide (key_le k x) then k :: s else x :: set_insert k r
  end.

(** [iter.collect::<BTreeSet<_>>()]. *)
Definition set_collect (l : list K) : list K := foldl (λ s k, set_insert k s) [] l.

Context {V : Type}.

Definition bmap_get (k : K) (m : list (K * V)) : option V :=
  snd <$> List.find (λ kv, bool_decide (kv.1 = k)) m.

(** [BTreeMap::insert]. *)
Fixpoint bmap_insert (k : K) (v : V) (m : list (K * V)) : list (K * V) :=
  match m with
  | [] => [(k, v)]
  | (x, w) :: r =>
      if bool_decide (k = x) then (k, v) :: r
      else if bool_decide (key_le k x) then (k, v) :: m else (x, w) :: bmap_insert k v r
  end.

(** [map.entry(k).and_modify(f).or_insert(v)]. *)
Definition bmap_upsert (k : K) (f : V → V) (v : V) (m : list (K * V)) : list (K * V) :=
  match bmap_get k m with
  | Some w => bmap_insert k (f w) m
  | None => bmap_insert k v m
  end.

Definition keys (m : list (K * V)) : list K := m.*1.
Definition bmap_ok (m : list (K * V)) : Prop := StronglySorted key_lt (keys m).

(** ** Lemmas *)

#[local] Instance key_lt_trans : Transitive key_lt.
Proof.
  intros a b c [Hab ?] [Hbc ?]. split; [by etrans|]. intros ->.
  assert (b = c) by (by apply (anti_symm key_le)). done.
Qed.

Lemma key_lt_irrefl a : ¬ key_lt a a.
Proof. by intros [_ ?]. Qed.

Lemma key_nle a b : ¬ key_le a b → a ≠ b → key_lt b a.
Proof. intros Hn ?. destruct (total key_le a b); [done|]. by split. Qed.

(** A strictly sorted list is determined by its elements. *)
Lemma sorted_elements_eq (l k : list K) :
  StronglySorted key_lt l → StronglySorted key_lt k → (∀ x, x ∈ l ↔ x ∈ k) → l = k.
Proof.
  intros Hl. revert k. induction Hl as [|a l Hl IH Ha]; intros k Hk Helem.
  { destruct k as [|b k]; [done|]. exfalso. eapply (not_elem_of_nil b), Helem. by left. }
  destruct Hk as [|b k Hk Hb].
  { exfalso. eapply (not_elem_of_nil a), Helem. by left. }
  rewrite Forall_forall in Ha, Hb.
  assert (a = b) as ->.
  { assert (a ∈ b :: k) as [Hab|Hab]%elem_of_cons by (apply Helem; by left); [done|].
    assert (b ∈ a :: l) as [Hba|Hba]%elem_of_cons by (apply Helem; by left); [done|].
    exfalso. apply (key_lt_irrefl a). etrans; [by apply Ha|by apply Hb]. }
  f_equal. apply IH; [done|]. intros x. specialize (Helem x).
  rewrite !elem_of_cons in Helem. split; intros Hx.
  - destruct Helem as [[->|?] _]; [by right| |done]. exfalso. by eapply key_lt_irrefl, Ha.
  - destruct Helem as [_ [->|?]]; [by right| |done]. exfalso. by eapply key_lt_irrefl, Hb.
Qed.

Lemma sorted_NoDup (l : list K) : StronglySorted key_lt l → NoDup l.
Proof.
  induction 1 as [|a l _ IH Ha]; constructor; [|done].
  intros Hin. rewrite Forall_forall in Ha. by eapply key_lt_irrefl, Ha.
Qed.

Lemma set_insert_elem k s x : x ∈ set_insert k s ↔ x = k ∨ x ∈ s.
Proof.
  induction s as [|y s IH]; cbn; [by rewrite list_elem_of_singleton, elem_of_nil; tauto|].
  repeat case_bool_decide; subst; rewrite ?elem_of_cons, ?IH; tauto.
Qed.

Lemma set_insert_sorted k s : StronglySorted key_lt s → StronglySorted key_lt (set_insert k s).
Proof.
  induction 1 as [|y s Hs IH Hy]; cbn; [by repeat constructor|].
  case_bool_decide as Hk; [by constructor|]. case_bool_decide as Hle.
  - constructor; [by constructor|]. assert (key_lt k y) by by split.
    constructor; [done|]. eapply Forall_impl; [exact Hy|]. intros. by etrans.
  - constructor; [done|]. apply Forall_forall. intros x [->|Hx]%set_insert_elem.
    + by apply key_nle.
    + by eapply Forall_forall in Hy.
Qed.

Lemma set_insert_comm a b s :
  StronglySorted key_lt s → set_insert a (set_insert b s) = set_insert b (set_insert a s).
Proof.
  intros. apply sorted_elements_eq; [by repeat apply set_insert_sorted..|].
  intros x. rewrite !set_insert_elem. tauto.
Qed.

Lemma set_collect_spec l :
  StronglySorted key_lt (set_collect l) ∧ ∀ x, x ∈ set_collect l ↔ x ∈ l.
Proof.
  unfold set_collect.
  assert (∀ s, StronglySorted key_lt s →
    StronglySorted key_lt (foldl (λ s k, set_insert k s) s l) ∧
    ∀ x, x ∈ foldl (λ s k, set_insert k s) s l ↔ x ∈ s ∨ x ∈ l) as Hgen.
  { induction l as [|a l IH]; intros s Hs; cbn; [set_solver|].
    destruct (IH (set_insert a s)) as [H1 H2]; [by apply set_insert_sorted|].
    split; [done|]. intros x. rewrite H2, set_insert_elem, elem_of_cons. tauto. }
  destruct (Hgen []) as [H1 H2]; [constructor|]. split; [done|]. set_solver.
Qed.

Lemma set_eq_iff l k : set_collect l = set_collect k ↔ ∀ x, x ∈ l ↔ x ∈ k.
Proof.
  destruct (set_collect_spec l) as [Hl Hle], (set_collect_spec k) as [Hk Hke]. split.
  - intros E x. by rewrite <-Hle, E, Hke.
  - intros E. apply sorted_elements_eq; [done..|]. intros x. by rewrite Hle, Hke.
Qed.

Lemma bmap_get_elem k m v : bmap_ok m → bmap_get k m = Some v ↔ (k, v) ∈ m.
Proof.
  unfold bmap_get, bmap_ok. induction m as [|[x w] m IH]; cbn; intros Hm.
  { rewrite elem_of_nil. naive_solver. }
  apply StronglySorted_inv in Hm as [Hm Hx]. rewrite elem_of_cons. case_bool_decide as Hk.
  - subst. cbn. split; [intros [= ->]; by left|]. intros [[= ->]|Hin]; [done|].
    exfalso. rewrite Forall_forall in Hx. eapply (key_lt_irrefl k), Hx.
    apply list_elem_of_fmap. by exists (k, v).
  - rewrite IH by done. split; [by right|]. intros [[= -> ->]|?]; [done|done].
Qed.

Lemma bmap_insert_keys k v m x : x ∈ keys (bmap_insert k v m) ↔ x = k ∨ x ∈ keys m.
Proof.
  unfold keys. induction m as [|[y w] m IH]; cbn.
  { by rewrite list_elem_of_singleton, elem_of_nil; tauto. }
  repeat case_bool_decide; subst; cbn; rewrite ?elem_of_cons, ?IH; tauto.
Qed.

Lemma bmap_insert_ok k v m : bmap_ok m → bmap_ok (bmap_insert k v m).
Proof.
  unfold bmap_ok. induction m as [|[y w] m IH]; cbn; intros Hm; [by repeat constructor|].
  pose proof Hm as [Hs Hy]%StronglySorted_inv.
  case_bool_decide as Hk; [by subst|]. case_bool_decide as Hle; cbn.
  - constructor; [done|]. assert (key_lt k y) by by split.
    constructor; [done|]. eapply Forall_impl; [exact Hy|]. intros. by etrans.
  - constructor; [by apply IH|]. apply Forall_forall. intros x [->|Hx]%bmap_insert_keys.
    + by apply key_nle.
    + by eapply Forall_forall in Hy.
Qed.

Lemma bmap_get_insert k v m x :
  bmap_get x (bmap_insert k v m) = if bool_decide (x = k) then Some v else bmap_get x m.
Proof.
  unfold bmap_get. induction m as [|[y w] m IH]; cbn.
  { repeat case_bool_decide; naive_solver. }
  repeat case_bool_decide; subst; cbn; repeat case_bool_decide; subst; cbn in *;
    rewrite ?IH; try done; repeat case_bool_decide; naive_solver.
Qed.

Lemma bmap_insert_perm k v m : bmap_get k m = None → bmap_insert k v m ≡ₚ (k, v) :: m.
Proof.
  unfold bmap_get. induction m as [|[y w] m IH]; cbn; [done|]. intros Hget.
  case_bool_decide; [done|]. rewrite bool_decide_eq_false_2 by done.
  case_bool_decide; [done|]. rewrite IH by done. constructor.
Qed.

(** Inserting a present key replaces its value in place. *)
Lemma bmap_insert_replace k w v m :
  bmap_ok m → bmap_get k m = Some w →
  ∃ m1 m2, m = m1 ++ (k, w) :: m2 ∧ bmap_insert k v m = m1 ++ (k, v) :: m2.
Proof.
  unfold bmap_ok. induction m as [|[x y] m IH]; intros Hm Hget; [done|]. cbn in Hm |- *.
  apply StronglySorted_inv in Hm as [Hm Hx]. case_bool_decide as Hk.
  - subst. unfold bmap_get in Hget. cbn in Hget. rewrite bool_decide_eq_true_2 in Hget by done.
    injection Hget as ->. by exists [], m.
  - assert (bmap_get k m = Some w) as Hget'.
    { unfold bmap_get in Hget |- *. cbn in Hget. by rewrite bool_decide_eq_false_2 in Hget. }
    assert (key_lt x k) as [Hle Hne].
    { rewrite Forall_forall in Hx. apply Hx. apply bmap_get_elem in Hget'; [|done].
      apply list_elem_of_fmap. by exists (k, w). }
    rewrite bool_decide_eq_false_2 by (intros Hle'; apply Hne; by apply (anti_symm key_le)).
    destruct (IH Hm Hget') as (m1 & m2 & -> & ->). by exists ((x, y) :: m1), m2.
Qed.

Lemma bmap_get_upsert k f v m x :
  bmap_get x (bmap_upsert k f v m) =
    if bool_decide (x = k) then Some (from_option f v (bmap_get k m)) else bmap_get x m.
Proof. unfold bmap_upsert. destruct (bmap_get k m); by rewrite bmap_get_insert. Qed.

Lemma bmap_upsert_ok k f v m : bmap_ok m → bmap_ok (bmap_upsert k f v m).
Proof. unfold bmap_upsert. intros. case_match; by apply bmap_insert_ok. Qed.

Lemma bmap_upsert_keys k f v m x : x ∈ keys (bmap_upsert k f v m) ↔ x = k ∨ x ∈ keys m.
Proof. unfold bmap_upsert. case_match; apply bmap_insert_keys. Qed.

Lemma elem_keys x w m : (x, w) ∈ m → x ∈ keys m.
Proof. intros Hin. apply list_elem_of_fmap. by exists (x, w). Qed.

Lemma bmap_ext m1 m2 : bmap_ok m1 → bmap_ok m2 → (∀ k, bmap_get k m1 = bmap_get k m2) → m1 = m2.
Proof.
  unfold bmap_ok. revert m2. induction m1 as [|[k v] m1 IH]; intros [|[k' v'] m2] H1 H2 Hget;
    [done|specialize (Hget k')|specialize (Hget k)|]; unfold bmap_get in *; cbn in *.
  1, 2: by rewrite bool_decide_eq_true_2 in Hget.
  pose proof (λ x w, bmap_get_elem x ((k, v) :: m1) w) as He1.
  pose proof (λ x w, bmap_get_elem x ((k', v') :: m2) w) as He2.
  assert (∀ x w, (x, w) ∈ (k, v) :: m1 ↔ (x, w) ∈ (k', v') :: m2) as Helem.
  { intros x w. rewrite <-He1, <-He2 by done. unfold bmap_get. cbn. by rewrite Hget. }
  apply StronglySorted_inv in H1 as [H1 Hk], H2 as [H2 Hk']. rewrite Forall_forall in Hk, Hk'.
  assert (∀ x w, (x, w) ∈ m1 → key_lt k x) as Hlt1 
    by (intros x w Hin; apply Hk; by eapply elem_keys).
  assert (∀ x w, (x, w) ∈ m2 → key_lt k' x) as Hlt2 
    by (intros x w Hin; apply Hk'; by eapply elem_keys).
  assert ((k, v) = (k', v')) as [= <- <-].
  { destruct (proj1 (elem_of_cons _ _ _) (proj1 (Helem k v) ltac:(by left))) as [|Hin]; [done|].
    destruct (proj1 (elem_of_cons _ _ _) (proj2 (Helem k' v') ltac:(by left))) as [|Hin']; [done|].
    exfalso. apply (key_lt_irrefl k). etrans; eauto. }
  f_equal. apply IH; [done..|]. intros x. specialize (Hget x). cbn in Hget.
  case_bool_decide as Hx; [|done]. subst x.
  transitivity (@None V); [|symmetry]; apply eq_None_not_Some; intros [w Hw%bmap_get_elem];
    [by eapply key_lt_irrefl, Hlt1|done|by eapply key_lt_irrefl, Hlt2|done].
Qed.

Lemma bmap_upsert_comm k1 f1 v1 k2 f2 v2 m :
  bmap_ok m → f2 v1 = f1 v2 → (∀ x, bmap_get k1 m = Some x → f2 (f1 x) = f1 (f2 x)) →
  bmap_upsert k2 f2 v2 (bmap_upsert k1 f1 v1 m) = bmap_upsert k1 f1 v1 (bmap_upsert k2 f2 v2 m).
Proof.
  intros Hm Hinit Hstep. apply bmap_ext; [by repeat apply bmap_upsert_ok..|]. intros k.
  rewrite !bmap_get_upsert. destruct (decide (k1 = k2)) as [<-|Hne].
  - rewrite !(bool_decide_eq_true_2 (k1 = k1)) by done. cbn. case_bool_decide; [|done].
    f_equal. destruct (bmap_get k1 m) as [x|] eqn:E; cbn; [by apply Hstep|done].
  - rewrite !(bool_decide_eq_false_2 (k1 = k2)), !(bool_decide_eq_false_2 (k2 = k1)) by done.
    repeat case_bool_decide; try done. by subst.
Qed.

Lemma bmap_nil_ok : bmap_ok [].
Proof. constructor. Qed.

(** Inserting a list of pairs with distinct keys. *)
Definition inserts (m l : list (K * V)) : list (K * V) :=
  foldl (λ m kv, bmap_insert kv.1 kv.2 m) m l.

Lemma inserts_ok m l : bmap_ok m → bmap_ok (inserts m l).
Proof. intros Hm. apply (foldl_inv bmap_ok); [|done]. intros. by apply bmap_insert_ok. Qed.

Lemma inserts_keys m l x : x ∈ keys (inserts m l) ↔ x ∈ keys m ∨ x ∈ keys l.
Proof.
  unfold inserts. revert m. induction l as [|[k v] l IH]; intros m; cbn.
  { change (keys (@nil (K * V))) with (@nil K). rewrite elem_of_nil. tauto. }
  rewrite IH, bmap_insert_keys. change (keys ((k, v) :: l)) with (k :: keys l).
  rewrite elem_of_cons. tauto.
Qed.

Lemma inserts_perm m l :
  NoDup (keys l) → (∀ x, x ∈ keys l → bmap_get x m = None) → inserts m l ≡ₚ l ++ m.
Proof.
  unfold inserts. revert m. induction l as [|[k v] l IH]; intros m Hnd Hm; cbn; [done|].
  change (keys ((k, v) :: l)) with (k :: keys l) in *. apply NoDup_cons in Hnd as [Hk Hnd].
  rewrite IH; [|done|].
  - rewrite bmap_insert_perm by (apply Hm; by left). symmetry. apply Permutation_middle.
  - intros x Hx. rewrite bmap_get_insert, bool_decide_eq_false_2 by (by intros ->).
    apply Hm. by right.
Qed.

Lemma inserts_get l k v : NoDup (keys l) → bmap_get k (inserts [] l) = Some v ↔ (k, v) ∈ l.
Proof.
  intros Hnd. rewrite bmap_get_elem by apply inserts_ok, bmap_nil_ok.
  rewrite inserts_perm by done. by rewrite app_nil_r.
Qed.

Lemma inserts_perm_eq l l' : NoDup (keys l) → l ≡ₚ l' → inserts [] l = inserts [] l'.
Proof.
  intros Hnd Hl. assert (NoDup (keys l')) as Hnd' by (unfold keys in *; by rewrite <-Hl).
  apply bmap_ext; [apply inserts_ok, bmap_nil_ok..|]. intros k. apply option_eq. intros v.
  rewrite !inserts_get by done. by rewrite Hl.
Qed.
End btree.
#[global] Arguments bmap_get : simpl never.
#[global] Arguments keys : simpl never.
#[export] Hint Resolve bmap_nil_ok bmap_insert_ok bmap_upsert_ok : host.

(** ** Grouping

    A loop of [map.entry(k).or_default().insert(w)]. *)

Section group.
Context {K W : Type} `{KeyOrderOk K} `{KeyOrderOk W}.

Definition group_insert (m : list (K * list W)) (kw : K * W) : list (K * list W) :=
  bmap_upsert kw.1 (set_insert kw.2) [kw.2] m.
Definition group_sets (pairs : list (K * W)) : list (K * list W) := foldl group_insert [] pairs.

Definition groups (pairs : list (K * W)) (m : list (K * list W)) : Prop :=
  bmap_ok m ∧ ∀ k, match bmap_get k m with
                   | Some s => StronglySorted key_lt s ∧ s ≠ [] ∧ ∀ w, w ∈ s ↔ (k, w) ∈ pairs
                   | None => ∀ w, (k, w) ∉ pairs
                   end.

Lemma group_sets_groups pairs : groups pairs (group_sets pairs).
Proof.
  unfold group_sets. induction pairs as [|[k w] pairs [Hok IH]] using rev_ind.
  { split; [constructor|]. intros k w. apply not_elem_of_nil. }
  rewrite foldl_app. cbn. set (m := foldl group_insert [] pairs) in *.
  split; [by apply bmap_upsert_ok|]. intros x. unfold group_insert. rewrite bmap_get_upsert. cbn.
  specialize (IH x). case_bool_decide as Hx; [subst x|].
  - destruct (bmap_get k m) as [s|]; cbn.
    + destruct IH as (Hs & _ & IH). split_and!; [by apply set_insert_sorted| |].
      * intros Hnil. apply (not_elem_of_nil w). rewrite <-Hnil. apply set_insert_elem. by left.
      * intros v. rewrite set_insert_elem, IH, elem_of_app, list_elem_of_singleton. naive_solver.
    + split_and!; [by repeat constructor|done|]. intros v.
      rewrite elem_of_app, !list_elem_of_singleton. specialize (IH v). naive_solver.
  - destruct (bmap_get x m) as [s|].
    + destruct IH as (Hs & Hne & IH). split_and!; [done..|]. intros v.
      rewrite IH, elem_of_app, list_elem_of_singleton. naive_solver.
    + intros v. rewrite elem_of_app, list_elem_of_singleton. specialize (IH v). naive_solver.
Qed.

Lemma group_sets_elem pairs k s :
  (k, s) ∈ group_sets pairs ↔
  StronglySorted key_lt s ∧ s ≠ [] ∧ ∀ w, w ∈ s ↔ (k, w) ∈ pairs.
Proof.
  destruct (group_sets_groups pairs) as [Hok Hget]. rewrite <-bmap_get_elem by done.
  specialize (Hget k). destruct (bmap_get k (group_sets pairs)) as [s'|].
  - destruct Hget as (Hs & Hne & Hw). split; [by intros [= <-]|]. intros (Hs' & _ & Hw').
    f_equal. apply sorted_elements_eq; [done..|]. intros w. by rewrite Hw, Hw'.
  - split; [done|]. intros (_ & Hne & Hw). destruct s as [|w s]; [done|]. exfalso.
    apply (Hget w), Hw. by left.
Qed.

Lemma group_sets_get pairs k w : (k, w) ∈ pairs → ∃ s, (k, s) ∈ group_sets pairs.
Proof.
  intros Hin. destruct (group_sets_groups pairs) as [Hok Hget]. specialize (Hget k).
  destruct (bmap_get k (group_sets pairs)) as [s|] eqn:E; [|by destruct (Hget w)].
  exists s. by apply bmap_get_elem.
Qed.

(** The groups depend on the set of pairs only. *)
Lemma group_sets_ext pairs pairs' :
  (∀ kw, kw ∈ pairs ↔ kw ∈ pairs') → group_sets pairs = group_sets pairs'.
Proof.
  intros Hp. destruct (group_sets_groups pairs) as [Hok _], (group_sets_groups pairs') as [Hok' _].
  apply bmap_ext; [done..|]. intros k. apply option_eq. intros s.
  rewrite !bmap_get_elem, !group_sets_elem by done. by setoid_rewrite Hp.
Qed.
End group.

(** ** Stable sorting *)

Section sort.
Context {A : Type} (le : A → A → bool).

Fixpoint sort_insert (x : A) (l : list A) : list A :=
  match l with
  | [] => [x]
  | y :: r => if le x y then x :: l else y :: sort_insert x r
  end.
(** [l.sort_by(cmp)], where [le x y] is [cmp(x, y) != Greater]. *)
Definition sort_by (l : list A) : list A := foldr sort_insert [] l.

Lemma sort_insert_perm x l : sort_insert x l ≡ₚ x :: l.
Proof.
  induction l as [|y l IH]; cbn; [done|]. destruct (le x y); [done|]. rewrite IH. constructor.
Qed.

Lemma sort_by_perm l : sort_by l ≡ₚ l.
Proof.
  induction l as [|x l IH]; [done|]. change (sort_insert x (sort_by l) ≡ₚ x :: l).
  by rewrite sort_insert_perm, IH.
Qed.

Hypothesis le_total : ∀ x y, le x y = false → le y x = true.
Hypothesis le_trans : ∀ x y z, le x y = true → le y z = true → le x z = true.

Lemma sort_insert_sorted x l :
  StronglySorted (λ a b, le a b = true) l → StronglySorted (λ a b, le a b = true) (sort_insert x l).
Proof.
  induction 1 as [|y l Hl IH Hy]; cbn; [by repeat constructor|].
  destruct (le x y) eqn:E.
  - constructor; [by constructor|]. constructor; [done|].
    eapply Forall_impl; [exact Hy|]. intros. by eapply le_trans.
  - constructor; [done|]. rewrite sort_insert_perm. constructor; [by apply le_total|done].
Qed.

Lemma sort_by_sorted l : StronglySorted (λ a b, le a b = true) (sort_by l).
Proof. induction l; cbn; [constructor|by apply sort_insert_sorted]. Qed.

(** Where the order tells the elements apart, the sorted list depends on the
    elements only. *)
Lemma sort_by_perm_eq l k :
  (∀ x y, x ∈ l → y ∈ l → le x y = true → le y x = true → x = y) → l ≡ₚ k → sort_by l = sort_by k.
Proof.
  intros Hanti Hl. apply (StronglySorted_unique_strong (λ a b, le a b = true));
    [|apply sort_by_sorted..|by rewrite !sort_by_perm].
  intros x y. rewrite !sort_by_perm, <-Hl. apply Hanti.
Qed.

(** A list that is sorted already is left alone. *)
Lemma sort_by_id l : StronglySorted (λ a b, le a b = true) l → sort_by l = l.
Proof.
  induction 1 as [|x l _ IH Hx]; [done|]. change (sort_insert x (sort_by l) = x :: l). rewrite IH.
  destruct Hx as [|y l Hxy _]; cbn; [done|]. by rewrite Hxy.
Qed.
End sort.

(** Sorting respects a relation that the orders agree on. *)
Lemma sort_by_Forall2 {A B} (le : A → A → bool) (le' : B → B → bool) (R : A → B → Prop) l k :
  (∀ x y x' y', R x x' → R y y' → le x y = le' x' y') →
  Forall2 R l k → Forall2 R (sort_by le l) (sort_by le' k).
Proof.
  intros Hle. induction 1 as [|x y l k Hxy _ IH]; [constructor|].
  change (Forall2 R (sort_insert le x (sort_by le l)) (sort_insert le' y (sort_by le' k))).
  induction IH as [|a b s t Hab Hst IHs]; cbn; [by repeat constructor|].
  rewrite (Hle x a y b) by done. destruct (le' y b); by repeat constructor.
Qed.
Lemma sort_by_fmap {A B} (le : A → A → bool) (le' : B → B → bool) (f : A → B) l :
  (∀ x y, le x y = le' (f x) (f y)) → f <$> sort_by le l = sort_by le' (f <$> l).
Proof.
  intros Hle. assert (Forall2 (λ x y, f x = y) (sort_by le l) (sort_by le' (f <$> l))) as H.
  { apply sort_by_Forall2; [by intros x y ?? <- <-|]. induction l; constructor; done. }
  apply list_eq_Forall2. by apply Forall2_fmap_l.
Qed.

(** ** Binary search *)

Section binary_search.
Context `{KeyOrderOk A} (x : A).

(** [l.binary_search(&x).is_ok()]: the loop keeps the part of the slice that may
    hold [x], [size] elements from [base]; [fuel] halvings are left. *)
Fixpoint search_go (fuel : nat) (l : list A) (base size : nat) : bool :=
  match fuel with
  | O => false
  | S fuel =>
      if bool_decide (size ≤ 1)%nat
      then match l !! base with Some y => bool_decide (y = x) | None => false end
      else
        let half := (size / 2)%nat in
        let mid := (base + half)%nat in
        let greater := match l !! mid with Some y => bool_decide (¬ key_le y x) | None => true end in
        search_go fuel l (if greater then base else mid) (size - half)
  end.
Definition binary_search_is_ok (l : list A) : bool :=
  if bool_decide (l = []) then false else search_go (length l) l 0 (length l).

Lemma sorted_lookup (R : relation A) l i j a b :
  StronglySorted R l → (i < j)%nat → l !! i = Some a → l !! j = Some b → R a b.
Proof.
  intros Hl. revert i j. induction Hl as [|y l _ IH Hy]; intros i j Hij Ha Hb; [done|].
  destruct j as [|j]; [lia|]. destruct i as [|i]; cbn in *.
  - injection Ha as <-. rewrite Forall_forall in Hy. by eapply Hy, list_elem_of_lookup_2.
  - apply (IH i j); [lia|done..].
Qed.

Lemma search_go_spec fuel l base size :
  StronglySorted key_lt l → (0 < size ≤ fuel)%nat → (base + size ≤ length l)%nat →
  (∀ i, l !! i = Some x → (base ≤ i < base + size)%nat) →
  search_go fuel l base size = true ↔ x ∈ l.
Proof.
  intros Hl. revert base size. induction fuel as [|fuel IH]; intros base size Hsize Hlen Hin; [lia|].
  cbn -[Nat.div]. case_bool_decide as H1.
  - destruct (lookup_lt_is_Some_2 l base) as [y Hy]; [lia|]. rewrite Hy, bool_decide_eq_true. split.
    + intros <-. by eapply list_elem_of_lookup_2.
    + intros [i Hi]%list_elem_of_lookup_1. assert (i = base) as -> by (specialize (Hin i Hi); lia). congruence.
  - assert (0 < size / 2 < size)%nat as Hhalf.
    { split; [apply Nat.div_str_pos; lia|apply Nat.div_lt; lia]. }
    destruct (lookup_lt_is_Some_2 l (base + size / 2)) as [y Hy]; [lia|]. rewrite Hy.
    assert (size / 2 ≤ size - size / 2)%nat.
    { pose proof (Nat.div_mod size 2). lia. }
    apply IH; [lia|case_bool_decide; lia|]. intros i Hi. specialize (Hin i Hi).
    case_bool_decide as Hyx.
    + destruct (decide (base + size / 2 ≤ i)%nat) as [Hle|]; [|lia]. exfalso. apply Hyx.
      destruct (decide (i = base + size / 2)%nat) as [->|]; [by rewrite Hi in Hy; injection Hy as ->|].
      eapply (sorted_lookup key_lt l (base + size / 2) i); [done|lia|done..].
    + destruct (decide (i < base + size / 2)%nat) as [Hlt|]; [|lia]. exfalso.
      destruct (sorted_lookup key_lt l i (base + size / 2) x y) as [Hxy Hne]; [done|lia|done..|].
      by apply Hne, (anti_symm key_le).
Qed.

(** On a sorted slice the search finds exactly the elements. *)
Lemma binary_search_spec l :
  StronglySorted key_lt l → binary_search_is_ok l = true ↔ x ∈ l.
Proof.
  intros Hl. unfold binary_search_is_ok. case_bool_decide as Hnil; [subst; by rewrite elem_of_nil|].
  apply search_go_spec; [done|destruct l; cbn; [done|lia]|lia|].
  intros i Hi. apply lookup_lt_Some in Hi. lia.
Qed.
End binary_search.
