(* ===== verification/Permissions.v ===== *)
(** * Permission grants for tool side effects ([crates/cd-core/src/permissions.rs])

    The session grant store, the decision whether a tool call may run without a
    new prompt, and the validation of a decision the user made in the UI. *)
From Stdlib Require Import ZArith Lia Ascii String.
From stdpp Require Import base tactics option list sets strings.
From S2P Require Import Prelude RustStr.

Local Open Scope string_scope.

(** ** Data *)

Inductive ToolSideEffect := Read | SoftWrite | HardWrite.
#[global] Instance ToolSideEffect_eq_dec : EqDecision ToolSideEffect.
Proof. solve_decision. Defined.

Inductive PermissionDecision := Deny | AllowOnce | AllowSessionPath.
#[global] Instance PermissionDecision_eq_dec : EqDecision PermissionDecision.
Proof. solve_decision. Defined.

(** [arguments] is the host's opaque JSON value; the permission code only
    carries it. *)
Record PermissionRequest {Value : Type} := {
  request_id : string;
  tool_name : string;
  side_effect : ToolSideEffect;
  target : string;
  reason : string;
  preview : string;
  arguments : Value;
  risk : string;
  type_confirm_phrase : option string;
}.
Arguments PermissionRequest Value : clear implicits.

(** [with_arguments]; [uuid] is the fresh [Uuid::new_v4().to_string()]. *)
Definition with_arguments {Value} (uuid tool_name : string) (side_effect : ToolSideEffect)
    (target reason preview risk : string) (arguments : Value) : PermissionRequest Value :=
  {| request_id := uuid; tool_name := tool_name; side_effect := side_effect;
     target := target; reason := reason; preview := preview; arguments := arguments;
     risk := risk;
     type_confirm_phrase :=
       if bool_decide (risk = "remote") || bool_decide (risk = "destructive")
       then Some "WRITE" else None |}.

Record PermissionState := {
  session_paths : list string;
  approved_tools : list string;
}.

Definition PermissionState_default : PermissionState :=
  {| session_paths := []; approved_tools := [] |}.

(** [if !v.iter().any(|x| x == &p) { v.push(p) }] *)
Definition push_new (v : list string) (p : string) : list string :=
  if existsb (λ x, bool_decide (x = p)) v then v else v ++ [p].

Definition allow_session_path (st : PermissionState) (path : string) : PermissionState :=
  {| session_paths := push_new (session_paths st) path;
     approved_tools := approved_tools st |}.

Definition allow_session_tool (st : PermissionState) (tool : string) : PermissionState :=
  {| session_paths := session_paths st;
     approved_tools := push_new (approved_tools st) tool |}.

(** ** Target classification *)

Definition is_confluence_write_target (target : string) : bool :=
  starts_with "confluence://" (trim target).

Definition is_destructive_memory_target (target : string) : bool :=
  let t := trim target in
  starts_with "mem://retract/" t || starts_with "mem://purge/" t.

Definition destructive_memory_hard_write (side : ToolSideEffect) (target : string) : bool :=
  bool_decide (side = HardWrite) && starts_with "mem://" (trim target).

Definition is_harvest_target (target : string) : bool :=
  starts_with "harvest://" (trim target).

Definition path_under_grant (path grant : string) : bool :=
  let path := trim_end_matches "/" (trim path) in
  let grant := trim_end_matches "/" (trim grant) in
  if is_empty grant then false
  else if bool_decide (path = grant) then true
  else starts_with (grant +:+ "/") path.

(** ** Decisions *)

Definition session_path_allowed (st : PermissionState) (path : string) : bool :=
  let path := trim path in
  existsb (λ grant, path_under_grant path grant) (session_paths st).

Definition session_tool_allowed (st : PermissionState) (tool : string) : bool :=
  existsb (λ t, bool_decide (t = tool)) (approved_tools st).

Definition may_execute_without_prompt (st : PermissionState)
    (side : ToolSideEffect) (target : string) : bool :=
  if starts_with "mcp__" target then
    bool_decide (side = Read) && session_tool_allowed st target
  else if is_destructive_memory_target target then false
  else if is_harvest_target target then false
  else if is_confluence_write_target target then false
  else
    match side with
    | Read => true
    | SoftWrite => session_path_allowed st target
    | HardWrite =>
        if destructive_memory_hard_write side target then false
        else session_path_allowed st target
    end.

(** The two error messages of [validate_decision]. *)
Inductive DecisionError :=
| SessionGrantNotAllowed
| TypeToConfirmRequired (expected : string).

Definition validate_decision {Value} (request : PermissionRequest Value)
    (decision : PermissionDecision) (typed_phrase : option string) :
    result DecisionError PermissionDecision :=
  if bool_decide (decision = Deny) then Ok Deny
  else if bool_decide (decision = AllowSessionPath) &&
          (is_confluence_write_target (target request) || is_harvest_target (target request))
  then Err SessionGrantNotAllowed
  else
    match type_confirm_phrase request with
    | Some expected =>
        let got := trim (default "" typed_phrase) in
        if negb (bool_decide (got = expected)) then Err (TypeToConfirmRequired expected)
        else Ok decision
    | None => Ok decision
    end.

(** A target whose writes always need a fresh confirmation. *)
Definition protected_target (side : ToolSideEffect) (target : string) : bool :=
  is_destructive_memory_target target || is_harvest_target target ||
  is_confluence_write_target target || destructive_memory_hard_write side target ||
  starts_with "mcp__" target.

(** ** Lemmas *)

Lemma push_new_elem v p x : x ∈ push_new v p ↔ x ∈ v ∨ x = p.
Proof.
  unfold push_new. destruct (existsb _ v) eqn:E.
  - apply existsb_elem_of in E as (y & Hy & <-%bool_decide_eq_true). set_solver.
  - rewrite elem_of_app, elem_of_cons, elem_of_nil. tauto.
Qed.

Lemma push_new_NoDup v p : NoDup v → NoDup (push_new v p).
Proof.
  intros Hv. unfold push_new. destruct (existsb _ v) eqn:E; [done|].
  apply NoDup_app. split_and!; [done| |by apply NoDup_singleton].
  intros x Hx ->%list_elem_of_singleton.
  apply not_true_iff_false in E. apply E, existsb_elem_of.
  exists p. by rewrite bool_decide_eq_true_2.
Qed.

Lemma session_tool_allowed_spec st tool :
  session_tool_allowed st tool = true ↔ tool ∈ approved_tools st.
Proof.
  unfold session_tool_allowed. rewrite existsb_elem_of.
  setoid_rewrite bool_decide_eq_true. naive_solver.
Qed.

Lemma session_path_allowed_spec st path :
  session_path_allowed st path = true ↔
    ∃ grant, grant ∈ session_paths st ∧ path_under_grant (trim path) grant = true.
Proof. unfold session_path_allowed. by rewrite existsb_elem_of. Qed.

(** What [path_under_grant] compares: the trimmed text without trailing
    separators. *)
Definition path_key (p : string) : string := trim_end_matches "/" (trim p).

Lemma path_under_grant_spec path grant :
  path_under_grant path grant = true ↔
    path_key grant ≠ "" ∧
    (path_key path = path_key grant ∨
     ∃ rest, path_key path = path_key grant +:+ "/" +:+ rest).
Proof.
  unfold path_under_grant, is_empty. fold (path_key path) (path_key grant).
  destruct (decide (path_key grant = "")) as [->|Hne]; [naive_solver|].
  rewrite bool_decide_eq_false_2 by done.
  destruct (decide (path_key path = path_key grant)) as [Heq|Hneq].
  { rewrite bool_decide_eq_true_2 by done. naive_solver. }
  rewrite bool_decide_eq_false_2, starts_with_spec by done.
  assert (∀ r, path_key path = (path_key grant +:+ "/") +:+ r ↔
               path_key path = path_key grant +:+ "/" +:+ r) as Hassoc.
  { intros r. by rewrite <-(assoc_L String.append). }
  setoid_rewrite Hassoc. naive_solver.
Qed.

Lemma may_execute_write_spec st side target :
  side ≠ Read →
  may_execute_without_prompt st side target =
    negb (protected_target side target) && session_path_allowed st target.
Proof.
  intros Hside. unfold may_execute_without_prompt, protected_target.
  destruct (starts_with "mcp__" target), (is_destructive_memory_target target),
    (is_harvest_target target), (is_confluence_write_target target), side; cbn; try done;
    by destruct (destructive_memory_hard_write _ _).
Qed.

Lemma validate_decision_Ok {Value} (request : PermissionRequest Value) decision typed d :
  validate_decision request decision typed = Ok d ↔
    d = decision ∧
    (decision ≠ Deny →
       (decision = AllowSessionPath →
          is_confluence_write_target (target request) = false ∧
          is_harvest_target (target request) = false) ∧
       (∀ phrase, type_confirm_phrase request = Some phrase →
          trim (default "" typed) = phrase)).
Proof.
  unfold validate_decision. generalize (trim (default "" typed)). intros got.
  destruct (type_confirm_phrase request) as [phrase|];
    destruct decision; repeat case_bool_decide; simplify_eq/=;
    destruct (is_confluence_write_target _), (is_harvest_target _); naive_solver.
Qed.

(** ** Properties *)

(** C2. Session path grants are boundary-safe: [path_under_grant] is
    transitive, an empty grant covers nothing, any other grant covers exactly
    itself and the paths that continue its text with a separator, and so a path
    whose text merely extends the grant's text (a sibling such as [/work-old]
    for the grant [/work]) is not covered. *)
Theorem path_under_grant_boundary_safe p g h :
  (path_under_grant p g = true → path_under_grant g h = true → path_under_grant p h = true) ∧
  (path_key g = "" → path_under_grant p g = false) ∧
  (path_key g ≠ "" → path_under_grant p g = true ↔
     ∃ rest, path_key p = path_key g +:+ rest ∧ (rest = "" ∨ starts_with "/" rest = true)) ∧
  (∀ rest, path_key p = path_key g +:+ rest → rest ≠ "" → starts_with "/" rest = false →
     path_under_grant p g = false).
Proof.
  split_and!.
  - rewrite !path_under_grant_spec.
    intros [? [Hp|[r Hp]]] [? [Hg|[r' Hg]]]; (split; [done|]); rewrite Hp, ?Hg; eauto.
    right. exists (r' +:+ "/" +:+ r). by rewrite <-!(assoc_L String.append).
  - intros Hg. apply not_true_is_false. rewrite path_under_grant_spec. naive_solver.
  - intros Hg. rewrite path_under_grant_spec. setoid_rewrite starts_with_spec. split.
    + intros [_ [Hp|[r Hp]]]; [exists ""; rewrite str_app_nil_r|]; eauto.
    + intros (rest & Hp & [->|[r ->]]); (split; [done|]); [|eauto].
      left. by rewrite str_app_nil_r in Hp.
  - intros rest Hp Hne Hsep. apply not_true_is_false. rewrite path_under_grant_spec, Hp.
    intros [_ [Heq|[r Heq]]].
    + rewrite <-(str_app_nil_r (path_key g)) in Heq at 2. by apply str_app_cancel in Heq.
    + apply str_app_cancel in Heq. apply not_true_iff_false in Hsep. apply Hsep.
      apply starts_with_spec. eauto.
Qed.

(** Which writes run on a session grant: a [SoftWrite] or [HardWrite] runs
    without a prompt exactly when its target is unprotected and some session
    path covers it; recording a further path only adds targets, and recording
    a tool changes nothing for writes. *)
Theorem write_auto_run_iff st side target path tool :
  side ≠ Read →
  (may_execute_without_prompt st side target = true ↔
     protected_target side target = false ∧
     ∃ grant, grant ∈ session_paths st ∧ path_under_grant (trim target) grant = true) ∧
  (may_execute_without_prompt st side target = true →
     may_execute_without_prompt (allow_session_path st path) side target = true) ∧
  may_execute_without_prompt (allow_session_tool st tool) side target =
    may_execute_without_prompt st side target.
Proof.
  intros Hside. rewrite !may_execute_write_spec by done.
  rewrite !andb_true_iff, !negb_true_iff, !session_path_allowed_spec. split_and!; [done|..].
  - intros (? & grant & Hin & ?). split; [done|]. exists grant.
    split; [|done]. cbn. apply push_new_elem. auto.
  - done.
Qed.

Lemma path_under_grant_boundary_safe_witness :
  path_under_grant "/work-old/x" "/work" = false ∧ path_under_grant "/work/a/b" "/work/" = true.
Proof.
  split.
  - apply (proj2 (proj2 (proj2 (path_under_grant_boundary_safe "/work-old/x" "/work" "/"))) "-old/x");
      [vm_compute; reflexivity|done|vm_compute; reflexivity].
  - apply (proj1 (path_under_grant_boundary_safe "/work/a/b" "/work/a" "/work/"));
      vm_compute; reflexivity.
Defined.

Lemma write_auto_run_iff_witness :
  may_execute_without_prompt
    (allow_session_path (allow_session_path PermissionState_default "/work") "/other")
    SoftWrite "/work/a" = true.
Proof.
  apply (proj1 (proj2 (write_auto_run_iff
    (allow_session_path PermissionState_default "/work") SoftWrite "/work/a" "/other" "t"
    ltac:(discriminate)))).
  vm_compute. reflexivity.
Defined.
