(* ===== verification/ToolGate.v ===== *)
(** * The permission gate of the tool host ([crates/cd-core/src/tool_host.rs])

    The part of [ToolHost] that decides whether a tool call runs: the pending
    requests, the one-shot grants, the session grants of [Permissions] and the
    audit calls. [complete_permission] is the UI's entry, [execute_gate] the
    part of [execute] between the resolution of the call and its dispatch. *)
From Stdlib Require Import ZArith Lia Ascii String.
From stdpp Require Import base tactics option list gmap strings.
From S2P Require Import Prelude RustStr Permissions.

Local Open Scope string_scope.

Definition may_auto_execute (side : ToolSideEffect) : bool := bool_decide (side = Read).

Definition CONFLUENCE_CREATE_PAGE : string := "confluence_create_page".
Definition CONFLUENCE_UPDATE_PAGE : string := "confluence_update_page".

(** Every [SoftWrite] arm of the source returns ["local"]. *)
Definition risk_for (side : ToolSideEffect) (name : string) : string :=
  match side with
  | Read => "local"
  | SoftWrite => "local"
  | HardWrite =>
      if bool_decide (name = CONFLUENCE_CREATE_PAGE) ||
         bool_decide (name = CONFLUENCE_UPDATE_PAGE)
      then "remote" else "destructive"
  end.

Definition parse_mcp_tool_name (full : string) : option (string * string) :=
  rest ← strip_prefix "mcp__" full; split_once "__" rest.

Definition prompt_reason (name : string) : string :=
  if starts_with "mcp__" name then
    match parse_mcp_tool_name name with
    | Some (server, tool) =>
        "MCP server `" +:+ server +:+ "` requests tool `" +:+ tool +:+ "`"
    | None => "Untrusted MCP tool"
    end
  else "tool requested write".

(** One call of [audit_log]; whether a sink is attached is the host's choice. *)
Record AuditCall := {
  au_tool : string;
  au_side : ToolSideEffect;
  au_target : string;
  au_outcome : string;
  au_detail : string;
}.

Record GateState {Value : Type} := {
  permissions : PermissionState;
  pending : gmap string (PermissionRequest Value);
  approved_once : gmap string (string * string);
  audit : list AuditCall;
}.
Arguments GateState Value : clear implicits.

Inductive GateError :=
| UnknownOrExpiredRequest
| McpWriteNeedsAllowOnce
| InvalidDecision (e : DecisionError)
| InvalidGrant.

(** What [execute] receives once the name, side effect and write target of the
    call are resolved; [call_uuid] is the id the prompt would get. *)
Record ToolCall {Value : Type} := {
  call_name : string;
  call_side : ToolSideEffect;
  call_target : string;
  call_grant : option string;
  call_uuid : string;
  call_preview : string;
  call_arguments : Value;
}.
Arguments ToolCall Value : clear implicits.

(** [Proceed] reaches the dispatch; the payload is the one-shot grant it
    consumed, if any. *)
Inductive GateOutcome {Value : Type} :=
| Proceed (consumed : option string)
| Prompt (req : PermissionRequest Value)
| Refused (e : GateError).
Arguments GateOutcome Value : clear implicits.

Section gate.
Context {Value : Type}.
Implicit Types (st : GateState Value) (call : ToolCall Value).

Definition gate_initial : GateState Value :=
  {| permissions := PermissionState_default; pending := ∅; approved_once := ∅; audit := [] |}.

Definition audit_request (req : PermissionRequest Value) (outcome detail : string) : AuditCall :=
  {| au_tool := tool_name req; au_side := side_effect req; au_target := target req;
     au_outcome := outcome; au_detail := detail |}.

(** The body of [complete_permission] after the request left [pending]. *)
Definition settle_permission st (rid : string) (req : PermissionRequest Value)
    (decision : PermissionDecision) : GateState Value :=
  match decision with
  | Deny =>
      {| permissions := permissions st; pending := pending st;
         approved_once := approved_once st;
         audit := audit st ++ [audit_request req "denied" (reason req)] |}
  | AllowOnce =>
      {| permissions := permissions st; pending := pending st;
         approved_once := <[rid := (tool_name req, target req)]> (approved_once st);
         audit := audit st ++ [audit_request req "granted" "allow_once"] |}
  | AllowSessionPath =>
      {| permissions :=
           (if starts_with "mcp__" (tool_name req)
            then allow_session_tool (permissions st) (tool_name req)
            else allow_session_path (permissions st) (target req));
         pending := pending st; approved_once := approved_once st;
         audit := audit st ++ [audit_request req "granted" "allow_session_path"] |}
  end.

Definition set_pending st (m : gmap string (PermissionRequest Value)) : GateState Value :=
  {| permissions := permissions st; pending := m;
     approved_once := approved_once st; audit := audit st |}.

Definition complete_permission st (rid : string) (decision : PermissionDecision)
    (typed : option string) :
    result GateError (PermissionRequest Value * PermissionDecision) * GateState Value :=
  let precheck : result GateError unit :=
    if bool_decide (decision = AllowSessionPath) then
      match pending st !! rid with
      | None => Err UnknownOrExpiredRequest
      | Some req =>
          reject_if (starts_with "mcp__" (tool_name req) &&
                     negb (bool_decide (side_effect req = Read))) McpWriteNeedsAllowOnce
      end
    else Ok tt in
  match precheck with
  | Err e => (Err e, st)
  | Ok _ =>
      match pending st !! rid with
      | None => (Err UnknownOrExpiredRequest, st)
      | Some req =>
          let st := set_pending st (delete rid (pending st)) in
          match validate_decision req decision typed with
          | Err e => (Err (InvalidDecision e), st)
          | Ok decision => (Ok (req, decision), settle_permission st rid req decision)
          end
      end
  end.

Definition consume_grant st (rid name target : string) : bool * GateState Value :=
  match approved_once st !! rid with
  | Some (tool, tgt) =>
      (bool_decide (tool = name) && bool_decide (tgt = target),
       {| permissions := permissions st; pending := pending st;
          approved_once := delete rid (approved_once st); audit := audit st |})
  | None => (false, st)
  end.

Definition promote_mcp_read st call : GateState Value :=
  if starts_with "mcp__" (call_name call) && bool_decide (call_side call = Read) then
    {| permissions := allow_session_tool (permissions st) (call_name call);
       pending := pending st; approved_once := approved_once st; audit := audit st |}
  else st.

Definition execute_gate st call : GateOutcome Value * GateState Value :=
  let name := call_name call in
  let side := call_side call in
  let target := call_target call in
  let mcp_first_use :=
    starts_with "mcp__" name && negb (session_tool_allowed (permissions st) name) in
  let needs_prompt :=
    mcp_first_use ||
    (negb (may_auto_execute side) &&
     negb (may_execute_without_prompt (permissions st) side target)) in
  if needs_prompt then
    match call_grant call with
    | Some rid =>
        let (valid, st) := consume_grant st rid name target in
        if negb valid then (Refused InvalidGrant, st)
        else (Proceed (Some rid), promote_mcp_read st call)
    | None =>
        let req :=
          with_arguments (call_uuid call) name side target (prompt_reason name)
            (call_preview call) (risk_for side name) (call_arguments call) in
        (Prompt req,
         {| permissions := permissions st;
            pending := <[request_id req := req]> (pending st);
            approved_once := approved_once st;
            audit := audit st ++ [audit_request req "pending" "permission required"] |})
    end
  else (Proceed None, st).

(** ** Executions of the gate *)

(** One interaction with the gate, together with what it answered. *)
Inductive GateEvent :=
| Decided (rid : string) (decision : PermissionDecision) (typed : option string)
    (answer : result GateError (PermissionRequest Value * PermissionDecision))
| Called (call : ToolCall Value) (outcome : GateOutcome Value).

Inductive gate_step : GateState Value → GateEvent → GateState Value → Prop :=
| step_decide st rid decision typed answer st' :
    complete_permission st rid decision typed = (answer, st') →
    gate_step st (Decided rid decision typed answer) st'
| step_call st call outcome st' :
    execute_gate st call = (outcome, st') →
    gate_step st (Called call outcome) st'.

(** States reachable from a fresh host; the history is newest first. *)
Inductive reachable : list GateEvent → GateState Value → Prop :=
| reachable_initial : reachable [] gate_initial
| reachable_step h st ev st' :
    reachable h st → gate_step st ev st' → reachable (ev :: h) st'.

(** The user accepted [req] with [decision] during [h], typing the
    confirmation phrase where the request asks for one. *)
Definition user_accepted (h : list GateEvent) (req : PermissionRequest Value)
    (decision : PermissionDecision) : Prop :=
  ∃ rid typed,
    Decided rid decision typed (Ok (req, decision)) ∈ h ∧
    decision ≠ Deny ∧
    ∀ phrase, type_confirm_phrase req = Some phrase → trim (default "" typed) = phrase.

Definition consumes (ev : GateEvent) : bool :=
  match ev with Called _ (Proceed (Some _)) => true | _ => false end.
Definition grants_once (ev : GateEvent) : bool :=
  match ev with Decided _ _ _ (Ok (_, AllowOnce)) => true | _ => false end.
Definition count_events (p : GateEvent → bool) (h : list GateEvent) : nat :=
  length (List.filter p h).

(** The invariant: every grant the host holds goes back to an accepted UI
    decision, and one-shot grants are not duplicated. *)
Record gate_inv (h : list GateEvent) st : Prop := {
  inv_once : ∀ rid tool tgt, approved_once st !! rid = Some (tool, tgt) →
    ∃ req, user_accepted h req AllowOnce ∧ tool_name req = tool ∧ target req = tgt;
  inv_paths : ∀ p, p ∈ session_paths (permissions st) →
    ∃ req, user_accepted h req AllowSessionPath ∧ target req = p ∧
      is_confluence_write_target p = false ∧ is_harvest_target p = false;
  inv_tools : ∀ t, t ∈ approved_tools (permissions st) →
    ∃ req d, user_accepted h req d ∧ tool_name req = t;
  inv_nodup : NoDup (session_paths (permissions st)) ∧
              NoDup (approved_tools (permissions st));
  inv_count : (count_events consumes h + size (approved_once st) ≤ count_events grants_once h)%nat;
}.

(** ** Lemmas *)

Lemma user_accepted_cons ev h req d :
  user_accepted h req d → user_accepted (ev :: h) req d.
Proof. intros (rid & typed & ? & ?). exists rid, typed. by rewrite elem_of_cons; auto. Qed.

Lemma count_events_cons p ev h :
  count_events p (ev :: h) = ((if p ev then 1 else 0) + count_events p h)%nat.
Proof. unfold count_events. cbn. by destruct (p ev). Qed.

#[local] Arguments count_events : simpl never.

Lemma gate_inv_initial : gate_inv [] gate_initial.
Proof.
  split; cbn.
  - intros rid tool tgt H. by rewrite lookup_empty in H.
  - by intros p ?%elem_of_nil.
  - by intros t ?%elem_of_nil.
  - split; constructor.
  - by rewrite map_size_empty.
Qed.

(** The invariant reads the permissions and the one-shot grants only. *)
Lemma gate_inv_frame h ev st st' :
  gate_inv h st → permissions st' = permissions st →
  approved_once st' ⊆ approved_once st →
  ((if consumes ev then 1 else 0) + size (approved_once st') ≤ size (approved_once st))%nat →
  gate_inv (ev :: h) st'.
Proof.
  intros [Honce Hpaths Htools Hnd Hcount] Hperm Hsub Hsize. split.
  - intros rid tool tgt Hl. destruct (Honce rid tool tgt) as (req & ? & ?).
    { by eapply lookup_weaken. }
    exists req. eauto using user_accepted_cons.
  - rewrite Hperm. intros p Hp. destruct (Hpaths p Hp) as (req & ? & ?).
    exists req. eauto using user_accepted_cons.
  - rewrite Hperm. intros t Ht. destruct (Htools t Ht) as (req & d & ? & ?).
    exists req, d. eauto using user_accepted_cons.
  - by rewrite Hperm.
  - rewrite !count_events_cons. lia.
Qed.

Lemma gate_inv_weaken h ev st :
  gate_inv h st → consumes ev = false → gate_inv (ev :: h) st.
Proof. intros H Hev. eapply gate_inv_frame; [done..|]. rewrite Hev. cbn. lia. Qed.

(** A newly approved session tool keeps the invariant when a decision for it
    was accepted. *)
Lemma gate_inv_allow_tool h st tool req d :
  gate_inv h st → user_accepted h req d → tool_name req = tool →
  gate_inv h {| permissions := allow_session_tool (permissions st) tool;
                pending := pending st; approved_once := approved_once st;
                audit := audit st |}.
Proof.
  intros [Honce Hpaths Htools [Hnd1 Hnd2] Hcount] Hacc Htool. split; cbn; try done.
  - intros t [?| ->]%push_new_elem; [by apply Htools|]. eauto.
  - split; [done|]. by apply push_new_NoDup.
Qed.

Lemma settle_inv h st rid typed req decision :
  gate_inv h st → validate_decision req decision typed = Ok decision →
  gate_inv (Decided rid decision typed (Ok (req, decision)) :: h)
    (settle_permission st rid req decision).
Proof.
  intros Hinv [_ Hval]%validate_decision_Ok.
  set (ev := Decided rid decision typed (Ok (req, decision))).
  assert (decision ≠ Deny → user_accepted (ev :: h) req decision) as Hacc.
  { intros Hd. exists rid, typed. split_and!; [by left|done|by apply Hval]. }
  pose proof (gate_inv_weaken h ev st Hinv eq_refl) as [Honce Hpaths Htools [Hnd1 Hnd2] _].
  pose proof (inv_count _ _ Hinv) as Hcount.
  destruct decision; cbn.
  - by apply gate_inv_frame with st.
  - split; cbn; try done.
    + intros rid' tool tgt Hl. destruct (decide (rid = rid')) as [<-|Hne].
      * rewrite lookup_insert_eq in Hl. simplify_eq. exists req. split_and!; auto.
      * rewrite lookup_insert_ne in Hl by done. by apply (Honce rid').
    + rewrite !count_events_cons. cbn.
      rewrite map_size_insert. destruct (approved_once st !! rid); cbn; lia.
  - destruct (starts_with "mcp__" (tool_name req)).
    + split; cbn; try done.
      * intros t [?| ->]%push_new_elem; [by apply Htools|]. eauto.
      * split; [done|]. by apply push_new_NoDup.
    + split; cbn; try done.
      * intros p [?| ->]%push_new_elem; [by apply Hpaths|].
        destruct (Hval ltac:(done)) as [Hprot _]. exists req. split_and!; naive_solver.
      * split; [|done]. by apply push_new_NoDup.
Qed.

Lemma complete_permission_inv h st rid decision typed answer st' :
  gate_inv h st → complete_permission st rid decision typed = (answer, st') →
  gate_inv (Decided rid decision typed answer :: h) st'.
Proof.
  unfold complete_permission. intros Hinv Heq.
  destruct (if bool_decide _ then _ else _) as [u|e]; simplify_eq;
    [|by apply gate_inv_weaken].
  destruct (pending st !! rid) as [req|] eqn:Hreq; simplify_eq;
    [|by apply gate_inv_weaken].
  destruct (validate_decision req decision typed) as [d|e] eqn:Hval; simplify_eq.
  - pose proof (proj1 (proj1 (validate_decision_Ok _ _ _ _) Hval)) as ->.
    apply settle_inv; [|done]. by destruct Hinv; split.
  - by apply gate_inv_frame with st.
Qed.

Lemma consume_grant_true h st rid name tgt st' :
  gate_inv h st → consume_grant st rid name tgt = (true, st') →
  (∃ req, user_accepted h req AllowOnce ∧ tool_name req = name ∧ target req = tgt) ∧
  ∀ ev, gate_inv (ev :: h) st'.
Proof.
  unfold consume_grant. intros Hinv Heq.
  destruct (approved_once st !! rid) as [[tool tg]|] eqn:Hl; simplify_eq.
  repeat case_bool_decide; simplify_eq/=. split.
  { by apply (inv_once _ _ Hinv rid). }
  intros ev. apply gate_inv_frame with st; cbn; [done..| |].
  - apply delete_subseteq.
  - rewrite map_size_delete_Some by (by eexists).
    assert (size (approved_once st) ≠ 0%nat) as ?.
    { intros Hz%map_size_empty_iff. by rewrite Hz, lookup_empty in Hl. }
    destruct (consumes ev); lia.
Qed.

Lemma execute_gate_inv h st call outcome st' :
  gate_inv h st → execute_gate st call = (outcome, st') →
  gate_inv (Called call outcome :: h) st'.
Proof.
  unfold execute_gate. intros Hinv Heq.
  destruct (_ || _); simplify_eq; [|by apply gate_inv_weaken].
  destruct (call_grant call) as [rid|]; simplify_eq; [|by apply gate_inv_frame with st].
  destruct (consume_grant st rid _ _) as [[] st1] eqn:Hc; simplify_eq/=.
  - destruct (consume_grant_true _ _ _ _ _ _ Hinv Hc) as [(req & Hacc & Htool & _) Hinv1].
    unfold promote_mcp_read. destruct (_ && _); [|by apply Hinv1].
    eapply gate_inv_allow_tool; eauto using user_accepted_cons.
  - unfold consume_grant in Hc. destruct (approved_once st !! rid) as [[]|] eqn:Hl;
      simplify_eq; [|by apply gate_inv_weaken].
    apply gate_inv_frame with st; cbn; [done..|apply delete_subseteq|].
    apply map_subseteq_size, delete_subseteq.
Qed.

Lemma reachable_inv h st : reachable h st → gate_inv h st.
Proof.
  induction 1 as [|h st ev st' _ IH Hstep]; [apply gate_inv_initial|].
  destruct Hstep; eauto using complete_permission_inv, execute_gate_inv.
Qed.
End gate.

(** ** Properties *)

Lemma execute_gate_Proceed {Value} (st : GateState Value) call c st' :
  execute_gate st call = (Proceed c, st') →
  (∃ rid st1, c = Some rid ∧ call_grant call = Some rid ∧
     consume_grant st rid (call_name call) (call_target call) = (true, st1)) ∨
  (c = None ∧
   (starts_with "mcp__" (call_name call) = true →
      session_tool_allowed (permissions st) (call_name call) = true) ∧
   (call_side call ≠ Read →
      may_execute_without_prompt (permissions st) (call_side call) (call_target call) = true)).
Proof.
  unfold execute_gate, may_auto_execute. intros Heq.
  destruct (_ || _) eqn:Hprompt.
  - left. destruct (call_grant call) as [rid|] eqn:Hg; [|done].
    destruct (consume_grant _ _ _ _) as [[] st1] eqn:Hc; simplify_eq/=. eauto 10.
  - right. simplify_eq. split_bool. split_and!; [done|..].
    + intros Hm. rewrite Hm in *. cbn in *. by split_bool.
    + intros Hs. rewrite bool_decide_eq_false_2 in * by done. cbn in *. by split_bool.
Qed.

(** C1. A call of a write tool runs only with the user's consent: in every
    state the gate can reach, a [SoftWrite] or [HardWrite] call that is let
    through either consumed a one-shot grant the user gave for this very tool
    and target, or lies under a path the user allowed for the session; in the
    second case the target is none of the protected ones (MCP tools,
    destructive memory, harvest, Confluence, HardWrite memory). Typed
    confirmation phrases were entered wherever the request asked for one. *)
Theorem write_runs_only_with_user_consent {Value} h (st st' : GateState Value) call c :
  reachable h st → execute_gate st call = (Proceed c, st') → call_side call ≠ Read →
  (∃ rid req, c = Some rid ∧ user_accepted h req AllowOnce ∧
     tool_name req = call_name call ∧ target req = call_target call) ∨
  (∃ req, user_accepted h req AllowSessionPath ∧
     path_under_grant (trim (call_target call)) (target req) = true ∧
     protected_target (call_side call) (call_target call) = false).
Proof.
  intros Hinv%reachable_inv [(rid & st1 & -> & _ & Hc)|(-> & _ & Hauto)]%execute_gate_Proceed Hs.
  - left. destruct (consume_grant_true _ _ _ _ _ _ Hinv Hc) as [(req & ?) _]. by exists rid, req.
  - right. specialize (Hauto Hs). rewrite may_execute_write_spec in Hauto by done.
    split_bool. match goal with H : session_path_allowed _ _ = true |- _ =>
      apply session_path_allowed_spec in H as (g & Hg & Hunder) end.
    destruct (inv_paths _ _ Hinv g Hg) as (req & ? & <- & _). eauto.
Qed.

(** C36. One-shot grants are one-shot: along every history, the calls that ran
    on an [AllowOnce] grant are at most as many as the accepted [AllowOnce]
    decisions, so no grant is replayed. *)
Theorem one_shot_grants_not_replayed {Value} h (st : GateState Value) :
  reachable h st → (count_events consumes h ≤ count_events grants_once h)%nat.
Proof. intros Hinv%reachable_inv. pose proof (inv_count _ _ Hinv). lia. Qed.

(** MCP tools always pass a first-use prompt: in every reachable state, an
    MCP call that is let through, whatever its side-effect class, names a tool
    for which the user accepted a request before; an MCP write consumed a
    one-shot grant for exactly this call. *)
Theorem mcp_call_needs_prior_consent {Value} h (st st' : GateState Value) call c :
  reachable h st → execute_gate st call = (Proceed c, st') →
  starts_with "mcp__" (call_name call) = true → call_target call = call_name call →
  (∃ req d, user_accepted h req d ∧ tool_name req = call_name call) ∧
  (call_side call ≠ Read → is_Some c).
Proof.
  intros Hinv%reachable_inv [(rid & st1 & -> & _ & Hc)|(-> & Htool & Hauto)]%execute_gate_Proceed
    Hm Htgt.
  - destruct (consume_grant_true _ _ _ _ _ _ Hinv Hc) as [(req & Hacc & Hn & _) _].
    split; [by exists req, AllowOnce|by eexists].
  - split.
    + apply (inv_tools _ _ Hinv), session_tool_allowed_spec. by apply Htool.
    + intros Hs. specialize (Hauto Hs). rewrite may_execute_write_spec in Hauto by done.
      split_bool. unfold protected_target in *. rewrite Htgt, Hm, orb_true_r in *. done.
Qed.

(** A decision that is refused grants nothing: when [complete_permission]
    answers with an error (unknown request, MCP session grant for a write,
    session grant for Confluence or harvest, wrong confirmation phrase), the
    session grants and the one-shot grants are those from before, no audit
    entry is written, and no request became pending. *)
Theorem refused_decision_grants_nothing {Value} (st st' : GateState Value) rid decision typed e :
  complete_permission st rid decision typed = (Err e, st') →
  permissions st' = permissions st ∧ approved_once st' = approved_once st ∧
  audit st' = audit st ∧ pending st' ⊆ pending st.
Proof.
  unfold complete_permission. intros Heq.
  destruct (if bool_decide _ then _ else _) as [u|e0]; simplify_eq; [|done].
  destruct (pending st !! rid) as [req|]; simplify_eq; [|done].
  destruct (validate_decision req decision typed) as [d|e0]; simplify_eq.
  cbn. split_and!; [done..|]. apply delete_subseteq.
Qed.

(** ** Witnesses *)

Definition demo_call (grant : option string) : ToolCall unit :=
  {| call_name := "write_file"; call_side := HardWrite; call_target := "/work/notes.md";
     call_grant := grant; call_uuid := "r1"; call_preview := "preview"; call_arguments := tt |}.
Definition demo_prompt := execute_gate gate_initial (demo_call None).
Definition demo_decide := complete_permission demo_prompt.2 "r1" AllowOnce (Some " WRITE ").
Definition demo_run := execute_gate demo_decide.2 (demo_call (Some "r1")).
Definition demo_history : list (@GateEvent unit) :=
  [Decided "r1" AllowOnce (Some " WRITE ") demo_decide.1; Called (demo_call None) demo_prompt.1].

Lemma demo_reachable : reachable demo_history demo_decide.2.
Proof.
  unfold demo_history. eapply reachable_step with (st := demo_prompt.2).
  - eapply reachable_step with (st := gate_initial); [constructor|].
    apply step_call. by destruct (execute_gate _ _) eqn:E; unfold demo_prompt; rewrite E.
  - apply step_decide. by destruct (complete_permission _ _ _ _) eqn:E; unfold demo_decide; rewrite E.
Qed.

Lemma write_runs_only_with_user_consent_witness :
  (∃ rid req, Some "r1" = Some rid ∧ user_accepted demo_history req AllowOnce ∧
     tool_name req = "write_file" ∧ target req = "/work/notes.md") ∨
  (∃ req, user_accepted demo_history req AllowSessionPath ∧
     path_under_grant (trim "/work/notes.md") (target req) = true ∧
     protected_target HardWrite "/work/notes.md" = false).
Proof.
  apply (write_runs_only_with_user_consent demo_history demo_decide.2 demo_run.2
           (demo_call (Some "r1")) (Some "r1") demo_reachable); [|done].
  vm_compute. reflexivity.
Defined.

Lemma one_shot_grants_not_replayed_witness :
  (count_events consumes demo_history ≤ 1)%nat.
Proof. exact (one_shot_grants_not_replayed demo_history demo_decide.2 demo_reachable). Defined.

Definition demo_mcp_call (grant : option string) : ToolCall unit :=
  {| call_name := "mcp__jira__create"; call_side := HardWrite;
     call_target := "mcp__jira__create"; call_grant := grant; call_uuid := "r2";
     call_preview := "preview"; call_arguments := tt |}.
Definition demo_mcp_prompt := execute_gate gate_initial (demo_mcp_call None).
Definition demo_mcp_decide := complete_permission demo_mcp_prompt.2 "r2" AllowOnce (Some "WRITE").
Definition demo_mcp_history : list (@GateEvent unit) :=
  [Decided "r2" AllowOnce (Some "WRITE") demo_mcp_decide.1;
   Called (demo_mcp_call None) demo_mcp_prompt.1].

Lemma demo_mcp_reachable : reachable demo_mcp_history demo_mcp_decide.2.
Proof.
  unfold demo_mcp_history. eapply reachable_step with (st := demo_mcp_prompt.2).
  - eapply reachable_step with (st := gate_initial); [constructor|].
    apply step_call. by destruct (execute_gate _ _) eqn:E; unfold demo_mcp_prompt; rewrite E.
  - apply step_decide.
    by destruct (complete_permission _ _ _ _) eqn:E; unfold demo_mcp_decide; rewrite E.
Qed.

Lemma mcp_call_needs_prior_consent_witness :
  (∃ req d, user_accepted demo_mcp_history req d ∧ tool_name req = "mcp__jira__create") ∧
  (HardWrite ≠ Read → is_Some (Some "r2")).
Proof.
  apply (mcp_call_needs_prior_consent demo_mcp_history demo_mcp_decide.2
           (execute_gate demo_mcp_decide.2 (demo_mcp_call (Some "r2"))).2
           (demo_mcp_call (Some "r2")) (Some "r2") demo_mcp_reachable);
    vm_compute; reflexivity.
Defined.

Lemma refused_decision_grants_nothing_witness :
  permissions (complete_permission demo_prompt.2 "r1" AllowOnce (Some "yes")).2 =
    permissions demo_prompt.2.
Proof.
  apply (refused_decision_grants_nothing demo_prompt.2 _ "r1" AllowOnce (Some "yes")
           (InvalidDecision (TypeToConfirmRequired "WRITE"))).
  vm_compute. reflexivity.
Defined.
