(* ===== verification/Net.v ===== *)
(** * The parts of Rust's [std::net] the host code uses

    Addresses, their classification predicates, and [IpAddr::from_str]. *)
From Stdlib Require Import ZArith Lia Ascii String.
From stdpp Require Import base tactics option list strings.
From S2P Require Import Prelude RustStr.

Local Open Scope Z_scope.

(** Four octets; eight 16-bit segments. *)
Record Ipv4Addr := V4Addr { o0 : Z; o1 : Z; o2 : Z; o3 : Z }.
Record Ipv6Addr := V6Addr {
  s0 : Z; s1 : Z; s2 : Z; s3 : Z; s4 : Z; s5 : Z; s6 : Z; s7 : Z }.
Inductive IpAddr := V4 (a : Ipv4Addr) | V6 (a : Ipv6Addr).
#[global] Instance Ipv4Addr_eq_dec : EqDecision Ipv4Addr.
Proof. solve_decision. Defined.
#[global] Instance Ipv6Addr_eq_dec : EqDecision Ipv6Addr.
Proof. solve_decision. Defined.
#[global] Instance IpAddr_eq_dec : EqDecision IpAddr.
Proof. solve_decision. Defined.

Definition octet_ok (x : Z) : Prop := 0 ≤ x ≤ 255.
Definition v4_ok (a : Ipv4Addr) : Prop :=
  octet_ok (o0 a) ∧ octet_ok (o1 a) ∧ octet_ok (o2 a) ∧ octet_ok (o3 a).

Definition v4_is_loopback (a : Ipv4Addr) : bool := o0 a =? 127.
Definition v4_is_unspecified (a : Ipv4Addr) : bool := bool_decide (a = V4Addr 0 0 0 0).
Definition v4_is_broadcast (a : Ipv4Addr) : bool := bool_decide (a = V4Addr 255 255 255 255).
Definition v4_is_link_local (a : Ipv4Addr) : bool := (o0 a =? 169) && (o1 a =? 254).
Definition v4_is_private (a : Ipv4Addr) : bool :=
  (o0 a =? 10) ||
  ((o0 a =? 172) && (16 <=? o1 a) && (o1 a <=? 31)) ||
  ((o0 a =? 192) && (o1 a =? 168)).

Definition v6_is_loopback (a : Ipv6Addr) : bool := bool_decide (a = V6Addr 0 0 0 0 0 0 0 1).
Definition v6_is_unspecified (a : Ipv6Addr) : bool := bool_decide (a = V6Addr 0 0 0 0 0 0 0 0).
Definition v6_is_unique_local (a : Ipv6Addr) : bool := Z.land (s0 a) 0xfe00 =? 0xfc00.
Definition v6_is_unicast_link_local (a : Ipv6Addr) : bool := Z.land (s0 a) 0xffc0 =? 0xfe80.

(** The IPv4 address in the two low segments. *)
Definition v6_low_v4 (a : Ipv6Addr) : Ipv4Addr :=
  V4Addr (s6 a / 256) (s6 a mod 256) (s7 a / 256) (s7 a mod 256).
Definition v6_high_zero (a : Ipv6Addr) : bool :=
  (s0 a =? 0) && (s1 a =? 0) && (s2 a =? 0) && (s3 a =? 0) && (s4 a =? 0).
(** [::ffff:a.b.c.d] *)
Definition to_ipv4_mapped (a : Ipv6Addr) : option Ipv4Addr :=
  if v6_high_zero a && (s5 a =? 0xffff) then Some (v6_low_v4 a) else None.
(** [::ffff:a.b.c.d] and [::a.b.c.d] *)
Definition to_ipv4 (a : Ipv6Addr) : option Ipv4Addr :=
  if v6_high_zero a && ((s5 a =? 0) || (s5 a =? 0xffff)) then Some (v6_low_v4 a) else None.
(** [Ipv4Addr::to_ipv6_mapped] and [to_ipv6_compatible] *)
Definition to_ipv6_mapped (a : Ipv4Addr) : Ipv6Addr :=
  V6Addr 0 0 0 0 0 0xffff (o0 a * 256 + o1 a) (o2 a * 256 + o3 a).
Definition to_ipv6_compatible (a : Ipv4Addr) : Ipv6Addr :=
  V6Addr 0 0 0 0 0 0 (o0 a * 256 + o1 a) (o2 a * 256 + o3 a).

(** ** [IpAddr::from_str]

    A parser consumes a prefix of the bytes or fails without consuming, as the
    standard library's does. *)

Definition parser (A : Type) : Type := list ascii → option (A * list ascii).

Definition to_digit (radix : Z) (c : ascii) : option Z :=
  let d := if in_range 48 57 c then bv c - 48
           else if in_range 97 102 c then bv c - 87
           else if in_range 65 70 c then bv c - 55 else radix in
  if d <? radix then Some d else None.

Definition read_given_char (c : ascii) : parser unit := λ s,
  match s with a :: r => if bool_decide (a = c) then Some (tt, r) else None | [] => None end.

(** [read_number]: digits while they last; more than [max_digits], a value
    over [max], or a forbidden leading zero fail. *)
Fixpoint read_digits (radix max : Z) (max_digits : nat) (acc : Z) (count : nat)
    (s : list ascii) : option (Z * nat * list ascii) :=
  match s with
  | [] => Some (acc, count, [])
  | c :: r =>
      match to_digit radix c with
      | None => Some (acc, count, s)
      | Some d =>
          let acc := acc * radix + d in
          if max <? acc then None
          else if bool_decide (max_digits < S count)%nat then None
          else read_digits radix max max_digits acc (S count) r
      end
  end.
Definition read_number (radix max : Z) (max_digits : nat) (allow_zero_prefix : bool) :
    parser Z := λ s,
  match read_digits radix max max_digits 0 0 s with
  | Some (n, count, r) =>
      let leading_zero := match s with c :: _ => bool_decide (c = "0"%char) | [] => false end in
      if bool_decide (count = 0%nat) then None
      else if negb allow_zero_prefix && leading_zero && bool_decide (1 < count)%nat then None
      else Some (n, r)
  | None => None
  end.

Definition read_octet : parser Z := read_number 10 255 3 false.

Definition read_ipv4_addr : parser Ipv4Addr := λ s,
  '(a, s) ← read_octet s; '(_, s) ← read_given_char "." s;
  '(b, s) ← read_octet s; '(_, s) ← read_given_char "." s;
  '(c, s) ← read_octet s; '(_, s) ← read_given_char "." s;
  '(d, s) ← read_octet s; Some (V4Addr a b c d, s).

(** [read_separator(':', i, p)] *)
Definition read_separated {A} (i : nat) (p : parser A) : parser A := λ s,
  match i with
  | O => p s
  | S _ => '(_, s) ← read_given_char ":" s; p s
  end.

(** [read_groups] into a slice of [limit] segments, [n] of them still free;
    returns the segments, whether they end in an IPv4 address, and the rest. *)
Fixpoint read_groups (n i : nat) (s : list ascii) : list Z * bool * list ascii :=
  match n with
  | O => ([], false, s)
  | S n' =>
      match (if bool_decide (n' = 0%nat) then None else read_separated i read_ipv4_addr s) with
      | Some (a, r) => ([o0 a * 256 + o1 a; o2 a * 256 + o3 a], true, r)
      | None =>
          match read_separated i (read_number 16 0xffff 4 true) s with
          | Some (g, r) =>
              let '(gs, v4, rest) := read_groups n' (S i) r in (g :: gs, v4, rest)
          | None => ([], false, s)
          end
      end
  end.

Definition v6_of_segments (l : list Z) : option Ipv6Addr :=
  match l with
  | [a; b; c; d; e; f; g; h] => Some (V6Addr a b c d e f g h)
  | _ => None
  end.

Definition read_ipv6_addr : parser Ipv6Addr := λ s,
  let '(head, head_v4, r) := read_groups 8 0 s in
  if bool_decide (length head = 8%nat) then a ← v6_of_segments head; Some (a, r)
  else if head_v4 then None
  else
    '(_, r) ← read_given_char ":" r;
    '(_, r) ← read_given_char ":" r;
    let '(tail, _, r) := read_groups (8 - (length head + 1)) 0 r in
    a ← v6_of_segments
          (head ++ replicate (8 - length head - length tail) 0 ++ tail);
    Some (a, r).

(** [s.parse::<IpAddr>().ok()]: the whole input must be consumed. *)
Definition parse_ip (s : string) : option IpAddr :=
  match read_ipv4_addr (bytes s) with
  | Some (a, []) => Some (V4 a)
  | Some (_, _ :: _) => None
  | None =>
      match read_ipv6_addr (bytes s) with
      | Some (a, []) => Some (V6 a)
      | _ => None
      end
  end.

Example parse_v4 : parse_ip "169.254.169.254" = Some (V4 (V4Addr 169 254 169 254)).
Proof. vm_compute. reflexivity. Qed.
Example parse_v6 : parse_ip "::ffff:10.0.0.1" = Some (V6 (V6Addr 0 0 0 0 0 0xffff 0x0a00 1)).
Proof. vm_compute. reflexivity. Qed.
Example parse_v6_full : parse_ip "fe80:0:0:0:1:2:3:4" = Some (V6 (V6Addr 0xfe80 0 0 0 1 2 3 4)).
Proof. vm_compute. reflexivity. Qed.
Example parse_leading_zero : parse_ip "010.0.0.1" = None.
Proof. vm_compute. reflexivity. Qed.
Example parse_no_brackets : parse_ip "[::1]" = None.
Proof. vm_compute. reflexivity. Qed.

(** ** Lemmas *)

(** Every byte an address parser consumes is a hexadecimal digit, a dot or a
    colon. *)
Definition ip_char (c : ascii) : bool :=
  bool_decide (to_digit 16 c ≠ None) || bool_decide (c = "."%char) || bool_decide (c = ":"%char).

Definition consumes_ip_chars {A} (p : parser A) : Prop :=
  ∀ s a r, p s = Some (a, r) → ∃ l, s = l ++ r ∧ Forall (λ c, ip_char c = true) l.

Lemma consumed_app s l r l' r' :
  s = l ++ r → Forall (λ c, ip_char c = true) l →
  r = l' ++ r' → Forall (λ c, ip_char c = true) l' →
  ∃ k, s = k ++ r' ∧ Forall (λ c, ip_char c = true) k.
Proof.
  intros -> Hl -> Hl'. exists (l ++ l'). rewrite (assoc_L (++)). split; [done|].
  by apply Forall_app.
Qed.

Lemma to_digit_ip_char radix c d :
  radix ≤ 16 → to_digit radix c = Some d → ip_char c = true.
Proof.
  unfold ip_char, to_digit. intros Hr H.
  rewrite (bool_decide_eq_true_2 (_ ≠ None)); [done|].
  destruct (in_range 48 57 c), (in_range 97 102 c), (in_range 65 70 c);
    repeat case_match; split_bool; simplify_eq; first [done|exfalso; lia].
Qed.

Lemma read_given_char_consumes c :
  ip_char c = true → consumes_ip_chars (read_given_char c).
Proof.
  intros Hc [|a s] [] r; cbn; [done|]. case_bool_decide; intros [= <-]. subst.
  by exists [c]; split; [|constructor].
Qed.

Lemma read_digits_consumes radix max md s acc count n k r :
  radix ≤ 16 → read_digits radix max md acc count s = Some (n, k, r) →
  ∃ l, s = l ++ r ∧ Forall (λ c, ip_char c = true) l.
Proof.
  intros Hr. revert acc count. induction s as [|c s IH]; intros acc count; cbn.
  { intros [= <- <- <-]. by exists []. }
  destruct (to_digit radix c) as [d|] eqn:Hd; [|intros [= <- <- <-]; by exists []].
  destruct (max <? _); [done|]. case_bool_decide; [done|].
  intros (l & -> & Hl)%IH. exists (c :: l). split; [done|].
  constructor; [by eapply to_digit_ip_char|done].
Qed.

Lemma read_number_consumes radix max md z :
  radix ≤ 16 → consumes_ip_chars (read_number radix max md z).
Proof.
  unfold read_number. intros Hr s n r H.
  destruct (read_digits _ _ _ _ _ s) as [[[m k] r']|] eqn:Hd; [|done].
  repeat case_match; simplify_eq; by eapply read_digits_consumes.
Qed.

Lemma consumes_ret {A} (a : A) : consumes_ip_chars (λ s, Some (a, s)).
Proof. intros s a' r [= <- <-]. by exists []. Qed.

Lemma consumes_fail {A} : consumes_ip_chars (λ _, @None (A * list ascii)).
Proof. done. Qed.

Lemma consumes_bind {A B} (p : parser A) (k : A → parser B) :
  consumes_ip_chars p → (∀ a, consumes_ip_chars (k a)) →
  consumes_ip_chars (λ s, p s ≫= λ '(a, s'), k a s').
Proof.
  intros Hp Hk s b r H. destruct (p s) as [[a s']|] eqn:E; [|done]. cbn in H.
  apply Hp in E as (l & ? & ?). apply Hk in H as (l' & ? & ?). by eapply consumed_app.
Qed.

Lemma read_ipv4_consumes : consumes_ip_chars read_ipv4_addr.
Proof.
  assert (consumes_ip_chars read_octet) as Ho by (by apply read_number_consumes).
  assert (consumes_ip_chars (read_given_char ".")) as Hd by (by apply read_given_char_consumes).
  unfold read_ipv4_addr.
  do 7 (apply consumes_bind; [done|]; intros ?). apply consumes_ret.
Qed.

Lemma read_separated_consumes {A} i (p : parser A) :
  consumes_ip_chars p → consumes_ip_chars (read_separated i p).
Proof.
  intros Hp. destruct i; [done|]. unfold read_separated.
  apply consumes_bind; [by apply read_given_char_consumes|]. by intros _.
Qed.

Lemma read_groups_consumes n i s gs v4 r :
  read_groups n i s = (gs, v4, r) → ∃ l, s = l ++ r ∧ Forall (λ c, ip_char c = true) l.
Proof.
  revert i s gs v4 r. induction n as [|n IH]; intros i s gs v4 r; cbn.
  { intros [= <- <- <-]. by exists []. }
  destruct (if bool_decide _ then None else _) as [[a r']|] eqn:E4.
  { intros [= <- <- <-]. case_bool_decide; [done|].
    by eapply (read_separated_consumes i read_ipv4_addr), E4; apply read_ipv4_consumes. }
  destruct (read_separated i (read_number 16 0xffff 4 true) s) as [[g r']|] eqn:E16.
  2: { intros [= <- <- <-]. by exists []. }
  destruct (read_groups n (S i) r') as [[gs' v4'] rest] eqn:Eg. intros [= <- <- <-].
  apply read_separated_consumes in E16 as (l & ? & ?); [|by apply read_number_consumes].
  apply IH in Eg as (l' & ? & ?). by eapply consumed_app.
Qed.

Lemma read_ipv6_consumes : consumes_ip_chars read_ipv6_addr.
Proof.
  intros s a r H. unfold read_ipv6_addr in H.
  destruct (read_groups 8 0 s) as [[head v4] r1] eqn:Eh.
  apply read_groups_consumes in Eh as (l1 & ? & ?). case_bool_decide.
  { destruct (v6_of_segments head); simplify_eq/=. by exists l1. }
  destruct v4; [done|].
  destruct (read_given_char ":" r1) as [[[] r2]|] eqn:E2; [|done].
  apply read_given_char_consumes in E2 as (l2 & ? & ?); [|done]. cbn in H.
  destruct (read_given_char ":" r2) as [[[] r3]|] eqn:E3; [|done].
  apply read_given_char_consumes in E3 as (l3 & ? & ?); [|done]. cbn in H.
  destruct (read_groups _ 0 r3) as [[tail v4'] r4] eqn:Et.
  apply read_groups_consumes in Et as (l4 & ? & ?).
  destruct (v6_of_segments _); simplify_eq/=.
  exists (l1 ++ l2 ++ l3 ++ l4). rewrite <-!(assoc_L (++)). split; [done|].
  by rewrite !Forall_app.
Qed.

Lemma parse_ip_chars s ip :
  parse_ip s = Some ip → Forall (λ c, ip_char c = true) (bytes s).
Proof.
  unfold parse_ip. intros H.
  destruct (read_ipv4_addr (bytes s)) as [[a [|]]|] eqn:E4; simplify_eq.
  - apply read_ipv4_consumes in E4 as (l & -> & ?). by rewrite app_nil_r.
  - destruct (read_ipv6_addr (bytes s)) as [[a [|]]|] eqn:E6; simplify_eq.
    apply read_ipv6_consumes in E6 as (l & -> & ?). by rewrite app_nil_r.
Qed.

(** Unmapping inverts the two embeddings. *)
Lemma byte_pair x y : octet_ok y → (x * 256 + y) / 256 = x ∧ (x * 256 + y) mod 256 = y.
Proof.
  unfold octet_ok. intros Hy. split; symmetry.
  - apply Z.div_unique with y; lia.
  - apply Z.mod_unique with x; lia.
Qed.

Lemma low_v4_embed a b c d e f x :
  v4_ok x → v6_low_v4 (V6Addr a b c d e f (o0 x * 256 + o1 x) (o2 x * 256 + o3 x)) = x.
Proof.
  destruct x as [x0 x1 x2 x3]. unfold v4_ok, v6_low_v4. cbn [s6 s7 o0 o1 o2 o3].
  intros (_ & H1 & _ & H3).
  destruct (byte_pair x0 x1 H1) as [-> ->]. by destruct (byte_pair x2 x3 H3) as [-> ->].
Qed.

Lemma to_ipv4_mapped_mapped x : v4_ok x → to_ipv4_mapped (to_ipv6_mapped x) = Some x.
Proof. intros H. unfold to_ipv4_mapped, to_ipv6_mapped. cbn. by rewrite low_v4_embed. Qed.

Lemma to_ipv4_compatible x :
  v4_ok x → to_ipv4_mapped (to_ipv6_compatible x) = None ∧
            to_ipv4 (to_ipv6_compatible x) = Some x.
Proof. intros H. unfold to_ipv4, to_ipv6_compatible. cbn. by rewrite low_v4_embed. Qed.
