(* ===== verification/Ssrf.v ===== *)
(** * SSRF policy for provider URLs ([crates/cd-core/src/ssrf.rs])

    Validation of a provider URL, DNS resolution with vetting of every
    resolved address, and the DNS-pinned HTTP client. The [url] crate, the
    system resolver and [reqwest] are parameters. *)
From Stdlib Require Import ZArith Lia Ascii String.
From stdpp Require Import base tactics option list gmap strings.
From S2P Require Import Prelude RustStr Net.

Local Open Scope string_scope.
Local Open Scope Z_scope.

(** ** The [url] crate *)

Inductive Host := Domain (d : string) | HostIpv4 (a : Ipv4Addr) | HostIpv6 (a : Ipv6Addr).

Class UrlCrate := {
  Url : Type;
  Url_parse : string → option Url;
  scheme : Url → string;
  host_str : Url → option string;
  host : Url → option Host;
  port_or_known_default : Url → option Z;
  as_str : Url → string;
}.

(** Documented behaviour of the crate: a serialized URL parses back to itself
    and carries no surrounding whitespace; the host string of an IPv4 host is
    its dotted form; that of an IPv6 host is bracketed. *)
Class UrlLaws (U : UrlCrate) : Prop := {
  as_str_nonempty : ∀ u, is_empty (trim (as_str u)) = false;
  parse_as_str : ∀ u, Url_parse (trim (as_str u)) = Some u;
  host_ipv4_str : ∀ u a, host u = Some (HostIpv4 a) →
    ∃ h, host_str u = Some h ∧ parse_ip h = Some (V4 a);
  host_ipv6_str : ∀ u a, host u = Some (HostIpv6 a) →
    ∃ h, host_str u = Some ("[" +:+ h +:+ "]");
}.

(** ** Policy and errors *)

Record SsrfPolicy := { block_private : bool; allow_loopback : bool }.

Definition SsrfPolicy_default : SsrfPolicy :=
  {| block_private := true; allow_loopback := true |}.
Definition local_only : SsrfPolicy :=
  {| block_private := true; allow_loopback := true |}.
Definition allow_private_networks : SsrfPolicy :=
  {| block_private := false; allow_loopback := true |}.

(** The [CoreError::Config], [CoreError::Policy] and [CoreError::Message]
    values of this module, one constructor per message. *)
Inductive SsrfError :=
| EmptyBaseUrl
| InvalidUrl
| UnsupportedScheme (other : string)
| UrlMissingHost
| UrlMissingPort
| LoopbackHostNotAllowed
| BlockedHost (h : string)
| BlockedMetadataString
| DnsResolveFailed (h : string)
| DnsNoAddresses (h : string)
| LoopbackNotAllowed
| InvalidDestinationIp
| BlockedMetadataIp
| BlockedLinkLocalIp
| BlockedPrivateIp (a : Ipv4Addr)
| BlockedPrivateIpv6 (a : Ipv6Addr)
| HttpClient.

(** ** Address checks *)

Definition is_cgnat (ip : Ipv4Addr) : bool :=
  (o0 ip =? 100) && (Z.land (o1 ip) 0xC0 =? 0x40).

Definition check_v4 (ip : Ipv4Addr) (policy : SsrfPolicy) : result SsrfError unit :=
  if v4_is_loopback ip then
    if allow_loopback policy then Ok tt else Err LoopbackNotAllowed
  else if v4_is_unspecified ip || v4_is_broadcast ip then Err InvalidDestinationIp
  else if bool_decide (ip = V4Addr 169 254 169 254) then Err BlockedMetadataIp
  else if v4_is_link_local ip then Err BlockedLinkLocalIp
  else if block_private policy && (v4_is_private ip || is_cgnat ip)
  then Err (BlockedPrivateIp ip)
  else Ok tt.

Definition is_v6_link_local (ip : Ipv6Addr) : bool := Z.land (s0 ip) 0xffc0 =? 0xfe80.

Definition check_v6_native (ip : Ipv6Addr) (policy : SsrfPolicy) : result SsrfError unit :=
  if v6_is_loopback ip then
    if allow_loopback policy then Ok tt else Err LoopbackNotAllowed
  else if v6_is_unspecified ip then Err InvalidDestinationIp
  else if block_private policy && (v6_is_unique_local ip || is_v6_link_local ip)
  then Err (BlockedPrivateIpv6 ip)
  else Ok tt.

Definition check_v6 (ip : Ipv6Addr) (policy : SsrfPolicy) : result SsrfError unit :=
  match to_ipv4_mapped ip with
  | Some v4 => check_v4 v4 policy
  | None =>
      match to_ipv4 ip with
      | Some v4 =>
          if negb (v6_is_loopback ip) then check_v4 v4 policy else check_v6_native ip policy
      | None => check_v6_native ip policy
      end
  end.

Definition check_ip (ip : IpAddr) (policy : SsrfPolicy) : result SsrfError unit :=
  match ip with V4 a => check_v4 a policy | V6 a => check_v6 a policy end.

Definition ip_is_loopback (ip : IpAddr) : bool :=
  match ip with
  | V4 a => v4_is_loopback a
  | V6 a => v6_is_loopback a || is_some_and (to_ipv4_mapped a) v4_is_loopback
  end.

Definition host_is_loopback (h : string) : bool :=
  let host_l := to_ascii_lowercase h in
  if bool_decide (host_l = "localhost") || ends_with ".localhost" host_l then true
  else is_some_and (parse_ip h) ip_is_loopback.

(** A socket address is an address and a port. *)
Definition destination_is_loopback (h : string) (sockets : list (IpAddr * Z)) : bool :=
  host_is_loopback h ||
  (negb (bool_decide (sockets = [])) && forallb (λ s, ip_is_loopback s.1) sockets).

(** ** URL validation *)

Section ssrf.
Context {U : UrlCrate}.

Definition is_localhost_name (host_l : string) : bool :=
  bool_decide (host_l = "localhost") || ends_with ".localhost" host_l.

Definition validate_provider_url (raw : string) (policy : SsrfPolicy) : result SsrfError Url :=
  let raw := trim raw in
  if is_empty raw then Err EmptyBaseUrl else
  url ← ok_or (Url_parse raw) InvalidUrl;
  _ ← reject_if (negb (bool_decide (scheme url = "http") || bool_decide (scheme url = "https")))
        (UnsupportedScheme (scheme url));
  h ← ok_or (host_str url) UrlMissingHost;
  let host_l := to_ascii_lowercase h in
  if is_localhost_name host_l then
    if allow_loopback policy then Ok url else Err LoopbackHostNotAllowed
  else
    match parse_ip h with
    | Some ip => _ ← check_ip ip policy; Ok url
    | None =>
        match host url with
        | Some (HostIpv4 v4) => _ ← check_v4 v4 policy; Ok url
        | Some (HostIpv6 v6) => _ ← check_v6 v6 policy; Ok url
        | _ =>
            if bool_decide (host_l = "metadata.google.internal") ||
               (ends_with ".internal" host_l && block_private policy)
            then Err (BlockedHost h)
            else if bool_decide (host_l = "169.254.169.254") then Err BlockedMetadataString
            else Ok url
        end
    end.

(** The loop over the resolved addresses, stopping at the first rejection. *)
Fixpoint check_all (ips : list IpAddr) (policy : SsrfPolicy) : result SsrfError unit :=
  match ips with
  | [] => Ok tt
  | ip :: ips => _ ← check_ip ip policy; check_all ips policy
  end.

Definition resolve_and_validate (url : Url) (policy : SsrfPolicy)
    (resolve : string → result SsrfError (list IpAddr)) : result SsrfError (list IpAddr) :=
  _ ← validate_provider_url (as_str url) policy;
  h ← ok_or (host_str url) UrlMissingHost;
  let host_l := to_ascii_lowercase h in
  match parse_ip h with
  | Some ip => Ok [ip]
  | None =>
      match host url with
      | Some (HostIpv4 v4) => Ok [V4 v4]
      | Some (HostIpv6 v6) => Ok [V6 v6]
      | _ =>
          if is_localhost_name host_l then
            if allow_loopback policy then Ok [V4 (V4Addr 127 0 0 1)]
            else Err LoopbackHostNotAllowed
          else
            ips ← resolve h;
            _ ← reject_if (bool_decide (ips = [])) (DnsNoAddresses h);
            _ ← check_all ips policy;
            Ok ips
      end
  end.

(** What [build_pinned_client] asks of the [reqwest] builder. *)
Record ClientConfig := {
  cc_timeout : Z;
  cc_follow_redirects : bool;
  cc_resolve_to_addrs : option (string * list (IpAddr * Z));
  cc_no_proxy : bool;
}.

Definition build_pinned_client {Client} (build : ClientConfig → option Client)
    (url : Url) (policy : SsrfPolicy) (resolve : string → result SsrfError (list IpAddr))
    (timeout : Z) : result SsrfError (ClientConfig * Client) :=
  ips ← resolve_and_validate url policy resolve;
  h ← ok_or (host_str url) UrlMissingHost;
  port ← ok_or (port_or_known_default url) UrlMissingPort;
  let sockets := (λ ip, (ip, port)) <$> ips in
  let config :=
    {| cc_timeout := timeout;
       cc_follow_redirects := false;
       cc_resolve_to_addrs :=
         if negb (bool_decide (is_Some (parse_ip h))) &&
            negb (eq_ignore_ascii_case h "localhost")
         then Some (h, sockets) else None;
       cc_no_proxy := destination_is_loopback h sockets |} in
  client ← ok_or (build config) HttpClient;
  Ok (config, client).

Definition build_pinned_client_for_url {Client} (build : ClientConfig → option Client)
    (raw : string) (policy : SsrfPolicy) (resolve : string → result SsrfError (list IpAddr))
    (timeout : Z) : result SsrfError (Url * (ClientConfig * Client)) :=
  url ← validate_provider_url raw policy;
  client ← build_pinned_client build url policy resolve timeout;
  Ok (url, client).
End ssrf.

(** ** The offline resolver *)

Definition MapResolver : Type := gmap string (list IpAddr).
Definition from_pairs (pairs : list (string * list IpAddr)) : MapResolver :=
  foldl (λ m '(h, ips), <[to_ascii_lowercase h := ips]> m) ∅ pairs.
Definition MapResolver_resolve (m : MapResolver) (h : string) :
    result SsrfError (list IpAddr) :=
  ok_or ((m : gmap string (list IpAddr)) !! to_ascii_lowercase h) (DnsResolveFailed h).

(** ** What the policy must keep out

    Address blocks written as intervals of the 32-bit address, and of the
    first IPv6 segment, independently of the code's tests. *)

Definition v4_num (a : Ipv4Addr) : Z := ((o0 a * 256 + o1 a) * 256 + o2 a) * 256 + o3 a.
Definition v4_between (lo hi a : Ipv4Addr) : Prop := v4_num lo ≤ v4_num a ≤ v4_num hi.

Definition internal_v4 (a : Ipv4Addr) : Prop :=
  v4_between (V4Addr 10 0 0 0) (V4Addr 10 255 255 255) a ∨
  v4_between (V4Addr 172 16 0 0) (V4Addr 172 31 255 255) a ∨
  v4_between (V4Addr 192 168 0 0) (V4Addr 192 168 255 255) a ∨
  v4_between (V4Addr 100 64 0 0) (V4Addr 100 127 255 255) a ∨
  v4_between (V4Addr 169 254 0 0) (V4Addr 169 254 255 255) a ∨
  v4_num a = 0 ∨ v4_num a = 0xffffffff.

Definition v6_ok (a : Ipv6Addr) : Prop :=
  0 ≤ s0 a ≤ 0xffff ∧ 0 ≤ s6 a ≤ 0xffff ∧ 0 ≤ s7 a ≤ 0xffff.
Definition ip_ok (ip : IpAddr) : Prop := match ip with V4 a => v4_ok a | V6 a => v6_ok a end.

(** IPv6: unique-local, link-local, unspecified, and every IPv4-mapped or
    IPv4-compatible form of an internal IPv4 address ([::1] is loopback). *)
Definition internal_ip (ip : IpAddr) : Prop :=
  match ip with
  | V4 a => internal_v4 a
  | V6 a =>
      0xfc00 ≤ s0 a ≤ 0xfdff ∨ 0xfe80 ≤ s0 a ≤ 0xfebf ∨ a = V6Addr 0 0 0 0 0 0 0 0 ∨
      ∃ v4, to_ipv4 a = Some v4 ∧ a ≠ V6Addr 0 0 0 0 0 0 0 1 ∧ internal_v4 v4
  end.

(** ** Lemmas *)

Lemma land_high_mask x k n :
  0 ≤ k ≤ n → 0 ≤ x < 2 ^ n →
  Z.land x (Z.ldiff (Z.ones n) (Z.ones k)) = x / 2 ^ k * 2 ^ k.
Proof.
  intros Hk Hx. rewrite Z.ldiff_land, Z.land_assoc, Z.land_ones, Z.mod_small by lia.
  rewrite <-Z.ldiff_land, Z.ldiff_ones_r, Z.shiftl_mul_pow2, Z.shiftr_div_pow2 by lia. done.
Qed.

(** A mask of leading ones selects an interval. *)
Lemma mask_interval x k n m v :
  0 ≤ k ≤ n → 0 ≤ x < 2 ^ n → m = Z.ldiff (Z.ones n) (Z.ones k) → v mod 2 ^ k = 0 →
  (Z.land x m =? v) = true ↔ v ≤ x < v + 2 ^ k.
Proof.
  intros Hk Hx -> Hv. rewrite Z.eqb_eq, land_high_mask by done.
  pose proof (Z.pow_pos_nonneg 2 k ltac:(lia) ltac:(lia)).
  pose proof (Z.div_mod x (2 ^ k) ltac:(lia)). pose proof (Z.mod_pos_bound x (2 ^ k) ltac:(lia)).
  pose proof (Z.div_mod v (2 ^ k) ltac:(lia)). split; intros Hc; [lia|].
  assert (x / 2 ^ k = v / 2 ^ k) as -> by nia. lia.
Qed.

Lemma is_cgnat_spec a :
  v4_ok a → is_cgnat a = true ↔ o0 a = 100 ∧ 64 ≤ o1 a ≤ 127.
Proof.
  unfold v4_ok, octet_ok. intros ?. unfold is_cgnat.
  rewrite andb_true_iff, Z.eqb_eq, (mask_interval _ 6 8) by (done || lia). lia.
Qed.

Lemma v6_blocks_spec a :
  v6_ok a →
  (v6_is_unique_local a = true ↔ 0xfc00 ≤ s0 a ≤ 0xfdff) ∧
  (is_v6_link_local a = true ↔ 0xfe80 ≤ s0 a ≤ 0xfebf).
Proof.
  unfold v6_ok. intros ?. unfold v6_is_unique_local, is_v6_link_local.
  rewrite (mask_interval _ 9 16), (mask_interval _ 6 16) by (done || lia). lia.
Qed.

Lemma check_v4_Ok a p :
  check_v4 a p = Ok tt →
  v4_is_loopback a = true ∨
  (a ≠ V4Addr 0 0 0 0 ∧ a ≠ V4Addr 255 255 255 255 ∧ v4_is_link_local a = false ∧
   (block_private p = true → v4_is_private a = false ∧ is_cgnat a = false)).
Proof.
  unfold check_v4, v4_is_unspecified, v4_is_broadcast. intros H.
  destruct (v4_is_loopback a); [by left|]. right.
  repeat case_bool_decide; cbn in H; try done.
  destruct (v4_is_link_local a); [done|].
  destruct (block_private p), (v4_is_private a), (is_cgnat a); cbn in H; naive_solver.
Qed.

Lemma v4_num_bounds a : v4_ok a →
  o0 a * 16777216 + o1 a * 65536 ≤ v4_num a < o0 a * 16777216 + o1 a * 65536 + 65536.
Proof. unfold v4_ok, octet_ok, v4_num. lia. Qed.

(** Membership in a block given by whole values of the first two octets. *)
Lemma v4_between_octets x y1 y2 a :
  v4_ok a → octet_ok y1 → octet_ok y2 →
  v4_between (V4Addr x y1 0 0) (V4Addr x y2 255 255) a → o0 a = x ∧ y1 ≤ o1 a ≤ y2.
Proof.
  intros Hok. pose proof (v4_num_bounds a Hok) as Hb.
  destruct a as [a0 a1 a2 a3]. unfold v4_ok, octet_ok, v4_between, v4_num in *.
  cbn [o0 o1 o2 o3] in *. lia.
Qed.

Lemma check_v4_not_internal a p :
  v4_ok a → block_private p = true → check_v4 a p = Ok tt → ~ internal_v4 a.
Proof.
  intros Hok Hp H%check_v4_Ok Hint.
  pose proof (is_cgnat_spec a Hok) as Hcg. pose proof (v4_num_bounds a Hok) as Hb.
  assert (∀ x y1 y2, octet_ok y1 → octet_ok y2 →
    v4_between (V4Addr x y1 0 0) (V4Addr x y2 255 255) a → o0 a = x ∧ y1 ≤ o1 a ≤ y2) as Hbt.
  { intros. by apply v4_between_octets. }
  unfold v4_is_loopback, v4_is_link_local, v4_is_private, octet_ok in *.
  destruct H as [H|(Hz & Hff & Hll & Hpr)].
  - apply Z.eqb_eq in H. unfold internal_v4 in Hint.
    destruct Hint as [Hi|[Hi|[Hi|[Hi|[Hi|Hi]]]]]; try (apply Hbt in Hi; lia).
    unfold v4_ok, octet_ok in Hok. lia.
  - destruct (Hpr Hp) as [Hpriv Hcg']. rewrite Hcg' in Hcg.
    destruct Hint as [Hi|[Hi|[Hi|[Hi|[Hi|[Hi|Hi]]]]]]; try (apply Hbt in Hi; lia).
    + apply Hz. destruct a. unfold v4_ok, octet_ok, v4_num in *. cbn in *. f_equal; lia.
    + apply Hff. destruct a. unfold v4_ok, octet_ok, v4_num in *. cbn in *. f_equal; lia.
Qed.

Lemma v6_low_v4_ok a : v6_ok a → v4_ok (v6_low_v4 a).
Proof.
  unfold v6_ok, v4_ok, octet_ok, v6_low_v4. cbn [o0 o1 o2 o3]. intros (_ & H6 & H7).
  pose proof (Z.mod_pos_bound (s6 a) 256 ltac:(lia)).
  pose proof (Z.mod_pos_bound (s7 a) 256 ltac:(lia)).
  pose proof (Z.div_mod (s6 a) 256 ltac:(lia)). pose proof (Z.div_mod (s7 a) 256 ltac:(lia)).
  lia.
Qed.

Lemma to_ipv4_mapped_ipv4 a v4 : to_ipv4_mapped a = Some v4 → to_ipv4 a = Some v4.
Proof.
  unfold to_ipv4_mapped, to_ipv4.
  destruct (v6_high_zero a), (s5 a =? 0), (s5 a =? 0xffff); cbn; congruence.
Qed.

Lemma to_ipv4_zero_head a v4 : to_ipv4 a = Some v4 → s0 a = 0 ∧ v4 = v6_low_v4 a.
Proof.
  unfold to_ipv4, v6_high_zero. intros H. case_match; simplify_eq. split_bool. done.
Qed.

Lemma check_v6_not_internal a p :
  v6_ok a → block_private p = true → check_v6 a p = Ok tt → ~ internal_ip (V6 a).
Proof.
  intros Hok Hp H Hint. pose proof (v6_low_v4_ok a Hok) as Hlow.
  destruct (v6_blocks_spec a Hok) as [Hul Hll]. unfold check_v6 in H.
  destruct (to_ipv4 a) as [v4|] eqn:E4.
  - destruct (to_ipv4_zero_head a v4 E4) as [Hs0 ->].
    assert (check_v4 (v6_low_v4 a) p = Ok tt ∨ v6_is_loopback a = true) as [Hc|Hlb].
    { destruct (to_ipv4_mapped a) as [w|] eqn:Em.
      - rewrite (to_ipv4_mapped_ipv4 a w Em) in E4. simplify_eq. by left.
      - destruct (v6_is_loopback a); [by right|by left]. }
    + apply check_v4_not_internal in Hc; [|done..].
      destruct Hint as [?|[?|[->|(v & Hv & _ & Hiv)]]]; [lia|lia| |naive_solver].
      apply Hc. right. right. right. right. right. left. done.
    + apply bool_decide_eq_true in Hlb.
      destruct Hint as [?|[?|[->|(v & Hv & Hne & Hiv)]]]; [lia|lia|done|done].
  - destruct (to_ipv4_mapped a) as [w|] eqn:Em.
    { by rewrite (to_ipv4_mapped_ipv4 a w Em) in E4. }
    unfold check_v6_native, v6_is_loopback, v6_is_unspecified in H. rewrite Hp in H.
    repeat case_bool_decide; cbn in H; subst; try done.
    destruct (v6_is_unique_local a), (is_v6_link_local a); cbn in H; try done.
    destruct Hint as [?|[?|[?|(v & ? & _)]]]; naive_solver.
Qed.

Lemma check_ip_not_internal ip p :
  ip_ok ip → block_private p = true → check_ip ip p = Ok tt → ~ internal_ip ip.
Proof. destruct ip; [apply check_v4_not_internal|apply check_v6_not_internal]. Qed.

(** An IP literal is no localhost name: address literals have no letter [t]. *)
Lemma ends_with_last p c s : ends_with (p +:+ String c "") s = true → c ∈ bytes s.
Proof.
  unfold ends_with. intros [l Hl]%bool_decide_eq_true. rewrite Hl, bytes_app. cbn. set_solver.
Qed.

Lemma bytes_lower s : bytes (to_ascii_lowercase s) = byte_lower <$> bytes s.
Proof. unfold to_ascii_lowercase. by rewrite bytes_of_bytes. Qed.

Lemma byte_lower_t c : byte_lower c = "t"%char → c = "t"%char ∨ c = "T"%char.
Proof.
  unfold byte_lower, in_range. destruct (_ && _) eqn:E; [|by left].
  intros H%(f_equal bv). right. apply bv_inj. split_bool.
  replace (N_of_ascii c + 32)%N with (Z.to_N (bv c + 32)) in H by (unfold bv in *; lia).
  rewrite bv_ascii_of in H by lia. vm_compute (bv "t"%char) in H. vm_compute (bv "T"%char). lia.
Qed.

Lemma is_localhost_name_t h : is_localhost_name (to_ascii_lowercase h) = true →
  ∃ c, c ∈ bytes h ∧ (c = "t"%char ∨ c = "T"%char).
Proof.
  intros H. assert ("t"%char ∈ bytes (to_ascii_lowercase h)) as Ht.
  { unfold is_localhost_name in H. apply orb_true_iff in H as [H|H].
    - apply bool_decide_eq_true in H. rewrite H. cbn. set_solver.
    - by apply (ends_with_last ".localhos"). }
  rewrite bytes_lower in Ht. apply list_elem_of_fmap in Ht as (c & Hc & ?).
  exists c. split; [done|]. by apply byte_lower_t.
Qed.

Lemma parse_ip_not_localhost h ip :
  parse_ip h = Some ip → is_localhost_name (to_ascii_lowercase h) = false.
Proof.
  intros Hp%parse_ip_chars. apply not_true_is_false.
  intros (c & Hc & [->| ->])%is_localhost_name_t;
    rewrite Forall_forall in Hp; specialize (Hp _ Hc); by vm_compute in Hp.
Qed.

Lemma bracketed_not_localhost h :
  is_localhost_name (to_ascii_lowercase ("[" +:+ h +:+ "]")) = false.
Proof.
  apply not_true_is_false. unfold is_localhost_name. intros [H|H]%orb_true_iff.
  - apply bool_decide_eq_true, (f_equal bytes) in H. rewrite bytes_lower, !bytes_app in H. done.
  - apply bool_decide_eq_true in H as [l Hl]. rewrite bytes_lower, !bytes_app in Hl.
    rewrite app_assoc, fmap_app in Hl. change (byte_lower <$> bytes "]") with ["]"%char] in Hl.
    change (bytes ".localhost") with (bytes ".localhos" ++ ["t"%char])%list in Hl.
    rewrite app_assoc in Hl. by apply app_inj_tail in Hl as [_ ?].
Qed.

Section vetting.
Context {U : UrlCrate} {L : UrlLaws U}.
Implicit Types (u : Url) (p : SsrfPolicy).

Lemma check_all_Ok ips p : check_all ips p = Ok tt → Forall (λ ip, check_ip ip p = Ok tt) ips.
Proof.
  induction ips as [|ip ips IH]; cbn; [constructor|]. intros H. inv_result.
  constructor; auto.
Qed.

(** What a successful validation of [u] says about its host. *)
Lemma validate_as_str_Ok u p v :
  validate_provider_url (as_str u) p = Ok v →
  v = u ∧ (scheme u = "http" ∨ scheme u = "https") ∧
  ∃ h, host_str u = Some h ∧
    (is_localhost_name (to_ascii_lowercase h) = true → allow_loopback p = true) ∧
    (is_localhost_name (to_ascii_lowercase h) = false →
       (∀ ip, parse_ip h = Some ip → check_ip ip p = Ok tt) ∧
       (parse_ip h = None → ∀ a, host u = Some (HostIpv4 a) → check_v4 a p = Ok tt) ∧
       (parse_ip h = None → ∀ a, host u = Some (HostIpv6 a) → check_v6 a p = Ok tt)).
Proof.
  unfold validate_provider_url. rewrite as_str_nonempty. intros H. inv_result.
  rewrite parse_as_str in Hstep. simplify_eq. rename a1 into h, Hstep0 into Hscheme.
  apply negb_false_iff, orb_true_iff in Hscheme.
  rewrite !bool_decide_eq_true in Hscheme.
  destruct (is_localhost_name _) eqn:El.
  { destruct (allow_loopback p); inv_result. split_and!; [done|done|].
    exists h. rewrite El. by split_and!. }
  destruct (parse_ip h) as [ip|] eqn:Eip.
  { inv_result. split_and!; [done|done|]. exists h. rewrite El, Eip.
    split_and!; [done|done|]. intros _. split_and!; [by intros ? [= <-]|done|done]. }
  assert (v = a ∧ (∀ x, host a = Some (HostIpv4 x) → check_v4 x p = Ok tt) ∧
                  (∀ x, host a = Some (HostIpv6 x) → check_v6 x p = Ok tt)) as (-> & H4 & H6).
  { destruct (host a) as [[d|v4|v6]|].
    - repeat case_match; inv_result; naive_solver.
    - inv_result. naive_solver.
    - inv_result. naive_solver.
    - repeat case_match; inv_result; naive_solver. }
  split_and!; [done|done|]. exists h. rewrite El, Eip. naive_solver.
Qed.

Lemma resolve_and_validate_vetted u p resolve ips :
  resolve_and_validate u p resolve = Ok ips →
  ips ≠ [] ∧ Forall (λ ip, check_ip ip p = Ok tt) ips.
Proof.
  unfold resolve_and_validate. intros H. inv_result.
  apply validate_as_str_Ok in Hstep as (-> & _ & h' & Hh' & Hlb & Hvet).
  rewrite Hh' in Hstep0. simplify_eq. rename a0 into h.
  destruct (parse_ip h) as [ip|] eqn:Eip; inv_result.
  { split; [done|]. constructor; [|constructor].
    apply Hvet; [|done]. by eapply parse_ip_not_localhost. }
  assert (∀ l, ips = l → (l ≠ [] ∧ Forall (λ ip, check_ip ip p = Ok tt) l) →
          ips ≠ [] ∧ Forall (λ ip, check_ip ip p = Ok tt) ips) as Hgoal by (by intros l ->).
  destruct (host u) as [[d|v4|v6]|] eqn:Eh; inv_result.
  2: { destruct (host_ipv4_str u v4 Eh) as (h' & Hs & Hp). naive_solver. }
  2: { split; [done|]. constructor; [|constructor].
       destruct (host_ipv6_str u v6 Eh) as (h' & Hs). rewrite Hh' in Hs. simplify_eq.
       apply Hvet; [apply bracketed_not_localhost|done..]. }
  all: destruct (is_localhost_name _) eqn:El.
  1, 3: rewrite Hlb in H by done; inv_result; split; [done|];
    constructor; [|constructor]; cbn; unfold check_v4; cbn; by rewrite Hlb.
  all: inv_result; split_bool; split; [done|]; by apply check_all_Ok.
Qed.

Lemma resolve_literal u p resolve h ip ips :
  host_str u = Some h → parse_ip h = Some ip → resolve_and_validate u p resolve = Ok ips →
  ips = [ip].
Proof.
  unfold resolve_and_validate. intros Hh Hip H. inv_result. simplify_eq. rewrite Hip in H. by inv_result.
Qed.
End vetting.

(** ** Properties *)

(** C3. No vetted address is internal: when [resolve_and_validate] succeeds
    under a policy that blocks private networks, it returns at least one
    address, every returned address passed [check_ip], and none lies in a
    private, carrier-grade NAT, link-local, unspecified, broadcast or
    unique-local block, also not as an IPv4-mapped or IPv4-compatible IPv6
    address. This covers literal hosts, localhost names and resolved names. *)
Theorem vetted_addresses_not_internal `{U : UrlCrate} {L : UrlLaws U}
    (u : Url) p resolve ips :
  block_private p = true → resolve_and_validate u p resolve = Ok ips →
  ips ≠ [] ∧ ∀ ip, ip ∈ ips → check_ip ip p = Ok tt ∧ (ip_ok ip → ~ internal_ip ip).
Proof.
  intros Hp [Hne Hall]%resolve_and_validate_vetted. split; [done|]. intros ip Hin.
  rewrite Forall_forall in Hall. split; [by apply Hall|].
  intros Hok. eapply check_ip_not_internal; eauto.
Qed.

(** Embedding an IPv4 address in IPv6 gains nothing: the IPv4-mapped form
    of every address, and its IPv4-compatible form unless that is the loopback
    [::1], gets the verdict of the IPv4 address under every policy. *)
Theorem ipv6_embedding_same_verdict a p :
  v4_ok a →
  check_ip (V6 (to_ipv6_mapped a)) p = check_ip (V4 a) p ∧
  (a ≠ V4Addr 0 0 0 1 → check_ip (V6 (to_ipv6_compatible a)) p = check_ip (V4 a) p).
Proof.
  intros Hok. unfold check_ip, check_v6. rewrite to_ipv4_mapped_mapped by done. split; [done|].
  intros Hne. destruct (to_ipv4_compatible a Hok) as [-> ->].
  unfold v6_is_loopback. rewrite bool_decide_eq_false_2; [done|].
  intros H. apply Hne. destruct a as [a0 a1 a2 a3]. unfold to_ipv6_compatible in H.
  unfold v4_ok, octet_ok in Hok. cbn in *. injection H as H6 H7. f_equal; lia.
Qed.

(** The cloud metadata address is unreachable: under every policy, also
    the private-network override, [169.254.169.254] and its two IPv6
    embeddings are rejected, so no URL whose host is one of them validates. *)
Theorem metadata_always_blocked `{U : UrlCrate} {L : UrlLaws U} (u : Url) p resolve ip ips :
  resolve_and_validate u p resolve = Ok ips → ip ∈ ips →
  ip ≠ V4 (V4Addr 169 254 169 254) ∧
  ip ≠ V6 (to_ipv6_mapped (V4Addr 169 254 169 254)) ∧
  ip ≠ V6 (to_ipv6_compatible (V4Addr 169 254 169 254)).
Proof.
  intros [_ Hall]%resolve_and_validate_vetted Hin.
  rewrite Forall_forall in Hall. specialize (Hall ip Hin).
  split_and!; intros ->; by destruct p as [[] []].
Qed.

(** The pinned client only talks to vetted sockets: a client that is built
    never follows redirects; a host name other than localhost is pinned to
    exactly the vetted addresses at the URL's port, so the client resolves
    nothing itself; a literal host is its own one vetted address; and a
    destination all of whose sockets are loopback bypasses every HTTP proxy. *)
Theorem pinned_client_sound `{U : UrlCrate} {L : UrlLaws U} {Client} (build : _ → option Client)
    (u : Url) p resolve timeout cfg client :
  build_pinned_client build u p resolve timeout = Ok (cfg, client) →
  cc_follow_redirects cfg = false ∧
  ∃ h ips port, host_str u = Some h ∧ port_or_known_default u = Some port ∧
    resolve_and_validate u p resolve = Ok ips ∧ ips ≠ [] ∧
    Forall (λ ip, check_ip ip p = Ok tt) ips ∧
    (parse_ip h = None → eq_ignore_ascii_case h "localhost" = false →
       cc_resolve_to_addrs cfg = Some (h, (λ ip, (ip, port)) <$> ips)) ∧
    (∀ ip, parse_ip h = Some ip → cc_resolve_to_addrs cfg = None ∧ ips = [ip]) ∧
    (forallb ip_is_loopback ips = true → cc_no_proxy cfg = true).
Proof.
  unfold build_pinned_client. intros H. inv_result. simplify_eq.
  destruct (resolve_and_validate_vetted _ _ _ _ Hstep) as [Hne Hall].
  cbn [cc_follow_redirects cc_resolve_to_addrs cc_no_proxy]. split; [done|].
  exists a0, a, a1. split_and!; [done..| | |].
  - intros -> ->. by rewrite bool_decide_eq_false_2 by (by intros [? ?]).
  - intros ip Hip. rewrite Hip, bool_decide_eq_true_2 by done. split; [done|].
    by eapply resolve_literal.
  - intros Hlb. unfold destination_is_loopback. apply orb_true_iff. right.
    rewrite bool_decide_eq_false_2 by (by destruct a). cbn.
    apply forallb_Forall in Hlb. by apply forallb_Forall, Forall_fmap.
Qed.

(** The [local_only] policy is the default policy and admits public
    destinations: a literal public IPv4 address such as [8.8.8.8] passes,
    although the constructor is documented as allowing loopback only. *)
Theorem local_only_admits_public_hosts :
  local_only = SsrfPolicy_default ∧
  check_ip (V4 (V4Addr 8 8 8 8)) local_only = Ok tt ∧ ip_is_loopback (V4 (V4Addr 8 8 8 8)) = false.
Proof. vm_compute. done. Qed.

(** ** Witnesses

    A one-URL instance of the [url] crate. *)

#[local] Instance demo_crate : UrlCrate := {|
  Url := unit;
  Url_parse := λ s, if bool_decide (s = "https://example.com/") then Some tt else None;
  scheme := λ _, "https";
  host_str := λ _, Some "example.com";
  host := λ _, Some (Domain "example.com");
  port_or_known_default := λ _, Some 443;
  as_str := λ _, "https://example.com/";
|}.

#[local] Instance demo_laws : UrlLaws demo_crate.
Proof. split; [done|by intros []|done|done]. Qed.

Definition demo_resolver : string → result SsrfError (list IpAddr) :=
  MapResolver_resolve (from_pairs [("Example.COM", [V4 (V4Addr 93 184 216 34)])]).

Lemma vetted_addresses_not_internal_witness :
  check_ip (V4 (V4Addr 93 184 216 34)) SsrfPolicy_default = Ok tt ∧
  ~ internal_ip (V4 (V4Addr 93 184 216 34)).
Proof.
  destruct (vetted_addresses_not_internal (tt : @Url demo_crate) SsrfPolicy_default demo_resolver
    [V4 (V4Addr 93 184 216 34)] eq_refl ltac:(vm_compute; reflexivity)) as [_ Hall].
  destruct (Hall (V4 (V4Addr 93 184 216 34))) as [Hok Hint]; [by left|].
  split; [exact Hok|]. apply Hint. unfold ip_ok, v4_ok, octet_ok. cbn. lia.
Defined.

Lemma ipv6_embedding_same_verdict_witness :
  check_ip (V6 (to_ipv6_mapped (V4Addr 10 0 0 1))) SsrfPolicy_default =
    Err (BlockedPrivateIp (V4Addr 10 0 0 1)).
Proof.
  rewrite (proj1 (ipv6_embedding_same_verdict (V4Addr 10 0 0 1) SsrfPolicy_default
                    ltac:(unfold v4_ok, octet_ok; cbn; lia))).
  vm_compute. reflexivity.
Defined.

Lemma metadata_always_blocked_witness :
  V4 (V4Addr 93 184 216 34) ≠ V4 (V4Addr 169 254 169 254).
Proof.
  apply (metadata_always_blocked (tt : @Url demo_crate) allow_private_networks demo_resolver
           (V4 (V4Addr 93 184 216 34)) [V4 (V4Addr 93 184 216 34)]);
    [vm_compute; reflexivity|by left].
Defined.

Definition demo_client :=
  build_pinned_client Some (tt : @Url demo_crate) SsrfPolicy_default demo_resolver 30.

Lemma pinned_client_sound_witness :
  ∃ cfg client, demo_client = Ok (cfg, client) ∧ cc_follow_redirects cfg = false.
Proof.
  eexists _, _. split; [vm_compute; reflexivity|].
  eapply (pinned_client_sound Some (tt : @Url demo_crate) SsrfPolicy_default demo_resolver 30).
  vm_compute. reflexivity.
Defined.
