(* ===== verification/Sse.v ===== *)
(** * Bounded accumulation of streamed bodies ([crates/cd-core/src/sse.rs])

    The line decoder of the provider streams and the accumulator of
    non-streamed bodies. A [Vec<u8>] is a list of bytes; [&mut self] is
    explicit state passing, also on the error paths, where the source leaves
    the decoder as it was when the error was raised. *)
From Stdlib Require Import ZArith Lia Ascii String.
From stdpp Require Import base tactics option list strings.
From Equations Require Import Equations.
From S2P Require Import Prelude RustStr.

Local Open Scope Z_scope.

(** The [CoreError::Message] values of this module. *)
Inductive SseError :=
| NotUtf8 (what : string)
| LineExceeded (max : Z)
| LineExceededNoTerminator (max : Z)
| BodyExceeded (max : Z).

Definition DEFAULT_MAX_BUFFERED_LINE_BYTES : Z := 4 * 1024 * 1024.

Definition LF : ascii := "010"%char.
Definition CR : ascii := "013"%char.

Definition decode_strict (bs : list ascii) (what : string) : result SseError string :=
  ok_or (from_utf8 bs) (NotUtf8 what).

(** ** The line decoder *)

Record SseLineDecoder := {
  pending : list ascii;
  max_buffered_line_bytes : Z;
}.

Definition with_max_buffered_line_bytes (max : Z) : SseLineDecoder :=
  {| pending := []; max_buffered_line_bytes := max |}.
Definition SseLineDecoder_new : SseLineDecoder :=
  with_max_buffered_line_bytes DEFAULT_MAX_BUFFERED_LINE_BYTES.

(** [iter().position(|b| b == '\n')], giving the bytes before the terminator
    and those after it. *)
Fixpoint split_at_lf (s : list ascii) : option (list ascii * list ascii) :=
  match s with
  | [] => None
  | c :: r =>
      if bool_decide (c = LF) then Some ([], r)
      else match split_at_lf r with
           | Some (l, t) => Some (c :: l, t)
           | None => None
           end
  end.

(** [if line.last() == Some(CR) { line.pop(); }] *)
Definition strip_cr (line : list ascii) : list ascii :=
  match rev line with
  | c :: r => if bool_decide (c = CR) then rev r else line
  | [] => line
  end.

Definition inspect {A} (x : A) : { y : A | x = y } := exist _ x eq_refl.

Lemma split_at_lf_Some s l t : split_at_lf s = Some (l, t) → s = l ++ LF :: t ∧ LF ∉ l.
Proof.
  revert l t. induction s as [|c s IH]; intros l t; cbn; [done|]. case_bool_decide as Hc.
  - intros [= <- <-]. subst. split; [done|]. apply not_elem_of_nil.
  - destruct (split_at_lf s) as [[l' t']|]; [|done]. intros [= <- <-].
    destruct (IH l' t' eq_refl) as [-> Hl]. split; [done|]. by apply not_elem_of_cons.
Qed.

(** The [while let Some(pos)] loop of [push]: the decoded lines or the error,
    and the bytes left in [pending]. *)
Equations? drain_lines (bound : Z) (s : list ascii) (lines : list string) :
    result SseError (list string) * list ascii by wf (length s) lt :=
  drain_lines bound s lines with inspect (split_at_lf s) => {
  | exist _ None _ => (Ok lines, s);
  | exist _ (Some (line, rest)) E =>
      if bound <? zlen line then (Err (LineExceeded bound), s)
      else match decode_strict (strip_cr line) "SSE line" with
           | Err e => (Err e, rest)
           | Ok text => drain_lines bound rest (lines ++ [text])
           end }.
Proof.
  apply split_at_lf_Some in E as [-> _]. rewrite length_app. cbn. lia.
Qed.

Definition push (d : SseLineDecoder) (bs : list ascii) :
    result SseError (list string) * SseLineDecoder :=
  let max := max_buffered_line_bytes d in
  let '(res, rest) := drain_lines max (pending d ++ bs) [] in
  let d := {| pending := rest; max_buffered_line_bytes := max |} in
  match res with
  | Err e => (Err e, d)
  | Ok lines =>
      if max <? zlen rest then (Err (LineExceededNoTerminator max), d)
      else (Ok lines, d)
  end.

Definition finish (d : SseLineDecoder) : result SseError (option string) :=
  match pending d with
  | [] => Ok None
  | _ :: _ => Some <$> decode_strict (pending d) "trailing SSE data"
  end.

(** ** The body accumulator *)

Record BoundedBodyAccumulator := { body_bytes : list ascii; max_bytes : Z }.

Definition with_max_bytes (max : Z) : BoundedBodyAccumulator :=
  {| body_bytes := []; max_bytes := max |}.
Definition BoundedBodyAccumulator_new : BoundedBodyAccumulator :=
  with_max_bytes DEFAULT_MAX_BUFFERED_LINE_BYTES.

Definition body_push (b : BoundedBodyAccumulator) (bs : list ascii) :
    result SseError unit * BoundedBodyAccumulator :=
  if max_bytes b <? zlen (body_bytes b) + zlen bs then (Err (BodyExceeded (max_bytes b)), b)
  else (Ok tt, {| body_bytes := body_bytes b ++ bs; max_bytes := max_bytes b |}).

Definition body_finish (b : BoundedBodyAccumulator) : result SseError string :=
  decode_strict (body_bytes b) "non-streamed response body".

(** ** Feeding a stream chunk by chunk

    How the provider clients drive the decoder: every chunk is pushed in
    order, the lines are handed on, and the first error ends the stream. *)
Fixpoint feed (d : SseLineDecoder) (chunks : list (list ascii)) :
    result SseError (list string) * SseLineDecoder :=
  match chunks with
  | [] => (Ok [], d)
  | c :: cs =>
      match push d c with
      | (Err e, d) => (Err e, d)
      | (Ok ls, d) =>
          match feed d cs with
          | (Err e, d) => (Err e, d)
          | (Ok ls', d) => (Ok (ls ++ ls'), d)
          end
      end
  end.

Fixpoint body_feed (b : BoundedBodyAccumulator) (chunks : list (list ascii)) :
    result SseError unit * BoundedBodyAccumulator :=
  match chunks with
  | [] => (Ok tt, b)
  | c :: cs =>
      match body_push b c with
      | (Err e, b) => (Err e, b)
      | (Ok _, b) => body_feed b cs
      end
  end.

(** ** Reference: the lines of a whole stream *)

(** The terminated lines, without their line feed, and the unterminated rest. *)
Fixpoint split_lines (s : list ascii) : list (list ascii) * list ascii :=
  match s with
  | [] => ([], [])
  | c :: r =>
      let '(ls, rest) := split_lines r in
      if bool_decide (c = LF) then ([] :: ls, rest)
      else match ls with
           | [] => ([], c :: rest)
           | l :: ls => ((c :: l) :: ls, rest)
           end
  end.

Definition line_ok (max : Z) (raw : list ascii) : bool :=
  (zlen raw <=? max) && utf8_valid (strip_cr raw).

(** What a decoder bounded by [max] makes of a whole stream. *)
Definition stream_spec (max : Z) (s : list ascii) : option (list string * list ascii) :=
  let '(ls, rest) := split_lines s in
  if forallb (line_ok max) ls && (zlen rest <=? max)
  then Some (of_bytes ∘ strip_cr <$> ls, rest) else None.

(** One line on the wire, terminated by CRLF or by LF. *)
Definition encode_line (l : string * bool) : list ascii :=
  bytes l.1 ++ (if l.2 then [CR; LF] else [LF]).

(** ** Lemmas *)

(** The loop, by one unfolding. *)
Lemma drain_lines_step m s lines :
  drain_lines m s lines =
  match split_at_lf s with
  | None => (Ok lines, s)
  | Some (line, rest) =>
      if m <? zlen line then (Err (LineExceeded m), s)
      else match decode_strict (strip_cr line) "SSE line" with
           | Err e => (Err e, rest)
           | Ok text => drain_lines m rest (lines ++ [text])
           end
  end.
Proof.
  rewrite drain_lines_equation_1. unfold drain_lines_unfold_clause_1.
  destruct (inspect (split_at_lf s)) as [[[l r]|] E]; by rewrite E.
Qed.

Lemma split_at_lf_None s : split_at_lf s = None ↔ LF ∉ s.
Proof.
  induction s as [|c s IH]; cbn; [split; [intros _; apply not_elem_of_nil|done]|].
  rewrite not_elem_of_cons. case_bool_decide; [naive_solver|].
  destruct (split_at_lf s) as [[]|]; naive_solver.
Qed.

Lemma split_lines_no_lf s : LF ∉ s → split_lines s = ([], s).
Proof.
  induction s as [|c s IH]; cbn; [done|]. intros [Hc Hs]%not_elem_of_cons.
  rewrite IH by done. by rewrite bool_decide_eq_false_2.
Qed.

Lemma split_lines_line l s :
  LF ∉ l → split_lines (l ++ LF :: s) = (l :: (split_lines s).1, (split_lines s).2).
Proof.
  induction l as [|c l IH]; cbn.
  - intros _. by destruct (split_lines s).
  - intros [Hc Hl]%not_elem_of_cons. rewrite IH by done. by rewrite bool_decide_eq_false_2.
Qed.

Lemma split_lines_rest_no_lf s : LF ∉ (split_lines s).2.
Proof.
  induction s as [|c s IH]; cbn; [apply not_elem_of_nil|].
  destruct (split_lines s) as [ls rest]; cbn in *.
  case_bool_decide; cbn; [done|]. destruct ls; cbn; [|done].
  by apply not_elem_of_cons.
Qed.

(** Lines already complete are unaffected by what follows. *)
Lemma split_lines_app a b :
  split_lines (a ++ b) =
    ((split_lines a).1 ++ (split_lines ((split_lines a).2 ++ b)).1,
     (split_lines ((split_lines a).2 ++ b)).2).
Proof.
  induction a as [|c a IH]; cbn; [by destruct (split_lines b)|].
  rewrite IH. destruct (split_lines a) as [ls rest]; cbn.
  case_bool_decide; cbn; [done|]. destruct ls as [|l ls]; cbn; [|done].
  rewrite (bool_decide_eq_false_2 (c = LF)) by done.
  destruct (split_lines (rest ++ b)) as [[|l' ls'] rest']; done.
Qed.

(** A rest without line feed is a prefix of the first line that completes it,
    or of the new rest. *)
Lemma split_lines_first r b :
  LF ∉ r →
  match split_lines (r ++ b) with
  | (l :: _, _) => zlen r ≤ zlen l
  | ([], rest) => zlen r ≤ zlen rest
  end.
Proof.
  intros Hr. revert b. induction r as [|c r IH]; intros b; cbn.
  - destruct (split_lines b) as [[|l ls] rest]; apply zlen_nonneg.
  - apply not_elem_of_cons in Hr as [Hc Hr]. specialize (IH Hr b).
    destruct (split_lines (r ++ b)) as [[|l ls] rest];
      rewrite bool_decide_eq_false_2 by done; cbn; rewrite !zlen_cons; lia.
Qed.

Lemma line_ok_spec m raw :
  line_ok m raw = true ↔ zlen raw ≤ m ∧ utf8_valid (strip_cr raw) = true.
Proof. unfold line_ok. by rewrite andb_true_iff, Z.leb_le. Qed.

Lemma decode_strict_valid bs what :
  decode_strict bs what =
    if utf8_valid bs then Ok (of_bytes bs) else Err (NotUtf8 what).
Proof. unfold decode_strict, from_utf8. by destruct (utf8_valid bs). Qed.

(** The loop computes the terminated lines, or stops at the first bad one. *)
Lemma drain_lines_Ok m s lines ls rest :
  drain_lines m s lines = (Ok ls, rest) ↔
    forallb (line_ok m) (split_lines s).1 = true ∧
    ls = lines ++ (of_bytes ∘ strip_cr <$> (split_lines s).1) ∧ rest = (split_lines s).2.
Proof.
  remember (length s) as n eqn:Hn. revert s Hn lines.
  induction (lt_wf n) as [n _ IH]; intros s -> lines. rewrite drain_lines_step.
  destruct (split_at_lf s) as [[line r]|] eqn:Es.
  - apply split_at_lf_Some in Es as [-> Hline].
    rewrite split_lines_line by done. cbn [fst snd forallb fmap list_fmap].
    unfold line_ok at 1. destruct (Z.ltb_spec m (zlen line)).
    { rewrite (proj2 (Z.leb_gt _ _)) by done. cbn. naive_solver. }
    rewrite (proj2 (Z.leb_le (zlen line) m)) by done. cbn [andb].
    rewrite decode_strict_valid. destruct (utf8_valid (strip_cr line)); [|naive_solver].
    rewrite (IH (length r)); [|rewrite length_app; cbn; lia|done].
    rewrite <-(assoc_L (++)). done.
  - apply split_at_lf_None in Es. rewrite split_lines_no_lf by done. cbn.
    rewrite app_nil_r. naive_solver.
Qed.

Lemma push_Ok d bs ls d' :
  push d bs = (Ok ls, d') ↔
    stream_spec (max_buffered_line_bytes d) (pending d ++ bs) = Some (ls, pending d') ∧
    max_buffered_line_bytes d' = max_buffered_line_bytes d.
Proof.
  unfold push, stream_spec. set (m := max_buffered_line_bytes d).
  pose proof (drain_lines_Ok m (pending d ++ bs) []) as Hd.
  destruct (drain_lines m (pending d ++ bs) []) as [[ls0|e] rest0] eqn:E.
  - destruct (Hd ls0 rest0) as [(Hall & Hls & Hrest) _]; [done|].
    destruct (split_lines _) as [raws rest]; cbn in *. subst. rewrite Hall. cbn [andb].
    destruct (Z.ltb_spec m (zlen rest)).
    + rewrite (proj2 (Z.leb_gt _ _)) by done. naive_solver.
    + rewrite (proj2 (Z.leb_le (zlen rest) m)) by done. destruct d'; cbn. naive_solver.
  - destruct (split_lines _) as [raws rest]; cbn in *.
    destruct (forallb (line_ok m) raws); [|naive_solver].
    destruct (Hd (of_bytes ∘ strip_cr <$> raws) rest) as [_ Hd'].
    by specialize (Hd' (conj eq_refl (conj eq_refl eq_refl))).
Qed.

Lemma push_total d bs :
  (∃ ls d', push d bs = (Ok ls, d')) ∨
  (stream_spec (max_buffered_line_bytes d) (pending d ++ bs) = None ∧
   ∃ e d', push d bs = (Err e, d')).
Proof.
  destruct (push d bs) as [[ls|e] d'] eqn:E; [eauto|]. right. split; [|eauto].
  destruct (stream_spec _ _) as [[ls rest]|] eqn:Es; [|done].
  pose proof (proj2 (push_Ok d bs ls {| pending := rest;
    max_buffered_line_bytes := max_buffered_line_bytes d |})) as Hp.
  rewrite Hp in E; done.
Qed.

(** Splitting a stream in two. *)
Lemma stream_spec_app m a b :
  stream_spec m (a ++ b) =
    ('(ls, rest) ← stream_spec m a; '(ls', rest') ← stream_spec m (rest ++ b);
     Some (ls ++ ls', rest')).
Proof.
  unfold stream_spec. rewrite split_lines_app.
  pose proof (split_lines_rest_no_lf a) as Hlf.
  destruct (split_lines a) as [l1 r1]; cbn in *.
  pose proof (split_lines_first r1 b Hlf) as Hfirst.
  destruct (split_lines (r1 ++ b)) as [l2 r2] eqn:E2; cbn.
  rewrite forallb_app, fmap_app. destruct (forallb (line_ok m) l1); cbn; [|done].
  destruct (Z.leb_spec (zlen r1) m); cbn [andb mbind option_bind].
  { rewrite E2. by destruct (_ && _). }
  destruct (_ && _) eqn:Eok; [|done]. exfalso. split_bool.
  destruct l2 as [|l l2]; [lia|]. cbn in *. split_bool.
  match goal with H : line_ok _ _ = true |- _ => apply line_ok_spec in H end. lia.
Qed.

Lemma stream_spec_pending m s ls rest :
  stream_spec m s = Some (ls, rest) → (LF ∉ rest) ∧ zlen rest ≤ m.
Proof.
  unfold stream_spec. pose proof (split_lines_rest_no_lf s).
  destruct (split_lines s) as [l r]. destruct (_ && _) eqn:E; [|done].
  intros [= <- <-]. split_bool. done.
Qed.

Lemma stream_spec_rest m rest :
  LF ∉ rest → zlen rest ≤ m → stream_spec m rest = Some ([], rest).
Proof.
  intros Hlf Hm. unfold stream_spec. rewrite split_lines_no_lf by done. cbn.
  by rewrite (proj2 (Z.leb_le _ _)).
Qed.

Lemma feed_Ok d chunks ls d' :
  LF ∉ pending d → zlen (pending d) ≤ max_buffered_line_bytes d →
  feed d chunks = (Ok ls, d') ↔
    stream_spec (max_buffered_line_bytes d) (pending d ++ concat chunks) = Some (ls, pending d') ∧
    max_buffered_line_bytes d' = max_buffered_line_bytes d.
Proof.
  revert d ls. induction chunks as [|c cs IH]; intros d ls Hlf Hlen; cbn.
  { rewrite app_nil_r, stream_spec_rest by done. destruct d, d'; cbn. naive_solver. }
  rewrite (assoc_L (++)), stream_spec_app.
  destruct (push d c) as [[ls1|e] d1] eqn:Ep.
  - apply push_Ok in Ep as [Hspec Hmax]. rewrite Hspec. cbn [mbind option_bind].
    destruct (stream_spec_pending _ _ _ _ Hspec) as [Hlf1 Hlen1].
    rewrite <-Hmax in Hlen1. pose proof (λ ls', IH d1 ls' Hlf1 Hlen1) as IH1.
    rewrite Hmax in IH1.
    destruct (feed d1 cs) as [[ls2|e] d2] eqn:Ef.
    + split.
      * intros [= <- <-]. destruct (proj1 (IH1 ls2) eq_refl) as [-> ->]. done.
      * intros [H1 H2]. destruct (stream_spec _ (pending d1 ++ concat cs)) as [[ls3 r3]|] eqn:E3; [|done].
        cbn in H1. injection H1 as <- ->.
        by injection (proj2 (IH1 ls3) (conj eq_refl H2)) as -> ->.
    + split; [done|]. intros [H1 H2].
      destruct (stream_spec _ (pending d1 ++ concat cs)) as [[ls3 r3]|] eqn:E3; [|done]. cbn in H1.
      injection H1 as <- ->. by pose proof (proj2 (IH1 ls3) (conj eq_refl H2)).
  - destruct (push_total d c) as [(? & ? & ?)|[-> _]]; [congruence|]. cbn. naive_solver.
Qed.

Lemma strip_cr_snoc l : strip_cr (l ++ [CR]) = l.
Proof.
  unfold strip_cr. rewrite rev_app_distr. cbn [rev app].
  by rewrite bool_decide_eq_true_2, rev_involutive.
Qed.

Lemma strip_cr_other l : (∀ r, l ≠ r ++ [CR]) → strip_cr l = l.
Proof.
  intros Hl. unfold strip_cr. destruct (rev l) as [|c r] eqn:E; [done|].
  case_bool_decide; [|done]. subst. exfalso. apply (Hl (rev r)).
  by rewrite <-(rev_involutive l), E.
Qed.

(** A line that may go on the wire with the given terminator. *)
Definition wire_line (m : Z) (l : string * bool) : Prop :=
  utf8_valid (bytes l.1) = true ∧ (LF ∉ bytes l.1) ∧
  zlen (bytes l.1) + (if l.2 then 1 else 0) ≤ m ∧
  (l.2 = false → ∀ r, bytes l.1 ≠ r ++ [CR]).

Lemma encode_line_raw l :
  encode_line l = (bytes l.1 ++ if l.2 then [CR] else []) ++ [LF].
Proof. unfold encode_line. destruct l.2; by rewrite <-(assoc_L (++)). Qed.

Lemma strip_cr_wire m l :
  wire_line m l → strip_cr (bytes l.1 ++ if l.2 then [CR] else []) = bytes l.1.
Proof.
  intros (_ & _ & _ & Hcr). destruct l.2; [apply strip_cr_snoc|].
  rewrite app_nil_r. by apply strip_cr_other, Hcr.
Qed.

Lemma strip_cr_length l : zlen (strip_cr l) ≤ zlen l.
Proof.
  unfold strip_cr. destruct (rev l) as [|c r] eqn:E; [done|]. case_bool_decide; [|done].
  apply (f_equal length) in E. rewrite length_rev in E. unfold zlen. rewrite length_rev, E.
  cbn. lia.
Qed.

Lemma stream_spec_encode m ls :
  0 ≤ m → Forall (wire_line m) ls →
  stream_spec m (concat (encode_line <$> ls)) = Some (ls.*1, []).
Proof.
  intros Hm. induction 1 as [|l ls Hl Hls IH].
  { apply stream_spec_rest; [apply not_elem_of_nil|done]. }
  pose proof (strip_cr_wire m l Hl) as Hstrip. destruct Hl as (Hutf & Hlf & Hlen & _).
  cbn [fmap list_fmap concat]. rewrite encode_line_raw, <-(assoc_L (++)).
  unfold stream_spec. cbn [app].
  assert (LF ∉ bytes l.1 ++ if l.2 then [CR] else []) as Hlf'.
  { rewrite not_elem_of_app. split; [done|]. destruct l.2; [|apply not_elem_of_nil].
    by intros ?%list_elem_of_singleton. }
  rewrite split_lines_line by done. unfold stream_spec in IH.
  destruct (split_lines (concat _)) as [raws rest]; cbn in *.
  unfold line_ok at 1. rewrite Hstrip, Hutf.
  rewrite (proj2 (Z.leb_le (zlen _) m)); [cbn|rewrite zlen_app; destruct l.2; done].
  destruct (_ && _); [|done]. injection IH as -> ->. by rewrite of_bytes_bytes.
Qed.

Lemma body_feed_Ok b chunks b' :
  zlen (body_bytes b) ≤ max_bytes b →
  body_feed b chunks = (Ok tt, b') ↔
    zlen (body_bytes b) + zlen (concat chunks) ≤ max_bytes b ∧
    b' = {| body_bytes := body_bytes b ++ concat chunks; max_bytes := max_bytes b |}.
Proof.
  revert b. induction chunks as [|c cs IH]; intros b Hb; cbn.
  { rewrite app_nil_r, zlen_nil, Z.add_0_r. destruct b; naive_solver. }
  unfold body_push. rewrite zlen_app. pose proof (zlen_nonneg (concat cs)).
  destruct (Z.ltb_spec (max_bytes b) (zlen (body_bytes b) + zlen c)).
  { split; [done|]. intros [? _]. lia. }
  rewrite IH; cbn [body_bytes max_bytes]; [|by rewrite zlen_app].
  rewrite zlen_app, Z.add_assoc, (assoc_L (++)). done.
Qed.

(** ** Properties *)

(** C28. The decoder refines the whole-stream specification: a push succeeds
    exactly when every line it completes, and what stays pending, is within
    the bound and every completed line is valid UTF-8; the lines returned are
    then exactly the terminated lines of the buffered bytes, with their
    terminator removed and no byte substituted, and the pending bytes are the
    unterminated rest. Otherwise the push reports an error. *)
Theorem push_refines_stream_spec d bs :
  match stream_spec (max_buffered_line_bytes d) (pending d ++ bs) with
  | Some (ls, rest) =>
      push d bs = (Ok ls, {| pending := rest;
                             max_buffered_line_bytes := max_buffered_line_bytes d |})
  | None => ∃ e d', push d bs = (Err e, d')
  end.
Proof.
  destruct (stream_spec _ _) as [[ls rest]|] eqn:E; [by apply push_Ok|].
  destruct (push_total d bs) as [(ls & d' & [? _]%push_Ok)|[_ ?]]; [congruence|done].
Qed.

(** Chunk boundaries do not matter: however the network splits a stream,
    also inside a multi-byte character or between CR and LF, feeding a fresh
    decoder chunk by chunk succeeds exactly when pushing the whole stream at
    once does, with the same lines in the same order and the same pending
    bytes. *)
Theorem chunking_invariance m chunks ls d :
  0 ≤ m →
  feed (with_max_buffered_line_bytes m) chunks = (Ok ls, d) ↔
    push (with_max_buffered_line_bytes m) (concat chunks) = (Ok ls, d).
Proof. intros Hm. rewrite feed_Ok, push_Ok; [done|apply not_elem_of_nil|done]. Qed.

(** Decoding inverts encoding: lines that are valid UTF-8, hold no line
    feed and fit the bound, terminated by CRLF or LF in any mixture and
    delivered in any chunks, are decoded to exactly those lines; nothing stays
    pending, so [finish] reports no trailing line. *)
Theorem decode_encoded_lines m ls chunks :
  0 ≤ m → Forall (wire_line m) ls → concat chunks = concat (encode_line <$> ls) →
  feed (with_max_buffered_line_bytes m) chunks = (Ok ls.*1, with_max_buffered_line_bytes m) ∧
  finish (with_max_buffered_line_bytes m) = Ok None.
Proof.
  intros Hm Hls Hc. split; [|done]. apply feed_Ok; [apply not_elem_of_nil|done|].
  cbn. rewrite Hc. by rewrite stream_spec_encode.
Qed.

(** Memory stays bounded: every successful push leaves at most
    [max_buffered_line_bytes] bytes pending, none of them a line feed, and
    returns only lines of at most that length. *)
Theorem pending_stays_bounded d bs ls d' :
  push d bs = (Ok ls, d') →
  zlen (pending d') ≤ max_buffered_line_bytes d ∧ (LF ∉ pending d') ∧
  Forall (λ l, zlen (bytes l) ≤ max_buffered_line_bytes d) ls.
Proof.
  intros [Hspec _]%push_Ok.
  destruct (stream_spec_pending _ _ _ _ Hspec). split_and!; [done..|].
  unfold stream_spec in Hspec. destruct (split_lines _) as [raws rest].
  destruct (_ && _) eqn:E; [|done]. split_bool. injection Hspec as <- _.
  match goal with H : forallb _ _ = true |- _ => apply forallb_Forall in H; rename H into Hall end.
  apply Forall_fmap. eapply Forall_impl; [done|]. cbn. intros raw [Hlen _]%line_ok_spec.
  rewrite bytes_of_bytes. pose proof (strip_cr_length raw). lia.
Qed.

(** The body accumulator holds exactly what arrived: feeding chunks to a
    fresh accumulator succeeds exactly when their total length is within the
    bound, it then holds their concatenation, and [finish] decodes the whole
    body once, failing exactly when those bytes are not valid UTF-8. *)
Theorem body_accumulates_exactly m chunks b :
  0 ≤ m →
  (body_feed (with_max_bytes m) chunks = (Ok tt, b) ↔
     zlen (concat chunks) ≤ m ∧ b = {| body_bytes := concat chunks; max_bytes := m |}) ∧
  (body_feed (with_max_bytes m) chunks = (Ok tt, b) →
     body_finish b = if utf8_valid (concat chunks) then Ok (of_bytes (concat chunks))
                     else Err (NotUtf8 "non-streamed response body")).
Proof.
  intros Hm. rewrite body_feed_Ok by done. cbn. split; [done|].
  intros [_ ->]. unfold body_finish. apply decode_strict_valid.
Qed.

(** ** Witnesses *)

Lemma chunking_invariance_witness :
  feed (with_max_buffered_line_bytes 64)
    [bytes "data: caf" ++ ["195"%char]; ["169"%char; CR]; [LF] ++ bytes "da"] =
  (Ok [of_bytes (bytes "data: caf" ++ ["195"%char; "169"%char])],
   {| pending := bytes "da"; max_buffered_line_bytes := 64 |}).
Proof. apply (chunking_invariance 64); [lia|]. vm_compute. reflexivity. Defined.

Lemma demo_wire : Forall (wire_line 8) [("ab"%string, true); ("c"%string, false)].
Proof.
  apply Forall_cons. split; [|apply Forall_singleton].
  - split_and!; [done| |done|done]. apply (bool_decide_unpack _). by vm_compute.
  - split_and!; [done| |done|].
    + apply (bool_decide_unpack _). by vm_compute.
    + intros _ [|c [|c' r]]; vm_compute; discriminate.
Qed.

Lemma decode_encoded_lines_witness :
  (feed (with_max_buffered_line_bytes 8) [bytes "ab"; [CR]; [LF; "c"%char; LF]]).1 =
    Ok ["ab"; "c"]%string.
Proof.
  rewrite (proj1 (decode_encoded_lines 8 [("ab"%string, true); ("c"%string, false)]
    [bytes "ab"; [CR]; [LF; "c"%char; LF]] ltac:(lia)
    demo_wire eq_refl)).
  reflexivity.
Defined.

Lemma pending_stays_bounded_witness : zlen (bytes "xy") ≤ 4.
Proof.
  apply (pending_stays_bounded (with_max_buffered_line_bytes 4) (bytes "ab" ++ LF :: bytes "xy")
           ["ab"%string] {| pending := bytes "xy"; max_buffered_line_bytes := 4 |}).
  vm_compute. reflexivity.
Defined.

Lemma body_accumulates_exactly_witness :
  (body_feed (with_max_bytes 4) [bytes "ab"; bytes "cd"]).1 = Ok tt.
Proof.
  rewrite (proj2 (proj1 (body_accumulates_exactly 4 [bytes "ab"; bytes "cd"]
    {| body_bytes := bytes "abcd"; max_bytes := 4 |} ltac:(lia))));
    [reflexivity|]. vm_compute. split; [discriminate|reflexivity].
Defined.
