(* ===== verification/TurnBudget.v ===== *)
(** * Turn budgets and deadlines

    [crates/cd-core/src/router.rs] (router budget, phase plan, source ranking),
    [deadline_controls.rs] (friendly durations, presets) and
    [multi_stage_budget.rs] (reserve and admission for the final synthesis).
    Milliseconds and counters are [Z]; the saturating and checked operations of
    the source are written at their width. *)
From Stdlib Require Import ZArith Lia Ascii String.
From stdpp Require Import base tactics option list list_numbers gmap sets sorting strings relations.
From S2P Require Import Prelude RustStr Net Ssrf.

Local Open Scope string_scope.
Local Open Scope list_scope.
Local Open Scope Z_scope.

(** ** Router budget *)

Inductive SourceKind := Memory | Files | Mcp | Sql | Wiki.
#[global] Instance SourceKind_eq_dec : EqDecision SourceKind.
Proof. solve_decision. Defined.

Definition MIN_DEADLINE_MS : Z := 500.
Definition MAX_DEADLINE_MS : Z := 600000.
Definition STANDARD_DEADLINE_MS : Z := 180000.
Definition PATIENT_DEADLINE_MS : Z := 300000.

Record RouterBudget := {
  max_sources : Z;
  max_tool_rounds : Z;
  max_results_per_source : Z;
  deadline_ms : Z;
  deadline_is_explicit : bool;
  order : list SourceKind;
}.

Definition default_order : list SourceKind := [Memory; Files; Mcp; Sql; Wiki].
Definition migrated_deadline_is_explicit : bool := true.

Definition RouterBudget_default : RouterBudget :=
  {| max_sources := 3; max_tool_rounds := 12; max_results_per_source := 8;
     deadline_ms := 180000; deadline_is_explicit := false; order := default_order |}.

Definition sanitized (b : RouterBudget) : RouterBudget :=
  {| max_sources := clamp 1 16 (max_sources b);
     max_tool_rounds := clamp 1 32 (max_tool_rounds b);
     max_results_per_source := clamp 1 50 (max_results_per_source b);
     deadline_ms := clamp MIN_DEADLINE_MS MAX_DEADLINE_MS (deadline_ms b);
     deadline_is_explicit := deadline_is_explicit b;
     order := if bool_decide (order b = []) then default_order else order b |}.

Definition trail_step (b : RouterBudget) : string :=
  "budget:sources=" +:+ decimal (max_sources b) +:+
  ",rounds=" +:+ decimal (max_tool_rounds b) +:+
  ",per_source=" +:+ decimal (max_results_per_source b) +:+
  ",deadline=" +:+ decimal (deadline_ms b) +:+ "ms,deadline_policy=" +:+
  (if deadline_is_explicit b then "explicit" else "adaptive").

(** ** Phase plan *)

Inductive AgentPhase := ChoosingEvidence | RetrievingEvidence | SynthesizingAnswer.

Record TurnDeadlinePlan := {
  total_ms : Z;
  choosing_ms : Z;
  retrieving_ms : Z;
  synthesizing_ms : Z;
  explicit : bool;
}.

Definition for_phase (plan : TurnDeadlinePlan) (phase : AgentPhase) : Z :=
  match phase with
  | ChoosingEvidence => choosing_ms plan
  | RetrievingEvidence => retrieving_ms plan
  | SynthesizingAnswer => synthesizing_ms plan
  end.

Inductive ProviderKind := Ollama | OpenAiCompatible | Anthropic | XaiGrokBuild.
#[global] Instance ProviderKind_eq_dec : EqDecision ProviderKind.
Proof. solve_decision. Defined.
Inductive ProviderDeadlinePreference := PrefAuto | PrefPatient | PrefStandard.

(** The fields of [ProviderProfile] the router reads. *)
Record ProviderProfile := {
  kind : ProviderKind;
  base_url : string;
  profile_local_only : bool;
  deadline_preference : ProviderDeadlinePreference;
}.

Section router.
Context {U : UrlCrate}.

Definition provider_prefers_patient_deadlines (profile : ProviderProfile) : bool :=
  match deadline_preference profile with
  | PrefPatient => true
  | PrefStandard => false
  | PrefAuto =>
      if bool_decide (kind profile = Ollama) || profile_local_only profile then true
      else
        match Url_parse (base_url profile) with
        | None => false
        | Some url =>
            match host_str url with
            | None => false
            | Some h =>
                if eq_ignore_ascii_case h "localhost" || ends_with ".local" h ||
                   ends_with ".lan" h || ends_with ".internal" h || ends_with ".corp" h ||
                   ends_with ".intranet" h || ends_with ".private" h
                then true
                else
                  is_some_and (parse_ip h) (λ ip,
                    match ip with
                    | V4 a => v4_is_private a || v4_is_loopback a || v4_is_link_local a
                    | V6 a => v6_is_loopback a || v6_is_unique_local a || v6_is_unicast_link_local a
                    end)
            end
        end
  end.

(** The [phase] closure; [checked_div] by a literal denominator succeeds. *)
Definition phase_ms (total num den : Z) : Z :=
  clamp 500 total (saturating_mul u64_max total num / den).

Definition for_profile (budget : RouterBudget) (profile : ProviderProfile) : TurnDeadlinePlan :=
  let budget := sanitized budget in
  let slow_private := provider_prefers_patient_deadlines profile in
  let total :=
    if deadline_is_explicit budget then deadline_ms budget
    else if slow_private then 300000 else 180000 in
  if slow_private then
    {| total_ms := total;
       choosing_ms := phase_ms total 2 5;
       retrieving_ms := phase_ms total 1 3;
       synthesizing_ms := phase_ms total 3 5;
       explicit := deadline_is_explicit budget |}
  else
    {| total_ms := total;
       choosing_ms := phase_ms total 3 8;
       retrieving_ms := phase_ms total 3 5;
       synthesizing_ms := phase_ms total 5 8;
       explicit := deadline_is_explicit budget |}.
End router.

(** ** Source ranking *)

(** [usize as i32] *)
Definition as_i32 (x : Z) : Z := (x + 2147483648) mod 4294967296 - 2147483648.

Fixpoint position (k : SourceKind) (l : list SourceKind) : option Z :=
  match l with
  | [] => None
  | x :: l => if bool_decide (x = k) then Some 0 else Z.succ <$> position k l
  end.

(** The score of one source; [q] is the lowercased query. *)
Definition source_score (q : string) (budget : RouterBudget) (k : SourceKind) : Z :=
  let base := match k with Memory => 100 | Files => 90 | Mcp => 50 | Sql => 40 | Wiki => 30 end in
  let sql :=
    if (contains "table" q || contains "schema" q || contains "sql" q) &&
       bool_decide (k = Sql) then 80 else 0 in
  let wiki :=
    if (contains "confluence" q || contains "wiki" q || contains "runbook" q) &&
       bool_decide (k = Wiki) then 40 else 0 in
  let preferred :=
    match position k (order budget) with
    | Some pos => as_i32 (zlen (order budget) - pos)
    | None => 0
    end in
  base + sql + wiki + preferred.

(** A stable sort by decreasing key: [sort_by_key(|b| Reverse(b.0))]. *)
Fixpoint insert_desc {A} (x : Z * A) (l : list (Z * A)) : list (Z * A) :=
  match l with
  | [] => [x]
  | y :: l' => if x.1 <? y.1 then y :: insert_desc x l' else x :: l
  end.
Definition sort_desc {A} (l : list (Z * A)) : list (Z * A) := foldr insert_desc [] l.

(** [to_lowercase] is the Unicode case mapping of the standard library. *)
Definition rank_sources (to_lowercase : string → string) (query : string)
    (available : list SourceKind) (budget : RouterBudget) : list SourceKind :=
  let q := to_lowercase query in
  let scored := (λ k, (source_score q budget k, k)) <$> available in
  (take (Z.to_nat (max_sources budget)) (sort_desc scored)).*2.

(** ** Friendly durations *)

Inductive DeadlineParseError :=
| DEmpty
| DInvalidNumber
| DInvalidUnit
| DMalformed
| DOverflow
| DOutOfRange (ms : Z).

Inductive DeadlinePolicyMode := Adaptive | Explicit.
Inductive DeadlinePreset := PresetAuto | PresetStandard | PresetPatient | PresetCustom.

Definition in_deadline_range (ms : Z) : bool :=
  (MIN_DEADLINE_MS <=? ms) && (ms <=? MAX_DEADLINE_MS).

Fixpoint take_digits (s : list ascii) : list ascii * list ascii :=
  match s with
  | [] => ([], [])
  | c :: r =>
      if is_ascii_digit c then let '(ds, t) := take_digits r in (c :: ds, t) else ([], s)
  end.

(** The digit run is valid UTF-8 by construction and the remainder starts at a
    character boundary, so the two [from_utf8] calls of the source succeed. *)
Definition parse_deadline_duration (input : string) : result DeadlineParseError Z :=
  let raw := bytes (trim input) in
  match raw with
  | [] => Err DEmpty
  | c0 :: _ =>
      if bool_decide (c0 = "+"%char) || bool_decide (c0 = "-"%char) then Err DInvalidNumber else
      let '(number, rest) := take_digits raw in
      if bool_decide (number = []) then Err DInvalidNumber else
      if match rest with
         | c :: _ => bool_decide (c = "."%char) || bool_decide (c = ","%char)
         | [] => false
         end
      then Err DInvalidNumber else
      magnitude ← ok_or (parse_u64_digits number) DOverflow;
      if magnitude =? 0 then Err DInvalidNumber else
      let unit := byte_lower <$> rest in
      if bool_decide (unit = []) then Err DInvalidUnit else
      ms ← (if bool_decide (unit = bytes "ms") then Ok magnitude
            else if bool_decide (unit = bytes "s")
            then ok_or (checked_mul u64_max magnitude 1000) DOverflow
            else if bool_decide (unit = bytes "m")
            then ok_or (checked_mul u64_max magnitude 60000) DOverflow
            else if any_whitespace unit then Err DMalformed
            else Err DInvalidUnit);
      if negb (in_deadline_range ms) then Err (DOutOfRange ms) else Ok ms
  end.

Definition format_deadline_ms (ms : Z) : string :=
  if (0 <? ms) && (ms mod 60000 =? 0) then decimal (ms / 60000) +:+ "m"
  else if (0 <? ms) && (ms mod 1000 =? 0) then decimal (ms / 1000) +:+ "s"
  else decimal ms +:+ "ms".

Definition policy_mode (b : RouterBudget) : DeadlinePolicyMode :=
  if deadline_is_explicit b then Explicit else Adaptive.

Definition classify_preset (b : RouterBudget) : DeadlinePreset :=
  if negb (deadline_is_explicit b) then PresetAuto
  else if deadline_ms b =? STANDARD_DEADLINE_MS then PresetStandard
  else if deadline_ms b =? PATIENT_DEADLINE_MS then PresetPatient
  else PresetCustom.

Definition set_deadline (b : RouterBudget) (ms : Z) (is_explicit : bool) : RouterBudget :=
  {| max_sources := max_sources b; max_tool_rounds := max_tool_rounds b;
     max_results_per_source := max_results_per_source b;
     deadline_ms := ms; deadline_is_explicit := is_explicit; order := order b |}.

Definition apply_auto_policy (b : RouterBudget) : RouterBudget :=
  set_deadline b (deadline_ms b) false.
Definition apply_standard_preset (b : RouterBudget) : RouterBudget :=
  set_deadline b STANDARD_DEADLINE_MS true.
Definition apply_patient_preset (b : RouterBudget) : RouterBudget :=
  set_deadline b PATIENT_DEADLINE_MS true.

(** The [&mut] budget is returned with the outcome. *)
Definition apply_explicit_deadline_ms (b : RouterBudget) (ms : Z) :
    result DeadlineParseError unit * RouterBudget :=
  if negb (in_deadline_range ms) then (Err (DOutOfRange ms), b)
  else (Ok tt, set_deadline b ms true).
Definition apply_turn_override (b : RouterBudget) (ms : Z) :
    result DeadlineParseError unit * RouterBudget := apply_explicit_deadline_ms b ms.

Record DeadlineStatus := {
  ds_schema : string;
  ds_policy : DeadlinePolicyMode;
  ds_deadline_ms : Z;
  ds_deadline_human : string;
  ds_deadline_is_explicit : bool;
  ds_min_ms : Z;
  ds_max_ms : Z;
  ds_standard_ms : Z;
  ds_patient_ms : Z;
}.
Definition DEADLINE_STATUS_SCHEMA : string := "contextdesk.deadline.v1".
Definition deadline_status (b : RouterBudget) : DeadlineStatus :=
  {| ds_schema := DEADLINE_STATUS_SCHEMA; ds_policy := policy_mode b;
     ds_deadline_ms := deadline_ms b; ds_deadline_human := format_deadline_ms (deadline_ms b);
     ds_deadline_is_explicit := deadline_is_explicit b;
     ds_min_ms := MIN_DEADLINE_MS; ds_max_ms := MAX_DEADLINE_MS;
     ds_standard_ms := STANDARD_DEADLINE_MS; ds_patient_ms := PATIENT_DEADLINE_MS |}.

(** ** Multi-stage admission *)

Definition MULTI_STAGE_BUDGET_POLICY_V2 : string := "contextdesk.multi_stage_budget.v2".

Inductive AdmissionDenial := TimeReserve | RoundReserve | Cancelled | Deadline.

Record AdmissionSnapshot := {
  remaining_total_ms : option Z;
  used_rounds : Z;
  max_rounds : Z;
  cancelled : bool;
}.

Record SynthesisReserve := {
  policy_id : string;
  time_reserve_ms : Z;
  round_reserve : Z;
}.

Definition synthesis_reserve (plan : TurnDeadlinePlan) : SynthesisReserve :=
  if total_ms plan =? 0 then
    {| policy_id := MULTI_STAGE_BUDGET_POLICY_V2; time_reserve_ms := 0; round_reserve := 1 |}
  else
    let half_turn := Z.max (total_ms plan / 2) 1 in
    let reserve :=
      if total_ms plan <=? half_turn then saturating_sub (total_ms plan) 1 else half_turn in
    {| policy_id := MULTI_STAGE_BUDGET_POLICY_V2; time_reserve_ms := reserve;
       round_reserve := 1 |}.

Definition admit_candidate (s : AdmissionSnapshot) (r : SynthesisReserve) :
    result AdmissionDenial unit :=
  if cancelled s then Err Cancelled
  else if bool_decide (remaining_total_ms s = Some 0) then Err Deadline
  else
    let needed :=
      saturating_add usize_max (saturating_add usize_max (used_rounds s) 1) (round_reserve r) in
    if max_rounds s <? needed then Err RoundReserve
    else
      match remaining_total_ms s with
      | Some remaining => if remaining <=? time_reserve_ms r then Err TimeReserve else Ok tt
      | None => Ok tt
      end.

Definition candidate_operation_cap_ms (remaining : option Z) (phase_cap_ms : Z)
    (r : SynthesisReserve) : option Z :=
  remaining ← remaining;
  Some (Z.min (saturating_sub remaining (time_reserve_ms r)) phase_cap_ms).

Definition synthesis_operation_cap_ms (remaining : option Z) (phase_cap_ms : Z) : option Z :=
  remaining ← remaining; Some (Z.min remaining phase_cap_ms).

Definition can_run_comparison (draft_count : Z) (s : AdmissionSnapshot) : bool :=
  if draft_count <? 2 then false
  else if cancelled s then false
  else if bool_decide (remaining_total_ms s = Some 0) then false
  else if max_rounds s <? saturating_add usize_max (used_rounds s) 1 then false
  else true.

(** What is left of the turn once [ms] milliseconds have passed. *)
Definition time_passes (ms : Z) (remaining : option Z) : option Z :=
  (λ t, saturating_sub t ms) <$> remaining.

(** One iteration of the candidate loop of [agent.rs] that issues its provider
    call: admission on a snapshot, [waited] milliseconds of host work until the
    clock is read again for the cap, the call, which the deadline wrapper stops
    at the cap after at most that much time, and the round it costs. A call that
    hits its cap is the last one. The step describes a run that the user does
    not cancel; host work between the end of a call and the next snapshot is not
    charged. *)
Inductive candidate_step (r : SynthesisReserve) : AdmissionSnapshot → AdmissionSnapshot → Prop :=
| candidate_run s waited elapsed phase_cap :
    let remaining := time_passes waited (remaining_total_ms s) in
    admit_candidate s r = Ok tt →
    0 ≤ waited → 0 ≤ elapsed →
    candidate_operation_cap_ms remaining phase_cap r ≠ Some 0 →
    match candidate_operation_cap_ms remaining phase_cap r with
    | Some cap => elapsed ≤ cap
    | None => True
    end →
    candidate_step r s
      {| remaining_total_ms := time_passes elapsed remaining;
         used_rounds := saturating_add usize_max (used_rounds s) 1;
         max_rounds := max_rounds s;
         cancelled := cancelled s |}.

(** ** Lemmas: durations *)

Lemma take_digits_app ds u :
  Forall (λ c, is_ascii_digit c = true) ds →
  match u with c :: _ => is_ascii_digit c = false | [] => True end →
  take_digits (ds ++ u) = (ds, u).
Proof.
  intros Hds Hu. induction Hds as [|c ds Hc Hds IH]; cbn.
  - destruct u as [|c u]; [done|]. cbn. by rewrite Hu.
  - by rewrite Hc, IH.
Qed.

Lemma digit_plain c : is_ascii_digit c = true → plain c = true.
Proof.
  unfold is_ascii_digit, plain, ws1, in_range. intros H. split_bool.
  rewrite (proj2 (Z.ltb_lt _ _)), (proj2 (Z.leb_gt (bv c) 13)), (proj2 (Z.eqb_neq (bv c) 32)) by lia.
  by rewrite andb_false_r.
Qed.

Lemma decimal_bytes_spec n :
  0 ≤ n ≤ u64_max →
  parse_u64_digits (decimal_bytes n) = Some n ∧
  Forall (λ c, is_ascii_digit c = true) (decimal_bytes n) ∧ decimal_bytes n ≠ [].
Proof.
  intros Hn. destruct (decimal_go_parse 20 n Hn) as (? & ? & Hne).
  - unfold u64_max in Hn. cbn. lia.
  - split_and!; [done..|]. by apply Hne.
Qed.

(** A printed number with a unit survives trimming and splits again. *)
Lemma printed_duration n u last :
  0 ≤ n ≤ u64_max → Forall (λ c, is_ascii_digit c = false) (u ++ [last]) → plain last = true →
  bytes (trim (decimal n +:+ of_bytes (u ++ [last]))) = decimal_bytes n ++ u ++ [last] ∧
  take_digits (decimal_bytes n ++ u ++ [last]) = (decimal_bytes n, u ++ [last]).
Proof.
  intros Hn Hu Hlast. destruct (decimal_bytes_spec n Hn) as (_ & Hdig & Hne). split.
  - unfold trim, decimal. rewrite bytes_of_bytes, bytes_app, !bytes_of_bytes.
    destruct (decimal_bytes n) as [|d ds]; [done|]. apply Forall_cons in Hdig as [Hd _].
    cbn. rewrite (assoc_L (++)). by apply trim_plain_ends; [apply digit_plain|].
  - apply take_digits_app; [done|]. by destruct u; apply Forall_cons in Hu as [? _].
Qed.

Lemma digit_not_sign c :
  is_ascii_digit c = true → bool_decide (c = "+"%char) || bool_decide (c = "-"%char) = false.
Proof. intros H. repeat case_bool_decide; subst; done. Qed.

Definition unit_multiplier (unit : string) : option Z :=
  if bool_decide (unit = "ms") then Some 1 else if bool_decide (unit = "s") then Some 1000
  else if bool_decide (unit = "m") then Some 60000 else None.

(** Each accepted unit ends in a plain character and holds no digit. *)
Lemma unit_shape unit mult :
  unit_multiplier unit = Some mult →
  ∃ u last, bytes unit = u ++ [last] ∧ plain last = true ∧
    Forall (λ c, is_ascii_digit c = false) (u ++ [last]).
Proof.
  unfold unit_multiplier. intros H.
  repeat case_bool_decide; simplify_eq/=;
    [exists ["m"%char], "s"%char | exists [], "s"%char | exists [], "m"%char];
    (split_and!; [done..|]); cbn; rewrite ?Forall_cons, Forall_nil; done.
Qed.

Lemma parse_printed n unit mult :
  0 < n ≤ u64_max → unit_multiplier unit = Some mult → n * mult ≤ u64_max →
  in_deadline_range (n * mult) = true →
  parse_deadline_duration (decimal n +:+ unit) = Ok (n * mult).
Proof.
  intros Hn Hunit Hmul Hrange.
  destruct (unit_shape _ _ Hunit) as (u & last & Hu & Hl & Hdig').
  destruct (printed_duration n u last) as [Hraw Htake]; [lia|done..|].
  rewrite <-Hu, of_bytes_bytes in *. clear Hdig' Hl.
  destruct (decimal_bytes_spec n) as (Hparse & Hdig & Hne); [lia|].
  unfold parse_deadline_duration. rewrite Hraw.
  destruct (decimal_bytes n) as [|d0 ds] eqn:Eds; [done|]. cbn [app].
  apply Forall_cons in Hdig as [Hd _]. rewrite (digit_not_sign d0) by done.
  cbn [app] in Htake. rewrite Htake, bool_decide_eq_false_2 by done.
  unfold unit_multiplier in Hunit.
  repeat case_bool_decide; simplify_eq/=; rewrite Hparse; cbn [ok_or mbind result_bind];
    rewrite (proj2 (Z.eqb_neq n 0)) by lia; cbn -[checked_mul Z.mul in_deadline_range];
    unfold checked_mul; rewrite ?(proj2 (Z.leb_le _ u64_max)) by lia;
    cbn -[in_deadline_range Z.mul]; rewrite ?Z.mul_1_r in *; by rewrite Hrange.
Qed.

Lemma in_deadline_range_spec ms :
  in_deadline_range ms = true ↔ MIN_DEADLINE_MS ≤ ms ≤ MAX_DEADLINE_MS.
Proof. unfold in_deadline_range. rewrite andb_true_iff, !Z.leb_le. lia. Qed.

Lemma parse_deadline_in_range input ms :
  parse_deadline_duration input = Ok ms → in_deadline_range ms = true.
Proof.
  unfold parse_deadline_duration. intros H.
  destruct (bytes (trim input)) as [|c0 r]; [done|]. case_match; [done|].
  destruct (take_digits (c0 :: r)) as [number rest]. case_bool_decide; [done|].
  case_match; [done|]. inv_result. case_match; [done|]. case_bool_decide; [done|].
  inv_result. case_match; inv_result; by split_bool.
Qed.

(** Printing a deadline and parsing the text again gives the deadline back,
    for every value the range allows, whichever unit the printer chose. *)
Theorem deadline_text_roundtrip ms :
  MIN_DEADLINE_MS ≤ ms ≤ MAX_DEADLINE_MS →
  parse_deadline_duration (format_deadline_ms ms) = Ok ms.
Proof.
  intros Hms. assert (Hr : in_deadline_range ms = true) by by apply in_deadline_range_spec.
  unfold MIN_DEADLINE_MS, MAX_DEADLINE_MS, format_deadline_ms, u64_max in *.
  assert (∀ k, 0 < k → ms mod k = 0 → ms = ms / k * k ∧ 0 ≤ ms / k ≤ ms) as Hdiv.
  { intros k Hk H0. pose proof (Z.div_mod ms k). split; [lia|].
    split; [apply Z.div_pos; lia|apply Z.div_le_upper_bound; nia]. }
  repeat case_match; split_bool.
  - destruct (Hdiv 60000) as [E ?]; [lia..|]. rewrite E at 2. rewrite E in Hr.
    apply parse_printed; unfold u64_max; [lia|done|lia|done].
  - destruct (Hdiv 1000) as [E ?]; [lia..|]. rewrite E at 2. rewrite E in Hr.
    apply parse_printed; unfold u64_max; [lia|done|lia|done].
  - rewrite <-(Z.mul_1_r ms) at 2. apply parse_printed; unfold u64_max;
      rewrite ?Z.mul_1_r; [lia|done|lia|done].
Qed.

Lemma deadline_text_roundtrip_witness :
  parse_deadline_duration (format_deadline_ms 90000) = Ok 90000 ∧ format_deadline_ms 90000 = "90s".
Proof.
  split; [|vm_compute; reflexivity].
  apply deadline_text_roundtrip. unfold MIN_DEADLINE_MS, MAX_DEADLINE_MS. lia.
Defined.

(** ** Lemmas: phase plan *)

Lemma phase_ms_bounds total num den :
  500 ≤ total → 500 ≤ phase_ms total num den ≤ total.
Proof. intros H. unfold phase_ms. by apply clamp_bounds. Qed.

Lemma sanitized_id b :
  in_deadline_range (deadline_ms b) = true → deadline_ms (sanitized b) = deadline_ms b.
Proof. intros H%in_deadline_range_spec. by apply clamp_id. Qed.

Lemma total_ms_for_profile {U : UrlCrate} b p :
  total_ms (for_profile b p) =
    if deadline_is_explicit b then deadline_ms (sanitized b)
    else if provider_prefers_patient_deadlines p then 300000 else 180000.
Proof. unfold for_profile. by destruct (provider_prefers_patient_deadlines p). Qed.

Lemma total_ms_bounds {U : UrlCrate} b p :
  MIN_DEADLINE_MS ≤ total_ms (for_profile b p) ≤ MAX_DEADLINE_MS.
Proof.
  rewrite total_ms_for_profile. unfold MIN_DEADLINE_MS, MAX_DEADLINE_MS.
  repeat case_match; [|lia..]. by apply clamp_bounds.
Qed.

(** A deadline the parser accepts is taken as it is: applying it succeeds,
    the sanitiser does not move it and the turn's total is exactly that value
    for every provider. A value the setter refuses leaves the budget as it
    was. *)
Theorem accepted_deadline_is_exact {U : UrlCrate} (b : RouterBudget) input ms :
  parse_deadline_duration input = Ok ms →
  (∃ b', apply_turn_override b ms = (Ok tt, b') ∧
     order b' = order b ∧ max_tool_rounds b' = max_tool_rounds b ∧
     deadline_ms (sanitized b') = ms ∧
     ∀ profile, total_ms (for_profile b' profile) = ms) ∧
  (∀ bad e b', apply_turn_override b bad = (Err e, b') →
     b' = b ∧ e = DOutOfRange bad ∧ ¬ (MIN_DEADLINE_MS ≤ bad ≤ MAX_DEADLINE_MS)).
Proof.
  intros Hp%parse_deadline_in_range. unfold apply_turn_override, apply_explicit_deadline_ms. split.
  - rewrite Hp. eexists; split_and!; [done..| |]; [by apply sanitized_id|].
    intros p. rewrite total_ms_for_profile. by apply sanitized_id.
  - intros bad e b' H. rewrite <-in_deadline_range_spec, not_true_iff_false.
    destruct (in_deadline_range bad); cbn in H; [done|]. by injection H as <- <-.
Qed.

(** Every plan is feasible: the total stays in the supported range and each
    phase gets at least the minimum and never more than the total; an explicit
    budget is flagged as such. *)
Theorem phase_plan_is_feasible {U : UrlCrate} (b : RouterBudget) (p : ProviderProfile) phase :
  MIN_DEADLINE_MS ≤ for_phase (for_profile b p) phase ∧
  for_phase (for_profile b p) phase ≤ total_ms (for_profile b p) ∧
  total_ms (for_profile b p) ≤ MAX_DEADLINE_MS ∧
  explicit (for_profile b p) = deadline_is_explicit b.
Proof.
  pose proof (total_ms_bounds b p) as Ht. unfold MIN_DEADLINE_MS, MAX_DEADLINE_MS in *.
  assert (500 ≤ for_phase (for_profile b p) phase ≤ total_ms (for_profile b p)); [|split_and!; try lia].
  - revert Ht. unfold for_profile.
    destruct (provider_prefers_patient_deadlines p), phase; cbn [for_phase total_ms
      choosing_ms retrieving_ms synthesizing_ms]; intros Ht; apply phase_ms_bounds; lia.
  - unfold for_profile. by destruct (provider_prefers_patient_deadlines p).
Qed.

(** ** Lemmas: reserve and admission *)

Lemma synthesis_reserve_bounds plan :
  0 < total_ms plan →
  0 ≤ time_reserve_ms (synthesis_reserve plan) < total_ms plan ∧
  (2 ≤ total_ms plan → 0 < time_reserve_ms (synthesis_reserve plan)) ∧
  round_reserve (synthesis_reserve plan) = 1.
Proof.
  intros H. unfold synthesis_reserve. rewrite (proj2 (Z.eqb_neq _ 0)) by lia.
  cbn [time_reserve_ms round_reserve]. unfold saturating_sub.
  pose proof (Z.div_lt (total_ms plan) 2). case_match; split_bool.
  - lia.
  - assert (2 ≤ total_ms plan → 1 ≤ total_ms plan / 2) by (intros; apply Z.div_le_lower_bound; lia).
    lia.
Qed.

(** What the candidate loop keeps for the final synthesis. *)
Definition reserve_kept (r : SynthesisReserve) (s : AdmissionSnapshot) : Prop :=
  cancelled s = false ∧ 0 ≤ used_rounds s ∧ used_rounds s + round_reserve r ≤ max_rounds s ∧
  max_rounds s < usize_max ∧
  match remaining_total_ms s with Some t => time_reserve_ms r ≤ t | None => True end.

Lemma admit_candidate_Ok s r :
  admit_candidate s r = Ok tt → 0 ≤ round_reserve r → max_rounds s < usize_max →
  cancelled s = false ∧ used_rounds s + 1 + round_reserve r ≤ max_rounds s ∧
  ∀ t, remaining_total_ms s = Some t → time_reserve_ms r < t.
Proof.
  unfold admit_candidate. intros H Hr Hmax.
  destruct (cancelled s); [done|]. case_bool_decide; [done|].
  destruct (max_rounds s <? _) eqn:Hneed; [done|]. apply Z.ltb_ge in Hneed.
  assert (Hn := saturating_add_lower _ _ _ _ Hneed Hmax).
  split_and!; [done| |].
  - enough (saturating_add usize_max (used_rounds s) 1 = used_rounds s + 1) by lia.
    revert Hn. unfold saturating_add. lia.
  - intros t Ht. rewrite Ht in H. destruct (Z.leb_spec t (time_reserve_ms r)); [done|lia].
Qed.

Lemma candidate_step_keeps_reserve r s s' :
  0 ≤ time_reserve_ms r → 0 ≤ round_reserve r →
  reserve_kept r s → candidate_step r s s' → reserve_kept r s'.
Proof.
  intros Hr0 Hr1 (Hc & Hu & Hrounds & Hmax & Hrem) Hstep.
  destruct Hstep as [s waited elapsed cap rem Hadm Hw He Hcap0 Hcap].
  apply admit_candidate_Ok in Hadm as (_ & Hround & _); [|done..].
  unfold reserve_kept. cbn [cancelled used_rounds max_rounds remaining_total_ms].
  rewrite saturating_add_exact by lia. split_and!; [done|lia..|].
  unfold rem, time_passes, candidate_operation_cap_ms, saturating_sub in *.
  destruct (remaining_total_ms s) as [t|]; [|done].
  cbn [mbind option_bind fmap option_fmap option_map] in *.
  destruct (decide (Z.max 0 (Z.max 0 (t - waited) - time_reserve_ms r) = 0)); [|lia].
  destruct Hcap0. f_equal. lia.
Qed.

Lemma candidate_steps_keep_reserve r s s' :
  0 ≤ time_reserve_ms r → 0 ≤ round_reserve r →
  reserve_kept r s → rtc (candidate_step r) s s' → reserve_kept r s'.
Proof.
  intros ??? Hs. induction Hs as [|s1 s2 s3 H12 _ IH]; [done|].
  apply IH. by apply (candidate_step_keeps_reserve r s1).
Qed.


(** ** Lemmas: ranking *)

Lemma insert_desc_perm {A} (x : Z * A) l : insert_desc x l ≡ₚ x :: l.
Proof.
  induction l as [|y l IH]; cbn; [done|]. case_match; [|done]. rewrite IH. constructor.
Qed.

Lemma sort_desc_perm {A} (l : list (Z * A)) : sort_desc l ≡ₚ l.
Proof. induction l as [|x l IH]; cbn; [done|]. by rewrite insert_desc_perm, IH. Qed.

Definition desc {A} (x y : Z * A) : Prop := y.1 ≤ x.1.

Lemma insert_desc_sorted {A} (x : Z * A) l :
  StronglySorted desc l → StronglySorted desc (insert_desc x l).
Proof.
  induction 1 as [|y l Hl IH Hy]; cbn; [repeat constructor|].
  case_match eqn:E; split_bool.
  - constructor; [done|]. rewrite insert_desc_perm, Forall_cons. split; [unfold desc; lia|done].
  - constructor; [by constructor|]. rewrite Forall_cons. split; [done|].
    eapply Forall_impl; [exact Hy|]. unfold desc. intros. lia.
Qed.

Lemma sort_desc_sorted {A} (l : list (Z * A)) : StronglySorted desc (sort_desc l).
Proof. induction l as [|x l IH]; cbn; [constructor|]. by apply insert_desc_sorted. Qed.

Lemma insert_desc_filter {A} (x : Z * A) l s :
  StronglySorted desc l →
  List.filter (λ y, y.1 =? s) (insert_desc x l) = List.filter (λ y, y.1 =? s) (x :: l).
Proof.
  induction 1 as [|y l Hl IH Hy]; cbn; [done|].
  case_match eqn:E; cbn; [|done]. split_bool. rewrite IH. cbn.
  destruct (Z.eqb_spec x.1 s), (Z.eqb_spec y.1 s); try done. lia.
Qed.

Lemma sort_desc_stable {A} (l : list (Z * A)) s :
  List.filter (λ y, y.1 =? s) (sort_desc l) = List.filter (λ y, y.1 =? s) l.
Proof.
  induction l as [|x l IH]; cbn [sort_desc foldr]; [done|].
  rewrite insert_desc_filter by apply sort_desc_sorted. cbn. by rewrite <-IH.
Qed.

Lemma filter_scored {A} (score : A → Z) (l : list (Z * A)) s :
  (∀ x, x ∈ l → x.1 = score x.2) →
  List.filter (λ k, score k =? s) l.*2 = (List.filter (λ x, x.1 =? s) l).*2.
Proof.
  induction l as [|x l IH]; intros H; [done|]. cbn.
  rewrite <-(H x), IH by set_solver. by case_match.
Qed.

(** A prefix of the stably sorted scored list keeps the offered order of each
    score. *)
Lemma scored_prefix {A} (score : A → Z) (kept rest : list (Z * A)) available s :
  (∀ x, x ∈ kept → x.1 = score x.2) →
  List.filter (λ x, x.1 =? s) (kept ++ rest) =
    List.filter (λ x, x.1 =? s) ((λ k, (score k, k)) <$> available) →
  List.filter (λ k, score k =? s) kept.*2 `prefix_of` List.filter (λ k, score k =? s) available.
Proof.
  intros Hk H. rewrite filter_scored by done.
  assert (available = ((λ k, (score k, k)) <$> available).*2) as E.
  { by rewrite <-list_fmap_compose, list_fmap_id. }
  rewrite E at 1. rewrite filter_scored.
  - rewrite <-H, List.filter_app, fmap_app. by apply prefix_app_r.
  - intros x (k & -> & _)%list_elem_of_fmap. done.
Qed.

(** Source routing is a bounded selection of the best: at most
    [max_sources] sources, all of them available; no source left out scores
    higher than one that was kept; the kept ones come in decreasing score, and
    sources of equal score keep the order in which they were offered. *)
Theorem rank_sources_selects_best to_lowercase query available budget :
  0 ≤ max_sources budget →
  let score := source_score (to_lowercase query) budget in
  let ranked := rank_sources to_lowercase query available budget in
  zlen ranked ≤ max_sources budget ∧
  (∃ dropped, available ≡ₚ ranked ++ dropped ∧
     ∀ k d, k ∈ ranked → d ∈ dropped → score d ≤ score k) ∧
  StronglySorted (λ a b, score b ≤ score a) ranked ∧
  (∀ s, List.filter (λ k, score k =? s) ranked
          `prefix_of` List.filter (λ k, score k =? s) available).
Proof.
  intros Hm score ranked.
  set (f := λ k, (score k, k)). set (n := Z.to_nat (max_sources budget)).
  set (srt := sort_desc (f <$> available)).
  assert (ranked = (take n srt).*2) as -> by done.
  assert (Hperm : srt ≡ₚ f <$> available) by apply sort_desc_perm.
  assert (Hkey : ∀ x, x ∈ srt → x.1 = score x.2).
  { intros x. rewrite Hperm, list_elem_of_fmap. by intros (? & -> & ?). }
  pose proof (sort_desc_sorted (f <$> available)) as Hsort. fold srt in Hsort.
  rewrite <-(take_drop n srt) in Hsort, Hkey.
  split_and!.
  - unfold zlen. rewrite length_fmap, length_take. lia.
  - exists (drop n srt).*2. split.
    + rewrite <-fmap_app, take_drop, Hperm, <-list_fmap_compose.
      by rewrite list_fmap_id.
    + intros k d (x & -> & Hx)%list_elem_of_fmap (y & -> & Hy)%list_elem_of_fmap.
      rewrite <-!Hkey by set_solver. exact (StronglySorted_app_1_elem_of desc _ _ x y Hsort Hx Hy).
  - apply StronglySorted_app_1_l in Hsort.
    assert (Hkey' : ∀ x, x ∈ take n srt → x.1 = score x.2) by set_solver.
    clear Hkey Hperm. induction Hsort as [|x l Hl IH Hx]; cbn; constructor.
    + apply IH. set_solver.
    + apply Forall_fmap, Forall_forall. intros y Hy. cbn.
      rewrite <-!Hkey' by set_solver. rewrite Forall_forall in Hx. by apply Hx.
  - intros s. apply (scored_prefix score) with (rest := drop n srt).
    + intros x Hx. apply Hkey. set_solver.
    + rewrite take_drop. apply sort_desc_stable.
Qed.

Lemma rank_sources_selects_best_witness :
  rank_sources id "table of hosts" [Memory; Files; Mcp; Sql; Wiki] RouterBudget_default =
    [Sql; Memory; Files] ∧
  zlen (rank_sources id "table of hosts" [Memory; Files; Mcp; Sql; Wiki] RouterBudget_default) ≤ 3.
Proof.
  split; [vm_compute; reflexivity|].
  apply (rank_sources_selects_best id "table of hosts" [Memory; Files; Mcp; Sql; Wiki]
           RouterBudget_default). cbn. lia.
Defined.

Lemma accepted_deadline_is_exact_witness :
  parse_deadline_duration " 2M " = Ok 120000 ∧
  ∃ b', apply_turn_override RouterBudget_default 120000 = (Ok tt, b') ∧
    deadline_ms (sanitized b') = 120000.
Proof.
  assert (H : parse_deadline_duration " 2M " = Ok 120000) by (vm_compute; reflexivity).
  split; [exact H|].
  destruct (accepted_deadline_is_exact (U := demo_crate) RouterBudget_default _ _ H)
    as [(b' & H1 & _ & _ & H2 & _) _].
  exists b'. split; assumption.
Defined.

Definition demo_plan : TurnDeadlinePlan :=
  {| total_ms := 1000; choosing_ms := 500; retrieving_ms := 500; synthesizing_ms := 600;
     explicit := true |}.

