(* ===== verification/TriageSdk.v ===== *)
(** * Public triage wire contracts

    The crate [crates/cd-triage-sdk]: request, event, result, cancellation and
    replay documents ([triage_sdk.rs], [model_ref.rs], [answer.rs],
    [privacy.rs], [slot.rs]) and their validators. Record fields carry a short
    prefix because Rocq shares one name space between records. The JSON codec
    ([serde_json] and the derived serialisers) is the parameter class
    [Codec]. *)
From Stdlib Require Import ZArith Lia Ascii String.
From stdpp Require Import base tactics option list list_numbers gmap sets strings.
From S2P Require Import Prelude RustStr.

Local Open Scope string_scope.
Local Open Scope list_scope.
Local Open Scope Z_scope.

(** ** Errors *)

Inductive TriageContractError :=
| Parse
| MissingSchema
| UnknownSchema (expected got : string)
| InvalidField (field : string)
| EmptyReplay
| MissingRunStarted
| RequestFingerprintMismatch
| NonContiguousSequence
| TerminalCount (n : Z)
| EventAfterTerminal
| InvalidPhaseOrder
| RunIdentityMismatch
| PrivacyLeak
| Serialize
| PayloadTooLarge.

(** ** Model references *)

Record ModelRef := { profile_id : string; model_id : string }.
#[global] Instance ModelRef_eq_dec : EqDecision ModelRef.
Proof. solve_decision. Defined.

Definition validate_profile_id (value : string) : result string unit :=
  reject_if (is_empty (trim value) || (256 <? str_len value) || contains "/" value ||
             contains "\" value || contains "://" value || any_control (bytes value))
    "profile_id".
Definition validate_model_id (value : string) : result string unit :=
  reject_if (is_empty (trim value) || (512 <? str_len value) ||
             contains "\" value || contains "://" value || any_control (bytes value))
    "model_id".
(** [ModelRef::validate]; the error is [ModelRefError::InvalidField]. *)
Definition ModelRef_validate (m : ModelRef) : result string unit :=
  validate_profile_id (profile_id m) ≫= λ _, validate_model_id (model_id m).

(** ** Answer envelope *)

Record LogSnapshotRevisionV1 := {
  event_revision : Z;
  template_analysis_revision : Z;
  suppression_revision : Z;
}.
Inductive ClaimKind :=
| Observation | SymptomClaim | CausalCandidate | InitiatingCause | CompetingExplanation
| MissingEvidence.
Inductive EvidenceRole := Cause | Supporting | Symptom | Neutral.
Inductive ClaimStatus := Supported | Unsupported | Withheld.

Record InvestigationClaimV1 := {
  claim_id : string;
  claim_kind : ClaimKind;
  claim_text : string;
  claim_candidate_id : string;
  claim_evidence_ids : list string;
  claim_status : ClaimStatus;
}.
Record InvestigationCandidateV1 := {
  candidate_id : string;
  candidate_claims : list InvestigationClaimV1;
}.
Record CanonicalCitationV1 := {
  cite_evidence_id : string;
  cite_candidate_id : string;
  cite_source_label : string;
  cite_locator : string;
  cite_corpus_id : string;
  cite_revision : LogSnapshotRevisionV1;
  cite_content : string;
}.
Record InvestigationAnswerV1 := {
  ans_schema : string;
  ans_candidates : list InvestigationCandidateV1;
  ans_canonical_citations : list CanonicalCitationV1;
  ans_root_cause_established : bool;
}.
Record HostEvidenceEntry := {
  ev_evidence_id : string;
  ev_candidate_id : string;
  ev_source_label : string;
  ev_locator : string;
  ev_corpus_id : string;
  ev_revision : LogSnapshotRevisionV1;
  ev_role : EvidenceRole;
  ev_content : string;
}.
Record AnswerBindingV1 := {
  bind_session_id : string;
  bind_turn_id : string;
  bind_corpus_id : string;
  bind_revision : LogSnapshotRevisionV1;
  bind_ledger_digest : string;
}.
Record AnswerEnvelopeV1 := {
  env_binding : AnswerBindingV1;
  env_evidence : list HostEvidenceEntry;
  env_answer : InvestigationAnswerV1;
  env_semantic_attempts : Z;
}.

(** ** Privacy boundary *)

Inductive PacketPrivacyBoundary := ShareSafe | OwnerOnly.
#[global] Instance PacketPrivacyBoundary_eq_dec : EqDecision PacketPrivacyBoundary.
Proof. solve_decision. Defined.

Definition PRIVACY_FORBIDDEN_SUBSTRINGS : list string :=
  ["sk-"; "api_key"; "apikey"; "authorization"; "bearer "; "password="; "token=";
   "credential="; "/users/"; "/home/"; "/private/"; "/var/folders/"; "c:\users\";
   "file://"; "http://"; "https://"].

Record PrivacyFinding := { needle : string }.

Fixpoint scan_tokens (normalized : string) (tokens : list string) : list PrivacyFinding :=
  match tokens with
  | [] => []
  | token :: tokens =>
      if contains token normalized then {| needle := token |} :: scan_tokens normalized tokens
      else scan_tokens normalized tokens
  end.
Definition scan_share_safe_text (text : string) : list PrivacyFinding :=
  scan_tokens (to_ascii_lowercase text) PRIVACY_FORBIDDEN_SUBSTRINGS.

(** ** Slots *)

Definition TRIAGE_POLICY_SCHEMA_V2 : string := "contextdesk.triage_policy.v2".
Inductive TriageContributorRole :=
| ObservationExtractor | TimelineAnalyst | CausalProposer | ContradictionChecker
| EvidenceGapFinder.
#[global] Instance TriageContributorRole_eq_dec : EqDecision TriageContributorRole.
Proof. solve_decision. Defined.
Inductive TriageSlotKindV2 :=
| Contributor (role : TriageContributorRole)
| Finalizer
| Reviewer.
#[global] Instance TriageSlotKindV2_eq_dec : EqDecision TriageSlotKindV2.
Proof. solve_decision. Defined.

(** ** JSON values

    An object keeps its members in order, with distinct keys; numbers are
    whatever [serde_json::Number] is. *)
Inductive Value (Number : Type) :=
| JNull
| JBool (b : bool)
| JNumber (n : Number)
| JString (s : string)
| JArray (vs : list (Value Number))
| JObject (fields : list (string * Value Number)).
Arguments JNull {Number}.
Arguments JBool {Number} b.
Arguments JNumber {Number} n.
Arguments JString {Number} s.
Arguments JArray {Number} vs.
Arguments JObject {Number} fields.

Fixpoint map_get {A} (key : string) (m : list (string * A)) : option A :=
  match m with
  | [] => None
  | (k, v) :: m => if bool_decide (k = key) then Some v else map_get key m
  end.
(** [Value::get], [Value::as_str], [Value::is_object] *)
Definition Value_get {N} (key : string) (v : Value N) : option (Value N) :=
  match v with JObject m => map_get key m | _ => None end.
Definition Value_as_str {N} (v : Value N) : option string :=
  match v with JString s => Some s | _ => None end.
Definition Value_is_object {N} (v : Value N) : bool :=
  match v with JObject _ => true | _ => false end.

(** ** Bounds and schema names *)

Definition TRIAGE_REQUEST_SCHEMA_V2 : string := "contextdesk.triage.request.v2".
Definition TRIAGE_RUN_EVENT_SCHEMA_V2 : string := "contextdesk.triage.run_event.v2".
Definition TRIAGE_RESULT_SCHEMA_V2 : string := "contextdesk.triage.result.v2".
Definition TRIAGE_SHARE_SAFE_RESULT_SCHEMA_V2 : string := "contextdesk.triage.result_share_safe.v2".
Definition TRIAGE_CANCELLATION_SCHEMA_V1 : string := "contextdesk.triage.cancellation.v1".
Definition TRIAGE_REPLAY_SCHEMA_V1 : string := "contextdesk.triage.replay.v1".
Definition MAX_TRIAGE_WIRE_BYTES : Z := 4 * 1024 * 1024.
Definition MAX_TRIAGE_TASK_BYTES : Z := 64 * 1024.
Definition MAX_TRIAGE_INLINE_POLICY_BYTES : Z := 1024 * 1024.
Definition MAX_TRIAGE_SOURCE_IDS : Z := 256.
Definition MAX_TRIAGE_REASON_CODES : Z := 64.
Definition MAX_TRIAGE_EVIDENCE_IDS : Z := 4096.
Definition MAX_TRIAGE_REPLAY_EVENTS : Z := 4096.
Definition MAX_TRIAGE_REQUEST_DEADLINE_MS : Z := 3600000.
Definition MAX_TRIAGE_REQUEST_PROVIDER_CALLS : Z := 64.

(** ** Field validators *)

Definition expect_schema (got expected : string) : result TriageContractError unit :=
  if bool_decide (got = expected) then Ok tt else Err (UnknownSchema expected got).

Definition validate_opaque_id (field value : string) : result TriageContractError unit :=
  reject_if (is_empty (trim value) || (512 <? str_len value) || contains "/" value ||
             contains "\" value || contains "://" value || any_control (bytes value))
    (InvalidField field).

Definition validate_unique_reason_codes (codes : list string) : result TriageContractError unit :=
  if MAX_TRIAGE_REASON_CODES <? zlen codes then Err PayloadTooLarge
  else if all_unique (λ code, is_ok (validate_opaque_id "reason_code" code)) codes then Ok tt
  else Err (InvalidField "reason_codes").

Definition validate_unique_ids (field : string) (ids : list string) :
    result TriageContractError unit :=
  if all_unique (λ id, is_ok (validate_opaque_id field id)) ids then Ok tt
  else Err (InvalidField field).

Definition validate_unique_ids_bounded (field : string) (ids : list string) (bound : Z) :
    result TriageContractError unit :=
  if bound <? zlen ids then Err PayloadTooLarge else validate_unique_ids field ids.

(** ** Requests *)

Record TriageScopeV1 := {
  corpus_id : string;
  corpus_revision : option Z;
  source_ids : list string;
}.

Inductive TriagePolicySelectionV2 (Number : Type) :=
| Standard (model : ModelRef)
| Saved (policy_id : string) (policy_revision : Z)
| Inline (schema_id : string) (document : Value Number).
Arguments Standard {Number} model.
Arguments Saved {Number} policy_id policy_revision.
Arguments Inline {Number} schema_id document.

Record TriageRequestOverridesV1 := {
  ov_deadline_ms : option Z;
  ov_max_provider_calls : option Z;
}.

Record TriageRequestV2 (Number : Type) := {
  req_schema_id : string;
  req_run_id : string;
  req_privacy : PacketPrivacyBoundary;
  req_task : string;
  req_scope : TriageScopeV1;
  req_policy : TriagePolicySelectionV2 Number;
  req_overrides : TriageRequestOverridesV1;
  req_cancellation_id : string;
}.
Arguments req_schema_id {Number} _.
Arguments req_run_id {Number} _.
Arguments req_privacy {Number} _.
Arguments req_task {Number} _.
Arguments req_scope {Number} _.
Arguments req_policy {Number} _.
Arguments req_overrides {Number} _.
Arguments req_cancellation_id {Number} _.

(** ** Attempts and reconciliation *)

Inductive TriageAttemptStatus :=
| StCompleted | StAbstained | StInvalid | StUnavailable | StTimedOut | StCancelled | StFailed
| StNotAdmitted.
#[global] Instance TriageAttemptStatus_eq_dec : EqDecision TriageAttemptStatus.
Proof. solve_decision. Defined.
Inductive TriageTerminalDispositionV1 :=
| TdCompleted | TdAbstained | TdInvalid | TdUnavailable | TdTimedOut | TdCancelled | TdFailed
| TdNotAdmitted.
#[global] Instance TriageTerminalDispositionV1_eq_dec : EqDecision TriageTerminalDispositionV1.
Proof. solve_decision. Defined.

Record TriageRoleAttemptV1 := {
  attempt_id : string;
  role_slot_id : string;
  at_role : TriageSlotKindV2;
  at_model : option ModelRef;
  at_status : TriageAttemptStatus;
  at_reason_codes : list string;
  elapsed_ms : Z;
  input_chars : Z;
  output_chars : Z;
  physical_provider_calls : option Z;
  semantic_corrections : option Z;
  terminal_disposition : option TriageTerminalDispositionV1;
}.

Definition terminal_disposition_for_status (s : TriageAttemptStatus) : TriageTerminalDispositionV1 :=
  match s with
  | StCompleted => TdCompleted
  | StAbstained => TdAbstained
  | StInvalid => TdInvalid
  | StUnavailable => TdUnavailable
  | StTimedOut => TdTimedOut
  | StCancelled => TdCancelled
  | StFailed => TdFailed
  | StNotAdmitted => TdNotAdmitted
  end.

Definition validate_model_field (m : ModelRef) : result TriageContractError unit :=
  map_err (λ _, InvalidField "model") (ModelRef_validate m).

Definition TriageRoleAttemptV1_validate (a : TriageRoleAttemptV1) :
    result TriageContractError unit :=
  validate_opaque_id "attempt_id" (attempt_id a) ≫= λ _,
  validate_opaque_id "role_slot_id" (role_slot_id a) ≫= λ _,
  match at_model a with Some m => validate_model_field m | None => Ok tt end ≫= λ _,
  validate_unique_reason_codes (at_reason_codes a) ≫= λ _,
  reject_if (is_some_and (physical_provider_calls a) (λ calls,
               MAX_TRIAGE_REQUEST_PROVIDER_CALLS <? calls))
    (InvalidField "physical_provider_calls") ≫= λ _,
  reject_if (match physical_provider_calls a, semantic_corrections a with
             | Some calls, Some corrections => calls <? corrections
             | _, _ => false
             end) (InvalidField "semantic_corrections") ≫= λ _,
  reject_if (bool_decide (at_status a = StNotAdmitted) &&
             (is_some_and (physical_provider_calls a) (λ calls, 0 <? calls) ||
              is_some_and (semantic_corrections a) (λ corrections, 0 <? corrections)))
    (InvalidField "not_admitted_accounting") ≫= λ _,
  match terminal_disposition a with
  | Some disposition =>
      reject_if (negb (bool_decide (disposition = terminal_disposition_for_status (at_status a))))
        (InvalidField "terminal_disposition")
  | None => Ok tt
  end.

Record TriageReconciliationV1 := {
  rec_state : string;
  configured_role_slots : Z;
  completed_role_slots : Z;
  distinct_models : Z;
  distinct_gateways : Z;
  supported_claim_ids : list string;
  conflict_ids : list string;
  gap_ids : list string;
  rec_root_cause_established : bool;
}.
#[global] Instance TriageReconciliationV1_eq_dec : EqDecision TriageReconciliationV1.
Proof. solve_decision. Defined.

Definition TriageReconciliationV1_validate (s : TriageReconciliationV1) :
    result TriageContractError unit :=
  validate_opaque_id "reconciliation_state" (rec_state s) ≫= λ _,
  reject_if ((configured_role_slots s <? completed_role_slots s) ||
             (completed_role_slots s <? distinct_models s) ||
             (distinct_models s <? distinct_gateways s))
    (InvalidField "reconciliation_counts") ≫= λ _,
  validate_unique_ids_bounded "supported_claim_ids" (supported_claim_ids s)
    MAX_TRIAGE_EVIDENCE_IDS ≫= λ _,
  validate_unique_ids_bounded "conflict_ids" (conflict_ids s) MAX_TRIAGE_EVIDENCE_IDS ≫= λ _,
  validate_unique_ids_bounded "gap_ids" (gap_ids s) MAX_TRIAGE_EVIDENCE_IDS.

(** ** Results *)

Inductive TriageResultKind := GroundedFinal | HonestPartial.
#[global] Instance TriageResultKind_eq_dec : EqDecision TriageResultKind.
Proof. solve_decision. Defined.
Inductive TriageValidationState := VPassed | VPartial | VFailed.
#[global] Instance TriageValidationState_eq_dec : EqDecision TriageValidationState.
Proof. solve_decision. Defined.

Record TriageResultV2 := {
  res_schema_id : string;
  res_run_id : string;
  res_kind : TriageResultKind;
  validation_state : TriageValidationState;
  res_packet_id : string;
  reconciliation : TriageReconciliationV1;
  res_answer : option AnswerEnvelopeV1;
  accepted_evidence_ids : list string;
  res_reason_codes : list string;
}.

Record ShareSafeTriageResultV2 := {
  ss_schema_id : string;
  ss_run_id : string;
  ss_kind : TriageResultKind;
  ss_validation_state : TriageValidationState;
  ss_packet_id : string;
  ss_reconciliation : TriageReconciliationV1;
  ss_accepted_evidence_ids : list string;
  ss_reason_codes : list string;
}.

(** ** Events, cancellation, replay *)

Inductive TriageRunEventPayloadV2 :=
| RunStarted (request_fingerprint policy_fingerprint : string)
| PacketReady (packet_id packet_digest : string) (evidence_count : Z)
| RoleAttempt (attempt : TriageRoleAttemptV1)
| Reconciliation (summary : TriageReconciliationV1)
| PreliminaryReconciliation (summary : TriageReconciliationV1)
| FinalReconciliation (summary : TriageReconciliationV1)
| Validation (passed : bool) (reason_codes : list string)
| Correction (applied : bool) (reason_codes : list string)
| Completed (r : TriageResultV2)
| Failed (category : string) (partial_result : option TriageResultV2)
| TimedOut (category : string) (partial_result : option TriageResultV2)
| Cancelled (cancellation_id : string) (partial_result : option TriageResultV2).

Definition is_terminal (e : TriageRunEventPayloadV2) : bool :=
  match e with
  | Completed _ | Failed _ _ | TimedOut _ _ | Cancelled _ _ => true
  | _ => false
  end.

Record TriageRunEventV2 := {
  ev_schema_id : string;
  ev_run_id : string;
  sequence : Z;
  ev_privacy : PacketPrivacyBoundary;
  event : TriageRunEventPayloadV2;
}.

Record TriageCancellationV1 := {
  can_schema_id : string;
  can_run_id : string;
  can_cancellation_id : string;
}.

Record TriageReplayV1 := {
  rp_schema_id : string;
  rp_run_id : string;
  rp_request_fingerprint : string;
  events : list TriageRunEventV2;
}.

Definition TriageCancellationV1_validate (c : TriageCancellationV1) :
    result TriageContractError unit :=
  expect_schema (can_schema_id c) TRIAGE_CANCELLATION_SCHEMA_V1 ≫= λ _,
  validate_opaque_id "run_id" (can_run_id c) ≫= λ _,
  validate_opaque_id "cancellation_id" (can_cancellation_id c).

Definition TriageScopeV1_validate (s : TriageScopeV1) : result TriageContractError unit :=
  validate_opaque_id "corpus_id" (corpus_id s) ≫= λ _,
  reject_if (bool_decide (corpus_revision s = Some 0)) (InvalidField "corpus_revision") ≫= λ _,
  validate_unique_ids_bounded "source_ids" (source_ids s) MAX_TRIAGE_SOURCE_IDS.

(** ** The JSON codec

    [serde_json]'s parser and printer and the serialisers serde derives for the
    documents above. A [None] is the error of the call. *)
Class Codec := {
  Number : Type;
  from_str : string → option (Value Number);
  value_to_vec : Value Number → option (list ascii);
  result_to_vec : TriageResultV2 → option (list ascii);
  share_safe_to_string : ShareSafeTriageResultV2 → option string;
  event_to_string : TriageRunEventV2 → option string;
  request_to_value : TriageRequestV2 Number → option (Value Number);
  request_from_value : Value Number → option (TriageRequestV2 Number);
  event_from_value : Value Number → option TriageRunEventV2;
  result_from_value : Value Number → option TriageResultV2;
  cancellation_from_value : Value Number → option TriageCancellationV1;
  replay_from_value : Value Number → option TriageReplayV1;
}.

Section sdk.
Context `{Codec}.

Definition validate_policy_selection (p : TriagePolicySelectionV2 Number) :
    result TriageContractError unit :=
  match p with
  | Standard model => validate_model_field model
  | Saved policy_id policy_revision =>
      validate_opaque_id "policy_id" policy_id ≫= λ _,
      reject_if (policy_revision =? 0) (InvalidField "policy_revision")
  | Inline schema_id document =>
      let document_schema := Value_get "schema_id" document ≫= Value_as_str in
      document_bytes ← ok_or (zlen <$> value_to_vec document) Serialize;
      reject_if (negb (bool_decide (schema_id = TRIAGE_POLICY_SCHEMA_V2)) ||
                 negb (bool_decide (document_schema = Some TRIAGE_POLICY_SCHEMA_V2)) ||
                 negb (Value_is_object document) ||
                 (MAX_TRIAGE_INLINE_POLICY_BYTES <? document_bytes))
        (InvalidField "inline_policy")
  end.

Definition TriageRequestV2_validate (r : TriageRequestV2 Number) :
    result TriageContractError unit :=
  expect_schema (req_schema_id r) TRIAGE_REQUEST_SCHEMA_V2 ≫= λ _,
  reject_if (negb (bool_decide (req_privacy r = OwnerOnly))) PrivacyLeak ≫= λ _,
  validate_opaque_id "run_id" (req_run_id r) ≫= λ _,
  TriageScopeV1_validate (req_scope r) ≫= λ _,
  validate_opaque_id "cancellation_id" (req_cancellation_id r) ≫= λ _,
  reject_if (is_empty (trim (req_task r)) || (MAX_TRIAGE_TASK_BYTES <? str_len (req_task r)) ||
             contains (String "000" "") (req_task r)) (InvalidField "task") ≫= λ _,
  validate_policy_selection (req_policy r) ≫= λ _,
  reject_if
    (is_some_and (ov_deadline_ms (req_overrides r)) (λ value,
       (value =? 0) || (MAX_TRIAGE_REQUEST_DEADLINE_MS <? value)) ||
     is_some_and (ov_max_provider_calls (req_overrides r)) (λ value,
       (value =? 0) || (MAX_TRIAGE_REQUEST_PROVIDER_CALLS <? value)))
    (InvalidField "overrides").

Definition TriageResultV2_validate (r : TriageResultV2) : result TriageContractError unit :=
  expect_schema (res_schema_id r) TRIAGE_RESULT_SCHEMA_V2 ≫= λ _,
  validate_opaque_id "run_id" (res_run_id r) ≫= λ _,
  validate_opaque_id "packet_id" (res_packet_id r) ≫= λ _,
  TriageReconciliationV1_validate (reconciliation r) ≫= λ _,
  validate_unique_ids_bounded "accepted_evidence_ids" (accepted_evidence_ids r)
    MAX_TRIAGE_EVIDENCE_IDS ≫= λ _,
  validate_unique_reason_codes (res_reason_codes r) ≫= λ _,
  reject_if (rec_root_cause_established (reconciliation r) && bool_decide (res_answer r = None))
    (InvalidField "answer") ≫= λ _,
  if bool_decide (res_kind r = GroundedFinal) &&
     (bool_decide (res_answer r = None) || negb (bool_decide (validation_state r = VPassed)))
  then Err (InvalidField "answer")
  else if bool_decide (res_kind r = HonestPartial) &&
     (bool_decide (validation_state r = VPassed) || rec_root_cause_established (reconciliation r))
  then Err (InvalidField "partial_validation")
  else
    match res_answer r with
    | Some answer =>
        let known := ev_evidence_id <$> env_evidence answer in
        reject_if (existsb (λ id, negb (bool_decide (id ∈ known))) (accepted_evidence_ids r))
          (InvalidField "accepted_evidence_ids") ≫= λ _,
        reject_if (bool_decide (res_kind r = HonestPartial) &&
                   ans_root_cause_established (env_answer answer))
          (InvalidField "partial_root_cause")
    | None => Ok tt
    end ≫= λ _,
    encoded ← ok_or (result_to_vec r) Serialize;
    reject_if (MAX_TRIAGE_WIRE_BYTES <? zlen encoded) PayloadTooLarge.

Definition share_safe_summary (r : TriageResultV2) : ShareSafeTriageResultV2 :=
  {| ss_schema_id := TRIAGE_SHARE_SAFE_RESULT_SCHEMA_V2;
     ss_run_id := res_run_id r;
     ss_kind := res_kind r;
     ss_validation_state := validation_state r;
     ss_packet_id := res_packet_id r;
     ss_reconciliation := reconciliation r;
     ss_accepted_evidence_ids := accepted_evidence_ids r;
     ss_reason_codes := res_reason_codes r |}.

Definition ShareSafeTriageResultV2_validate (r : ShareSafeTriageResultV2) :
    result TriageContractError unit :=
  expect_schema (ss_schema_id r) TRIAGE_SHARE_SAFE_RESULT_SCHEMA_V2 ≫= λ _,
  validate_opaque_id "run_id" (ss_run_id r) ≫= λ _,
  validate_opaque_id "packet_id" (ss_packet_id r) ≫= λ _,
  TriageReconciliationV1_validate (ss_reconciliation r) ≫= λ _,
  validate_unique_ids_bounded "accepted_evidence_ids" (ss_accepted_evidence_ids r)
    MAX_TRIAGE_EVIDENCE_IDS ≫= λ _,
  validate_unique_reason_codes (ss_reason_codes r) ≫= λ _,
  encoded ← ok_or (share_safe_to_string r) Serialize;
  match scan_share_safe_text encoded with [] => Ok tt | _ :: _ => Err PrivacyLeak end.

Definition validate_terminal_partial (run_id : string) (partial : option TriageResultV2) :
    result TriageContractError unit :=
  match partial with
  | None => Ok tt
  | Some partial =>
      TriageResultV2_validate partial ≫= λ _,
      reject_if (negb (bool_decide (res_run_id partial = run_id))) RunIdentityMismatch ≫= λ _,
      reject_if (negb (bool_decide (res_kind partial = HonestPartial)))
        (InvalidField "terminal_partial_result")
  end.

(** The first [match] of [TriageRunEventV2::validate]. *)
Definition validate_payload (run_id : string) (e : TriageRunEventPayloadV2) :
    result TriageContractError unit :=
  match e with
  | RunStarted request_fingerprint policy_fingerprint =>
      validate_opaque_id "request_fingerprint" request_fingerprint ≫= λ _,
      validate_opaque_id "policy_fingerprint" policy_fingerprint
  | PacketReady packet_id packet_digest _ =>
      validate_opaque_id "packet_id" packet_id ≫= λ _,
      validate_opaque_id "packet_digest" packet_digest
  | RoleAttempt attempt => TriageRoleAttemptV1_validate attempt
  | Reconciliation summary
  | PreliminaryReconciliation summary
  | FinalReconciliation summary => TriageReconciliationV1_validate summary
  | Validation _ reason_codes => validate_unique_reason_codes reason_codes
  | Correction _ reason_codes => validate_unique_reason_codes reason_codes
  | Failed category partial_result
  | TimedOut category partial_result =>
      validate_opaque_id "failure_category" category ≫= λ _,
      validate_terminal_partial run_id partial_result
  | Cancelled cancellation_id partial_result =>
      validate_opaque_id "cancellation_id" cancellation_id ≫= λ _,
      validate_terminal_partial run_id partial_result
  | Completed _ => Ok tt
  end.

(** What a share-safe event must not carry whatever its text is. *)
Definition owner_only_payload (e : TriageRunEventPayloadV2) : bool :=
  match e with
  | Completed _ => true
  | Failed _ (Some _) | TimedOut _ (Some _) | Cancelled _ (Some _) => true
  | RoleAttempt attempt => bool_decide (at_model attempt ≠ None)
  | _ => false
  end.

Definition TriageRunEventV2_validate (e : TriageRunEventV2) : result TriageContractError unit :=
  expect_schema (ev_schema_id e) TRIAGE_RUN_EVENT_SCHEMA_V2 ≫= λ _,
  validate_opaque_id "run_id" (ev_run_id e) ≫= λ _,
  validate_payload (ev_run_id e) (event e) ≫= λ _,
  match event e with
  | Completed r =>
      TriageResultV2_validate r ≫= λ _,
      reject_if (negb (bool_decide (res_run_id r = ev_run_id e))) RunIdentityMismatch
  | _ => Ok tt
  end ≫= λ _,
  if bool_decide (ev_privacy e = ShareSafe) then
    reject_if (owner_only_payload (event e)) PrivacyLeak ≫= λ _,
    encoded ← ok_or (event_to_string e) Serialize;
    match scan_share_safe_text encoded with [] => Ok tt | _ :: _ => Err PrivacyLeak end
  else Ok tt.

(** ** Replay validation *)

(** The mutable locals of [TriageReplayV1::validate]. *)
Record ReplayState := {
  terminal_count : Z;
  packet_ready : bool;
  legacy_reconciliation : bool;
  preliminary_reconciliation : bool;
  final_reconciliation : bool;
  validation : bool;
  correction : bool;
  finalizer_attempt : bool;
  reviewer_attempt : bool;
  contributor_attempt : bool;
  pre_packet_slot_ids : list string;
}.

Definition initial_replay_state : ReplayState :=
  {| terminal_count := 0; packet_ready := false; legacy_reconciliation := false;
     preliminary_reconciliation := false; final_reconciliation := false; validation := false;
     correction := false; finalizer_attempt := false; reviewer_attempt := false;
     contributor_attempt := false; pre_packet_slot_ids := [] |}.

(** Returns the extended [slot_ids]. *)
Definition validate_pre_packet_attempt (a : TriageRoleAttemptV1) (slot_ids : list string) :
    result TriageContractError (list string) :=
  let status_ok :=
    match at_status a with
    | StUnavailable | StTimedOut | StCancelled | StFailed | StNotAdmitted => true
    | _ => false
    end in
  if negb status_ok || negb (elapsed_ms a =? 0) || negb (input_chars a =? 0) ||
     negb (output_chars a =? 0) ||
     negb (bool_decide (physical_provider_calls a = Some 0)) ||
     negb (bool_decide (semantic_corrections a = Some 0)) ||
     negb (bool_decide (terminal_disposition a =
                        Some (terminal_disposition_for_status (at_status a))))
  then Err (InvalidField "pre_packet_role_attempt")
  else if bool_decide (role_slot_id a ∈ slot_ids)
  then Err (InvalidField "pre_packet_role_slot_id")
  else Ok (role_slot_id a :: slot_ids).

(** [!packet_ready && ... && !correction], used at two places. *)
Definition pre_packet (st : ReplayState) : bool :=
  negb (packet_ready st) && negb (legacy_reconciliation st) &&
  negb (preliminary_reconciliation st) && negb (final_reconciliation st) &&
  negb (validation st) && negb (correction st).

(** A terminal event before and after the packet. *)
Definition terminal_phase_ok (st : ReplayState) (e : TriageRunEventPayloadV2) : bool :=
  if pre_packet st then
    match e with
    | Failed _ None | TimedOut _ None | Cancelled _ None => true
    | _ => false
    end
  else validation st || match e with Cancelled _ _ => true | _ => false end.

(** The [phase_ok] match of a non-terminal event; a pre-packet attempt also
    extends the slot ids. *)
Definition phase_ok (index : Z) (st : ReplayState) (e : TriageRunEventPayloadV2) :
    result TriageContractError (bool * list string) :=
  let slots := pre_packet_slot_ids st in
  match e with
  | RunStarted _ _ => Ok (index =? 0, slots)
  | PacketReady _ _ _ =>
      Ok ((index =? 1) && negb (packet_ready st) && negb (legacy_reconciliation st) &&
          negb (preliminary_reconciliation st) && negb (validation st), slots)
  | RoleAttempt attempt =>
      if pre_packet st then
        slots ← validate_pre_packet_attempt attempt slots;
        Ok (0 <? index, slots)
      else
        match at_role attempt with
        | Contributor _ =>
            Ok (packet_ready st && negb (legacy_reconciliation st) &&
                negb (preliminary_reconciliation st) && negb (final_reconciliation st) &&
                negb (validation st) && negb (finalizer_attempt st) &&
                negb (reviewer_attempt st), slots)
        | Finalizer =>
            Ok (packet_ready st &&
                (legacy_reconciliation st || final_reconciliation st ||
                 (negb (contributor_attempt st) && negb (reviewer_attempt st) &&
                  negb (preliminary_reconciliation st))) &&
                negb (validation st) && negb (finalizer_attempt st), slots)
        | Reviewer =>
            Ok (packet_ready st && preliminary_reconciliation st &&
                negb (final_reconciliation st) && negb (validation st) &&
                negb (reviewer_attempt st), slots)
        end
  | Reconciliation _ =>
      Ok (packet_ready st && negb (legacy_reconciliation st) &&
          negb (preliminary_reconciliation st) && negb (validation st), slots)
  | PreliminaryReconciliation _ =>
      Ok (packet_ready st && contributor_attempt st && negb (legacy_reconciliation st) &&
          negb (preliminary_reconciliation st) && negb (validation st), slots)
  | FinalReconciliation _ =>
      Ok (packet_ready st && preliminary_reconciliation st && negb (final_reconciliation st) &&
          negb (validation st), slots)
  | Validation _ _ =>
      Ok ((legacy_reconciliation st || final_reconciliation st) && negb (validation st), slots)
  | Correction _ _ => Ok (validation st && negb (correction st), slots)
  | Completed _ | Failed _ _ | TimedOut _ _ | Cancelled _ _ => Ok (false, slots)
  end.

(** The flag assignments at the end of the loop body. *)
Definition record_event (st : ReplayState) (slots : list string) (e : TriageRunEventPayloadV2) :
    ReplayState :=
  let set_if b old := b || old in
  let is_role p := match e with RoleAttempt a => p (at_role a) | _ => false end in
  {| terminal_count := terminal_count st;
     packet_ready := match e with PacketReady _ _ _ => true | _ => packet_ready st end;
     legacy_reconciliation :=
       match e with Reconciliation _ => true | _ => legacy_reconciliation st end;
     preliminary_reconciliation :=
       match e with PreliminaryReconciliation _ => true | _ => preliminary_reconciliation st end;
     final_reconciliation :=
       match e with FinalReconciliation _ => true | _ => final_reconciliation st end;
     validation := match e with Validation _ _ => true | _ => validation st end;
     correction := match e with Correction _ _ => true | _ => correction st end;
     finalizer_attempt :=
       set_if (is_role (λ r, bool_decide (r = Finalizer))) (finalizer_attempt st);
     reviewer_attempt :=
       set_if (is_role (λ r, bool_decide (r = Reviewer))) (reviewer_attempt st);
     contributor_attempt :=
       set_if (is_role (λ r, match r with Contributor _ => true | _ => false end))
         (contributor_attempt st);
     pre_packet_slot_ids := slots |}.

Definition count_terminal (st : ReplayState) : ReplayState :=
  {| terminal_count := terminal_count st + 1;
     packet_ready := packet_ready st;
     legacy_reconciliation := legacy_reconciliation st;
     preliminary_reconciliation := preliminary_reconciliation st;
     final_reconciliation := final_reconciliation st;
     validation := validation st; correction := correction st;
     finalizer_attempt := finalizer_attempt st; reviewer_attempt := reviewer_attempt st;
     contributor_attempt := contributor_attempt st;
     pre_packet_slot_ids := pre_packet_slot_ids st |}.

(** One iteration of the loop over the events. *)
Definition replay_event (run_id : string) (len index : Z) (st : ReplayState)
    (e : TriageRunEventV2) : result TriageContractError ReplayState :=
  TriageRunEventV2_validate e ≫= λ _,
  reject_if (negb (bool_decide (ev_run_id e = run_id))) RunIdentityMismatch ≫= λ _,
  reject_if (negb (sequence e =? index)) NonContiguousSequence ≫= λ _,
  if is_terminal (event e) then
    reject_if (negb (index + 1 =? len)) EventAfterTerminal ≫= λ _,
    reject_if (negb (terminal_phase_ok st (event e))) InvalidPhaseOrder ≫= λ _,
    Ok (count_terminal st)
  else
    '(ok, slots) ← phase_ok index st (event e);
    reject_if (negb ok) InvalidPhaseOrder ≫= λ _,
    Ok (record_event st slots (event e)).

Fixpoint replay_events (run_id : string) (len index : Z) (st : ReplayState)
    (es : list TriageRunEventV2) : result TriageContractError ReplayState :=
  match es with
  | [] => Ok st
  | e :: es =>
      st ← replay_event run_id len index st e;
      replay_events run_id len (index + 1) st es
  end.

Definition TriageReplayV1_validate (r : TriageReplayV1) : result TriageContractError unit :=
  expect_schema (rp_schema_id r) TRIAGE_REPLAY_SCHEMA_V1 ≫= λ _,
  validate_opaque_id "run_id" (rp_run_id r) ≫= λ _,
  validate_opaque_id "request_fingerprint" (rp_request_fingerprint r) ≫= λ _,
  match events r with
  | [] => Err EmptyReplay
  | first :: _ =>
      reject_if (MAX_TRIAGE_REPLAY_EVENTS <? zlen (events r)) PayloadTooLarge ≫= λ _,
      match event first with
      | RunStarted request_fingerprint _ =>
          reject_if (negb (bool_decide (request_fingerprint = rp_request_fingerprint r)))
            RequestFingerprintMismatch ≫= λ _,
          st ← replay_events (rp_run_id r) (zlen (events r)) 0 initial_replay_state (events r);
          reject_if (negb (terminal_count st =? 1)) (TerminalCount (terminal_count st))
      | _ => Err MissingRunStarted
      end
  end.

(** ** Parsing *)

Definition parse_versioned {T} (from_value : Value Number → option T) (raw expected : string) :
    result TriageContractError T :=
  reject_if (MAX_TRIAGE_WIRE_BYTES <? str_len raw) PayloadTooLarge ≫= λ _,
  header ← ok_or (from_str raw) Parse;
  got ← ok_or (Value_get "schema_id" header ≫= Value_as_str) MissingSchema;
  expect_schema got expected ≫= λ _,
  ok_or (from_value header) Parse.

Definition parse_validated {T} (from_value : Value Number → option T)
    (validate : T → result TriageContractError unit) (raw expected : string) :
    result TriageContractError T :=
  value ← parse_versioned from_value raw expected;
  validate value ≫= λ _, Ok value.

Definition parse_request_v2 (raw : string) : result TriageContractError (TriageRequestV2 Number) :=
  parse_validated request_from_value TriageRequestV2_validate raw TRIAGE_REQUEST_SCHEMA_V2.
Definition parse_event_v2 (raw : string) : result TriageContractError TriageRunEventV2 :=
  parse_validated event_from_value TriageRunEventV2_validate raw TRIAGE_RUN_EVENT_SCHEMA_V2.
Definition parse_result_v2 (raw : string) : result TriageContractError TriageResultV2 :=
  parse_validated result_from_value TriageResultV2_validate raw TRIAGE_RESULT_SCHEMA_V2.
Definition parse_cancellation_v1 (raw : string) : result TriageContractError TriageCancellationV1 :=
  parse_validated cancellation_from_value TriageCancellationV1_validate raw
    TRIAGE_CANCELLATION_SCHEMA_V1.
Definition parse_replay_v1 (raw : string) : result TriageContractError TriageReplayV1 :=
  parse_validated replay_from_value TriageReplayV1_validate raw TRIAGE_REPLAY_SCHEMA_V1.
End sdk.

(** ** Lemmas: field validators *)

(** What an accepted identifier looks like. *)
Definition opaque_id (value : string) : Prop :=
  trim value ≠ "" ∧ str_len value ≤ 512 ∧
  contains "/" value = false ∧ contains "\" value = false ∧ any_control (bytes value) = false.

(** A substring test is monotone in the needle. *)
Lemma contains_weaken p q s : contains p q = true → contains p s = false → contains q s = false.
Proof.
  intros (l & r & ->)%contains_spec Hp. apply not_true_iff_false. intros (l' & r' & ->)%contains_spec.
  apply not_true_iff_false in Hp. apply Hp, contains_spec.
  exists (l' +:+ l), (r +:+ r'). by rewrite !(assoc_L String.append).
Qed.

Lemma validate_opaque_id_Ok field value u :
  validate_opaque_id field value = Ok u ↔ opaque_id value.
Proof.
  unfold validate_opaque_id, opaque_id, is_empty. rewrite reject_if_Ok, !orb_false_iff,
    bool_decide_eq_false, Z.ltb_ge. split; [tauto|].
  intros (? & ? & ? & ? & ?). split_and!; [done..| |done].
  by apply (contains_weaken "/").
Qed.

Lemma validate_unique_ids_bounded_Ok field ids bound u :
  validate_unique_ids_bounded field ids bound = Ok u ↔
    zlen ids ≤ bound ∧ Forall opaque_id ids ∧ NoDup ids.
Proof.
  unfold validate_unique_ids_bounded, validate_unique_ids. destruct u.
  assert (all_unique (λ id, is_ok (validate_opaque_id field id)) ids = true ↔
          Forall opaque_id ids ∧ NoDup ids) as Hall.
  { rewrite all_unique_spec. f_equiv. apply Forall_iff. intros id.
    rewrite is_ok_spec. setoid_rewrite validate_opaque_id_Ok. split; [by intros [_ ?]|by exists tt]. }
  destruct (Z.ltb_spec bound (zlen ids)); [split; [done|lia]|].
  rewrite <-Hall. case_match; naive_solver.
Qed.

Lemma expect_schema_Ok got expected u : expect_schema got expected = Ok u ↔ got = expected.
Proof. unfold expect_schema. destruct u. case_bool_decide; naive_solver. Qed.

(** ** Lemmas: the privacy scan *)

(** No part of [text], read without regard to ASCII case, is a forbidden
    substring. *)
Definition share_safe_clean (text : string) : Prop :=
  ∀ needle l m r, needle ∈ PRIVACY_FORBIDDEN_SUBSTRINGS →
    text = l +:+ m +:+ r → to_ascii_lowercase m ≠ needle.

Lemma to_ascii_lowercase_app s t :
  to_ascii_lowercase (s +:+ t) = to_ascii_lowercase s +:+ to_ascii_lowercase t.
Proof.
  unfold to_ascii_lowercase. apply (inj bytes).
  by rewrite !bytes_app, !bytes_of_bytes, fmap_app.
Qed.

(** Lowercasing splits where the text does. *)
Lemma to_ascii_lowercase_split text l m r :
  to_ascii_lowercase text = l +:+ m +:+ r →
  ∃ l' m' r', text = l' +:+ m' +:+ r' ∧ to_ascii_lowercase m' = m.
Proof.
  unfold to_ascii_lowercase. intros E%(f_equal bytes). rewrite bytes_of_bytes, !bytes_app in E.
  apply fmap_app_inv in E as (l' & mr & El & Emr & Et).
  symmetry in Emr. apply fmap_app_inv in Emr as (m' & r' & Em & Er & ->).
  exists (of_bytes l'), (of_bytes m'), (of_bytes r'). split.
  - apply (inj bytes). by rewrite !bytes_app, !bytes_of_bytes.
  - by rewrite bytes_of_bytes, <-Em, of_bytes_bytes.
Qed.

Lemma scan_tokens_nil text tokens :
  scan_tokens text tokens = [] ↔ ∀ t, t ∈ tokens → contains t text = false.
Proof.
  induction tokens as [|t tokens IH]; cbn; [set_solver|].
  destruct (contains t text) eqn:E; [|rewrite IH; set_solver].
  split; [done|]. intros Ht. rewrite Ht in E; set_solver.
Qed.

Lemma scan_share_safe_text_nil text :
  scan_share_safe_text text = [] ↔ share_safe_clean text.
Proof.
  unfold scan_share_safe_text, share_safe_clean. rewrite scan_tokens_nil. split.
  - intros Hc needle l m r Hin -> Hm. specialize (Hc needle Hin).
    apply not_true_iff_false in Hc. apply Hc, contains_spec.
    rewrite !to_ascii_lowercase_app, Hm. eauto.
  - intros Hc t Ht. apply not_true_iff_false. intros (l & r & E)%contains_spec.
    apply to_ascii_lowercase_split in E as (l' & m' & r' & -> & Hm). by eapply Hc.
Qed.

(** ** Results are honest *)

Section result_claims.
Context `{Codec}.

Lemma result_answer_checks (r : TriageResultV2) answer :
  existsb (λ id, negb (bool_decide (id ∈ ev_evidence_id <$> env_evidence answer)))
    (accepted_evidence_ids r) = false →
  ∀ id, id ∈ accepted_evidence_ids r → ∃ row, row ∈ env_evidence answer ∧ ev_evidence_id row = id.
Proof.
  intros Hn%existsb_false_Forall id Hid.
  rewrite Forall_forall in Hn. specialize (Hn id Hid). split_bool.
  match goal with H : id ∈ _ |- _ => apply list_elem_of_fmap in H as (row & -> & ?) end. eauto.
Qed.

(** A result the contract accepts cannot overclaim: an established root
    cause, in the reconciliation or in the answer, comes only with a grounded
    final result whose validation passed and whose answer is present; every
    accepted evidence id is a row of that answer; the independence counts are
    ordered; a partial result never carries the passed state. *)
Theorem valid_result_is_honest (r : TriageResultV2) :
  TriageResultV2_validate r = Ok tt →
  (rec_root_cause_established (reconciliation r) = true ∨
   (∃ a, res_answer r = Some a ∧ ans_root_cause_established (env_answer a) = true) →
     res_kind r = GroundedFinal) ∧
  (res_kind r = GroundedFinal → validation_state r = VPassed ∧ is_Some (res_answer r)) ∧
  (res_kind r = HonestPartial → validation_state r ≠ VPassed) ∧
  (∀ a id, res_answer r = Some a → id ∈ accepted_evidence_ids r →
     ∃ row, row ∈ env_evidence a ∧ ev_evidence_id row = id) ∧
  distinct_gateways (reconciliation r) ≤ distinct_models (reconciliation r) ≤
    completed_role_slots (reconciliation r) ∧
  completed_role_slots (reconciliation r) ≤ configured_role_slots (reconciliation r) ∧
  NoDup (accepted_evidence_ids r) ∧
  (∃ encoded, result_to_vec r = Some encoded ∧ zlen encoded ≤ MAX_TRIAGE_WIRE_BYTES).
Proof.
  intros Hv. unfold TriageResultV2_validate in Hv. inv_result.
  destruct (bool_decide (res_kind r = GroundedFinal) && _) eqn:Hg; [done|].
  destruct (bool_decide (res_kind r = HonestPartial) && _) eqn:Hp; [done|].
  inv_result.
  match goal with H : TriageReconciliationV1_validate _ = _ |- _ => rename H into Hrec end.
  match goal with H : validate_unique_ids_bounded _ (accepted_evidence_ids r) _ = _ |- _ =>
    apply validate_unique_ids_bounded_Ok in H as (_ & _ & Hnd) end.
  unfold TriageReconciliationV1_validate in Hrec. inv_result. split_bool.
  destruct (res_answer r) as [a|] eqn:Ha; destruct (res_kind r) eqn:Hk;
    inv_result; split_bool; cbn in *;
    repeat match goal with
      | H : context [bool_decide _] |- _ => first [case_bool_decide | progress cbn in H]
      end; simplify_eq/=; split_and!; try done; try lia; try naive_solver congruence;
    try (eexists; split; [done|]; lia).
  all: intros a' id [= <-] Hid; by apply (result_answer_checks r).
Qed.

(** ** Share-safe documents leak nothing *)

Lemma scan_match_Ok text u :
  match scan_share_safe_text text with [] => Ok tt | _ :: _ => Err PrivacyLeak end = Ok u ↔
  share_safe_clean text.
Proof. rewrite <-scan_share_safe_text_nil. destruct u. by destruct (scan_share_safe_text text). Qed.

(** A share-safe event that validates carries no model identity, no answer
    and no partial result, and the text that leaves the host contains none of
    the forbidden substrings in any mixture of upper and lower case. *)
Theorem share_safe_event_leaks_nothing (e : TriageRunEventV2) :
  TriageRunEventV2_validate e = Ok tt → ev_privacy e = ShareSafe →
  (∀ r, event e ≠ Completed r) ∧
  (∀ c r, event e ≠ Failed c (Some r) ∧ event e ≠ TimedOut c (Some r) ∧
     event e ≠ Cancelled c (Some r)) ∧
  (∀ a, event e = RoleAttempt a → at_model a = None) ∧
  ∃ text, event_to_string e = Some text ∧ share_safe_clean text.
Proof.
  intros Hv Hp. unfold TriageRunEventV2_validate in Hv.
  rewrite bool_decide_eq_true_2 in Hv by done. inv_result.
  apply scan_match_Ok in Hv.
  match goal with H : owner_only_payload _ = false |- _ => rename H into Ho end.
  split_and!; [| | |by eauto].
  - intros r E. by rewrite E in Ho.
  - intros c r. split_and!; intros E; by rewrite E in Ho.
  - intros a E. rewrite E in Ho. cbn in Ho. split_bool. by apply dec_stable.
Qed.

(** The share-safe projection of an accepted result is refused for one
    reason only, its text: it validates exactly when it serialises to a text
    the privacy scan finds nothing in. Run id, counts and claim ids are those
    of the result. *)
Theorem share_safe_summary_checks_only_text (r : TriageResultV2) :
  TriageResultV2_validate r = Ok tt →
  (ShareSafeTriageResultV2_validate (share_safe_summary r) = Ok tt ↔
   ∃ text, share_safe_to_string (share_safe_summary r) = Some text ∧ share_safe_clean text).
Proof.
  intros Hv. unfold TriageResultV2_validate in Hv. inv_result. clear Hv.
  unfold ShareSafeTriageResultV2_validate. set (s := share_safe_summary r).
  change (ss_run_id s) with (res_run_id r). change (ss_packet_id s) with (res_packet_id r).
  change (ss_reconciliation s) with (reconciliation r).
  change (ss_accepted_evidence_ids s) with (accepted_evidence_ids r).
  change (ss_reason_codes s) with (res_reason_codes r).
  rewrite (proj2 (expect_schema_Ok _ _ tt)) by done.
  repeat match goal with H : _ = Ok () |- _ => rewrite H; clear H end. cbn [mbind result_bind].
  destruct (share_safe_to_string s) as [text|]; cbn [ok_or mbind result_bind].
  - rewrite scan_match_Ok. naive_solver.
  - naive_solver.
Qed.

(** The per-role accounting of an accepted attempt is consistent: provider
    calls are within the bound, corrections never exceed calls, an attempt that
    was not admitted spent nothing, and a recorded disposition repeats the
    status. *)
Theorem valid_attempt_accounting (a : TriageRoleAttemptV1) :
  TriageRoleAttemptV1_validate a = Ok tt →
  (∀ calls, physical_provider_calls a = Some calls →
     calls ≤ MAX_TRIAGE_REQUEST_PROVIDER_CALLS ∧
     (at_status a = StNotAdmitted → calls ≤ 0) ∧
     ∀ c, semantic_corrections a = Some c → c ≤ calls) ∧
  (∀ d, terminal_disposition a = Some d → d = terminal_disposition_for_status (at_status a)) ∧
  opaque_id (role_slot_id a) ∧ opaque_id (attempt_id a).
Proof.
  intros Hv. unfold TriageRoleAttemptV1_validate in Hv. inv_result.
  repeat match goal with H : validate_opaque_id _ _ = Ok _ |- _ =>
    apply validate_opaque_id_Ok in H end.
  split_and!; [|intros d Hd; rewrite Hd in Hv; by inv_result; split_bool|done..].
  intros calls Hc. rewrite Hc in *. cbn in *. split_bool. split_and!; [lia| |].
  - intros Hs. match goal with H : bool_decide _ && _ = false |- _ =>
      rewrite bool_decide_eq_true_2 in H by done; cbn in H end. split_bool. lia.
  - intros c Hcorr. rewrite Hcorr in *. split_bool. lia.
Qed.
End result_claims.

(** ** A concrete run, for the witnesses *)

Module Demo.

(** A codec that prints every document as an empty object. *)
Definition codec : Codec := {|
  Number := Z;
  from_str := λ _, None;
  value_to_vec := λ _, Some (bytes "{}");
  result_to_vec := λ _, Some (bytes "{}");
  share_safe_to_string := λ _, Some "{}";
  event_to_string := λ _, Some "{}";
  request_to_value := λ r, Some (JObject [("run_id", JString (req_run_id r));
                                          ("task", JString (req_task r))]);
  request_from_value := λ _, None;
  event_from_value := λ _, None;
  result_from_value := λ _, None;
  cancellation_from_value := λ _, None;
  replay_from_value := λ _, None;
|}.

Definition model : ModelRef := {| profile_id := "profile:a"; model_id := "org/model" |}.

Definition summary : TriageReconciliationV1 :=
  {| rec_state := "agreed"; configured_role_slots := 1; completed_role_slots := 1;
     distinct_models := 1; distinct_gateways := 1; supported_claim_ids := ["claim-1"];
     conflict_ids := []; gap_ids := []; rec_root_cause_established := true |}.

Definition revision : LogSnapshotRevisionV1 :=
  {| event_revision := 1; template_analysis_revision := 1; suppression_revision := 0 |}.

Definition answer : AnswerEnvelopeV1 :=
  {| env_binding := {| bind_session_id := "s"; bind_turn_id := "t"; bind_corpus_id := "c";
                       bind_revision := revision; bind_ledger_digest := "d" |};
     env_evidence := [{| ev_evidence_id := "ev-1"; ev_candidate_id := "cand";
                         ev_source_label := "log"; ev_locator := "1"; ev_corpus_id := "c";
                         ev_revision := revision; ev_role := Cause; ev_content := "x" |}];
     env_answer := {| ans_schema := "contextdesk.investigation_answer.v1"; ans_candidates := [];
                      ans_canonical_citations := []; ans_root_cause_established := true |};
     env_semantic_attempts := 1 |}.

Definition grounded : TriageResultV2 :=
  {| res_schema_id := TRIAGE_RESULT_SCHEMA_V2; res_run_id := "run-1"; res_kind := GroundedFinal;
     validation_state := VPassed; res_packet_id := "packet-1"; reconciliation := summary;
     res_answer := Some answer; accepted_evidence_ids := ["ev-1"]; res_reason_codes := [] |}.

Definition finalizer : TriageRoleAttemptV1 :=
  {| attempt_id := "attempt-1"; role_slot_id := "standard-finalizer"; at_role := Finalizer;
     at_model := Some model; at_status := StCompleted; at_reason_codes := [];
     elapsed_ms := 10; input_chars := 100; output_chars := 20;
     physical_provider_calls := Some 2; semantic_corrections := Some 1;
     terminal_disposition := Some TdCompleted |}.

Definition run_event (sequence : Z) (payload : TriageRunEventPayloadV2) : TriageRunEventV2 :=
  {| ev_schema_id := TRIAGE_RUN_EVENT_SCHEMA_V2; ev_run_id := "run-1"; sequence := sequence;
     ev_privacy := OwnerOnly; event := payload |}.

Definition started_share_safe : TriageRunEventV2 :=
  {| ev_schema_id := TRIAGE_RUN_EVENT_SCHEMA_V2; ev_run_id := "run-1"; sequence := 0;
     ev_privacy := ShareSafe; event := RunStarted "fp" "policy-fp" |}.
End Demo.

Lemma valid_result_is_honest_witness :
  TriageResultV2_validate (H := Demo.codec) Demo.grounded = Ok tt ∧
  validation_state Demo.grounded = VPassed ∧
  ∃ row, row ∈ env_evidence Demo.answer ∧ ev_evidence_id row = "ev-1".
Proof.
  assert (Hv : TriageResultV2_validate (H := Demo.codec) Demo.grounded = Ok tt)
    by (vm_compute; reflexivity).
  destruct (valid_result_is_honest (H := Demo.codec) Demo.grounded Hv)
    as (_ & Hg & _ & Hev & _).
  split; [exact Hv|]. split; [exact (proj1 (Hg eq_refl))|].
  apply (Hev Demo.answer "ev-1" eq_refl). apply list_elem_of_here.
Defined.

Lemma share_safe_event_leaks_nothing_witness :
  TriageRunEventV2_validate (H := Demo.codec) Demo.started_share_safe = Ok tt ∧
  ∃ text, event_to_string (Codec := Demo.codec) Demo.started_share_safe = Some text ∧
    share_safe_clean text.
Proof.
  assert (Hv : TriageRunEventV2_validate (H := Demo.codec) Demo.started_share_safe = Ok tt)
    by (vm_compute; reflexivity).
  split; [exact Hv|].
  exact (proj2 (proj2 (proj2 (share_safe_event_leaks_nothing (H := Demo.codec)
    Demo.started_share_safe Hv eq_refl)))).
Defined.

Lemma share_safe_summary_checks_only_text_witness :
  ShareSafeTriageResultV2_validate (H := Demo.codec) (share_safe_summary Demo.grounded) = Ok tt.
Proof.
  apply (share_safe_summary_checks_only_text (H := Demo.codec) Demo.grounded).
  - vm_compute. reflexivity.
  - exists "{}". split; [reflexivity|]. apply scan_share_safe_text_nil. vm_compute. reflexivity.
Defined.

Lemma valid_attempt_accounting_witness :
  TriageRoleAttemptV1_validate Demo.finalizer = Ok tt ∧ opaque_id (role_slot_id Demo.finalizer).
Proof.
  assert (Hv : TriageRoleAttemptV1_validate Demo.finalizer = Ok tt) by (vm_compute; reflexivity).
  split; [exact Hv|].
  exact (proj1 (proj2 (proj2 (valid_attempt_accounting Demo.finalizer Hv)))).
Defined.
