(* ===== verification/ReplayPhases.v ===== *)
(** * The phases of a triage run

    An abstract specification of the order of events a replay may show, as an
    automaton with one state per phase, and the proof that the flag-based loop
    of [TriageReplayV1::validate] ([TriageSdk.replay_events]) accepts exactly
    the event sequences of the automaton. The claims about orderings are then
    proved on the automaton. *)
From Stdlib Require Import ZArith Lia Ascii String.
From stdpp Require Import base tactics option list list_numbers gmap sets strings.
From S2P Require Import Prelude RustStr TriageSdk.

Local Open Scope string_scope.
Local Open Scope list_scope.
Local Open Scope Z_scope.

(** ** The automaton *)

Inductive Phase :=
| NotStarted
| Started
| WithoutPacket (slots : list string)   (* attempts recorded although no packet was built *)
| Contributing (some : bool)            (* packet ready; [some] contributor ran *)
| EarlyDraft                            (* a finalizer drafted before reconciliation *)
| Reconciled (drafted : bool)           (* single reconciliation *)
| Preliminary (reviewed : bool)         (* contributor-only reconciliation *)
| FinalReconciled (drafted : bool)
| Validated (corrected : bool)
| Finished.

(** A role that never ran: no time, no text, no calls, and a fresh slot. *)
Definition idle_attempt (a : TriageRoleAttemptV1) (slots : list string) : bool :=
  is_ok (validate_pre_packet_attempt a slots).

Definition no_partial (e : TriageRunEventPayloadV2) : bool :=
  match e with
  | Failed _ None | TimedOut _ None | Cancelled _ None => true
  | _ => false
  end.

Definition is_cancelled (e : TriageRunEventPayloadV2) : bool :=
  match e with Cancelled _ _ => true | _ => false end.

Definition attempt_step (p : Phase) (a : TriageRoleAttemptV1) : option Phase :=
  match p, at_role a with
  | Started, _ =>
      if idle_attempt a [] then Some (WithoutPacket [role_slot_id a]) else None
  | WithoutPacket slots, _ =>
      if idle_attempt a slots then Some (WithoutPacket (role_slot_id a :: slots)) else None
  | Contributing _, Contributor _ => Some (Contributing true)
  | Contributing false, Finalizer => Some EarlyDraft
  | Reconciled false, Finalizer => Some (Reconciled true)
  | Preliminary false, Reviewer => Some (Preliminary true)
  | FinalReconciled false, Finalizer => Some (FinalReconciled true)
  | _, _ => None
  end.

Definition terminal_step (p : Phase) (e : TriageRunEventPayloadV2) : option Phase :=
  match p with
  | NotStarted | Finished => None
  | Started | WithoutPacket _ => if no_partial e then Some Finished else None
  | Validated _ => Some Finished
  | _ => if is_cancelled e then Some Finished else None
  end.

Definition phase_step (p : Phase) (e : TriageRunEventPayloadV2) : option Phase :=
  match e, p with
  | RunStarted _ _, NotStarted => Some Started
  | PacketReady _ _ _, Started => Some (Contributing false)
  | RoleAttempt a, _ => attempt_step p a
  | Reconciliation _, Contributing _ => Some (Reconciled false)
  | Reconciliation _, EarlyDraft => Some (Reconciled true)
  | PreliminaryReconciliation _, Contributing true => Some (Preliminary false)
  | FinalReconciliation _, Preliminary _ => Some (FinalReconciled false)
  | Validation _ _, (Reconciled _ | FinalReconciled _) => Some (Validated false)
  | Correction _ _, Validated false => Some (Validated true)
  | (Completed _ | Failed _ _ | TimedOut _ _ | Cancelled _ _), _ => terminal_step p e
  | _, _ => None
  end.

Fixpoint phases (p : Phase) (es : list TriageRunEventPayloadV2) : option Phase :=
  match es with
  | [] => Some p
  | e :: es => p ← phase_step p e; phases p es
  end.

(** ** The simulation relation *)

(** The loop flags that matter in each phase. *)
Definition flags (st : ReplayState) (packet legacy prelim final valid corr : bool) : Prop :=
  packet_ready st = packet ∧ legacy_reconciliation st = legacy ∧
  preliminary_reconciliation st = prelim ∧ final_reconciliation st = final ∧
  validation st = valid ∧ correction st = corr.

Definition sim (index : Z) (st : ReplayState) (p : Phase) : Prop :=
  match p with
  | NotStarted => index = 0 ∧ st = initial_replay_state
  | Started => index = 1 ∧ st = initial_replay_state
  | WithoutPacket slots =>
      2 ≤ index ∧ flags st false false false false false false ∧
      pre_packet_slot_ids st = slots ∧ terminal_count st = 0
  | Contributing some =>
      2 ≤ index ∧ flags st true false false false false false ∧ contributor_attempt st = some ∧
      finalizer_attempt st = false ∧ reviewer_attempt st = false ∧ terminal_count st = 0
  | EarlyDraft =>
      2 ≤ index ∧ flags st true false false false false false ∧ contributor_attempt st = false ∧
      finalizer_attempt st = true ∧ terminal_count st = 0
  | Reconciled drafted =>
      2 ≤ index ∧ flags st true true false false false false ∧ finalizer_attempt st = drafted ∧
      terminal_count st = 0
  | Preliminary reviewed =>
      2 ≤ index ∧ flags st true false true false false false ∧ contributor_attempt st = true ∧
      finalizer_attempt st = false ∧ reviewer_attempt st = reviewed ∧ terminal_count st = 0
  | FinalReconciled drafted =>
      2 ≤ index ∧ flags st true false true true false false ∧ finalizer_attempt st = drafted ∧
      terminal_count st = 0
  | Validated corrected =>
      2 ≤ index ∧ packet_ready st = true ∧ validation st = true ∧ correction st = corrected ∧
      (preliminary_reconciliation st = true → final_reconciliation st = true) ∧
      terminal_count st = 0
  | Finished => 2 ≤ index ∧ terminal_count st = 1
  end.

Section refinement.
Context `{Codec}.

(** The checks of one event that do not depend on the order. *)
Definition event_fits (run_id : string) (index : Z) (e : TriageRunEventV2) : Prop :=
  TriageRunEventV2_validate e = Ok tt ∧ ev_run_id e = run_id ∧ sequence e = index.

(** The order-dependent rest of an iteration. *)
Definition replay_order (len index : Z) (st : ReplayState) (e : TriageRunEventPayloadV2) :
    result TriageContractError ReplayState :=
  if is_terminal e then
    reject_if (negb (index + 1 =? len)) EventAfterTerminal ≫= λ _,
    reject_if (negb (terminal_phase_ok st e)) InvalidPhaseOrder ≫= λ _, Ok (count_terminal st)
  else
    '(ok, slots) ← phase_ok index st e;
    reject_if (negb ok) InvalidPhaseOrder ≫= λ _, Ok (record_event st slots e).

Lemma replay_event_Ok run_id len index st e st' :
  replay_event run_id len index st e = Ok st' ↔
    event_fits run_id index e ∧ replay_order len index st (event e) = Ok st'.
Proof.
  unfold replay_event, event_fits. fold (replay_order len index st (event e)).
  split.
  - intros Hv. inv_result. by split_bool.
  - intros [(Hv & Hr & Hs) Ho]. rewrite Hv. cbn [mbind result_bind].
    rewrite bool_decide_eq_true_2, (proj2 (Z.eqb_eq _ _)) by done. exact Ho.
Qed.

Lemma validate_pre_packet_attempt_slots a slots slots' :
  validate_pre_packet_attempt a slots = Ok slots' → slots' = role_slot_id a :: slots.
Proof. unfold validate_pre_packet_attempt. intros Hv. by repeat case_match; simplify_eq. Qed.

(** What one iteration of the loop and one step of the automaton have in
    common; a terminal event must be the last one. *)
Definition step_agrees (len index : Z) (st : ReplayState) (p : Phase)
    (e : TriageRunEventPayloadV2) : Prop :=
  match replay_order len index st e, phase_step p e with
  | Ok st', Some p' => sim (index + 1) st' p' ∧ (is_terminal e = true → index + 1 = len)
  | Ok _, None => False
  | Err _, Some _ => is_terminal e = true ∧ index + 1 ≠ len
  | Err _, None => True
  end.

(** Opens the simulation hypothesis [Hsim] and puts its values into the state,
    so that the guards compute. *)
Ltac open_sim Hsim st :=
  destruct st; unfold sim, flags, initial_replay_state in Hsim; cbn in Hsim; destruct_and!;
  try match goal with E : Build_ReplayState _ _ _ _ _ _ _ _ _ _ _ = _ |- _ =>
    injection E as ? ? ? ? ? ? ? ? ? ? ? end;
  simplify_eq/=.

(** Closes a simulation goal for a concrete next phase. *)
Ltac close_sim := split; [unfold sim, flags; cbn; split_and!; done || lia|done].

Lemma terminal_sim len index st p e :
  sim index st p → p ≠ NotStarted → p ≠ Finished → is_terminal e = true →
  step_agrees len index st p e.
Proof.
  intros Hsim Hns Hfin Ht. unfold step_agrees, replay_order. rewrite Ht.
  assert (phase_step p e = terminal_step p e) as -> by (by destruct e, p).
  destruct (Z.eqb_spec (index + 1) len) as [Hlen|Hlen]; cbn.
  2: { by case_match. }
  destruct p; try done; open_sim Hsim st; unfold terminal_phase_ok, pre_packet; cbn;
    destruct e as [| | | | | | | | |? []|? []|? []]; cbn in *; try done; close_sim.
Qed.

(** An attempt before any packet. *)
Lemma idle_attempt_sim len index st p slots a :
  sim index st p → (p = Started ∧ slots = []) ∨ p = WithoutPacket slots →
  step_agrees len index st p (RoleAttempt a).
Proof.
  intros Hsim Hp. unfold step_agrees, replay_order.
  assert (pre_packet st = true ∧ pre_packet_slot_ids st = slots ∧ 0 < index ∧
          terminal_count st = 0) as (Hpre & Hsl & Hidx & Htc).
  { destruct Hp as [[-> ->]| ->]; open_sim Hsim st; split_and!; done || lia. }
  cbn [is_terminal phase_ok]. rewrite Hpre, Hsl.
  assert (phase_step p (RoleAttempt a) =
    if idle_attempt a slots then Some (WithoutPacket (role_slot_id a :: slots)) else None) as ->
    by (by destruct Hp as [[-> ->]| ->]).
  unfold idle_attempt. destruct (validate_pre_packet_attempt a slots) as [slots'|] eqn:E; [|done].
  apply validate_pre_packet_attempt_slots in E as ->. cbn [mbind result_bind is_ok].
  rewrite (proj2 (Z.ltb_lt _ _)) by done. cbn [negb reject_if mbind result_bind].
  unfold pre_packet in Hpre. split_bool. destruct st; cbn in *. subst. close_sim.
Qed.

Lemma attempt_sim len index st p a :
  sim index st p → p ≠ NotStarted → p ≠ Finished → step_agrees len index st p (RoleAttempt a).
Proof.
  intros Hsim Hns Hfin.
  destruct p as [| |slots|some| |drafted|reviewed|drafted|corrected|]; try done;
    [apply (idle_attempt_sim _ _ _ _ []); auto|by apply (idle_attempt_sim _ _ _ _ slots); auto|..];
    unfold step_agrees, replay_order; cbn [is_terminal phase_step phase_ok];
    unfold attempt_step; open_sim Hsim st; unfold pre_packet; cbn;
    destruct (at_role a) eqn:Er; cbn.
  all: repeat match goal with
    | |- context [negb ?b] => is_var b; destruct b; cbn
    | |- context [if ?b then _ else _] => is_var b; destruct b; cbn
    end; try done.
  all: first [split; [unfold flags; cbn; rewrite ?Er; split_and!; done || lia|done]
             |by rewrite andb_false_r].
Qed.

Lemma step_sim len index st p e :
  sim index st p → p ≠ NotStarted → p ≠ Finished → step_agrees len index st p e.
Proof.
  intros Hsim Hns Hfin. destruct (is_terminal e) eqn:Ht; [by apply terminal_sim|].
  destruct e; try done; [..|by apply attempt_sim| | | | |];
    unfold step_agrees, replay_order; cbn [is_terminal phase_ok phase_step];
    destruct p as [| |slots|some| |drafted|reviewed|drafted|corrected|]; try done;
    open_sim Hsim st; rewrite ?(proj2 (Z.eqb_neq index _)) by lia; cbn;
    repeat match goal with
    | |- context [negb ?b] => is_var b; destruct b; cbn
    | |- context [?b && _] => is_var b; destruct b; cbn
    | |- context [if ?b then _ else _] => is_var b; destruct b; cbn
    end; try done.
  all: first [split; [unfold flags; cbn; split_and!; done || lia|done]
             |by rewrite andb_false_r].
Qed.

(** ** The loop *)

(** The order-independent checks of the events from [index] on. *)
Definition events_fit (run_id : string) (index : Z) (es : list TriageRunEventV2) : Prop :=
  Forall (λ e, TriageRunEventV2_validate e = Ok tt ∧ ev_run_id e = run_id) es ∧
  sequence <$> es = seqZ index (zlen es).

Lemma events_fit_cons run_id index e es :
  events_fit run_id index (e :: es) ↔
    event_fits run_id index e ∧ events_fit run_id (index + 1) es.
Proof.
  unfold events_fit, event_fits. rewrite Forall_cons, zlen_cons.
  rewrite seqZ_cons by (pose proof (zlen_nonneg es); lia). cbn [fmap list_fmap].
  replace (Z.pred (1 + zlen es)) with (zlen es) by lia. rewrite <-Z.add_1_r.
  split; [intros [[[? ?] ?] [= ? ?]]|intros [(? & ? & ?) [? ?]]]; split_and!; auto; by f_equal.
Qed.

Lemma phase_step_terminal p e p' :
  phase_step p e = Some p' → p' ≠ NotStarted ∧ (p' = Finished ↔ is_terminal e = true).
Proof.
  intros Hs. unfold phase_step, attempt_step, terminal_step in Hs.
  repeat case_match; simplify_eq/=; done.
Qed.

Lemma phases_finished es q : phases Finished es = Some q → es = [].
Proof. destruct es as [|[] es]; done. Qed.

Lemma replay_events_sim run_id len index st p es :
  sim index st p → p ≠ NotStarted → (p = Finished → es = []) → index + zlen es = len →
  (∃ st', replay_events run_id len index st es = Ok st' ∧ terminal_count st' = 1) ↔
  events_fit run_id index es ∧ phases p (event <$> es) = Some Finished.
Proof.
  revert index st p. induction es as [|e es IH]; intros index st p Hsim Hns Hfin Hlen.
  { cbn. split.
    - intros (st' & [= <-] & Htc). split; [split; [constructor|done]|].
      f_equal. destruct p; try done; open_sim Hsim st; done.
    - intros [_ [= ->]]. exists st. split; [done|]. by destruct Hsim. }
  rewrite zlen_cons in Hlen. rewrite events_fit_cons.
  assert (p ≠ Finished) as Hnf by (intros ->; by specialize (Hfin eq_refl)).
  pose proof (step_sim len index st p (event e) Hsim Hns Hnf) as Hstep.
  unfold step_agrees in Hstep. cbn [replay_events fmap list_fmap phases]. split.
  - intros (stf & Hrun & Htc). apply bind_Ok in Hrun as (st' & Hev & Hrest).
    apply replay_event_Ok in Hev as [Hfit Ho]. rewrite Ho in Hstep.
    destruct (phase_step p (event e)) as [p'|] eqn:Hp; [|done]. destruct Hstep as [Hsim' Hend].
    destruct (phase_step_terminal _ _ _ Hp) as [Hns' Hterm].
    destruct (IH (index + 1) st' p') as [IH1 _]; [done..| |lia|].
    { intros ?%Hterm%Hend. apply length_zero_iff_nil. unfold zlen in *. lia. }
    destruct IH1 as [? ?]; eauto.
  - intros [[Hfit Hfits] Hph]. destruct (phase_step p (event e)) as [p'|] eqn:Hp; [|done].
    cbn in Hph. destruct (phase_step_terminal _ _ _ Hp) as [Hns' Hterm].
    assert (p' = Finished → es = []) as Hnil.
    { intros ->. apply phases_finished in Hph. by apply fmap_nil_inv in Hph. }
    destruct (replay_order len index st (event e)) as [st'|] eqn:Ho.
    + destruct Hstep as [Hsim' _].
      destruct (IH (index + 1) st' p') as [_ IH2]; [done..|lia|].
      destruct IH2 as (stf & Hrest & Htc); [done|]. exists stf. split; [|done].
      apply bind_Ok. exists st'. split; [|done]. by apply replay_event_Ok.
    + destruct Hstep as [Hes%Hterm%Hnil Hne]. subst es. rewrite zlen_nil in Hlen. lia.
Qed.

(** The state after the opening event. *)
Lemma replay_run_started run_id len e st' fp pf :
  event e = RunStarted fp pf →
  replay_event run_id len 0 initial_replay_state e = Ok st' ↔
    event_fits run_id 0 e ∧ st' = initial_replay_state.
Proof. intros He. rewrite replay_event_Ok, He. cbn. naive_solver. Qed.

Lemma replay_validate_spec (r : TriageReplayV1) :
  TriageReplayV1_validate r = Ok tt ↔
    rp_schema_id r = TRIAGE_REPLAY_SCHEMA_V1 ∧ opaque_id (rp_run_id r) ∧
    opaque_id (rp_request_fingerprint r) ∧ zlen (events r) ≤ MAX_TRIAGE_REPLAY_EVENTS ∧
    (∃ policy_fp, head (event <$> events r) = Some (RunStarted (rp_request_fingerprint r) policy_fp)) ∧
    events_fit (rp_run_id r) 0 (events r) ∧
    phases NotStarted (event <$> events r) = Some Finished.
Proof.
  unfold TriageReplayV1_validate. rewrite <-(expect_schema_Ok _ _ tt),
    <-(validate_opaque_id_Ok "run_id" _ tt), <-(validate_opaque_id_Ok "request_fingerprint" _ tt).
  destruct (expect_schema _ _) as [[]|]; [|naive_solver].
  destruct (validate_opaque_id "run_id" _) as [[]|]; [|naive_solver].
  destruct (validate_opaque_id "request_fingerprint" _) as [[]|]; [|naive_solver].
  cbn [mbind result_bind]. destruct (events r) as [|e es]; [naive_solver|].
  cbn [head fmap list_fmap phases]. rewrite events_fit_cons.
  pose proof (replay_events_sim (rp_run_id r) (zlen (e :: es)) 1 initial_replay_state Started es)
    as Hloop.
  rewrite zlen_cons in *. specialize (Hloop ltac:(done) ltac:(done) ltac:(done) eq_refl).
  destruct (event e) as [fp pf| | | | | | | | | | |] eqn:He;
    [|destruct (reject_if _ _); naive_solver..].
  split.
  - intros Hv. inv_result. cbn [replay_events] in *. inv_result. split_bool. subst.
    match goal with H : replay_event _ _ _ _ _ = _ |- _ =>
      apply (replay_run_started _ _ _ _ _ _ He) in H as [Hfit ->] end.
    destruct Hloop as [[? ?] _]; [by eauto|]. split_and!; try done; eauto.
  - intros (_ & _ & _ & Hmax & [pf' [= -> <-]] & [Hfit Hfits] & Hph).
    destruct Hloop as [_ (st' & Hrun & Htc)]; [done|].
    rewrite (proj2 (Z.ltb_ge _ _)), bool_decide_eq_true_2 by done.
    cbn [reject_if negb mbind result_bind replay_events].
    rewrite (proj2 (replay_run_started _ _ _ initial_replay_state _ _ He)) by done.
    cbn [mbind result_bind]. change (0 + 1) with 1. rewrite Hrun. cbn [mbind result_bind].
    by rewrite Htc.
Qed.

(** C26. The replay validator accepts exactly the runs of the phase automaton:
    a replay validates if and only if its envelope is well formed, it opens
    with the matching request fingerprint, every event is individually valid
    and names this run, the sequence numbers count up from zero, and the events
    walk the automaton from its start to its end. *)
Theorem replay_validates_iff_phases (r : TriageReplayV1) :
  TriageReplayV1_validate r = Ok tt ↔
    rp_schema_id r = TRIAGE_REPLAY_SCHEMA_V1 ∧ opaque_id (rp_run_id r) ∧
    opaque_id (rp_request_fingerprint r) ∧ zlen (events r) ≤ MAX_TRIAGE_REPLAY_EVENTS ∧
    (∃ policy_fp, head (event <$> events r) = Some (RunStarted (rp_request_fingerprint r) policy_fp)) ∧
    Forall (λ e, TriageRunEventV2_validate e = Ok tt ∧ ev_run_id e = rp_run_id r) (events r) ∧
    sequence <$> events r = seqZ 0 (zlen (events r)) ∧
    phases NotStarted (event <$> events r) = Some Finished.
Proof. rewrite replay_validate_spec. unfold events_fit. tauto. Qed.
End refinement.

(** ** Invariants of the automaton *)

Lemma phases_app p es es' : phases p (es ++ es') = phases p es ≫= λ q, phases q es'.
Proof.
  revert p. induction es as [|e es IH]; intros p; cbn; [done|].
  destruct (phase_step p e); cbn; [apply IH|done].
Qed.

(** Rule induction over the runs of the automaton, with the events so far. *)
Lemma phases_ind (P : Phase → list TriageRunEventPayloadV2 → Prop) :
  P NotStarted [] →
  (∀ p es e p', P p es → phase_step p e = Some p' → P p' (es ++ [e])) →
  ∀ es p, phases NotStarted es = Some p → P p es.
Proof.
  intros H0 Hstep es. induction es as [|e es IH] using rev_ind; intros p Hp.
  { cbn in Hp. by simplify_eq. }
  rewrite phases_app in Hp. destruct (phases NotStarted es) as [q|] eqn:Hq; [|done].
  cbn in Hp. destruct (phase_step q e) as [p'|] eqn:Hs; [|done]. cbn in Hp. simplify_eq.
  by eapply Hstep; [apply IH|].
Qed.

Definition is_reconciled (e : TriageRunEventPayloadV2) : bool :=
  match e with Reconciliation _ | FinalReconciliation _ => true | _ => false end.
Definition is_packet (e : TriageRunEventPayloadV2) : bool :=
  match e with PacketReady _ _ _ => true | _ => false end.
Definition is_validation (e : TriageRunEventPayloadV2) : bool :=
  match e with Validation _ _ => true | _ => false end.
Definition has (f : TriageRunEventPayloadV2 → bool) (es : list TriageRunEventPayloadV2) : Prop :=
  ∃ e, e ∈ es ∧ f e = true.

Lemma has_snoc f es e : has f es → has f (es ++ [e]).
Proof. intros (x & Hx & ?). exists x. set_solver. Qed.

(** A validation checkpoint after a reconciliation, after the packet. *)
Definition checked (es : list TriageRunEventPayloadV2) : Prop :=
  ∃ before v after, es = before ++ v :: after ∧ is_validation v = true ∧
    has is_reconciled before ∧ has is_packet before.

(** Which checkpoints each phase has behind it. *)
Definition checkpoints (p : Phase) (es : list TriageRunEventPayloadV2) : Prop :=
  match p with
  | NotStarted => es = []
  | Started | WithoutPacket _ => Forall (λ e, is_terminal e = false) es
  | Contributing _ | EarlyDraft | Preliminary _ =>
      Forall (λ e, is_terminal e = false) es ∧ has is_packet es
  | Reconciled _ | FinalReconciled _ =>
      Forall (λ e, is_terminal e = false) es ∧ has is_packet es ∧ has is_reconciled es
  | Validated _ => Forall (λ e, is_terminal e = false) es ∧ checked es
  | Finished =>
      ∃ body t, es = body ++ [t] ∧ is_terminal t = true ∧
        Forall (λ e, is_terminal e = false) body ∧
        (no_partial t = false → is_cancelled t = false → checked body)
  end.

Lemma checked_snoc es e : checked es → checked (es ++ [e]).
Proof.
  intros (b & v & a & -> & ?). exists b, v, (a ++ [e]). by rewrite <-(assoc_L (++)).
Qed.

Lemma checkpoints_body p es :
  checkpoints p es → p ≠ Finished → Forall (λ e, is_terminal e = false) es.
Proof. destruct p; cbn; intros Hc Hp; subst; try done; by destruct Hc. Qed.

Lemma step_from_finished e : phase_step Finished e = None.
Proof. by destruct e. Qed.

Lemma terminal_checkpoints p es e :
  checkpoints p es → is_terminal e = true → phase_step p e = Some Finished →
  no_partial e = false → is_cancelled e = false → checked es.
Proof.
  intros Hc Ht Hs Hnp Hca.
  assert (terminal_step p e = Some Finished) as Hts by (destruct e, p; done).
  unfold terminal_step in Hts. rewrite Hnp, Hca in Hts.
  destruct p; try done. by destruct Hc.
Qed.

Lemma checkpoints_step p es e p' :
  checkpoints p es → phase_step p e = Some p' → checkpoints p' (es ++ [e]).
Proof.
  intros Hc Hs. destruct (phase_step_terminal p e p' Hs) as [Hns Hterm].
  assert (p ≠ Finished) as Hnf by (intros ->; by rewrite step_from_finished in Hs).
  pose proof (checkpoints_body p es Hc Hnf) as Hbody.
  destruct (is_terminal e) eqn:Ht.
  { rewrite (proj2 Hterm) in Hs |- * by done. exists es, e. split_and!; [done..|].
    by apply (terminal_checkpoints p). }
  assert (Hsnoc : Forall (λ e, is_terminal e = false) (es ++ [e])).
  { apply Forall_app. split; [done|]. by constructor. }
  assert (∀ f, f e = true → has f (es ++ [e])) as Hnew.
  { intros f Hf. exists e. set_solver. }
  assert (∀ f, has f es → has f (es ++ [e])) as Hold by (intros f; apply has_snoc).
  unfold phase_step, attempt_step in Hs.
  repeat case_match; simplify_eq/=; destruct_and?; split_and?; try done; eauto using checked_snoc.
  all: exists es, (Validation passed reason_codes), []; split_and!; done.
Qed.

Lemma phases_checkpoints es p : phases NotStarted es = Some p → checkpoints p es.
Proof. apply (phases_ind checkpoints); [done|]. apply checkpoints_step. Qed.

(** ** Where roles may run *)

Definition seen (f : TriageRunEventPayloadV2 → bool) (es : list TriageRunEventPayloadV2) : bool :=
  existsb f es.
Definition is_any_reconciliation (e : TriageRunEventPayloadV2) : bool :=
  match e with
  | Reconciliation _ | PreliminaryReconciliation _ | FinalReconciliation _ => true
  | _ => false
  end.
Definition is_preliminary (e : TriageRunEventPayloadV2) : bool :=
  match e with PreliminaryReconciliation _ => true | _ => false end.
Definition is_final (e : TriageRunEventPayloadV2) : bool :=
  match e with FinalReconciliation _ => true | _ => false end.
Definition is_attempt_of (k : TriageSlotKindV2) (e : TriageRunEventPayloadV2) : bool :=
  match e with RoleAttempt a => bool_decide (at_role a = k) | _ => false end.

Lemma seen_snoc f es e : seen f (es ++ [e]) = seen f es || f e.
Proof. unfold seen. rewrite existsb_app. cbn. by rewrite orb_false_r. Qed.

(** The admissible history of an attempt made once the packet is ready. *)
Definition attempt_in_order (before : list TriageRunEventPayloadV2) (a : TriageRoleAttemptV1) : Prop :=
  seen is_validation before = false ∧
  match at_role a with
  | Contributor _ => seen is_any_reconciliation before = false
  | Reviewer =>
      seen is_preliminary before = true ∧ seen is_final before = false ∧
      seen (is_attempt_of Reviewer) before = false
  | Finalizer =>
      (seen is_preliminary before = true → seen is_final before = true) ∧
      seen (is_attempt_of Finalizer) before = false
  end.

(** What each phase has and has not seen. *)
Definition history (p : Phase) (es : list TriageRunEventPayloadV2) : Prop :=
  match p with
  | NotStarted => es = []
  | WithoutPacket _ => seen is_packet es = false
  | Started =>
      seen is_packet es = false ∧ seen is_any_reconciliation es = false ∧
      seen is_validation es = false ∧
      seen (is_attempt_of Finalizer) es = false ∧ seen (is_attempt_of Reviewer) es = false
  | Contributing _ =>
      seen is_any_reconciliation es = false ∧ seen is_validation es = false ∧
      seen (is_attempt_of Finalizer) es = false ∧ seen (is_attempt_of Reviewer) es = false
  | EarlyDraft => seen is_any_reconciliation es = false ∧ seen is_validation es = false
  | Reconciled drafted =>
      seen is_preliminary es = false ∧ seen is_validation es = false ∧
      (drafted = false → seen (is_attempt_of Finalizer) es = false)
  | Preliminary reviewed =>
      seen is_preliminary es = true ∧ seen is_final es = false ∧ seen is_validation es = false ∧
      seen (is_attempt_of Finalizer) es = false ∧
      (reviewed = false → seen (is_attempt_of Reviewer) es = false)
  | FinalReconciled drafted =>
      seen is_final es = true ∧ seen is_validation es = false ∧
      (drafted = false → seen (is_attempt_of Finalizer) es = false)
  | Validated _ | Finished => True
  end.

Lemma no_reconciliation_no_stage es :
  seen is_any_reconciliation es = false → seen is_preliminary es = false ∧ seen is_final es = false.
Proof.
  unfold seen. rewrite !existsb_false_Forall. intros Hn.
  split; (eapply Forall_impl; [exact Hn|]); by intros [].
Qed.

Lemma history_step p es e p' :
  history p es → phase_step p e = Some p' → history p' (es ++ [e]).
Proof.
  intros Hh Hs. pose proof (no_reconciliation_no_stage es) as Hno.
  unfold phase_step, attempt_step, terminal_step in Hs.
  repeat case_match; simplify_eq/=; rewrite ?seen_snoc; cbn; destruct_and?;
    try (destruct Hno as [Hno1 Hno2]; [done|]);
    repeat match goal with H : seen _ es = _ |- _ => rewrite ?H; clear H end;
    split_and?; try done; rewrite ?bool_decide_eq_false_2 by congruence; done.
Qed.

Lemma phases_history es p : phases NotStarted es = Some p → history p es.
Proof. apply (phases_ind history); [done|]. apply history_step. Qed.

(** An attempt the automaton lets through after the packet is in order. *)
Lemma attempt_step_in_order p es a p' :
  history p es → seen is_packet es = true → phase_step p (RoleAttempt a) = Some p' →
  attempt_in_order es a.
Proof.
  intros Hh Hpk Hs. pose proof (no_reconciliation_no_stage es) as Hno. unfold attempt_in_order.
  cbn in Hs. unfold attempt_step in Hs.
  repeat case_match; simplify_eq/=; destruct_and?;
    try (destruct Hno as [Hno1 Hno2]; [done|]); split_and?; try congruence; naive_solver congruence.
Qed.

Section ordering.
Context `{Codec}.

(** Once the packet is ready, roles run in order: no role runs after
    validation; contributors come before every reconciliation; a reviewer comes
    between the preliminary and the final reconciliation and runs once; a
    finalizer runs once and never between the two reconciliations. *)
Theorem roles_run_in_order (r : TriageReplayV1) before a after :
  TriageReplayV1_validate r = Ok tt →
  event <$> events r = before ++ RoleAttempt a :: after →
  seen is_packet before = true →
  attempt_in_order before a.
Proof.
  intros (_ & _ & _ & _ & _ & _ & Hph)%replay_validate_spec He Hpk.
  rewrite He, phases_app in Hph.
  destruct (phases NotStarted before) as [p|] eqn:Hp; [|done]. cbn in Hph.
  destruct (attempt_step p a) as [p'|] eqn:Hs; [|done].
  apply (attempt_step_in_order p before a p'); [by apply phases_history|done..].
Qed.

(** An event of a validated replay is valid on its own. *)
Lemma replay_event_valid (r : TriageReplayV1) t :
  TriageReplayV1_validate r = Ok tt → t ∈ event <$> events r →
  ∃ e, event e = t ∧ TriageRunEventV2_validate e = Ok tt ∧ ev_run_id e = rp_run_id r.
Proof.
  intros (_ & _ & _ & _ & _ & [Hf _] & _)%replay_validate_spec (e & -> & He)%list_elem_of_fmap.
  rewrite Forall_forall in Hf. exists e. naive_solver.
Qed.

(** The result a terminal event carries. *)
Definition carried_result (e : TriageRunEventPayloadV2) : option TriageResultV2 :=
  match e with
  | Completed res => Some res
  | Failed _ o | TimedOut _ o | Cancelled _ o => o
  | _ => None
  end.

Lemma event_result_valid (e : TriageRunEventV2) res :
  TriageRunEventV2_validate e = Ok tt → carried_result (event e) = Some res →
  TriageResultV2_validate res = Ok tt ∧ res_run_id res = ev_run_id e ∧
  (res_kind res = HonestPartial ∨ event e = Completed res).
Proof.
  intros Hv Hc. unfold TriageRunEventV2_validate in Hv. inv_result. clear Hv.
  destruct (event e); simplify_eq/=; inv_result; split_bool; try naive_solver.
Qed.

(** A valid replay ends in its only terminal event. A result, complete or
    partial, is delivered by a completed, failed or timed-out run only behind a
    validation checkpoint that follows a reconciliation and the packet; every
    delivered result is itself valid and belongs to this run, and only a
    completed run delivers one that is not an honest partial. *)
Theorem results_are_checked (r : TriageReplayV1) :
  TriageReplayV1_validate r = Ok tt →
  ∃ body t, event <$> events r = body ++ [t] ∧ is_terminal t = true ∧
    Forall (λ e, is_terminal e = false) body ∧
    ∀ res, carried_result t = Some res →
      TriageResultV2_validate res = Ok tt ∧ res_run_id res = rp_run_id r ∧
      (res_kind res = HonestPartial ∨ t = Completed res) ∧
      (is_cancelled t = false → checked body).
Proof.
  intros Hv. pose proof (proj1 (replay_validate_spec r) Hv) as (_ & _ & _ & _ & _ & _ & Hph).
  apply phases_checkpoints in Hph as (body & t & He & Ht & Hb & Hchk).
  exists body, t. split_and!; [done..|]. intros res Hres.
  destruct (replay_event_valid r t Hv) as (e & <- & Hve & Hrun).
  { rewrite He. set_solver. }
  destruct (event_result_valid e res Hve Hres) as (? & ? & ?).
  split_and!; [done|congruence|done|]. apply Hchk. by destruct (event e) as [| | | | | | | | |? []|? []|? []].
Qed.
End ordering.

(** ** Runs that never got a packet *)

Definition attempts (es : list TriageRunEventPayloadV2) : list TriageRoleAttemptV1 :=
  omap (λ e, match e with RoleAttempt a => Some a | _ => None end) es.

(** A role that spent nothing and says why it did not run. *)
Definition spent_nothing (a : TriageRoleAttemptV1) : Prop :=
  at_status a ≠ StCompleted ∧ elapsed_ms a = 0 ∧ input_chars a = 0 ∧ output_chars a = 0 ∧
  physical_provider_calls a = Some 0 ∧ semantic_corrections a = Some 0 ∧
  terminal_disposition a = Some (terminal_disposition_for_status (at_status a)).

Definition idle_run (es : list TriageRunEventPayloadV2) : Prop :=
  Forall spent_nothing (attempts es) ∧ NoDup (role_slot_id <$> attempts es).

Lemma idle_attempt_spec a slots :
  idle_attempt a slots = true → spent_nothing a ∧ role_slot_id a ∉ slots.
Proof.
  unfold idle_attempt, validate_pre_packet_attempt, spent_nothing. intros Hok.
  destruct (_ || _) eqn:E in Hok; [done|]. case_bool_decide; [done|]. split_bool.
  split_and!; try done. by destruct (at_status a).
Qed.

Lemma attempts_snoc es e :
  attempts (es ++ [e]) = attempts es ++ match e with RoleAttempt a => [a] | _ => [] end.
Proof. unfold attempts. rewrite omap_app. by destruct e. Qed.

Definition idle_phase (p : Phase) (es : list TriageRunEventPayloadV2) : Prop :=
  match p with
  | NotStarted | Started => attempts es = []
  | WithoutPacket slots => idle_run es ∧ slots ≡ₚ role_slot_id <$> attempts es
  | Finished => seen is_packet es = true ∨
      ∃ body t, es = body ++ [t] ∧ no_partial t = true ∧ idle_run es
  | _ => seen is_packet es = true
  end.

Lemma idle_run_snoc es slots a :
  idle_run es → slots ≡ₚ role_slot_id <$> attempts es → idle_attempt a slots = true →
  idle_run (es ++ [RoleAttempt a]) ∧
  role_slot_id a :: slots ≡ₚ role_slot_id <$> attempts (es ++ [RoleAttempt a]).
Proof.
  intros [Hf Hnd] Hsl [Hs Hn]%idle_attempt_spec.
  unfold idle_run. rewrite attempts_snoc, fmap_app. cbn. rewrite <-Hsl. split_and!.
  - apply Forall_app. split; [done|]. by constructor.
  - rewrite <-Permutation_cons_append. constructor; [done|]. by rewrite Hsl.
  - apply Permutation_cons_append.
Qed.

Lemma idle_run_nil es : attempts es = [] → idle_run es.
Proof. unfold idle_run. intros ->. split; constructor. Qed.

Lemma idle_phase_terminal p es e :
  idle_phase p es → is_terminal e = true → phase_step p e = Some Finished →
  idle_phase Finished (es ++ [e]).
Proof.
  intros Hi Ht Hs. cbn. rewrite seen_snoc.
  assert (terminal_step p e = Some Finished) as Hts by (by destruct e).
  assert (attempts (es ++ [e]) = attempts es) as Ha.
  { rewrite attempts_snoc. destruct e; try done; apply app_nil_r. }
  destruct (no_partial e) eqn:Hnp.
  - assert (seen is_packet es = true ∨ idle_run (es ++ [e])) as [->|Hr]; [|by left|by eauto 6].
    unfold idle_run. rewrite Ha. fold (idle_run es).
    destruct p; cbn in Hi, Hts; try done; try (by left); right; first [by apply idle_run_nil|by destruct Hi].
  - left. unfold terminal_step in Hts. rewrite Hnp in Hts.
    destruct p; cbn in Hi; try done; by rewrite Hi.
Qed.

Lemma idle_phase_step p es e p' :
  idle_phase p es → phase_step p e = Some p' → idle_phase p' (es ++ [e]).
Proof.
  intros Hi Hs. destruct (is_terminal e) eqn:Ht.
  { destruct (phase_step_terminal p e p' Hs) as [_ Hterm].
    rewrite (proj2 Hterm) in Hs |- * by done. by apply (idle_phase_terminal p). }
  unfold phase_step, attempt_step in Hs.
  repeat case_match; simplify_eq/=; rewrite ?seen_snoc, ?Hi; try done.
  - by rewrite attempts_snoc, Hi.
  - by rewrite orb_true_r.
  - apply (idle_run_snoc es []); [by apply idle_run_nil|by rewrite Hi|done].
  - destruct Hi. by apply idle_run_snoc.
Qed.

Lemma phases_idle es p : phases NotStarted es = Some p → idle_phase p es.
Proof. apply (phases_ind idle_phase); [done|]. apply idle_phase_step. Qed.

(** A run whose evidence packet was never built cannot complete and
    delivers no result; its roles spent no time, text, calls or corrections,
    and no slot reports twice. *)
Theorem no_packet_no_work `{Codec} (r : TriageReplayV1) :
  TriageReplayV1_validate r = Ok tt → seen is_packet (event <$> events r) = false →
  (∃ body t, event <$> events r = body ++ [t] ∧ no_partial t = true) ∧
  idle_run (event <$> events r).
Proof.
  intros (_ & _ & _ & _ & _ & _ & Hph)%replay_validate_spec Hpk.
  apply phases_idle in Hph as [Hpk'|(body & t & He & Ht & Hi)]; [congruence|]. eauto.
Qed.

(** ** Concrete replays *)

Definition demo_replay (fp : string) : TriageReplayV1 :=
  {| rp_schema_id := TRIAGE_REPLAY_SCHEMA_V1; rp_run_id := "run-1"; rp_request_fingerprint := fp;
     events := [Demo.run_event 0 (RunStarted fp "policy-fp");
                Demo.run_event 1 (PacketReady "packet-1" "digest" 1);
                Demo.run_event 2 (RoleAttempt Demo.finalizer);
                Demo.run_event 3 (Reconciliation Demo.summary);
                Demo.run_event 4 (Validation true []);
                Demo.run_event 5 (Completed Demo.grounded)] |}.

Definition demo_idle_attempt : TriageRoleAttemptV1 :=
  {| attempt_id := "attempt-1"; role_slot_id := "standard-finalizer"; at_role := Finalizer;
     at_model := None; at_status := StUnavailable; at_reason_codes := [];
     elapsed_ms := 0; input_chars := 0; output_chars := 0;
     physical_provider_calls := Some 0; semantic_corrections := Some 0;
     terminal_disposition := Some TdUnavailable |}.

Definition demo_failed_replay : TriageReplayV1 :=
  {| rp_schema_id := TRIAGE_REPLAY_SCHEMA_V1; rp_run_id := "run-1"; rp_request_fingerprint := "fp";
     events := [Demo.run_event 0 (RunStarted "fp" "policy-fp");
                Demo.run_event 1 (RoleAttempt demo_idle_attempt);
                Demo.run_event 2 (Failed "host_unavailable" None)] |}.

Lemma roles_run_in_order_witness :
  attempt_in_order [RunStarted "fp" "policy-fp"; PacketReady "packet-1" "digest" 1] Demo.finalizer.
Proof.
  apply (roles_run_in_order (H := Demo.codec) (demo_replay "fp") _ _
           [Reconciliation Demo.summary; Validation true []; Completed Demo.grounded]).
  - vm_compute. reflexivity.
  - reflexivity.
  - reflexivity.
Defined.

Lemma results_are_checked_witness :
  TriageReplayV1_validate (H := Demo.codec) (demo_replay "fp") = Ok tt ∧
  ∃ body t, event <$> events (demo_replay "fp") = body ++ [t] ∧ is_terminal t = true.
Proof.
  assert (Hv : TriageReplayV1_validate (H := Demo.codec) (demo_replay "fp") = Ok tt)
    by (vm_compute; reflexivity).
  split; [exact Hv|].
  destruct (results_are_checked (H := Demo.codec) _ Hv) as (body & t & He & Ht & _).
  exists body, t. split; assumption.
Defined.

Lemma no_packet_no_work_witness :
  idle_run (event <$> events demo_failed_replay).
Proof.
  apply (no_packet_no_work (H := Demo.codec) demo_failed_replay).
  - vm_compute. reflexivity.
  - reflexivity.
Defined.
