(* ===== verification/CanonicalJson.v ===== *)
(** * Canonical JSON

    [canonicalize_json] of [crates/cd-triage-runtime/src/lib.rs]: object members
    are sorted by key at every depth before a request is fingerprinted. The
    theorem characterises it: two documents have the same canonical form
    exactly when they are the same up to the order of object members. *)
From Stdlib Require Import ZArith Lia Ascii String.
From stdpp Require Import base tactics option list list_numbers gmap sets sorting strings.
From S2P Require Import Prelude RustStr TriageSdk.

Local Open Scope string_scope.
Local Open Scope list_scope.

(** ** The function *)

(** [Map::insert] into an order-preserving map. *)
Fixpoint map_insert {A} (key : string) (value : A) (m : list (string * A)) : list (string * A) :=
  match m with
  | [] => [(key, value)]
  | (k, v) :: m =>
      if bool_decide (k = key) then (key, value) :: m else (k, v) :: map_insert key value m
  end.

(** [left.0.cmp(&right.0)]: keys compare by their bytes. *)
Definition key_le {A} (x y : string * A) : Prop := String.le x.1 y.1.
#[global] Instance key_le_dec {A} : RelDecision (@key_le A).
Proof. intros x y. unfold key_le. apply _. Defined.

Section canonical.
Context {N : Type}.
Implicit Types v w : Value N.

Fixpoint canonicalize_json (v : Value N) : Value N :=
  match v with
  | JArray vs => JArray (map canonicalize_json vs)
  | JObject fs =>
      let entries := map (λ kv, (kv.1, canonicalize_json kv.2)) fs in
      let sorted := merge_sort key_le entries in
      JObject (foldl (λ m kv, map_insert kv.1 kv.2 m) [] sorted)
  | scalar => scalar
  end.

(** A map has every key once, at every depth. *)
Fixpoint wf_value (v : Value N) : bool :=
  match v with
  | JArray vs => forallb wf_value vs
  | JObject fs => bool_decide (NoDup fs.*1) && forallb (λ kv, wf_value kv.2) fs
  | _ => true
  end.

(** ** Equality up to the order of members *)

Definition is_scalar (v : Value N) : bool :=
  match v with JArray _ | JObject _ => false | _ => true end.

Inductive json_equiv : Value N → Value N → Prop :=
| equiv_scalar v : is_scalar v = true → json_equiv v v
| equiv_array vs ws : Forall2 json_equiv vs ws → json_equiv (JArray vs) (JArray ws)
| equiv_object fs gs hs :
    Forall2 (λ x y, x.1 = y.1 ∧ json_equiv x.2 y.2) fs gs → gs ≡ₚ hs →
    json_equiv (JObject fs) (JObject hs).
#[global] Instance Value_equiv : Equiv (Value N) := json_equiv.

Lemma Value_nested_ind (P : Value N → Prop) :
  P JNull → (∀ b, P (JBool b)) → (∀ n, P (JNumber n)) → (∀ s, P (JString s)) →
  (∀ vs, Forall P vs → P (JArray vs)) →
  (∀ fs, Forall (λ kv, P kv.2) fs → P (JObject fs)) →
  ∀ v, P v.
Proof.
  intros Hnull Hbool Hnum Hstr Harr Hobj. fix IH 1. intros [|b|n|s|vs|fs]; [done..| |].
  - apply Harr. induction vs as [|v vs IHvs]; constructor; [apply IH|exact IHvs].
  - apply Hobj. induction fs as [|[k v] fs IHfs]; constructor; [apply IH|exact IHfs].
Qed.

(** ** It is an equivalence *)

Lemma json_equiv_refl v : v ≡ v.
Proof.
  induction v as [| | | |vs IH|fs IH] using Value_nested_ind; try (by constructor).
  - apply equiv_array. by apply Forall_Forall2_diag.
  - apply (equiv_object _ fs); [|done]. apply Forall_Forall2_diag.
    eapply Forall_impl; [exact IH|]. done.
Qed.

Lemma json_equiv_sym v w : v ≡ w → w ≡ v.
Proof.
  revert w. induction v as [| | | |vs IH|fs IH] using Value_nested_ind; intros w Hw;
    inversion Hw as [? Hs|? ws HF|? gs hs HF Hp]; subst; try (by constructor); try done.
  - apply equiv_array. rewrite Forall2_same_length_lookup in HF |- *.
    destruct HF as [Hl HF]. split; [done|]. rewrite Forall_lookup in IH.
    intros i y x Hy Hx. eapply (IH i x); [done|]. by apply (HF i).
  - assert (Forall2 (λ y x : string * Value N, y.1 = x.1 ∧ y.2 ≡ x.2) gs fs) as HF'.
    { rewrite Forall2_same_length_lookup in HF |- *. destruct HF as [Hl HF].
      split; [done|]. rewrite Forall_lookup in IH. intros i y x Hy Hx.
      destruct (HF i x y Hx Hy) as [? ?]. split; [done|]. by eapply (IH i x). }
    destruct (Permutation_Forall2 Hp HF') as (fs' & Hp' & HF'').
    by apply (equiv_object _ fs').
Qed.

Lemma json_equiv_trans u v w : u ≡ v → v ≡ w → u ≡ w.
Proof.
  revert v w. induction u as [| | | |vs IH|fs IH] using Value_nested_ind; intros v w Hv Hw;
    inversion Hv as [? Hs|? vs' HF|? gs hs HF Hp]; subst; try done.
  - inversion Hw as [? Hs|? ws HG|]; subst; [done|]. apply equiv_array.
    rewrite Forall2_same_length_lookup in HF, HG |- *. destruct HF as [Hl HF], HG as [Hl' HG].
    split; [congruence|]. rewrite Forall_lookup in IH. intros i x z Hx Hz.
    destruct (lookup_lt_is_Some_2 vs' i) as [y Hy].
    { rewrite <-Hl. by eapply lookup_lt_Some. }
    eapply (IH i x); [done|by apply (HF i x y)|by apply (HG i y z)].
  - inversion Hw as [? Hs| |? hs' ks HG Hq]; subst; [done|].
    destruct (Permutation_Forall2 (symmetry Hp) HG) as (gs' & Hp' & HG').
    apply (equiv_object _ gs'); [|by rewrite <-Hp'].
    rewrite Forall2_same_length_lookup in HF, HG' |- *. destruct HF as [Hl HF], HG' as [Hl' HG'].
    split; [congruence|]. rewrite Forall_lookup in IH. intros i x z Hx Hz.
    destruct (lookup_lt_is_Some_2 gs i) as [y Hy].
    { rewrite <-Hl. by eapply lookup_lt_Some. }
    destruct (HF i x y Hx Hy), (HG' i y z Hy Hz). split; [congruence|].
    by eapply (IH i x).
Qed.

#[global] Instance json_equivalence : Equivalence (≡@{Value N}).
Proof.
  split; [exact json_equiv_refl|exact json_equiv_sym|exact json_equiv_trans].
Qed.

(** ** Sorting members *)

#[local] Instance key_le_trans : Transitive (@key_le (Value N)).
Proof. intros x y z. unfold key_le. apply transitivity. Qed.
#[local] Instance key_le_total : Total (@key_le (Value N)).
Proof. intros x y. unfold key_le. apply total, _. Qed.

Implicit Types fs gs : list (string * Value N).

Lemma unique_keys_eq fs x y : NoDup fs.*1 → x ∈ fs → y ∈ fs → x.1 = y.1 → x = y.
Proof.
  intros Hnd [i Hi]%list_elem_of_lookup [j Hj]%list_elem_of_lookup Heq.
  assert (i = j) as ->; [|congruence].
  eapply (NoDup_lookup _ i j x.1); [done|..]; rewrite list_lookup_fmap.
  - by rewrite Hi.
  - by rewrite Hj, Heq.
Qed.

Lemma merge_sort_unique fs gs :
  fs ≡ₚ gs → NoDup fs.*1 → merge_sort key_le fs = merge_sort key_le gs.
Proof.
  intros Hp Hnd. apply (StronglySorted_unique_strong key_le).
  - intros x y. rewrite !merge_sort_Permutation, <-Hp. intros Hx Hy Hxy Hyx.
    apply (unique_keys_eq fs); [done..|]. by apply (anti_symm String.le).
  - apply StronglySorted_merge_sort; apply _.
  - apply StronglySorted_merge_sort; apply _.
  - by rewrite !merge_sort_Permutation.
Qed.

Lemma map_insert_fresh key (v : Value N) fs :
  key ∉ fs.*1 → map_insert key v fs = fs ++ [(key, v)].
Proof.
  induction fs as [|[k w] fs IH]; cbn; [done|]. intros Hn.
  rewrite bool_decide_eq_false_2 by set_solver. rewrite IH by set_solver. done.
Qed.

Lemma collect_members acc fs :
  NoDup (acc ++ fs).*1 → foldl (λ m kv, map_insert kv.1 kv.2 m) acc fs = acc ++ fs.
Proof.
  revert acc. induction fs as [|[k v] fs IH]; intros acc Hnd; cbn; [by rewrite app_nil_r|].
  rewrite fmap_app in Hnd. cbn in Hnd. rewrite map_insert_fresh.
  - rewrite IH; [by rewrite <-(assoc_L (++))|]. by rewrite !fmap_app, <-(assoc_L (++)).
  - apply NoDup_app in Hnd as (_ & Hn & _). intros Hk. apply (Hn k Hk). by left.
Qed.

Definition canonical_entry (kv : string * Value N) : string * Value N :=
  (kv.1, canonicalize_json kv.2).

Lemma canonical_entry_keys fs : (canonical_entry <$> fs).*1 = fs.*1.
Proof. rewrite <-list_fmap_compose. by apply list_fmap_ext. Qed.

Lemma canonicalize_object fs :
  NoDup fs.*1 →
  canonicalize_json (JObject fs) = JObject (merge_sort key_le (canonical_entry <$> fs)).
Proof.
  intros Hnd. cbn. f_equal. rewrite collect_members; [done|]. cbn.
  rewrite merge_sort_Permutation. change (NoDup (canonical_entry <$> fs).*1).
  by rewrite canonical_entry_keys.
Qed.

Lemma wf_object fs :
  wf_value (JObject fs) = true ↔ NoDup fs.*1 ∧ Forall (λ kv, wf_value kv.2 = true) fs.
Proof. cbn. by rewrite andb_true_iff, bool_decide_eq_true, forallb_Forall. Qed.

(** ** The two halves *)

Lemma canonicalize_equiv v : wf_value v = true → v ≡ canonicalize_json v.
Proof.
  induction v as [| | | |vs IH|fs IH] using Value_nested_ind; intros Hwf; try done.
  - cbn in *. apply forallb_Forall in Hwf. apply equiv_array. apply Forall2_fmap_r.
    apply Forall_Forall2_diag. rewrite Forall_forall in *. naive_solver.
  - apply wf_object in Hwf as [Hnd Hwf]. rewrite canonicalize_object by done.
    apply (equiv_object _ (canonical_entry <$> fs)); [|by rewrite merge_sort_Permutation].
    apply Forall2_fmap_r, Forall_Forall2_diag. rewrite Forall_forall in *.
    intros kv Hkv. split; [done|]. by apply IH, Hwf.
Qed.

Lemma equiv_canonicalize v w :
  v ≡ w → wf_value v = true → canonicalize_json v = canonicalize_json w.
Proof.
  revert w. induction v as [| | | |vs IH|fs IH] using Value_nested_ind; intros w Hw Hwf;
    inversion Hw as [? Hs|? ws HF|? gs hs HF Hp]; subst; try done.
  - cbn in *. apply forallb_Forall in Hwf. f_equal. apply fmap_eq_Forall2.
    rewrite Forall2_same_length_lookup in HF |- *. destruct HF as [Hl HF]. split; [done|].
    rewrite Forall_lookup in IH, Hwf. intros i x y Hx Hy.
    exact (IH i x Hx y (HF i x y Hx Hy) (Hwf i x Hx)).
  - apply wf_object in Hwf as [Hnd Hwf].
    assert (canonical_entry <$> fs = canonical_entry <$> gs) as He.
    { apply fmap_eq_Forall2.
      rewrite Forall2_same_length_lookup in HF |- *. destruct HF as [Hl HF]. split; [done|].
      rewrite Forall_lookup in IH, Hwf. intros i x y Hx Hy. destruct (HF i x y Hx Hy) as [Hk Hv].
      unfold canonical_entry. rewrite Hk. f_equal. exact (IH i x Hx y.2 Hv (Hwf i x Hx)). }
    assert (NoDup hs.*1) as Hnd'.
    { rewrite <-Hp, <-canonical_entry_keys, <-He. by rewrite canonical_entry_keys. }
    rewrite !canonicalize_object by done. f_equal. rewrite He.
    apply merge_sort_unique; [by rewrite Hp|]. by rewrite canonical_entry_keys, Hp.
Qed.

(** C37. Canonicalisation is a complete invariant: two documents have the same
    canonical form exactly when they are equal up to the order of object
    members at any depth. Array order stays significant, scalars stay as they
    are. *)
Theorem canonical_form_iff_equal_up_to_order v w :
  wf_value v = true → wf_value w = true →
  canonicalize_json v = canonicalize_json w ↔ v ≡ w.
Proof.
  intros Hv Hw. split; [|intros; by apply equiv_canonicalize].
  intros E. rewrite (canonicalize_equiv v Hv), E. symmetry. by apply canonicalize_equiv.
Qed.

(** The members of a canonical object are sorted at every depth. *)
Fixpoint sorted_value (v : Value N) : bool :=
  match v with
  | JArray vs => forallb sorted_value vs
  | JObject fs => bool_decide (Sorted key_le fs) && forallb (λ kv, sorted_value kv.2) fs
  | _ => true
  end.

(** The canonical form is sorted by key at every depth, and canonicalising
    it again changes nothing. *)
Theorem canonical_form_sorted_and_stable v :
  wf_value v = true →
  sorted_value (canonicalize_json v) = true ∧
  canonicalize_json (canonicalize_json v) = canonicalize_json v.
Proof.
  intros Hwf. split.
  - induction v as [| | | |vs IH|fs IH] using Value_nested_ind; try done.
    + cbn in *. rewrite forallb_Forall in *. apply Forall_fmap. rewrite Forall_forall in *.
      naive_solver.
    + apply wf_object in Hwf as [Hnd Hwf]. rewrite canonicalize_object by done. cbn.
      apply andb_true_iff. rewrite bool_decide_eq_true, forallb_Forall. split.
      * apply Sorted_merge_sort, _.
      * rewrite merge_sort_Permutation. apply Forall_fmap. rewrite Forall_forall in *.
        intros kv Hkv. cbn. by apply IH, Hwf.
  - symmetry. apply equiv_canonicalize; [|done]. by apply canonicalize_equiv.
Qed.
End canonical.

Definition demo_left : Value Z :=
  JObject [("b", JArray [JNumber 1%Z; JNull]); ("a", JObject [("y", JBool true); ("x", JString "s")])].
Definition demo_right : Value Z :=
  JObject [("a", JObject [("x", JString "s"); ("y", JBool true)]); ("b", JArray [JNumber 1%Z; JNull])].

Lemma canonical_form_iff_equal_up_to_order_witness : demo_left ≡ demo_right.
Proof.
  apply (canonical_form_iff_equal_up_to_order demo_left demo_right); vm_compute; reflexivity.
Defined.

Lemma canonical_form_sorted_and_stable_witness :
  sorted_value (canonicalize_json demo_left) = true.
Proof. apply canonical_form_sorted_and_stable. vm_compute. reflexivity. Defined.
