(* ===== verification/TriageRuntime.v ===== *)
(** * The triage runtime facade

    [crates/cd-triage-runtime/src/lib.rs]: the request fingerprint, the
    provisional event sink, the engine port, the dispatch guards, and the
    binding of a replay to its request. The host engine is the class
    [TriageEngine]; its methods pass the host's state explicitly, so that "the
    engine was not called" is "its state is unchanged". *)
From Stdlib Require Import ZArith Lia Ascii String.
From stdpp Require Import base tactics option list list_numbers gmap sets sorting strings.
From S2P Require Import Prelude RustStr Crypto TriageSdk ReplayPhases CanonicalJson.

Local Open Scope string_scope.
Local Open Scope list_scope.
Local Open Scope Z_scope.

Inductive TriageEngineFailureCategory :=
| PreflightRejected | HostUnavailable | ExecutionFailed | DeadlineExceeded | EngineCancelled
| InvalidEvent | CancellationFailed.

(** [TriageEngineFailure] holds its category and nothing else. *)
Record TriageEngineFailure := { category : TriageEngineFailureCategory }.

Inductive TriageRuntimeError :=
| InvalidRequest (e : TriageContractError)
| InvalidCancellation (e : TriageContractError)
| InvalidReplay (e : TriageContractError)
| Canonicalization
| StandardPolicyRequired
| ConfiguredPolicyRequired
| EventSinkRequestMismatch
| ReplayRunIdentityMismatch
| ReplayRequestFingerprintMismatch
| TerminalResultRunIdentityMismatch
| CancellationIdentityMismatch
| CancellationRequestMismatch
| PacketIdentityMismatch
| StandardAttemptBindingMismatch
| ReconciliationMismatch
| ValidationResultMismatch
| Engine (f : TriageEngineFailure).

(** [Display] of a failure category. *)
Definition category_str (c : TriageEngineFailureCategory) : string :=
  match c with
  | PreflightRejected => "preflight_rejected"
  | HostUnavailable => "host_unavailable"
  | ExecutionFailed => "execution_failed"
  | DeadlineExceeded => "deadline_exceeded"
  | EngineCancelled => "cancelled"
  | InvalidEvent => "invalid_event"
  | CancellationFailed => "cancellation_failed"
  end.

(** [Map::remove]: the removed member and the rest. *)
Fixpoint map_remove {A} (key : string) (m : list (string * A)) : option (A * list (string * A)) :=
  match m with
  | [] => None
  | (k, v) :: m =>
      if bool_decide (k = key) then Some (v, m)
      else '(x, m') ← map_remove key m; Some (x, (k, v) :: m')
  end.

Section runtime.
Context `{Codec} `{Sha2}.

(** ** Request identity *)

Definition fingerprint_validated_request (request : TriageRequestV2 Number) :
    result TriageRuntimeError string :=
  value ← ok_or (request_to_value request) Canonicalization;
  match value with
  | JObject fields =>
      '(_, fields) ← ok_or (map_remove "run_id" fields) Canonicalization;
      let canonical := canonicalize_json (JObject fields) in
      bytes ← ok_or (value_to_vec canonical) Canonicalization;
      Ok ("sha256:" +:+ sha256_hex bytes)
  | _ => Err Canonicalization
  end.

Definition canonical_request_fingerprint (request : TriageRequestV2 Number) :
    result TriageRuntimeError string :=
  map_err InvalidRequest (TriageRequestV2_validate request) ≫= λ _,
  fingerprint_validated_request request.

Record ValidatedTriageRequest := {
  vr_request : TriageRequestV2 Number;
  vr_fingerprint : string;
}.

Definition ValidatedTriageRequest_new (request : TriageRequestV2 Number) :
    result TriageRuntimeError ValidatedTriageRequest :=
  map_err InvalidRequest (TriageRequestV2_validate request) ≫= λ _,
  fingerprint ← fingerprint_validated_request request;
  Ok {| vr_request := request; vr_fingerprint := fingerprint |}.

(** ** The provisional event sink

    The callback is the list of events it was called with. *)
Record TriageEventSink := {
  sink_run_id : string;
  sink_request_fingerprint : string;
  next_sequence : Z;
  forwarded : list TriageRunEventV2;
}.

Definition TriageEventSink_new (request : ValidatedTriageRequest) : TriageEventSink :=
  {| sink_run_id := req_run_id (vr_request request);
     sink_request_fingerprint := vr_fingerprint request;
     next_sequence := 0; forwarded := [] |}.

Definition invalid_event : TriageEngineFailure := {| category := InvalidEvent |}.

Definition emit (sink : TriageEventSink) (e : TriageRunEventV2) :
    result TriageEngineFailure unit * TriageEventSink :=
  match map_err (λ _, invalid_event) (TriageRunEventV2_validate e) with
  | Err f => (Err f, sink)
  | Ok _ =>
      if negb (bool_decide (ev_run_id e = sink_run_id sink)) ||
         negb (sequence e =? next_sequence sink)
      then (Err invalid_event, sink)
      else
        let admitted :=
          match event e with
          | RunStarted request_fingerprint _ =>
              (next_sequence sink =? 0) &&
              bool_decide (request_fingerprint = sink_request_fingerprint sink)
          | _ => negb (next_sequence sink =? 0)
          end in
        if negb admitted then (Err invalid_event, sink)
        else
          let called :=
            {| sink_run_id := sink_run_id sink;
               sink_request_fingerprint := sink_request_fingerprint sink;
               next_sequence := next_sequence sink;
               forwarded := forwarded sink ++ [e] |} in
          match checked_add u64_max (next_sequence sink) 1 with
          | None => (Err invalid_event, called)
          | Some next =>
              (Ok tt, {| sink_run_id := sink_run_id sink;
                         sink_request_fingerprint := sink_request_fingerprint sink;
                         next_sequence := next;
                         forwarded := forwarded sink ++ [e] |})
          end
  end.

Definition is_bound_to (sink : TriageEventSink) (request : ValidatedTriageRequest) : bool :=
  bool_decide (sink_run_id sink = req_run_id (vr_request request)) &&
  bool_decide (sink_request_fingerprint sink = vr_fingerprint request) &&
  (next_sequence sink =? 0).

(** ** The host engine port *)

Class TriageEngine (Host : Type) := {
  Preflight : Type;
  preflight : Host → ValidatedTriageRequest → result TriageEngineFailure Preflight * Host;
  execute : Host → ValidatedTriageRequest → Preflight → option TriageEventSink →
    result TriageEngineFailure TriageReplayV1 * Host;
  engine_cancel : Host → TriageCancellationV1 → result TriageEngineFailure unit * Host;
}.

(** ** Terminal states *)

Inductive TriageExecutionTerminal :=
| TCompleted (r : TriageResultV2)
| TFailed (category : string) (partial_result : option TriageResultV2)
| TTimedOut (category : string) (partial_result : option TriageResultV2)
| TCancelled (cancellation_id : string) (partial_result : option TriageResultV2).

Record TriageExecution := {
  replay_of : TriageReplayV1;
  terminal : TriageExecutionTerminal;
}.

Definition terminal_from_event (e : TriageRunEventV2) :
    result TriageRuntimeError TriageExecutionTerminal :=
  match event e with
  | Completed r => Ok (TCompleted r)
  | Failed category partial_result => Ok (TFailed category partial_result)
  | TimedOut category partial_result => Ok (TTimedOut category partial_result)
  | Cancelled cancellation_id partial_result => Ok (TCancelled cancellation_id partial_result)
  | _ => Err (InvalidReplay (TerminalCount 0))
  end.

Definition terminal_result (t : TriageExecutionTerminal) : option TriageResultV2 :=
  match t with
  | TCompleted r => Some r
  | TFailed _ partial_result | TTimedOut _ partial_result | TCancelled _ partial_result =>
      partial_result
  end.

(** ** Binding a replay to its request *)

Definition post_validation_interruption_downgrade (validation_passed : option bool)
    (t : TriageExecutionTerminal) (r : TriageResultV2) : bool :=
  if negb (bool_decide (validation_passed = Some true)) ||
     negb (bool_decide (validation_state r = VFailed)) ||
     bool_decide (res_answer r ≠ None) ||
     negb (bool_decide (accepted_evidence_ids r = []))
  then false
  else
    match t with
    | TCancelled _ (Some _) => existsb (λ code, bool_decide (code = "cancelled")) (res_reason_codes r)
    | TTimedOut category (Some _) =>
        bool_decide (category = "deadline") &&
        existsb (λ code, bool_decide (code = "deadline")) (res_reason_codes r)
    | _ => false
    end.

(** The locals of [validate_cross_event_bindings]. *)
Record Bindings := {
  b_packet_id : option string;
  b_reconciliation : option TriageReconciliationV1;
  b_validation_passed : option bool;
  b_standard_attempts : Z;
}.
Definition no_bindings : Bindings :=
  {| b_packet_id := None; b_reconciliation := None; b_validation_passed := None;
     b_standard_attempts := 0 |}.

Definition bind_event (standard_model : option ModelRef) (b : Bindings) (e : TriageRunEventV2) :
    result TriageRuntimeError Bindings :=
  match event e with
  | PacketReady ready _ _ =>
      Ok {| b_packet_id := Some ready; b_reconciliation := b_reconciliation b;
            b_validation_passed := b_validation_passed b;
            b_standard_attempts := b_standard_attempts b |}
  | RoleAttempt attempt =>
      if bool_decide (standard_model ≠ None) then
        if negb (bool_decide (at_role attempt = Finalizer)) ||
           negb (bool_decide (role_slot_id attempt = "standard-finalizer")) ||
           negb (bool_decide (at_model attempt = standard_model))
        then Err StandardAttemptBindingMismatch
        else Ok {| b_packet_id := b_packet_id b; b_reconciliation := b_reconciliation b;
                   b_validation_passed := b_validation_passed b;
                   b_standard_attempts := b_standard_attempts b + 1 |}
      else Ok b
  | Reconciliation summary | PreliminaryReconciliation summary | FinalReconciliation summary =>
      Ok {| b_packet_id := b_packet_id b; b_reconciliation := Some summary;
            b_validation_passed := b_validation_passed b;
            b_standard_attempts := b_standard_attempts b |}
  | Validation passed _ =>
      Ok {| b_packet_id := b_packet_id b; b_reconciliation := b_reconciliation b;
            b_validation_passed := Some passed;
            b_standard_attempts := b_standard_attempts b |}
  | _ => Ok b
  end.

Fixpoint bind_events (standard_model : option ModelRef) (b : Bindings)
    (es : list TriageRunEventV2) : result TriageRuntimeError Bindings :=
  match es with
  | [] => Ok b
  | e :: es => b ← bind_event standard_model b e; bind_events standard_model b es
  end.

Definition standard_model_of (request : ValidatedTriageRequest) : option ModelRef :=
  match req_policy (vr_request request) with
  | Standard model => Some model
  | Saved _ _ | Inline _ _ => None
  end.

Definition validate_cross_event_bindings (request : ValidatedTriageRequest)
    (replay : TriageReplayV1) (t : TriageExecutionTerminal) : result TriageRuntimeError unit :=
  let standard_model := standard_model_of request in
  b ← bind_events standard_model no_bindings (events replay);
  reject_if (bool_decide (standard_model ≠ None) &&
             ((1 <? b_standard_attempts b) ||
              (negb (b_standard_attempts b =? 1) &&
               negb (match t with TCancelled _ _ => true | _ => false end))))
    StandardAttemptBindingMismatch ≫= λ _,
  match terminal_result t with
  | Some r =>
      reject_if (negb (bool_decide (b_packet_id b = Some (res_packet_id r))))
        PacketIdentityMismatch ≫= λ _,
      reject_if (is_some_and (b_reconciliation b) (λ summary,
                   negb (bool_decide (summary = reconciliation r))))
        ReconciliationMismatch ≫= λ _,
      let result_passed := bool_decide (validation_state r = VPassed) in
      let validation_mismatch :=
        is_some_and (b_validation_passed b) (λ passed, negb (eqb passed result_passed)) ||
        (bool_decide (b_validation_passed b = None) && result_passed) in
      reject_if (validation_mismatch &&
                 negb (post_validation_interruption_downgrade (b_validation_passed b) t r))
        ValidationResultMismatch
  | None => Ok tt
  end.

Definition replay_validated (request : ValidatedTriageRequest) (replay : TriageReplayV1) :
    result TriageRuntimeError TriageExecution :=
  map_err InvalidReplay (TriageReplayV1_validate replay) ≫= λ _,
  reject_if (negb (bool_decide (rp_run_id replay = req_run_id (vr_request request))))
    ReplayRunIdentityMismatch ≫= λ _,
  reject_if (negb (bool_decide (rp_request_fingerprint replay = vr_fingerprint request)))
    ReplayRequestFingerprintMismatch ≫= λ _,
  e ← ok_or (last (events replay)) (InvalidReplay EmptyReplay);
  t ← terminal_from_event e;
  reject_if (is_some_and (terminal_result t) (λ r,
               negb (bool_decide (res_run_id r = req_run_id (vr_request request)))))
    TerminalResultRunIdentityMismatch ≫= λ _,
  match t with
  | TCancelled cancellation_id _ =>
      reject_if (negb (bool_decide (cancellation_id = req_cancellation_id (vr_request request))))
        CancellationIdentityMismatch
  | _ => Ok tt
  end ≫= λ _,
  validate_cross_event_bindings request replay t ≫= λ _,
  Ok {| replay_of := replay; terminal := t |}.

Definition replay (request : TriageRequestV2 Number) (r : TriageReplayV1) :
    result TriageRuntimeError TriageExecution :=
  request ← ValidatedTriageRequest_new request; replay_validated request r.

(** ** Dispatch *)

Section dispatch.
Context {Host : Type} {E : TriageEngine Host}.
Implicit Types host : Host.

Definition execute_preflighted host (request : ValidatedTriageRequest)
    (sink : option TriageEventSink) : result TriageRuntimeError TriageExecution * Host :=
  if is_some_and sink (λ sink, negb (is_bound_to sink request))
  then (Err EventSinkRequestMismatch, host)
  else
    let '(pre, host) := preflight host request in
    match pre with
    | Err f => (Err (Engine f), host)
    | Ok pre =>
        let '(replay, host) := execute host request pre sink in
        match replay with
        | Err f => (Err (Engine f), host)
        | Ok replay => (replay_validated request replay, host)
        end
    end.

Definition is_standard (p : TriagePolicySelectionV2 Number) : bool :=
  match p with Standard _ => true | _ => false end.

Definition triage host (request : TriageRequestV2 Number) (sink : option TriageEventSink) :
    result TriageRuntimeError TriageExecution * Host :=
  match ValidatedTriageRequest_new request with
  | Err e => (Err e, host)
  | Ok request =>
      if negb (is_standard (req_policy (vr_request request))) then (Err StandardPolicyRequired, host)
      else execute_preflighted host request sink
  end.

Definition triage_with_policy host (request : TriageRequestV2 Number)
    (sink : option TriageEventSink) : result TriageRuntimeError TriageExecution * Host :=
  match ValidatedTriageRequest_new request with
  | Err e => (Err e, host)
  | Ok request =>
      if is_standard (req_policy (vr_request request)) then (Err ConfiguredPolicyRequired, host)
      else execute_preflighted host request sink
  end.

Definition cancel host (request : ValidatedTriageRequest) (cancellation : TriageCancellationV1) :
    result TriageRuntimeError unit * Host :=
  match map_err InvalidCancellation (TriageCancellationV1_validate cancellation) with
  | Err e => (Err e, host)
  | Ok _ =>
      if negb (bool_decide (can_run_id cancellation = req_run_id (vr_request request))) ||
         negb (bool_decide (can_cancellation_id cancellation =
                            req_cancellation_id (vr_request request)))
      then (Err CancellationRequestMismatch, host)
      else
        let '(out, host) := engine_cancel host cancellation in
        (map_err Engine out, host)
  end.
End dispatch.
End runtime.

(** ** Lemmas: the event sink *)

Definition is_run_started (e : TriageRunEventPayloadV2) : bool :=
  match e with RunStarted _ _ => true | _ => false end.

Section sink.
Context `{Codec} `{Sha2}.

Definition emitted (sink : TriageEventSink) (es : list TriageRunEventV2) : TriageEventSink :=
  foldl (λ s e, (emit s e).2) sink es.

(** What a sink bound to [run_id] and [fp] has let through. *)
Definition bound_prefix (run_id fp : string) (es : list TriageRunEventV2) : Prop :=
  events_fit run_id 0 es ∧
  match es with
  | [] => True
  | e :: es => (∃ pf, event e = RunStarted fp pf) ∧
               Forall (λ e, is_run_started (event e) = false) es
  end.

Definition sink_inv (run_id fp : string) (s : TriageEventSink) : Prop :=
  sink_run_id s = run_id ∧ sink_request_fingerprint s = fp ∧
  next_sequence s = zlen (forwarded s) ∧ bound_prefix run_id fp (forwarded s).

Lemma events_fit_snoc run_id index es e :
  events_fit run_id index (es ++ [e]) ↔
    events_fit run_id index es ∧ event_fits run_id (index + zlen es) e.
Proof.
  revert index. induction es as [|x es IH]; intros index; cbn [app].
  - rewrite events_fit_cons, zlen_nil, Z.add_0_r. unfold events_fit at 1 2. cbn.
    rewrite !Forall_nil. tauto.
  - rewrite !events_fit_cons, IH, zlen_cons.
    replace (index + 1 + zlen es) with (index + (1 + zlen es)) by lia. tauto.
Qed.

(** Either the event is refused and nothing moves, or it is forwarded. *)
Lemma emit_cases (s : TriageEventSink) e :
  next_sequence s < u64_max →
  (emit s e = (Err invalid_event, s)) ∨
  (emit s e = (Ok tt, {| sink_run_id := sink_run_id s;
                         sink_request_fingerprint := sink_request_fingerprint s;
                         next_sequence := next_sequence s + 1;
                         forwarded := forwarded s ++ [e] |}) ∧
   event_fits (sink_run_id s) (next_sequence s) e ∧
   match event e with
   | RunStarted fp _ => next_sequence s = 0 ∧ fp = sink_request_fingerprint s
   | _ => next_sequence s ≠ 0
   end).
Proof.
  intros Hmax. unfold emit, event_fits.
  destruct (TriageRunEventV2_validate e) as [[]|] eqn:Hv; [|by left].
  cbn [map_err]. destruct (negb _ || _) eqn:Hb; [by left|].
  destruct (negb (match event e with RunStarted _ _ => _ | _ => _ end)) eqn:Ha; [by left|].
  right. unfold checked_add. rewrite (proj2 (Z.leb_le _ _)) by lia. split_bool.
  split_and!; [done..|]. destruct (event e); split_bool; done.
Qed.

(** The converse: an event that fits is forwarded. *)
Lemma emit_accepts (s : TriageEventSink) e :
  next_sequence s < u64_max → event_fits (sink_run_id s) (next_sequence s) e →
  match event e with
  | RunStarted fp _ => next_sequence s = 0 ∧ fp = sink_request_fingerprint s
  | _ => next_sequence s ≠ 0
  end →
  (emit s e).1 = Ok tt.
Proof.
  intros Hmax (Hv & Hr & Hs) Ho. unfold emit. rewrite Hv. cbn [map_err].
  rewrite bool_decide_eq_true_2, (proj2 (Z.eqb_eq _ _)) by done. cbn [negb orb].
  unfold checked_add. rewrite (proj2 (Z.leb_le _ _)) by lia.
  destruct (event e); try (by rewrite (proj2 (Z.eqb_neq _ 0))).
  destruct Ho as [-> ->]. by rewrite bool_decide_eq_true_2.
Qed.

Lemma emit_sink_inv run_id fp s e :
  next_sequence s < u64_max → sink_inv run_id fp s → sink_inv run_id fp (emit s e).2.
Proof.
  intros Hmax (Hr & Hf & Hn & [Hfit Hfirst]). destruct (emit_cases s e Hmax) as [->|(-> & He & Ho)].
  { by split_and!. }
  unfold sink_inv, bound_prefix.
  cbn [snd forwarded next_sequence sink_run_id sink_request_fingerprint].
  split_and!; [done..| | |].
  - rewrite zlen_app, Hn. done.
  - apply events_fit_snoc. split; [done|]. by rewrite Z.add_0_l, <-Hn, <-Hr.
  - destruct (forwarded s) as [|e0 es] eqn:Ef; cbn [app].
    + destruct (event e) eqn:Ee; try done. destruct Ho as [_ ->]. rewrite Hf. split; [by eauto|].
      constructor.
    + destruct Hfirst as [Hfirst Hrest]. split; [done|]. apply Forall_app. split; [done|].
      constructor; [|constructor]. rewrite zlen_cons in Hn. pose proof (zlen_nonneg es).
      destruct (event e); try done. lia.
Qed.

Lemma emit_next_sequence s e :
  next_sequence s < u64_max → next_sequence (emit s e).2 ≤ next_sequence s + 1.
Proof. intros Hmax. destruct (emit_cases s e Hmax) as [->|(-> & _)]; cbn; lia. Qed.

Lemma emit_sublist s e :
  next_sequence s < u64_max →
  forwarded (emit s e).2 = forwarded s ∨ forwarded (emit s e).2 = forwarded s ++ [e].
Proof. intros Hmax. destruct (emit_cases s e Hmax) as [->|(-> & _)]; cbn; auto. Qed.

Lemma emitted_inv run_id fp s es :
  sink_inv run_id fp s → next_sequence s + zlen es ≤ u64_max →
  sink_inv run_id fp (emitted s es) ∧
  ∃ kept, forwarded (emitted s es) = forwarded s ++ kept ∧ kept `sublist_of` es.
Proof.
  revert s. induction es as [|e es IH]; intros s Hinv Hmax.
  { split; [done|]. exists []. by rewrite app_nil_r. }
  rewrite zlen_cons in Hmax. pose proof (zlen_nonneg es).
  assert (next_sequence s < u64_max) as Hs by lia.
  pose proof (emit_next_sequence s e Hs). unfold emitted. cbn [foldl].
  destruct (IH (emit s e).2) as [Hinv' (kept & Hk & Hsub)]; [by apply emit_sink_inv|lia|].
  split; [done|]. fold (emitted (emit s e).2 es). rewrite Hk.
  destruct (emit_sublist s e Hs) as [->| ->].
  - exists kept. split; [done|]. by apply sublist_cons.
  - exists (e :: kept). split; [by rewrite <-(assoc_L (++))|]. by apply sublist_skip.
Qed.

Lemma sink_inv_new vr :
  sink_inv (req_run_id (vr_request vr)) (vr_fingerprint vr) (TriageEventSink_new vr).
Proof. split_and!; [done..|split; [split|]; done || constructor]. Qed.

(** Whatever a host emits, the events that reach the callback are a
    well-formed stream for this request: they are valid, name its run, are
    numbered from zero without gaps, open with a run-started event that carries
    its fingerprint and never repeat it; and they are a subsequence of what was
    emitted, in the same order. *)
Theorem sink_forwards_bound_stream (vr : ValidatedTriageRequest) es :
  zlen es ≤ u64_max →
  let out := emitted (TriageEventSink_new vr) es in
  bound_prefix (req_run_id (vr_request vr)) (vr_fingerprint vr) (forwarded out) ∧
  next_sequence out = zlen (forwarded out) ∧ forwarded out `sublist_of` es.
Proof.
  intros Hlen. destruct (emitted_inv _ _ _ es (sink_inv_new vr)) as [(_ & _ & Hn & Hp) (k & Hk & Hs)].
  { done. }
  split_and!; [done..|]. cbn. by rewrite Hk.
Qed.
End sink.

(** ** Lemmas: cross-event bindings *)

Definition packet_of (e : TriageRunEventV2) : option string :=
  match event e with PacketReady p _ _ => Some p | _ => None end.
Definition summary_of (e : TriageRunEventV2) : option TriageReconciliationV1 :=
  match event e with
  | Reconciliation s | PreliminaryReconciliation s | FinalReconciliation s => Some s
  | _ => None
  end.
Definition verdict_of (e : TriageRunEventV2) : option bool :=
  match event e with Validation passed _ => Some passed | _ => None end.

(** The last value an event list announces, if any. *)
Definition announced {A} (f : TriageRunEventV2 → option A) (es : list TriageRunEventV2) : option A :=
  last (omap f es).

Definition or_else {A} (o d : option A) : option A :=
  match o with Some a => Some a | None => d end.

Lemma or_else_None {A} (o : option A) : or_else o None = o.
Proof. by destruct o. Qed.

Lemma announced_cons {A} (f : TriageRunEventV2 → option A) e es d :
  or_else (announced f (e :: es)) d = or_else (announced f es) (or_else (f e) d).
Proof.
  unfold announced. cbn. destruct (f e) as [a|]; cbn; [|done].
  rewrite last_cons. by destruct (last (omap f es)).
Qed.

Section bindings.
Context `{Codec} `{Sha2}.

(** An attempt a Standard request may show. *)
Definition standard_attempt (model : ModelRef) (e : TriageRunEventPayloadV2) : Prop :=
  match e with
  | RoleAttempt a =>
      at_role a = Finalizer ∧ role_slot_id a = "standard-finalizer" ∧ at_model a = Some model
  | _ => True
  end.

(** The bindings are the last announcements, and a Standard run counts its
    attempts. *)
Lemma bind_events_Ok sm b es b' :
  bind_events sm b es = Ok b' →
  b_packet_id b' = or_else (announced packet_of es) (b_packet_id b) ∧
  b_reconciliation b' = or_else (announced summary_of es) (b_reconciliation b) ∧
  b_validation_passed b' =
    or_else (announced verdict_of es) (b_validation_passed b) ∧
  (∀ m, sm = Some m →
     Forall (standard_attempt m) (event <$> es) ∧
     b_standard_attempts b' = b_standard_attempts b + zlen (attempts (event <$> es))).
Proof.
  revert b. induction es as [|e es IH]; intros b Hb; cbn [bind_events] in Hb.
  { inv_result. unfold announced. cbn. split_and!; [done..|].
    intros m _. split; [constructor|]. rewrite zlen_nil. lia. }
  apply bind_Ok in Hb as (b1 & He & Hb). apply IH in Hb as (-> & -> & -> & Hm). clear IH.
  rewrite !announced_cons.
  unfold bind_event in He. unfold packet_of, summary_of, verdict_of.
  cbn [fmap list_fmap]. unfold attempts. cbn [omap list_omap].
  destruct (event e) as [| |a| | | | | | | | |] eqn:Ee; inv_result; simplify_eq/=;
    try (split_and!; [done..|];
         intros m Hsm; destruct (Hm m Hsm); split; [by constructor|done]).
  destruct sm as [m'|]; [|by case_bool_decide; simplify_eq/=; split_and!].
  rewrite bool_decide_eq_true_2 in He by done.
  destruct (_ || _) eqn:Hok; inv_result; simplify_eq/=. split_bool. split_and!; [done..|].
  intros m [= <-]. destruct (Hm m' eq_refl) as [? Hc]. split; [by constructor|].
  rewrite zlen_cons. unfold attempts in Hc. cbn in Hc. lia.
Qed.

(** The result agrees with what the replay announced. *)
Definition result_bound (es : list TriageRunEventV2) (t : TriageExecutionTerminal)
    (r : TriageResultV2) : Prop :=
  announced packet_of es = Some (res_packet_id r) ∧
  (∀ s, announced summary_of es = Some s → s = reconciliation r) ∧
  (validation_state r = VPassed → announced verdict_of es = Some true) ∧
  (announced verdict_of es = Some true → validation_state r ≠ VPassed →
     (∃ id p, t = TCancelled id p) ∨ (∃ p, t = TTimedOut "deadline" p)) ∧
  (announced verdict_of es = Some true → validation_state r ≠ VPassed →
     res_answer r = None ∧ accepted_evidence_ids r = []).

Lemma downgrade_inv v t r :
  post_validation_interruption_downgrade v t r = true →
  res_answer r = None ∧ accepted_evidence_ids r = [] ∧ validation_state r = VFailed ∧
  ((∃ id p, t = TCancelled id p) ∨ (∃ p, t = TTimedOut "deadline" p)).
Proof.
  unfold post_validation_interruption_downgrade. destruct (_ || _) eqn:Hg; [done|]. split_bool.
  intros Ht. split_and!; [by apply dec_stable|done..|].
  destruct t as [|? []|? []|? []]; try done; [|by eauto]. split_bool. subst. eauto.
Qed.

Lemma cross_event_bindings_Ok request rp t :
  validate_cross_event_bindings request rp t = Ok tt →
  (∀ m, standard_model_of request = Some m →
     Forall (standard_attempt m) (event <$> events rp) ∧
     zlen (attempts (event <$> events rp)) ≤ 1 ∧
     ((∀ id p, t ≠ TCancelled id p) → zlen (attempts (event <$> events rp)) = 1)) ∧
  (∀ r, terminal_result t = Some r → result_bound (events rp) t r).
Proof.
  intros Hv. unfold validate_cross_event_bindings in Hv. cbn zeta in Hv. inv_result.
  match goal with Hb : bind_events _ _ _ = Ok ?b |- _ =>
    apply bind_events_Ok in Hb as (Hp & Hs & Hvd & Hm) end.
  cbn [no_bindings b_packet_id b_reconciliation b_validation_passed] in Hp, Hs, Hvd.
  rewrite or_else_None in Hp. rewrite or_else_None in Hs. rewrite or_else_None in Hvd. split.
  - intros m Hsm. destruct (Hm m Hsm) as [Hatt Hcount]. cbn in Hcount.
    match goal with Hr : bool_decide _ && _ = false |- _ =>
      rewrite bool_decide_eq_true_2 in Hr by (by rewrite Hsm); cbn in Hr end.
    split_bool. split_and!; [done|lia|]. intros Hnc.
    match goal with Hr : negb _ && _ = false |- _ => apply andb_false_iff in Hr as [?|?] end;
      split_bool; [lia|]. destruct t; try done. by destruct (Hnc cancellation_id partial_result).
  - intros r Hr. rewrite Hr in Hv. inv_result. split_bool.
    unfold result_bound.
    rewrite <-Hp, <-Hs, <-Hvd.
    match goal with Hrc : is_some_and (b_reconciliation _) _ = false |- _ => rename Hrc into Hrec end.
    rewrite is_some_and_false in Hrec.
    split_and!; [done| | | |].
    + intros s Es. specialize (Hrec s Es). by split_bool.
    + intros Hpass. rewrite bool_decide_eq_true_2 in Hv by done.
      destruct (b_validation_passed _) as [[]|] eqn:Eb; [done| |];
        cbn in Hv; split_bool; apply downgrade_inv in Hv; naive_solver congruence.
    + intros Etrue Hnp. rewrite Etrue, bool_decide_eq_false_2 in Hv by done. cbn in Hv.
      split_bool. apply downgrade_inv in Hv. naive_solver.
    + intros Etrue Hnp. rewrite Etrue, bool_decide_eq_false_2 in Hv by done. cbn in Hv.
      split_bool. apply downgrade_inv in Hv. naive_solver.
Qed.
End bindings.

Section claims.
Context `{Codec} `{Sha2}.

Lemma replay_validated_Ok vr r ex :
  replay_validated vr r = Ok ex →
  TriageReplayV1_validate r = Ok tt ∧ rp_run_id r = req_run_id (vr_request vr) ∧
  rp_request_fingerprint r = vr_fingerprint vr ∧ replay_of ex = r ∧
  (∃ e, last (events r) = Some e ∧ terminal_from_event e = Ok (terminal ex)) ∧
  (∀ res, terminal_result (terminal ex) = Some res → res_run_id res = req_run_id (vr_request vr)) ∧
  (∀ id p, terminal ex = TCancelled id p → id = req_cancellation_id (vr_request vr)) ∧
  validate_cross_event_bindings vr r (terminal ex) = Ok tt.
Proof.
  intros Hv. unfold replay_validated in Hv. inv_result. split_bool. cbn [replay_of terminal].
  split_and!; try done; [by eauto|..].
  - intros res Hres.
    match goal with Hx : is_some_and (terminal_result _) _ = false |- _ => rename Hx into Hn end.
    rewrite is_some_and_false in Hn. specialize (Hn res Hres). by split_bool.
  - intros id p Ht. rewrite Ht in *. inv_result. by split_bool.
Qed.


(** A run opens once. *)
Lemma phases_run_started_once p es q :
  p ≠ NotStarted → phases p es = Some q → Forall (λ e, is_run_started e = false) es.
Proof.
  revert p. induction es as [|e es IH]; intros p Hp Hph; [constructor|]. cbn in Hph.
  destruct (phase_step p e) as [p'|] eqn:Hs; [|done]. constructor.
  - destruct e; try done. by destruct p.
  - apply (IH p'); [|done]. by apply (phase_step_terminal p e).
Qed.

Lemma emitted_all s run_id es :
  events_fit run_id (next_sequence s) es → sink_run_id s = run_id → 0 < next_sequence s →
  next_sequence s + zlen es ≤ u64_max → Forall (λ e, is_run_started (event e) = false) es →
  forwarded (emitted s es) = forwarded s ++ es.
Proof.
  revert s. induction es as [|e es IH]; intros s Hfit Hr Hn Hmax Hns.
  { by rewrite app_nil_r. }
  rewrite zlen_cons in Hmax. pose proof (zlen_nonneg es).
  apply events_fit_cons in Hfit as [He Hfit]. apply Forall_cons in Hns as [He0 Hns].
  assert (next_sequence s < u64_max) as Hs by lia.
  assert ((emit s e).1 = Ok tt) as Hok.
  { apply emit_accepts; [done|by rewrite Hr|]. destruct (event e); try done; lia. }
  destruct (emit_cases s e Hs) as [Herr|(Hem & _)]; [by rewrite Herr in Hok|].
  unfold emitted. cbn [foldl]. fold (emitted (emit s e).2 es). rewrite Hem.
  rewrite IH; cbn [snd forwarded next_sequence sink_run_id]; try done; try lia.
  by rewrite <-(assoc_L (++)).
Qed.

(** The streamed view and the authoritative replay agree: every event of an
    accepted replay, emitted in order into a fresh sink of the same request, is
    forwarded, so the callback sees exactly the replay. *)
Theorem accepted_replay_streams vr r ex :
  replay_validated vr r = Ok ex →
  forwarded (emitted (TriageEventSink_new vr) (events r)) = events r.
Proof.
  intros (Hv & Hrun & Hfp & _)%replay_validated_Ok.
  apply replay_validate_spec in Hv as (_ & _ & _ & Hmax & [pf Hhd] & Hfit & Hph).
  destruct (events r) as [|e es]; [done|]. cbn [fmap list_fmap head] in Hhd. injection Hhd as He.
  cbn [fmap list_fmap phases] in Hph. rewrite He in Hph. cbn [phase_step mbind option_bind] in Hph.
  apply phases_run_started_once in Hph; [|done]. rewrite Forall_fmap in Hph.
  apply events_fit_cons in Hfit as [Hfit0 Hfit].
  rewrite zlen_cons in Hmax. pose proof (zlen_nonneg es). unfold MAX_TRIAGE_REPLAY_EVENTS in Hmax.
  set (s0 := TriageEventSink_new vr).
  assert (next_sequence s0 < u64_max) as Hs0 by (unfold u64_max; cbn; lia).
  assert ((emit s0 e).1 = Ok tt) as Hok.
  { apply emit_accepts; [done|by rewrite Hrun in Hfit0|]. by rewrite He, Hfp. }
  destruct (emit_cases s0 e Hs0) as [Herr|(Hem & _)]; [by rewrite Herr in Hok|].
  unfold emitted. cbn [foldl]. fold (emitted (emit s0 e).2 es). rewrite Hem.
  rewrite (emitted_all _ (rp_run_id r)); cbn [snd forwarded next_sequence sink_run_id];
    [done|done|done|cbn; lia|unfold u64_max; cbn; lia|exact Hph].
Qed.

(** ** Dispatch *)

Section dispatch_claims.
Context {Host : Type} {E : TriageEngine Host}.

Lemma execute_preflighted_Ok (host host' : Host) vr sink ex :
  execute_preflighted host vr sink = (Ok ex, host') →
  ∃ pre h1 rp, preflight host vr = (Ok pre, h1) ∧ execute h1 vr pre sink = (Ok rp, host') ∧
    replay_validated vr rp = Ok ex ∧ (∀ s, sink = Some s → is_bound_to s vr = true).
Proof.
  unfold execute_preflighted. destruct (is_some_and _ _) eqn:Hb; [done|].
  destruct (preflight host vr) as [[pre|] h1]; [|done].
  destruct (execute h1 vr pre sink) as [[rp|] h2] eqn:Hex; [|done].
  intros [= Hr ->]. exists pre, h1, rp. split_and!; [done..|].
  intros s Hs. rewrite is_some_and_false in Hb. specialize (Hb s Hs). by split_bool.
Qed.

(** The engine is never reached by a request the facade refuses: a request
    that does not validate, is of the wrong policy kind, or comes with a sink
    of another request returns its error and leaves the host as it was. *)
Theorem refused_requests_never_reach_engine (host : Host) request sink :
  (∀ e, ValidatedTriageRequest_new request = Err e →
     triage host request sink = (Err e, host) ∧
     triage_with_policy host request sink = (Err e, host)) ∧
  (∀ vr, ValidatedTriageRequest_new request = Ok vr →
     (is_standard (req_policy request) = false →
        triage host request sink = (Err StandardPolicyRequired, host)) ∧
     (is_standard (req_policy request) = true →
        triage_with_policy host request sink = (Err ConfiguredPolicyRequired, host)) ∧
     (∀ s, sink = Some s → is_bound_to s vr = false →
        (triage host request sink).2 = host ∧ (triage_with_policy host request sink).2 = host ∧
        is_ok (triage host request sink).1 = false ∧
        is_ok (triage_with_policy host request sink).1 = false)).
Proof.
  unfold triage, triage_with_policy. split; [by intros e ->|].
  intros vr Hvr. rewrite Hvr.
  assert (vr_request vr = request) as -> by (unfold ValidatedTriageRequest_new in Hvr; by inv_result).
  split_and!; [by intros ->|by intros ->|].
  intros s -> Hb. unfold execute_preflighted. cbn [is_some_and]. rewrite Hb.
  by destruct (is_standard _).
Qed.

(** What a Standard dispatch returns was produced by the host for exactly
    this request, after preflight, and passed every binding: the execution's
    replay is the one the engine returned and is bound to the validated
    request; every attempt in it ran the requested model. *)
Theorem triage_returns_bound_execution (host host' : Host) request sink ex :
  triage host request sink = (Ok ex, host') →
  ∃ vr pre h1 rp m,
    ValidatedTriageRequest_new request = Ok vr ∧ vr_request vr = request ∧
    req_policy request = Standard m ∧
    preflight host vr = (Ok pre, h1) ∧ execute h1 vr pre sink = (Ok rp, host') ∧
    replay_of ex = rp ∧ TriageReplayV1_validate rp = Ok tt ∧
    rp_request_fingerprint rp = vr_fingerprint vr ∧
    Forall (standard_attempt m) (event <$> events rp) ∧
    ((∀ id p, terminal ex ≠ TCancelled id p) → zlen (attempts (event <$> events rp)) = 1).
Proof.
  unfold triage. destruct (ValidatedTriageRequest_new request) as [vr|] eqn:Hvr; [|done].
  destruct (is_standard _) eqn:Hstd; cbn [negb]; [|done].
  intros (pre & h1 & rp & Hpre & Hex & Hrv & _)%execute_preflighted_Ok.
  assert (vr_request vr = request) as Hreq.
  { unfold ValidatedTriageRequest_new in Hvr. by inv_result. }
  rewrite Hreq in Hstd. destruct (req_policy request) as [m| |] eqn:Hpol; try done.
  destruct (replay_validated_Ok vr rp ex Hrv) as (Hv & _ & Hfp & Hrp & _ & _ & _ & Hb).
  destruct (cross_event_bindings_Ok vr rp (terminal ex) Hb) as [Hstd' _]. clear Hb.
  destruct (Hstd' m) as (? & _ & ?). { unfold standard_model_of. by rewrite Hreq, Hpol. }
  exists vr, pre, h1, rp, m. by split_and!.
Qed.

(** A cancellation reaches the engine only when it is valid and names both
    the run and the cancellation id of the request; otherwise the host is left
    as it was. *)
Theorem cancel_dispatch_is_bound (host : Host) vr c :
  let bound := TriageCancellationV1_validate c = Ok tt ∧
               can_run_id c = req_run_id (vr_request vr) ∧
               can_cancellation_id c = req_cancellation_id (vr_request vr) in
  (bound → cancel host vr c =
     (map_err Engine (engine_cancel host c).1, (engine_cancel host c).2)) ∧
  (~ bound → (cancel host vr c).2 = host ∧ is_ok (cancel host vr c).1 = false).
Proof.
  cbn zeta. unfold cancel. split.
  - intros (-> & Hr & Hc). rewrite !bool_decide_eq_true_2 by done. cbn [negb orb map_err].
    by destruct (engine_cancel host c).
  - intros Hn. destruct (TriageCancellationV1_validate c) as [[]|]; [|done]. cbn [map_err].
    destruct (negb _ || negb _) eqn:Hb; [done|]. split_bool. by destruct Hn.
Qed.
End dispatch_claims.

(** ** Request identity *)

Definition with_run_id (id : string) (r : TriageRequestV2 Number) : TriageRequestV2 Number :=
  {| req_schema_id := req_schema_id r; req_run_id := id; req_privacy := req_privacy r;
     req_task := req_task r; req_scope := req_scope r; req_policy := req_policy r;
     req_overrides := req_overrides r; req_cancellation_id := req_cancellation_id r |}.

(** The derived serialiser writes a struct as an object with one member per
    field; the member [run_id] is the run id and the others do not depend on
    it. *)
Class CodecLaws : Prop := {
  request_members : ∀ r, ∃ before after, "run_id" ∉ (before ++ after).*1 ∧
    ∀ id, request_to_value (with_run_id id r) =
          Some (JObject (before ++ ("run_id", JString id) :: after));
}.

Lemma map_remove_middle {A} key (v : A) before after :
  key ∉ before.*1 → map_remove key (before ++ (key, v) :: after) = Some (v, before ++ after).
Proof.
  induction before as [|[k w] before IH]; cbn; intros Hn.
  - by rewrite bool_decide_eq_true_2.
  - rewrite bool_decide_eq_false_2 by set_solver. by rewrite IH by set_solver.
Qed.

(** The members that enter the fingerprint. *)
Definition identity_members (r : TriageRequestV2 Number) : option (list (string * Value Number)) :=
  match request_to_value r with
  | Some (JObject fields) => snd <$> map_remove "run_id" fields
  | _ => None
  end.

Lemma fingerprint_members r :
  fingerprint_validated_request r =
    (members ← ok_or (identity_members r) Canonicalization;
     bytes ← ok_or (value_to_vec (canonicalize_json (JObject members))) Canonicalization;
     Ok ("sha256:" +:+ sha256_hex bytes)).
Proof.
  unfold fingerprint_validated_request, identity_members.
  destruct (request_to_value r) as [[]|]; try done. cbn [ok_or mbind result_bind].
  by destruct (map_remove "run_id" fields) as [[]|].
Qed.

(** The fingerprint identifies a request by its content: it does not depend
    on the run id, and two requests whose remaining members are equal up to
    member order at any depth have the same fingerprint. *)
Theorem fingerprint_ignores_run_id_and_order `{!CodecLaws} (r r' : TriageRequestV2 Number) :
  (∀ id, fingerprint_validated_request (with_run_id id r) = fingerprint_validated_request r) ∧
  (∀ ms ms', identity_members r = Some ms → identity_members r' = Some ms' →
     wf_value (JObject ms) = true → JObject ms ≡ JObject ms' →
     fingerprint_validated_request r = fingerprint_validated_request r').
Proof.
  split.
  - intros id. rewrite !fingerprint_members.
    assert (identity_members (with_run_id id r) = identity_members r) as ->; [|done].
    destruct (request_members r) as (before & after & Hn & Hv). unfold identity_members.
    assert (with_run_id (req_run_id r) r = r) as Hr by (by destruct r).
    rewrite <-Hr at 2. rewrite !Hv, !map_remove_middle; [done|set_solver..].
  - intros ms ms' Hm Hm' Hwf Heq. rewrite !fingerprint_members, Hm, Hm'.
    cbn [ok_or mbind result_bind]. by rewrite (equiv_canonicalize (JObject ms) (JObject ms')).
Qed.
End claims.

(** ** A concrete host *)

Module DemoHost.
#[export] Instance codec : Codec := Demo.codec.
#[export] Instance sha2 : Sha2 := {| sha256_hex := λ _, "00ff" |}.

#[export] Instance laws : CodecLaws.
Proof.
  constructor. intros r. exists [], [("task", JString (req_task r))]. split; [set_solver|done].
Qed.

Definition request : TriageRequestV2 Number :=
  {| req_schema_id := TRIAGE_REQUEST_SCHEMA_V2; req_run_id := "run-1"; req_privacy := OwnerOnly;
     req_task := "why did it fail"; req_scope := {| corpus_id := "corpus"; corpus_revision := Some 1;
                                                    source_ids := [] |};
     req_policy := Standard Demo.model;
     req_overrides := {| ov_deadline_ms := None; ov_max_provider_calls := None |};
     req_cancellation_id := "cancel-1" |}.

Definition validated : ValidatedTriageRequest :=
  {| vr_request := request; vr_fingerprint := "sha256:00ff" |}.

(** The host counts the calls it gets. *)
#[export] Instance engine : TriageEngine nat := {|
  Preflight := unit;
  preflight := λ n _, (Ok tt, S n);
  execute := λ n vr _ _, (Ok (demo_replay (vr_fingerprint vr)), S n);
  engine_cancel := λ n _, (Ok tt, S n);
|}.
End DemoHost.

Section witnesses.
Import DemoHost.

Definition demo_execution : TriageExecution :=
  {| replay_of := demo_replay "sha256:00ff"; terminal := TCompleted Demo.grounded |}.

Lemma sink_forwards_bound_stream_witness :
  bound_prefix "run-1" "sha256:00ff"
    (forwarded (emitted (TriageEventSink_new validated)
       [Demo.run_event 0 (RunStarted "sha256:00ff" "p"); Demo.run_event 5 (Validation true [])])).
Proof.
  apply (sink_forwards_bound_stream validated). unfold u64_max. vm_compute. congruence.
Defined.


Lemma accepted_replay_streams_witness :
  forwarded (emitted (TriageEventSink_new validated) (events (demo_replay "sha256:00ff"))) =
  events (demo_replay "sha256:00ff").
Proof. apply (accepted_replay_streams validated _ demo_execution). vm_compute. reflexivity. Defined.

Lemma triage_returns_bound_execution_witness :
  triage 0%nat request None = (Ok demo_execution, 2%nat) ∧
  TriageReplayV1_validate (replay_of demo_execution) = Ok tt.
Proof.
  assert (Ht : triage 0%nat request None = (Ok demo_execution, 2%nat)) by (vm_compute; reflexivity).
  split; [exact Ht|].
  destruct (triage_returns_bound_execution _ _ _ _ _ Ht)
    as (vr & pre & h1 & rp & m & _ & _ & _ & _ & _ & Hrp & Hval & _).
  rewrite Hrp. exact Hval.
Defined.

Lemma fingerprint_ignores_run_id_and_order_witness :
  fingerprint_validated_request (with_run_id "run-2" request) =
  fingerprint_validated_request request.
Proof. apply (fingerprint_ignores_run_id_and_order request request). Defined.
End witnesses.
