(* ===== verification/TriagePolicy.v ===== *)
(** * Triage policy compiler

    [crates/cd-core/src/multi_model/triage_policy.rs]: the V2 policy documents,
    the pure preflight compiler [compile_triage_policy_v2], and the migration
    of resolved legacy settings. Collections the source keeps in ordered maps
    and sets are association lists and lists in the same order. *)
From Stdlib Require Import ZArith Lia Ascii String.
From stdpp Require Import base tactics option list list_numbers gmap sets sorting strings.
From S2P Require Import Prelude RustStr TriageSdk.

Local Open Scope string_scope.
Local Open Scope list_scope.
Local Open Scope Z_scope.

(** ** Documents *)

Definition COMPILED_TRIAGE_POLICY_SCHEMA_V2 : string := "contextdesk.triage_policy.compiled.v2".
Definition TRIAGE_QUALIFICATION_SCHEMA_V2 : string := "contextdesk.triage.qualification.v2".
Definition TRIAGE_QUALIFICATION_WORKFLOW_V2 : string := "contextdesk.triage.role.v2".
Definition MAX_TRIAGE_POLICY_SLOTS_V2 : Z := 32.
Definition MAX_TRIAGE_PROVIDER_CALLS_V2 : Z := 64.
Definition MAX_TRIAGE_CONTEXT_CHARS_V2 : Z := 4000000.
Definition MAX_TRIAGE_DEADLINE_MS_V2 : Z := 3600000.

Inductive TriagePolicyMode := ModeStandard | ModeEnhanced | ModeAdvanced.
#[global] Instance TriagePolicyMode_eq_dec : EqDecision TriagePolicyMode.
Proof. solve_decision. Defined.
Inductive RoleRequirement := Required | Optional.
#[global] Instance RoleRequirement_eq_dec : EqDecision RoleRequirement.
Proof. solve_decision. Defined.

Record ContributorSlotV2 := {
  cs_slot_id : string;
  cs_role : TriageContributorRole;
  cs_model : ModelRef;
  cs_requirement : RoleRequirement;
  cs_allow_remote : bool;
}.
Record FinalizerSlotV2 := {
  fs_slot_id : string;
  fs_model : ModelRef;
  fs_requirement : RoleRequirement;
  fs_allow_remote : bool;
}.
Inductive ReviewerConditionV2 := ContestedOrIncomplete | ExplicitRequest.
Record ReviewerSlotV2 := {
  rs_slot_id : string;
  rs_model : ModelRef;
  rs_condition : ReviewerConditionV2;
  rs_requirement : RoleRequirement;
  rs_allow_remote : bool;
}.

Record ContributorPhaseBudgetV2 := {
  cb_max_provider_calls : Z;
  cb_operation_timeout_ms : Z;
  cb_max_context_chars : Z;
}.
Record CorrectionBudgetV2 := {
  co_max_per_stage : Z;
  co_max_provider_calls : Z;
  co_operation_timeout_ms : Z;
  co_max_context_chars : Z;
}.
Record TerminalPhaseBudgetV2 := {
  tb_max_provider_calls : Z;
  tb_reserve_ms : Z;
  tb_operation_timeout_ms : Z;
  tb_max_context_chars : Z;
}.
Inductive TriagePhaseCapAuthorityV2 := StockDefault | ExplicitCaps.
Record TriageBudgetV2 := {
  whole_turn_deadline_ms : option Z;
  bu_max_provider_calls : Z;
  bu_max_context_chars : Z;
  bu_contributors : ContributorPhaseBudgetV2;
  bu_corrections : CorrectionBudgetV2;
  bu_finalizer : TerminalPhaseBudgetV2;
  bu_reviewer : TerminalPhaseBudgetV2;
  phase_cap_authority : TriagePhaseCapAuthorityV2;
}.

Definition TriageBudgetV2_default : TriageBudgetV2 :=
  {| whole_turn_deadline_ms := None;
     bu_max_provider_calls := 12;
     bu_max_context_chars := 600000;
     bu_contributors := {| cb_max_provider_calls := 4; cb_operation_timeout_ms := 120000;
                           cb_max_context_chars := 240000 |};
     bu_corrections := {| co_max_per_stage := 1; co_max_provider_calls := 4;
                          co_operation_timeout_ms := 120000; co_max_context_chars := 120000 |};
     bu_finalizer := {| tb_max_provider_calls := 1; tb_reserve_ms := 120000;
                        tb_operation_timeout_ms := 120000; tb_max_context_chars := 120000 |};
     bu_reviewer := {| tb_max_provider_calls := 1; tb_reserve_ms := 120000;
                       tb_operation_timeout_ms := 120000; tb_max_context_chars := 120000 |};
     phase_cap_authority := StockDefault |}.

Record TriagePolicyV2 := {
  po_schema_id : string;
  po_mode : TriagePolicyMode;
  po_contributors : list ContributorSlotV2;
  po_finalizer : option FinalizerSlotV2;
  po_reviewer : option ReviewerSlotV2;
  po_budget : TriageBudgetV2;
}.

Definition TriagePolicyV2_standard (model : ModelRef) (allow_remote : bool) : TriagePolicyV2 :=
  {| po_schema_id := TRIAGE_POLICY_SCHEMA_V2;
     po_mode := ModeStandard;
     po_contributors := [];
     po_finalizer := Some {| fs_slot_id := "standard-finalizer"; fs_model := model;
                             fs_requirement := Required; fs_allow_remote := allow_remote |};
     po_reviewer := None;
     po_budget := TriageBudgetV2_default |}.

Inductive RoleQualificationV2 := Qualified | Unqualified | Unverified | Stale.
#[global] Instance RoleQualificationV2_eq_dec : EqDecision RoleQualificationV2.
Proof. solve_decision. Defined.

Record RolePreflightV2 := {
  pf_slot_id : string;
  pf_model : ModelRef;
  pf_kind : TriageSlotKindV2;
  pf_available : bool;
  pf_qualification : RoleQualificationV2;
  pf_remote : bool;
  pf_qualification_schema_id : option string;
  pf_workflow_id : option string;
  pf_protocol_fingerprint : option string;
}.
(** [TriagePolicyPreflightV2] is its [roles]. *)
Definition TriagePolicyPreflightV2 : Type := list RolePreflightV2.

Inductive PolicyRejectionCategoryV2 :=
| SchemaMismatch | InvalidSlotId | DuplicateSlotId | InvalidModelRef | StandardModeExpanded
| StandardFinalizerRequired | EmptyPolicy | InvalidBudget | PolicyLimitExceeded | RoleUnavailable
| QualificationUnavailable | EgressDenied | UnknownPreflightSlot | DuplicatePreflightSlot
| PreflightBindingMismatch | ProviderCallBudgetInsufficient.
#[global] Instance PolicyRejectionCategoryV2_eq_dec : EqDecision PolicyRejectionCategoryV2.
Proof. solve_decision. Defined.

(** The derived [Ord] follows the declaration. *)
Definition category_rank (c : PolicyRejectionCategoryV2) : nat :=
  match c with
  | SchemaMismatch => 0 | InvalidSlotId => 1 | DuplicateSlotId => 2 | InvalidModelRef => 3
  | StandardModeExpanded => 4 | StandardFinalizerRequired => 5 | EmptyPolicy => 6
  | InvalidBudget => 7 | PolicyLimitExceeded => 8 | RoleUnavailable => 9
  | QualificationUnavailable => 10 | EgressDenied => 11 | UnknownPreflightSlot => 12
  | DuplicatePreflightSlot => 13 | PreflightBindingMismatch => 14
  | ProviderCallBudgetInsufficient => 15
  end.
Definition category_le (a b : PolicyRejectionCategoryV2) : Prop :=
  (category_rank a ≤ category_rank b)%nat.
#[global] Instance category_le_dec : RelDecision category_le.
Proof. intros a b. unfold category_le. apply _. Defined.

Record PolicyRejectionV2 := {
  rj_slot_id : option string;
  rj_category : PolicyRejectionCategoryV2;
}.

Inductive SlotDispositionV2 := SlotAdmitted | OptionalDegraded | RequiredRejected.
#[global] Instance SlotDispositionV2_eq_dec : EqDecision SlotDispositionV2.
Proof. solve_decision. Defined.

Record CompiledRoleSlotV2 := {
  cp_slot_id : string;
  cp_kind : TriageSlotKindV2;
  cp_model : ModelRef;
  cp_requirement : RoleRequirement;
  cp_disposition : SlotDispositionV2;
  cp_rejections : list PolicyRejectionCategoryV2;
  cp_qualification_schema_id : option string;
  cp_workflow_id : option string;
  cp_protocol_fingerprint : option string;
}.

Record ModelIndependenceGroupV2 := {
  ig_model : ModelRef;
  ig_slot_ids : list string;
}.
Record TriageIndependenceCountsV2 := {
  ic_role_slots : Z;
  ic_distinct_model_refs : Z;
  ic_distinct_model_ids : Z;
  ic_distinct_gateways : Z;
}.
Record CompiledTriagePolicyV2 := {
  ct_schema_id : string;
  ct_mode : TriagePolicyMode;
  ct_slots : list CompiledRoleSlotV2;
  ct_independence_groups : list ModelIndependenceGroupV2;
  ct_independence_counts : TriageIndependenceCountsV2;
  ct_budget : TriageBudgetV2;
}.
Record TriagePolicyCompileFailureV2 := {
  cf_rejections : list PolicyRejectionV2;
  cf_slots : list CompiledRoleSlotV2;
}.

Record SlotInput := {
  si_slot_id : string;
  si_kind : TriageSlotKindV2;
  si_model : ModelRef;
  si_requirement : RoleRequirement;
  si_allow_remote : bool;
}.

(** ** Budget *)

Definition reject (slot_id : option string) (category : PolicyRejectionCategoryV2) :
    PolicyRejectionV2 := {| rj_slot_id := slot_id; rj_category := category |}.

Definition phase_calls (policy : TriagePolicyV2) : Z :=
  let budget := po_budget policy in
  saturating_add u32_max
    (saturating_add u32_max
       (saturating_add u32_max (cb_max_provider_calls (bu_contributors budget))
          (co_max_provider_calls (bu_corrections budget)))
       (if is_some (po_finalizer policy) then tb_max_provider_calls (bu_finalizer budget) else 0))
    (if is_some (po_reviewer policy) then tb_max_provider_calls (bu_reviewer budget) else 0).
Definition phase_chars (policy : TriagePolicyV2) : Z :=
  let budget := po_budget policy in
  saturating_add u64_max
    (saturating_add u64_max
       (saturating_add u64_max (cb_max_context_chars (bu_contributors budget))
          (co_max_context_chars (bu_corrections budget)))
       (if is_some (po_finalizer policy) then tb_max_context_chars (bu_finalizer budget) else 0))
    (if is_some (po_reviewer policy) then tb_max_context_chars (bu_reviewer budget) else 0).
Definition terminal_reserve (policy : TriagePolicyV2) : Z :=
  let budget := po_budget policy in
  saturating_add u64_max
    (if is_some (po_finalizer policy) then tb_reserve_ms (bu_finalizer budget) else 0)
    (if is_some (po_reviewer policy) then tb_reserve_ms (bu_reviewer budget) else 0).

Definition terminal_phase_invalid (b : TerminalPhaseBudgetV2) : bool :=
  negb (tb_max_provider_calls b =? 1) || (tb_operation_timeout_ms b =? 0) ||
  (tb_max_context_chars b =? 0).

Definition budget_invalid (policy : TriagePolicyV2) : bool :=
  let budget := po_budget policy in
  let contributors := bu_contributors budget in
  let corrections := bu_corrections budget in
  let finalizer := bu_finalizer budget in
  let reviewer := bu_reviewer budget in
  (bu_max_provider_calls budget =? 0) ||
  (MAX_TRIAGE_PROVIDER_CALLS_V2 <? bu_max_provider_calls budget) ||
  (bu_max_context_chars budget =? 0) ||
  (MAX_TRIAGE_CONTEXT_CHARS_V2 <? bu_max_context_chars budget) ||
  is_some_and (whole_turn_deadline_ms budget) (λ deadline,
    (deadline =? 0) || (MAX_TRIAGE_DEADLINE_MS_V2 <? deadline)) ||
  (MAX_TRIAGE_PROVIDER_CALLS_V2 <? cb_max_provider_calls contributors) ||
  (MAX_TRIAGE_DEADLINE_MS_V2 <? cb_operation_timeout_ms contributors) ||
  (MAX_TRIAGE_CONTEXT_CHARS_V2 <? cb_max_context_chars contributors) ||
  (MAX_TRIAGE_PROVIDER_CALLS_V2 <? co_max_provider_calls corrections) ||
  (MAX_TRIAGE_DEADLINE_MS_V2 <? co_operation_timeout_ms corrections) ||
  (MAX_TRIAGE_CONTEXT_CHARS_V2 <? co_max_context_chars corrections) ||
  (1 <? tb_max_provider_calls finalizer) ||
  (MAX_TRIAGE_DEADLINE_MS_V2 <? tb_reserve_ms finalizer) ||
  (MAX_TRIAGE_DEADLINE_MS_V2 <? tb_operation_timeout_ms finalizer) ||
  (MAX_TRIAGE_CONTEXT_CHARS_V2 <? tb_max_context_chars finalizer) ||
  (1 <? tb_max_provider_calls reviewer) ||
  (MAX_TRIAGE_DEADLINE_MS_V2 <? tb_reserve_ms reviewer) ||
  (MAX_TRIAGE_DEADLINE_MS_V2 <? tb_operation_timeout_ms reviewer) ||
  (MAX_TRIAGE_CONTEXT_CHARS_V2 <? tb_max_context_chars reviewer) ||
  (negb (bool_decide (po_contributors policy = [])) &&
   ((cb_max_provider_calls contributors =? 0) || (cb_operation_timeout_ms contributors =? 0) ||
    (cb_max_context_chars contributors =? 0))) ||
  ((0 <? co_max_provider_calls corrections) &&
   ((co_max_per_stage corrections =? 0) || (co_operation_timeout_ms corrections =? 0) ||
    (co_max_context_chars corrections =? 0))) ||
  (is_some (po_finalizer policy) && terminal_phase_invalid finalizer) ||
  (is_some (po_reviewer policy) && terminal_phase_invalid reviewer) ||
  (bu_max_provider_calls budget <? phase_calls policy) ||
  (bu_max_context_chars budget <? phase_chars policy) ||
  bool_decide (whole_turn_deadline_ms budget = Some 0) ||
  is_some_and (whole_turn_deadline_ms budget) (λ deadline, deadline <? terminal_reserve policy).

Definition validate_budget (policy : TriagePolicyV2) : list PolicyRejectionV2 :=
  if budget_invalid policy then [reject None InvalidBudget] else [].

(** ** Slots *)

Definition slot_inputs (policy : TriagePolicyV2) : list SlotInput :=
  ((λ slot, {| si_slot_id := cs_slot_id slot; si_kind := Contributor (cs_role slot);
               si_model := cs_model slot; si_requirement := cs_requirement slot;
               si_allow_remote := cs_allow_remote slot |}) <$> po_contributors policy) ++
  match po_finalizer policy with
  | Some slot => [{| si_slot_id := fs_slot_id slot; si_kind := Finalizer; si_model := fs_model slot;
                     si_requirement := fs_requirement slot; si_allow_remote := fs_allow_remote slot |}]
  | None => []
  end ++
  match po_reviewer policy with
  | Some slot => [{| si_slot_id := rs_slot_id slot; si_kind := Reviewer; si_model := rs_model slot;
                     si_requirement := rs_requirement slot; si_allow_remote := rs_allow_remote slot |}]
  | None => []
  end.

Definition valid_slot_id (value : string) : bool :=
  negb (is_empty value) && (str_len value <=? 128) &&
  forallb (λ byte, is_ascii_alphanumeric byte || bool_decide (byte ∈ bytes "-_.:")) (bytes value).

Definition valid_protocol_fingerprint (value : string) : bool :=
  negb (is_empty (trim value)) && starts_with "sha256:" value && (str_len value <=? 512) &&
  negb (contains "/" value) && negb (contains "\" value) && negb (contains "://" value) &&
  negb (any_control (bytes value)).

Definition qualification_binding_is_current (fact : RolePreflightV2) (mode : TriagePolicyMode) :
    bool :=
  match pf_qualification_schema_id fact, pf_workflow_id fact, pf_protocol_fingerprint fact with
  | None, None, None => bool_decide (mode = ModeStandard)
  | Some schema, Some workflow, Some protocol =>
      bool_decide (schema = TRIAGE_QUALIFICATION_SCHEMA_V2) &&
      bool_decide (workflow = TRIAGE_QUALIFICATION_WORKFLOW_V2) &&
      valid_protocol_fingerprint protocol
  | _, _, _ => false
  end.

(** The loop over the configured slots; [seen] are the ids so far. *)
Fixpoint check_slots (seen : list string) (inputs : list SlotInput) : list PolicyRejectionV2 :=
  match inputs with
  | [] => []
  | slot :: inputs =>
      let id := si_slot_id slot in
      (if valid_slot_id id then [] else [reject (Some id) InvalidSlotId]) ++
      (if bool_decide (id ∈ seen) then [reject (Some id) DuplicateSlotId] else []) ++
      (if is_ok (ModelRef_validate (si_model slot)) then []
       else [reject (Some id) InvalidModelRef]) ++
      check_slots (id :: seen) inputs
  end.

(** The loop over the preflight facts. *)
Fixpoint check_preflight (configured seen : list string) (facts : list RolePreflightV2) :
    list PolicyRejectionV2 :=
  match facts with
  | [] => []
  | fact :: facts =>
      let id := pf_slot_id fact in
      (if bool_decide (id ∈ configured) then [] else [reject (Some id) UnknownPreflightSlot]) ++
      (if bool_decide (id ∈ seen) then [reject (Some id) DuplicatePreflightSlot] else []) ++
      check_preflight configured (id :: seen) facts
  end.

(** [facts.get(id)] of the map collected from the facts: the last one wins. *)
Definition facts_get (facts : TriagePolicyPreflightV2) (id : string) : option RolePreflightV2 :=
  find (λ fact, bool_decide (pf_slot_id fact = id)) (rev facts).

Definition is_contributor (kind : TriageSlotKindV2) : bool :=
  match kind with Contributor _ => true | _ => false end.

(** The causes a preflight fact gives against a slot. *)
Definition fact_causes (mode : TriagePolicyMode) (input : SlotInput)
    (fact : option RolePreflightV2) : list PolicyRejectionCategoryV2 :=
  match fact with
  | None => [RoleUnavailable]
  | Some fact =>
      (if negb (bool_decide (pf_model fact = si_model input)) ||
          negb (bool_decide (pf_kind fact = si_kind input))
       then [PreflightBindingMismatch] else []) ++
      (if pf_available fact then [] else [RoleUnavailable]) ++
      (if bool_decide (pf_qualification fact = Qualified) then [] else [QualificationUnavailable]) ++
      (if qualification_binding_is_current fact mode then [] else [QualificationUnavailable]) ++
      (if pf_remote fact && negb (si_allow_remote input) then [EgressDenied] else [])
  end.

(** [dedup]: drops consecutive repetitions. *)
Fixpoint dedup `{EqDecision A} (l : list A) : list A :=
  match l with
  | x :: (y :: _) as tl => if bool_decide (x = y) then dedup tl else x :: dedup tl
  | _ => l
  end.

Definition compiled_slot (input : SlotInput) (fact : option RolePreflightV2)
    (causes : list PolicyRejectionCategoryV2) : CompiledRoleSlotV2 :=
  {| cp_slot_id := si_slot_id input; cp_kind := si_kind input; cp_model := si_model input;
     cp_requirement := si_requirement input;
     cp_disposition :=
       if bool_decide (causes = []) then SlotAdmitted
       else if bool_decide (si_requirement input = Required) then RequiredRejected
       else OptionalDegraded;
     cp_rejections := causes;
     cp_qualification_schema_id := fact ≫= pf_qualification_schema_id;
     cp_workflow_id := fact ≫= pf_workflow_id;
     cp_protocol_fingerprint := fact ≫= pf_protocol_fingerprint |}.

(** The slot loop of the compiler: slots and rejections, given the number of
    optional contributors admitted so far. *)
Fixpoint compile_slots (mode : TriagePolicyMode) (facts : TriagePolicyPreflightV2)
    (required_fit : bool) (capacity admitted : Z) (inputs : list SlotInput) :
    list CompiledRoleSlotV2 * list PolicyRejectionV2 :=
  match inputs with
  | [] => ([], [])
  | input :: inputs =>
      let fact := facts_get facts (si_slot_id input) in
      let causes := fact_causes mode input fact in
      let contributor := is_contributor (si_kind input) in
      let required := bool_decide (si_requirement input = Required) in
      let fits := admitted <? capacity in
      let budget_cause :=
        if contributor then
          if required then negb required_fit else bool_decide (causes = []) && negb fits
        else false in
      let admitted' :=
        if contributor && negb required && bool_decide (causes = []) && fits
        then admitted + 1 else admitted in
      let causes :=
        dedup (merge_sort category_le
          (causes ++ if budget_cause then [ProviderCallBudgetInsufficient] else [])) in
      let rejected :=
        if required then reject (Some (si_slot_id input)) <$> causes else [] in
      let '(slots, rejections) := compile_slots mode facts required_fit capacity admitted' inputs in
      (compiled_slot input fact causes :: slots, rejected ++ rejections)
  end.

(** ** Independence accounting *)

(** The derived [Ord] of [ModelRef]. *)
Definition model_ltb (a b : ModelRef) : bool :=
  String.ltb (profile_id a) (profile_id b) ||
  (bool_decide (profile_id a = profile_id b) && String.ltb (model_id a) (model_id b)).

(** [groups.entry(model).or_default().push(slot_id)] in an ordered map. *)
Fixpoint group_push (model : ModelRef) (slot_id : string)
    (groups : list (ModelRef * list string)) : list (ModelRef * list string) :=
  match groups with
  | [] => [(model, [slot_id])]
  | (m, ids) :: rest =>
      if bool_decide (m = model) then (m, ids ++ [slot_id]) :: rest
      else if model_ltb model m then (model, [slot_id]) :: groups
      else (m, ids) :: group_push model slot_id rest
  end.

Definition admitted_slots (slots : list CompiledRoleSlotV2) : list CompiledRoleSlotV2 :=
  List.filter (λ slot, bool_decide (cp_disposition slot = SlotAdmitted)) slots.
Definition independence (slots : list CompiledRoleSlotV2) : list (ModelRef * list string) :=
  foldl (λ groups slot, group_push (cp_model slot) (cp_slot_id slot) groups) []
    (admitted_slots slots).

Definition independence_counts (groups : list (ModelRef * list string)) :
    TriageIndependenceCountsV2 :=
  {| ic_role_slots := foldr (λ g n, zlen g.2 + n) 0 groups;
     ic_distinct_model_refs := zlen groups;
     ic_distinct_model_ids := zlen (remove_dups (model_id <$> groups.*1));
     ic_distinct_gateways := zlen (remove_dups (profile_id <$> groups.*1)) |}.

(** ** The compiler *)

Definition shape_rejections (policy : TriagePolicyV2) : list PolicyRejectionV2 :=
  (if bool_decide (po_schema_id policy = TRIAGE_POLICY_SCHEMA_V2) then []
   else [reject None SchemaMismatch]) ++
  (if negb (bool_decide (po_mode policy = ModeStandard)) &&
      bool_decide (po_contributors policy = []) && negb (is_some (po_finalizer policy)) &&
      negb (is_some (po_reviewer policy))
   then [reject None EmptyPolicy] else []) ++
  (if bool_decide (po_mode policy = ModeStandard) then
     (if negb (bool_decide (po_contributors policy = [])) || is_some (po_reviewer policy)
      then [reject None StandardModeExpanded] else []) ++
     (if is_some_and (po_finalizer policy) (λ slot, bool_decide (fs_requirement slot = Required))
      then [] else [reject None StandardFinalizerRequired])
   else []) ++
  validate_budget policy.

Definition configured_slot_count (policy : TriagePolicyV2) : Z :=
  saturating_add usize_max
    (saturating_add usize_max (zlen (po_contributors policy))
       (Z.b2z (is_some (po_finalizer policy))))
    (Z.b2z (is_some (po_reviewer policy))).

Definition required_contributors (inputs : list SlotInput) : Z :=
  zlen (List.filter (λ input, is_contributor (si_kind input) &&
                              bool_decide (si_requirement input = Required)) inputs).

Definition compile_triage_policy_v2 (policy : TriagePolicyV2) (preflight : TriagePolicyPreflightV2) :
    result TriagePolicyCompileFailureV2 CompiledTriagePolicyV2 :=
  let rejections := shape_rejections policy in
  if (MAX_TRIAGE_POLICY_SLOTS_V2 <? configured_slot_count policy) ||
     (MAX_TRIAGE_POLICY_SLOTS_V2 <? zlen preflight)
  then Err {| cf_rejections := rejections ++ [reject None PolicyLimitExceeded]; cf_slots := [] |}
  else
    let inputs := slot_inputs policy in
    let rejections :=
      rejections ++ check_slots [] inputs ++
      check_preflight (si_slot_id <$> inputs) [] preflight in
    let required := required_contributors inputs in
    let cap := cb_max_provider_calls (bu_contributors (po_budget policy)) in
    let '(slots, slot_rejections) :=
      compile_slots (po_mode policy) preflight (required <=? cap) (saturating_sub cap required) 0
        inputs in
    let rejections := rejections ++ slot_rejections in
    if negb (bool_decide (rejections = []))
    then Err {| cf_rejections := rejections; cf_slots := slots |}
    else
      let groups := independence slots in
      Ok {| ct_schema_id := COMPILED_TRIAGE_POLICY_SCHEMA_V2;
            ct_mode := po_mode policy;
            ct_slots := slots;
            ct_independence_groups :=
              (λ g, {| ig_model := g.1; ig_slot_ids := g.2 |}) <$> groups;
            ct_independence_counts := independence_counts groups;
            ct_budget := po_budget policy |}.

(** ** Lemmas: slots *)

Lemma dedup_nil `{EqDecision A} (l : list A) : dedup l = [] ↔ l = [].
Proof.
  induction l as [|x [|y l] IH]; [done|done|]. cbn [dedup]. case_bool_decide; [|done].
  rewrite IH. done.
Qed.

Lemma sort_dedup_nil l : dedup (merge_sort category_le l) = [] ↔ l = [].
Proof.
  rewrite dedup_nil. split; [|by intros ->]. intros E. pose proof (merge_sort_Permutation category_le l) as Hp.
  rewrite E in Hp. by apply Permutation_nil_l in Hp.
Qed.

Lemma facts_get_Some facts id fact :
  facts_get facts id = Some fact → fact ∈ facts ∧ pf_slot_id fact = id.
Proof.
  unfold facts_get. intros [Hin Heq]%find_some. split_bool. split; [|done].
  apply list_elem_of_In. by apply in_rev.
Qed.

(** The host facts that authorise one slot. *)
Definition authorised (policy : TriagePolicyV2) (preflight : TriagePolicyPreflightV2)
    (input : SlotInput) : Prop :=
  ∃ fact, fact ∈ preflight ∧ pf_slot_id fact = si_slot_id input ∧
    pf_model fact = si_model input ∧ pf_kind fact = si_kind input ∧ pf_available fact = true ∧
    pf_qualification fact = Qualified ∧
    qualification_binding_is_current fact (po_mode policy) = true ∧
    (pf_remote fact = true → si_allow_remote input = true).

Lemma no_causes_authorised policy preflight input :
  fact_causes (po_mode policy) input (facts_get preflight (si_slot_id input)) = [] →
  authorised policy preflight input.
Proof.
  destruct (facts_get _ _) as [fact|] eqn:Hf; [|done]. apply facts_get_Some in Hf as [Hin Hid].
  cbn [fact_causes]. rewrite !app_nil. intros (Hb & Ha & Hq & Hc & Hr). exists fact.
  destruct (negb _ || negb _) eqn:Eb; [done|]. split_bool.
  destruct (pf_available fact); [|done]. case_bool_decide; [|done].
  destruct (qualification_binding_is_current fact _); [|done].
  split_and!; try done. intros Hrem. rewrite Hrem in Hr. by destruct (si_allow_remote input).
Qed.

(** A compiled slot keeps the identity of its input. *)
Definition same_slot (slot : CompiledRoleSlotV2) (input : SlotInput) : Prop :=
  cp_slot_id slot = si_slot_id input ∧ cp_kind slot = si_kind input ∧
  cp_model slot = si_model input ∧ cp_requirement slot = si_requirement input.

(** What the loop guarantees for each slot, with the rejections it produced. *)
Definition slot_outcome (policy : TriagePolicyV2) (preflight : TriagePolicyPreflightV2)
    (slot : CompiledRoleSlotV2) (input : SlotInput) : Prop :=
  same_slot slot input ∧ cp_disposition slot ≠ RequiredRejected ∧
  (si_requirement input = Required → cp_disposition slot = SlotAdmitted) ∧
  (cp_disposition slot = SlotAdmitted → authorised policy preflight input) ∧
  (cp_disposition slot = OptionalDegraded → cp_rejections slot ≠ []).

Lemma compiled_slot_outcome policy preflight input extra causes :
  let fact := facts_get preflight (si_slot_id input) in
  causes = dedup (merge_sort category_le (fact_causes (po_mode policy) input fact ++ extra)) →
  (si_requirement input = Required → causes = []) →
  slot_outcome policy preflight (compiled_slot input fact causes) input.
Proof.
  intros fact Hc Hreq. unfold slot_outcome, compiled_slot. cbn.
  split_and!; [done|..].
  - repeat case_bool_decide; naive_solver.
  - intros Hr. by rewrite bool_decide_eq_true_2 by auto.
  - case_bool_decide as Hn; [|by case_bool_decide]. intros _. apply no_causes_authorised.
    rewrite Hc, sort_dedup_nil, app_nil in Hn. by destruct Hn.
  - by case_bool_decide.
Qed.

Lemma compile_slots_outcome policy preflight fit capacity admitted inputs slots rejections :
  compile_slots (po_mode policy) preflight fit capacity admitted inputs = (slots, rejections) →
  rejections = [] → Forall2 (slot_outcome policy preflight) slots inputs.
Proof.
  revert admitted slots rejections.
  induction inputs as [|input inputs IH]; intros admitted slots rejections Hc Hr;
    cbn [compile_slots] in Hc; [by simplify_eq|].
  destruct (compile_slots _ _ _ _ _ inputs) as [slots' rejections'] eqn:Hrest.
  injection Hc as <- <-. apply app_nil in Hr as [Hr0 Hr]. constructor; [|by eapply IH].
  eapply compiled_slot_outcome; [done|]. intros Hreq.
  rewrite bool_decide_eq_true_2 in Hr0 |- * by done. by apply fmap_nil_inv in Hr0.
Qed.

(** ** Lemmas: the contributor cap *)

Definition admitted_contributors (slots : list CompiledRoleSlotV2) : Z :=
  zlen (List.filter (λ s, is_contributor (cp_kind s) &&
                          bool_decide (cp_disposition s = SlotAdmitted)) slots).

Lemma compiled_slot_admitted input fact causes :
  cp_disposition (compiled_slot input fact causes) = SlotAdmitted ↔ causes = [].
Proof. cbn. case_bool_decide; [naive_solver|]. by case_bool_decide. Qed.

Lemma admitted_contributors_cons input fact causes slots :
  admitted_contributors (compiled_slot input fact causes :: slots) =
  Z.b2z (is_contributor (si_kind input) && bool_decide (causes = [])) + admitted_contributors slots.
Proof.
  unfold admitted_contributors. cbn [List.filter].
  rewrite (bool_decide_ext _ (causes = [])) by apply compiled_slot_admitted.
  change (cp_kind (compiled_slot input fact causes)) with (si_kind input).
  destruct (_ && _); [by rewrite zlen_cons|done].
Qed.

Lemma required_contributors_cons input inputs :
  required_contributors (input :: inputs) =
  Z.b2z (is_contributor (si_kind input) && bool_decide (si_requirement input = Required)) +
  required_contributors inputs.
Proof. unfold required_contributors. cbn [List.filter]. case_match; [by rewrite zlen_cons|done]. Qed.

Lemma compile_slots_cap mode preflight fit capacity admitted inputs :
  0 ≤ admitted ≤ capacity →
  admitted_contributors (compile_slots mode preflight fit capacity admitted inputs).1 ≤
    required_contributors inputs + (capacity - admitted).
Proof.
  revert admitted. induction inputs as [|input inputs IH]; intros admitted Hadm.
  { change (0 ≤ 0 + (capacity - admitted)). lia. }
  rewrite required_contributors_cons. cbn [compile_slots].
  set (causes := fact_causes _ _ _). set (admitted' := if _ && _ && _ && _ then _ else _).
  set (final := dedup _).
  specialize (IH admitted').
  destruct (compile_slots mode preflight fit capacity admitted' inputs) as [slots rejections].
  cbn [fst] in *. rewrite admitted_contributors_cons.
  assert (0 ≤ admitted' ≤ capacity) as Hadm'.
  { subst admitted'. case_match; [|done]. split_bool. lia. }
  specialize (IH Hadm').
  enough (Z.b2z (is_contributor (si_kind input) && bool_decide (final = [])) ≤
    Z.b2z (is_contributor (si_kind input) && bool_decide (si_requirement input = Required)) +
    (admitted' - admitted)) by lia.
  subst admitted' final. destruct (is_contributor (si_kind input)); cbn [andb]; [|cbn; lia].
  destruct (bool_decide (si_requirement input = Required)) eqn:Hreq; cbn [andb negb].
  { destruct (bool_decide (dedup _ = [])); cbn; lia. }
  destruct (bool_decide (dedup _ = [])) eqn:Hfin; [|destruct (_ && _); cbn; lia]. split_bool.
  rewrite sort_dedup_nil, app_nil in Hfin. destruct Hfin as [-> Hextra].
  rewrite bool_decide_eq_true_2 in * by done. cbn [andb] in *.
  destruct (admitted <? capacity); cbn in *; [lia|done].
Qed.

(** ** Lemmas: structure checks *)

(** A key not seen by the rest of the scan is not a key of the rest. *)
Lemma fresh_in_rest {A} (key : A → string) k seen (l : list A) :
  Forall (λ x, key x ∉ k :: seen) l → (k ∉ key <$> l) ∧ Forall (λ x, key x ∉ seen) l.
Proof.
  intros Hf. split.
  - rewrite list_elem_of_fmap. intros (x & -> & Hx). rewrite Forall_forall in Hf.
    by apply (Hf x Hx), list_elem_of_here.
  - eapply Forall_impl; [exact Hf|]. cbn. intros x Hx Hs. by apply Hx, list_elem_of_further.
Qed.

Lemma check_slots_nil seen inputs :
  check_slots seen inputs = [] →
  Forall (λ i, valid_slot_id (si_slot_id i) = true ∧ is_ok (ModelRef_validate (si_model i)) = true)
    inputs ∧
  Forall (λ i, si_slot_id i ∉ seen) inputs ∧ NoDup (si_slot_id <$> inputs).
Proof.
  revert seen. induction inputs as [|i inputs IH]; intros seen; cbn [check_slots].
  { intros _. split_and!; constructor. }
  rewrite !app_nil. intros (Hv & Hd & Hm & Hrest).
  apply IH in Hrest as (HF & Hfresh & Hnd). apply fresh_in_rest in Hfresh as [Hni Hfresh].
  destruct (valid_slot_id _) eqn:?; [|done]. destruct (is_ok _) eqn:?; [|done].
  case_bool_decide; [done|]. rewrite fmap_cons. split_and!; by constructor.
Qed.

Lemma check_preflight_nil configured seen facts :
  check_preflight configured seen facts = [] →
  Forall (λ f, pf_slot_id f ∈ configured) facts ∧ Forall (λ f, pf_slot_id f ∉ seen) facts ∧
  NoDup (pf_slot_id <$> facts).
Proof.
  revert seen. induction facts as [|f facts IH]; intros seen; cbn [check_preflight].
  { intros _. split_and!; constructor. }
  rewrite !app_nil. intros (Hu & Hd & Hrest).
  apply IH in Hrest as (HF & Hfresh & Hnd). apply fresh_in_rest in Hfresh as [Hni Hfresh].
  destruct (bool_decide (_ ∈ configured)) eqn:?; [|done].
  destruct (bool_decide (_ ∈ seen)) eqn:?; [done|]. split_bool.
  rewrite fmap_cons. split_and!; by constructor.
Qed.

Lemma compile_Ok policy preflight c :
  compile_triage_policy_v2 policy preflight = Ok c →
  let inputs := slot_inputs policy in
  let cap := cb_max_provider_calls (bu_contributors (po_budget policy)) in
  shape_rejections policy = [] ∧ check_slots [] inputs = [] ∧
  check_preflight (si_slot_id <$> inputs) [] preflight = [] ∧
  compile_slots (po_mode policy) preflight (required_contributors inputs <=? cap)
    (saturating_sub cap (required_contributors inputs)) 0 inputs = (ct_slots c, []) ∧
  ct_budget c = po_budget policy ∧
  ct_independence_groups c =
    (λ g, {| ig_model := g.1; ig_slot_ids := g.2 |}) <$> independence (ct_slots c) ∧
  ct_independence_counts c = independence_counts (independence (ct_slots c)).
Proof.
  unfold compile_triage_policy_v2. cbn zeta. destruct (_ || _); [done|].
  destruct (compile_slots _ _ _ _ _ _) as [slots slot_rejections].
  case_bool_decide as Hr; cbn [negb]; [|done]. intros [= <-]. cbn.
  rewrite !app_nil in Hr. destruct Hr as [(? & ? & ?) ->]. by split_and!.
Qed.

(** A required contributor that does not fit the cap is rejected, so an
    accepted policy has no more of them than the cap allows. *)
Lemma required_fit policy preflight capacity admitted inputs slots :
  compile_slots (po_mode policy) preflight false capacity admitted inputs = (slots, []) →
  required_contributors inputs = 0.
Proof.
  revert admitted slots. induction inputs as [|input inputs IH]; intros admitted slots Hc; [done|].
  cbn [compile_slots] in Hc.
  destruct (compile_slots _ _ _ _ _ inputs) as [slots' rejections'] eqn:Hrest.
  injection Hc as _ Hr. apply app_nil in Hr as [Hr ->].
  rewrite required_contributors_cons, (IH _ _ Hrest).
  destruct (is_contributor _) eqn:Hcon; cbn [andb]; [|done].
  destruct (bool_decide (si_requirement input = Required)) eqn:Hreq; [|done].
  apply fmap_nil_inv in Hr. rewrite sort_dedup_nil, app_nil in Hr. by destruct Hr.
Qed.

(** ** What an accepted policy guarantees *)


(** The unsigned fields of a budget. *)
Definition budget_unsigned (b : TriageBudgetV2) : Prop :=
  0 ≤ cb_max_provider_calls (bu_contributors b) ∧ 0 ≤ co_max_provider_calls (bu_corrections b) ∧
  0 ≤ cb_max_context_chars (bu_contributors b) ∧ 0 ≤ co_max_context_chars (bu_corrections b) ∧
  0 ≤ tb_max_provider_calls (bu_finalizer b) ∧ 0 ≤ tb_max_context_chars (bu_finalizer b) ∧
  0 ≤ tb_reserve_ms (bu_finalizer b) ∧ 0 ≤ tb_max_provider_calls (bu_reviewer b) ∧
  0 ≤ tb_max_context_chars (bu_reviewer b) ∧ 0 ≤ tb_reserve_ms (bu_reviewer b).

(** A sum of unsigned terms bounded below the ceiling did not saturate. *)
Lemma saturating_sum3 max a b c d k :
  0 ≤ b → 0 ≤ c → 0 ≤ d → k < max →
  saturating_add max (saturating_add max (saturating_add max a b) c) d ≤ k →
  a + b + c + d ≤ k.
Proof. unfold saturating_add. lia. Qed.

Lemma shape_budget_valid policy : shape_rejections policy = [] → budget_invalid policy = false.
Proof.
  unfold shape_rejections, validate_budget. rewrite !app_nil. intros (_ & _ & _ & Hb).
  by destruct (budget_invalid policy).
Qed.

(** A phase counts only when the policy configures it. *)
Definition on_if {A} (o : option A) (x : Z) : Z := if is_some o then x else 0.

Lemma on_if_nonneg {A} (o : option A) x : 0 ≤ x → 0 ≤ on_if o x.
Proof. unfold on_if. case_match; lia. Qed.

Lemma budget_fits policy :
  budget_invalid policy = false → budget_unsigned (po_budget policy) →
  let b := po_budget policy in
  cb_max_provider_calls (bu_contributors b) + co_max_provider_calls (bu_corrections b) +
    on_if (po_finalizer policy) (tb_max_provider_calls (bu_finalizer b)) +
    on_if (po_reviewer policy) (tb_max_provider_calls (bu_reviewer b)) ≤ bu_max_provider_calls b ∧
  bu_max_provider_calls b ≤ MAX_TRIAGE_PROVIDER_CALLS_V2 ∧
  cb_max_context_chars (bu_contributors b) + co_max_context_chars (bu_corrections b) +
    on_if (po_finalizer policy) (tb_max_context_chars (bu_finalizer b)) +
    on_if (po_reviewer policy) (tb_max_context_chars (bu_reviewer b)) ≤ bu_max_context_chars b ∧
  bu_max_context_chars b ≤ MAX_TRIAGE_CONTEXT_CHARS_V2 ∧
  ∀ deadline, whole_turn_deadline_ms b = Some deadline →
    on_if (po_finalizer policy) (tb_reserve_ms (bu_finalizer b)) +
    on_if (po_reviewer policy) (tb_reserve_ms (bu_reviewer b)) ≤ deadline ∧
    0 < deadline ≤ MAX_TRIAGE_DEADLINE_MS_V2.
Proof.
  intros Hv Hu b. unfold budget_invalid in Hv. rewrite !orb_false_iff in Hv. fold b in Hv.
  destruct Hv as [[[Hv Hchars] Hz] Hdl]. destruct Hv as [Hv Hcalls].
  repeat match type of Hv with _ ∧ _ => destruct Hv as [Hv ?] end.
  unfold budget_unsigned in Hu. fold b in Hu. destruct_and!. split_bool.
  assert (∀ {A} (o : option A) x, (if is_some o then x else 0) = on_if o x) as Hon by done.
  unfold phase_calls in Hcalls. unfold phase_chars in Hchars. fold b in Hcalls, Hchars.
  rewrite !Hon in Hcalls, Hchars.
  assert (MAX_TRIAGE_PROVIDER_CALLS_V2 < u32_max ∧ MAX_TRIAGE_CONTEXT_CHARS_V2 < u64_max ∧
          MAX_TRIAGE_DEADLINE_MS_V2 < u64_max) as (? & ? & ?) by done.
  apply saturating_sum3 in Hcalls; [|lia|by apply on_if_nonneg..|lia].
  apply saturating_sum3 in Hchars; [|lia|by apply on_if_nonneg..|lia].
  split_and!; try done. intros deadline Hd. rewrite Hd in *. cbn [is_some_and] in *. split_bool.
  unfold terminal_reserve in *. fold b in Hdl. rewrite !Hon in Hdl.
  pose proof (on_if_nonneg (po_finalizer policy) (tb_reserve_ms (bu_finalizer b))).
  pose proof (on_if_nonneg (po_reviewer policy) (tb_reserve_ms (bu_reviewer b))).
  apply saturating_add_lower in Hdl; lia.
Qed.

Lemma accepted_contributors_cap policy preflight slots :
  let inputs := slot_inputs policy in
  let cap := cb_max_provider_calls (bu_contributors (po_budget policy)) in
  compile_slots (po_mode policy) preflight (required_contributors inputs <=? cap)
    (saturating_sub cap (required_contributors inputs)) 0 inputs = (slots, []) →
  0 ≤ cap → admitted_contributors slots ≤ cap.
Proof.
  intros inputs cap Hc Hcap.
  pose proof (compile_slots_cap (po_mode policy) preflight (required_contributors inputs <=? cap)
    (saturating_sub cap (required_contributors inputs)) 0 inputs) as Hle.
  rewrite Hc in Hle. cbn [fst] in Hle.
  destruct (Z.leb_spec (required_contributors inputs) cap); unfold saturating_sub in Hle; [lia|].
  apply required_fit in Hc. lia.
Qed.

(** The calls, characters and reserves of an accepted policy fit: admitted
    contributors do not exceed the contributor cap; together with corrections,
    finalizer and reviewer they stay within the turn's provider-call and
    character ceilings, which respect the public bounds; and an explicit
    deadline covers the time reserved for the terminal phases. *)
Theorem accepted_policy_fits_budget policy preflight c :
  compile_triage_policy_v2 policy preflight = Ok c → budget_unsigned (po_budget policy) →
  let b := ct_budget c in
  admitted_contributors (ct_slots c) ≤ cb_max_provider_calls (bu_contributors b) ∧
  admitted_contributors (ct_slots c) + co_max_provider_calls (bu_corrections b) +
    on_if (po_finalizer policy) (tb_max_provider_calls (bu_finalizer b)) +
    on_if (po_reviewer policy) (tb_max_provider_calls (bu_reviewer b)) ≤ bu_max_provider_calls b ∧
  bu_max_provider_calls b ≤ MAX_TRIAGE_PROVIDER_CALLS_V2 ∧
  cb_max_context_chars (bu_contributors b) + co_max_context_chars (bu_corrections b) +
    on_if (po_finalizer policy) (tb_max_context_chars (bu_finalizer b)) +
    on_if (po_reviewer policy) (tb_max_context_chars (bu_reviewer b)) ≤ bu_max_context_chars b ∧
  bu_max_context_chars b ≤ MAX_TRIAGE_CONTEXT_CHARS_V2 ∧
  ∀ deadline, whole_turn_deadline_ms b = Some deadline →
    on_if (po_finalizer policy) (tb_reserve_ms (bu_finalizer b)) +
    on_if (po_reviewer policy) (tb_reserve_ms (bu_reviewer b)) ≤ deadline ∧
    0 < deadline ≤ MAX_TRIAGE_DEADLINE_MS_V2.
Proof.
  intros (Hshape & _ & _ & Hc & -> & _)%compile_Ok Hu. cbn zeta.
  apply shape_budget_valid in Hshape.
  destruct (budget_fits policy Hshape Hu) as (Hcalls & Hmc & Hchars & Hmx & Hdl).
  apply accepted_contributors_cap in Hc; [|by apply Hu].
  unfold on_if in *. split_and!; [done|lia|done..].
Qed.

(** ** Lemmas: independence groups *)

Definition str_lt (a b : string) : Prop := String.le a b ∧ a ≠ b.

Lemma ltb_str_lt a b : String.ltb a b = true ↔ str_lt a b.
Proof.
  unfold str_lt, String.le, String.leb, String.ltb.
  destruct (String.compare a b) eqn:E; split; intros Hx; try done.
  - destruct Hx as [_ Hne]. by apply String.compare_eq_iff in E.
  - split; [done|]. intros ->. pose proof (String.compare_antisym b b) as Ha. by rewrite E in Ha.
  - by destruct Hx.
Qed.

Lemma str_lt_trans a b c : str_lt a b → str_lt b c → str_lt a c.
Proof.
  intros [H1 N1] [H2 N2]. split; [by etrans|]. intros ->. apply N1. by apply (anti_symm String.le).
Qed.

Lemma str_lt_total a b : str_lt a b ∨ a = b ∨ str_lt b a.
Proof.
  destruct (decide (a = b)) as [->|Hne]; [auto|]. unfold str_lt.
  destruct (total String.le a b); auto.
Qed.

(** The order of the keys of an ordered map of models. *)
Definition model_lt (a b : ModelRef) : Prop := model_ltb a b = true.

Lemma model_lt_spec a b :
  model_lt a b ↔
    str_lt (profile_id a) (profile_id b) ∨
    (profile_id a = profile_id b ∧ str_lt (model_id a) (model_id b)).
Proof.
  unfold model_lt, model_ltb. rewrite orb_true_iff, andb_true_iff, bool_decide_eq_true, !ltb_str_lt.
  done.
Qed.

Lemma model_lt_irrefl a : ~ model_lt a a.
Proof. rewrite model_lt_spec. unfold str_lt. naive_solver. Qed.

#[local] Instance model_lt_trans : Transitive model_lt.
Proof.
  intros a b c. rewrite !model_lt_spec. intros [H1|[E1 H1]] [H2|[E2 H2]].
  - left. by eapply str_lt_trans.
  - left. by rewrite <-E2.
  - left. by rewrite E1.
  - right. split; [congruence|]. by eapply str_lt_trans.
Qed.

Lemma model_lt_total a b : a ≠ b → model_ltb a b = false → model_lt b a.
Proof.
  intros Hne Hnlt. apply not_true_iff_false in Hnlt. fold (model_lt a b) in Hnlt.
  rewrite model_lt_spec in Hnlt |- *.
  destruct (str_lt_total (profile_id a) (profile_id b)) as [?|[Ep|?]]; [tauto| |tauto].
  destruct (str_lt_total (model_id a) (model_id b)) as [?|[Em|?]]; [tauto| |by auto].
  destruct a, b. cbn in *. congruence.
Qed.

(** What the map records about the slots pushed into it. *)
Definition groups_of (slots : list CompiledRoleSlotV2) (groups : list (ModelRef * list string)) : Prop :=
  StronglySorted model_lt groups.*1 ∧
  mjoin groups.*2 ≡ₚ cp_slot_id <$> slots ∧
  Forall (λ g, g.2 ≠ [] ∧ ∀ id, id ∈ g.2 →
            ∃ slot, slot ∈ slots ∧ cp_slot_id slot = id ∧ cp_model slot = g.1) groups.

Lemma group_push_keys model id groups m :
  m ∈ (group_push model id groups).*1 → m = model ∨ m ∈ groups.*1.
Proof.
  induction groups as [|[k ids] groups IH]; cbn; [set_solver|]. repeat case_match; set_solver.
Qed.

Lemma group_push_sorted model id groups :
  StronglySorted model_lt groups.*1 → StronglySorted model_lt (group_push model id groups).*1.
Proof.
  induction groups as [|[k ids] groups IH]; cbn; intros Hs; [repeat constructor|].
  inversion Hs as [|? ? Hs' Hk]; subst. case_bool_decide as Hkm; [by constructor|].
  destruct (model_ltb model k) eqn:Hlt; cbn.
  - constructor; [done|]. constructor; [done|].
    eapply Forall_impl; [exact Hk|]. intros m Hm. by trans k.
  - constructor; [by apply IH|]. apply Forall_forall. intros m [->|Hm]%group_push_keys.
    + apply model_lt_total; [congruence|done].
    + rewrite Forall_forall in Hk. by apply Hk.
Qed.

Lemma group_push_ids model id groups :
  mjoin (group_push model id groups).*2 ≡ₚ mjoin groups.*2 ++ [id].
Proof.
  induction groups as [|[k ids] groups IH]; cbn; [done|]. repeat case_match; cbn.
  - rewrite <-!(assoc_L (++)). f_equiv. apply (comm (++)).
  - rewrite app_comm_cons. apply (Permutation_cons_append (ids ++ mjoin groups.*2)).
  - rewrite IH. by rewrite (assoc_L (++)).
Qed.

Lemma group_push_slots slots slot groups :
  Forall (λ g, g.2 ≠ [] ∧ ∀ id, id ∈ g.2 →
            ∃ s, s ∈ slots ∧ cp_slot_id s = id ∧ cp_model s = g.1) groups →
  Forall (λ g, g.2 ≠ [] ∧ ∀ id, id ∈ g.2 →
            ∃ s, s ∈ slots ++ [slot] ∧ cp_slot_id s = id ∧ cp_model s = g.1)
    (group_push (cp_model slot) (cp_slot_id slot) groups).
Proof.
  assert (∀ g : ModelRef * list string,
    (g.2 ≠ [] ∧ ∀ id, id ∈ g.2 → ∃ s, s ∈ slots ∧ cp_slot_id s = id ∧ cp_model s = g.1) →
    (g.2 ≠ [] ∧ ∀ id, id ∈ g.2 → ∃ s, s ∈ slots ++ [slot] ∧ cp_slot_id s = id ∧ cp_model s = g.1))
    as Hw.
  { intros g [Hne Hg]. split; [done|]. intros id Hid. destruct (Hg id Hid) as (s & ? & ?).
    exists s. set_solver. }
  induction groups as [|[k ids] groups IH]; cbn; intros HF.
  { repeat constructor; [done|]. intros id ->%list_elem_of_singleton. exists slot. set_solver. }
  apply Forall_cons in HF as [Hk HF].
  assert (Forall (λ g, g.2 ≠ [] ∧ ∀ id, id ∈ g.2 →
            ∃ s, s ∈ slots ++ [slot] ∧ cp_slot_id s = id ∧ cp_model s = g.1) groups) as HF'.
  { eapply Forall_impl; [exact HF|exact Hw]. }
  case_bool_decide as Hkm; [|destruct (model_ltb _ _)].
  - constructor; [|done]. cbn in *. split; [by destruct ids|].
    intros id [Hid| ->%list_elem_of_singleton]%elem_of_app.
    + destruct Hk as [_ Hk]. destruct (Hk id Hid) as (s & ? & ?). exists s. set_solver.
    + exists slot. set_solver.
  - constructor; [|constructor; [by apply Hw|done]]. cbn. split; [done|].
    intros id ->%list_elem_of_singleton. exists slot. set_solver.
  - constructor; [by apply Hw|]. by apply IH.
Qed.

Lemma independence_groups_of slots : groups_of (admitted_slots slots) (independence slots).
Proof.
  unfold independence. set (l := admitted_slots slots). clearbody l.
  induction l as [|slot l IH] using rev_ind.
  { split_and!; [constructor|done|constructor]. }
  rewrite foldl_app. cbn [foldl]. destruct IH as (Hs & Hi & HF). split_and!.
  - by apply group_push_sorted.
  - rewrite group_push_ids, Hi, fmap_app. done.
  - by apply group_push_slots.
Qed.

Lemma remove_dups_length `{EqDecision A} (l : list A) : zlen (remove_dups l) ≤ zlen l.
Proof.
  unfold zlen. apply Nat2Z.inj_le, submseteq_length, NoDup_submseteq; [apply NoDup_remove_dups|].
  intros x. by rewrite elem_of_remove_dups.
Qed.

Lemma sum_lengths {A B} (groups : list (A * list B)) :
  foldr (λ g n, zlen g.2 + n) 0 groups = zlen (mjoin groups.*2).
Proof. induction groups as [|g groups IH]; cbn; [done|]. by rewrite zlen_app, IH. Qed.

Lemma groups_le_slots {A B} (groups : list (A * list B)) :
  Forall (λ g, g.2 ≠ []) groups → zlen groups ≤ zlen (mjoin groups.*2).
Proof.
  induction 1 as [|[a ids] groups Hne _ IH]; [done|].
  change (mjoin ((a, ids) :: groups).*2) with (ids ++ mjoin groups.*2).
  rewrite zlen_cons, zlen_app. destruct ids as [|i ids]; [done|]. rewrite zlen_cons. pose proof (zlen_nonneg ids). lia.
Qed.

(** The independence accounting counts honestly: each exact model forms one
    group that holds exactly the admitted slots it fills, the groups together
    hold every admitted slot once, and the counts are ordered: gateways and
    catalog models never exceed exact models, which never exceed the admitted
    slots. *)
Theorem independence_is_honest policy preflight c :
  compile_triage_policy_v2 policy preflight = Ok c →
  let n := ct_independence_counts c in
  ic_distinct_gateways n ≤ ic_distinct_model_refs n ∧
  ic_distinct_model_ids n ≤ ic_distinct_model_refs n ∧
  ic_distinct_model_refs n ≤ ic_role_slots n ∧
  ic_role_slots n = zlen (admitted_slots (ct_slots c)) ∧
  NoDup (ig_model <$> ct_independence_groups c) ∧
  mjoin (ig_slot_ids <$> ct_independence_groups c) ≡ₚ
    cp_slot_id <$> admitted_slots (ct_slots c) ∧
  (∀ g id, g ∈ ct_independence_groups c → id ∈ ig_slot_ids g →
     ∃ slot, slot ∈ admitted_slots (ct_slots c) ∧ cp_slot_id slot = id ∧ cp_model slot = ig_model g).
Proof.
  intros (_ & _ & _ & _ & _ & Hg & Hn)%compile_Ok. cbn zeta. rewrite Hg, Hn.
  destruct (independence_groups_of (ct_slots c)) as (Hs & Hi & HF).
  set (groups := independence (ct_slots c)) in *.
  cbn [independence_counts ic_distinct_gateways ic_distinct_model_refs ic_distinct_model_ids
       ic_role_slots].
  assert (∀ B (f : ModelRef → B), zlen (f <$> groups.*1) = zlen groups) as Hlen.
  { intros. unfold zlen. by rewrite !length_fmap. }
  assert (zlen (mjoin groups.*2) = zlen (admitted_slots (ct_slots c))) as Hsum.
  { unfold zlen. rewrite Hi. by rewrite length_fmap. }
  split_and!.
  - etrans; [apply remove_dups_length|]. by rewrite Hlen.
  - etrans; [apply remove_dups_length|]. by rewrite Hlen.
  - rewrite sum_lengths. apply groups_le_slots. eapply Forall_impl; [exact HF|]. naive_solver.
  - by rewrite sum_lengths.
  - rewrite <-list_fmap_compose. change (NoDup groups.*1). clear -Hs. induction Hs as [|m ms Hms IH Hm]; constructor; [|done].
    intros Hin. rewrite Forall_forall in Hm. by apply (model_lt_irrefl m), Hm.
  - rewrite <-list_fmap_compose. exact Hi.
  - intros g id (x & -> & Hx)%list_elem_of_fmap Hid. rewrite Forall_forall in HF.
    by apply (HF x Hx).
Qed.

(** ** The Standard policy compiles *)

(** The simple default works: around any well-formed model, with the one
    host fact that authorises it, the Standard policy compiles to exactly one
    admitted finalizer slot for that model. *)
Theorem standard_policy_compiles model allow_remote fact :
  ModelRef_validate model = Ok tt → pf_slot_id fact = "standard-finalizer" →
  pf_model fact = model → pf_kind fact = Finalizer → pf_available fact = true →
  pf_qualification fact = Qualified → qualification_binding_is_current fact ModeStandard = true →
  (pf_remote fact = true → allow_remote = true) →
  ∃ c slot, compile_triage_policy_v2 (TriagePolicyV2_standard model allow_remote) [fact] = Ok c ∧
    ct_slots c = [slot] ∧ cp_disposition slot = SlotAdmitted ∧ cp_model slot = model ∧
    cp_kind slot = Finalizer ∧ ic_role_slots (ct_independence_counts c) = 1.
Proof.
  intros Hm Hid Hfm Hk Ha Hq Hc Hr. unfold compile_triage_policy_v2.
  set (policy := TriagePolicyV2_standard model allow_remote).
  assert (shape_rejections policy = []) as -> by (vm_compute; reflexivity).
  assert (slot_inputs policy = [{| si_slot_id := "standard-finalizer"; si_kind := Finalizer;
    si_model := model; si_requirement := Required; si_allow_remote := allow_remote |}]) as -> by done.
  assert ((MAX_TRIAGE_POLICY_SLOTS_V2 <? configured_slot_count policy) ||
          (MAX_TRIAGE_POLICY_SLOTS_V2 <? zlen [fact]) = false) as -> by (vm_compute; reflexivity).
  cbn zeta. cbn [check_slots check_preflight compile_slots si_slot_id si_model fmap list_fmap].
  rewrite Hm, Hid. change (valid_slot_id "standard-finalizer") with true.
  assert (facts_get [fact] "standard-finalizer" = Some fact) as ->.
  { unfold facts_get. cbn. by rewrite bool_decide_eq_true_2. }
  assert (fact_causes (po_mode policy) {| si_slot_id := "standard-finalizer"; si_kind := Finalizer;
    si_model := model; si_requirement := Required; si_allow_remote := allow_remote |}
    (Some fact) = []) as ->.
  { cbn [fact_causes si_model si_kind si_allow_remote]. change (po_mode policy) with ModeStandard.
    rewrite Hfm, Hk, Ha, Hq, Hc, !bool_decide_eq_true_2 by done.
    destruct (pf_remote fact); [by rewrite Hr|done]. }
  eexists _, _. split; [reflexivity|]. by split_and!.
Qed.

(** ** Migration of legacy settings *)

Inductive MultiModelMode := Single | Review | Contributions.
#[global] Instance MultiModelMode_eq_dec : EqDecision MultiModelMode.
Proof. solve_decision. Defined.
Inductive ContributionRole :=
| CrObservationExtractor | CrTimelineAnalyst | CrCausalProposer | CrContradictionChecker
| CrEvidenceGap | CrReviewer.

Record MultiModelBudget := {
  max_total_provider_rounds : Z;
  max_semantic_corrections_per_stage : Z;
  context_char_budget : Z;
  mm_deadline_ms : Z;
  max_context_chars_total : option Z;
}.
Definition MultiModelBudget_default : MultiModelBudget :=
  {| max_total_provider_rounds := 12; max_semantic_corrections_per_stage := 1;
     context_char_budget := 120000; mm_deadline_ms := 0; max_context_chars_total := None |}.
Record ContributionRoutingPolicy := {
  max_contributors : Z;
  max_parallel : Z;
  crp_max_rounds : Z;
  crp_max_context_chars : Z;
  reviewer_enabled : bool;
}.
Definition ContributionRoutingPolicy_default : ContributionRoutingPolicy :=
  {| max_contributors := 4; max_parallel := 3; crp_max_rounds := 2;
     crp_max_context_chars := 120000; reviewer_enabled := true |}.

Record LegacyResolvedContributorV1 := {
  lc_role : ContributionRole;
  lc_model : ModelRef;
  lc_require_qualified : bool;
  lc_allow_remote : bool;
}.
Record LegacyResolvedTriagePolicyV1 := {
  lp_mode : MultiModelMode;
  lp_primary : ModelRef;
  lp_primary_allow_remote : bool;
  lp_reviewer : option ModelRef;
  lp_contributors : list LegacyResolvedContributorV1;
  lp_budget : MultiModelBudget;
  lp_contribution_policy : ContributionRoutingPolicy;
}.

(** [None] is the legacy reviewer, handled before the [match]. *)
Definition contributor_role (r : ContributionRole) : option TriageContributorRole :=
  match r with
  | CrObservationExtractor => Some ObservationExtractor
  | CrTimelineAnalyst => Some TimelineAnalyst
  | CrCausalProposer => Some CausalProposer
  | CrContradictionChecker => Some ContradictionChecker
  | CrEvidenceGap => Some EvidenceGapFinder
  | CrReviewer => None
  end.

(** The loop over the legacy contributors. *)
Fixpoint migrate_contributors (index : Z) (reviewer : option ReviewerSlotV2)
    (legacy : list LegacyResolvedContributorV1) :
    list ContributorSlotV2 * option ReviewerSlotV2 :=
  match legacy with
  | [] => ([], reviewer)
  | l :: legacy =>
      match contributor_role (lc_role l) with
      | None =>
          let reviewer :=
            match reviewer with
            | Some r => Some r
            | None => Some {| rs_slot_id := "legacy-reviewer-" +:+ decimal index;
                              rs_model := lc_model l; rs_condition := ContestedOrIncomplete;
                              rs_requirement := Optional; rs_allow_remote := lc_allow_remote l |}
            end in
          migrate_contributors (index + 1) reviewer legacy
      | Some role =>
          let '(slots, reviewer) := migrate_contributors (index + 1) reviewer legacy in
          ({| cs_slot_id := "legacy-contributor-" +:+ decimal index; cs_role := role;
              cs_model := lc_model l; cs_requirement := Optional;
              cs_allow_remote := lc_allow_remote l |} :: slots, reviewer)
      end
  end.

(** The migrated budget; [n] contributors and whether there is a reviewer.
    [u32::try_from(x).unwrap_or(u32::MAX)] is [Z.min x u32_max]. *)
Definition migrate_budget (n : Z) (has_reviewer : bool) (b : MultiModelBudget)
    (p : ContributionRoutingPolicy) : TriageBudgetV2 :=
  let stock := TriageBudgetV2_default in
  let deadline := if 0 <? mm_deadline_ms b then Some (mm_deadline_ms b) else None in
  let max_calls := max_total_provider_rounds b in
  let max_chars := match max_context_chars_total b with
                   | Some total => total
                   | None => bu_max_context_chars stock
                   end in
  let contributor_calls := Z.min (Z.min (max_contributors p) u32_max) max_calls in
  let correction_calls :=
    Z.min (saturating_mul u32_max (max_semantic_corrections_per_stage b) (Z.min (n + 2) u32_max))
      (saturating_sub max_calls contributor_calls) in
  let terminal_chars := Z.min (context_char_budget b) max_chars in
  let reserve := match deadline with
                 | Some d => d / (if has_reviewer then 3 else 2)
                 | None => tb_reserve_ms (bu_finalizer stock)
                 end in
  let capped t := match deadline with Some d => Z.min t d | None => t end in
  let terminal := {| tb_max_provider_calls := 1; tb_reserve_ms := reserve;
                     tb_operation_timeout_ms := capped 120000;
                     tb_max_context_chars := terminal_chars |} in
  {| whole_turn_deadline_ms := deadline;
     bu_max_provider_calls := max_calls;
     bu_max_context_chars := max_chars;
     bu_contributors := {| cb_max_provider_calls := contributor_calls;
                           cb_operation_timeout_ms := Z.max (mm_deadline_ms b) 1;
                           cb_max_context_chars := Z.min (crp_max_context_chars p) max_chars |};
     bu_corrections := {| co_max_per_stage := max_semantic_corrections_per_stage b;
                          co_max_provider_calls := correction_calls;
                          co_operation_timeout_ms := capped 120000;
                          co_max_context_chars := co_max_context_chars (bu_corrections stock) |};
     bu_finalizer := terminal;
     bu_reviewer := terminal;
     phase_cap_authority := ExplicitCaps |}.

Definition migrate_resolved_legacy_policy_v1 (input : LegacyResolvedTriagePolicyV1) :
    TriagePolicyV2 :=
  let reviewer :=
    (λ model, {| rs_slot_id := "legacy-reviewer"; rs_model := model;
                 rs_condition := ContestedOrIncomplete; rs_requirement := Optional;
                 rs_allow_remote := false |}) <$> lp_reviewer input in
  let '(contributors, reviewer) := migrate_contributors 0 reviewer (lp_contributors input) in
  if bool_decide (lp_mode input = Single) then
    TriagePolicyV2_standard (lp_primary input) (lp_primary_allow_remote input)
  else
    {| po_schema_id := TRIAGE_POLICY_SCHEMA_V2;
       po_mode := ModeEnhanced;
       po_contributors := contributors;
       po_finalizer := Some {| fs_slot_id := "legacy-finalizer"; fs_model := lp_primary input;
                               fs_requirement := Required; fs_allow_remote := false |};
       po_reviewer := reviewer;
       po_budget := migrate_budget (zlen contributors) (is_some reviewer) (lp_budget input)
                      (lp_contribution_policy input) |}.

(** ** What migration keeps *)

(** Some contributor of [legacy] may take [model] remote. *)
Definition remote_contributor (legacy : list LegacyResolvedContributorV1) (model : ModelRef) : Prop :=
  ∃ l, l ∈ legacy ∧ lc_allow_remote l = true ∧ lc_model l = model.

(** Where a legacy setting authorises remote egress for a model. *)
Definition legacy_remote (input : LegacyResolvedTriagePolicyV1) (model : ModelRef) : Prop :=
  (lp_mode input = Single ∧ lp_primary_allow_remote input = true ∧ lp_primary input = model) ∨
  remote_contributor (lp_contributors input) model.

Lemma remote_contributor_cons l legacy model :
  remote_contributor (l :: legacy) model ↔
    (lc_allow_remote l = true ∧ lc_model l = model) ∨ remote_contributor legacy model.
Proof. unfold remote_contributor. setoid_rewrite elem_of_cons. naive_solver. Qed.

Lemma migrate_contributors_remote index reviewer legacy slots reviewer' :
  migrate_contributors index reviewer legacy = (slots, reviewer') →
  Forall (λ s, cs_allow_remote s = true → remote_contributor legacy (cs_model s)) slots ∧
  (∀ r, reviewer' = Some r → rs_allow_remote r = true →
     reviewer = Some r ∨ remote_contributor legacy (rs_model r)).
Proof.
  revert index reviewer slots reviewer'.
  induction legacy as [|l legacy IH]; intros index reviewer slots reviewer' Hm; cbn in Hm.
  { simplify_eq. split; [constructor|auto]. }
  setoid_rewrite remote_contributor_cons.
  destruct (contributor_role (lc_role l)) as [role|].
  - destruct (migrate_contributors _ _ legacy) as [rest rr] eqn:Hrest.
    apply pair_equal_spec in Hm as [<- <-].
    apply IH in Hrest as [HF Hr]. split.
    + constructor; cbn; [auto|]. eapply Forall_impl; [exact HF|]. cbn. auto.
    + intros r Er Ha. destruct (Hr r Er Ha); auto.
  - apply IH in Hm as [HF Hr]. split.
    + eapply Forall_impl; [exact HF|]. cbn. auto.
    + intros r Er Ha. destruct (Hr r Er Ha) as [Hrev|?]; [|by auto].
      destruct reviewer as [r0|]; [by left|]. apply (inj Some) in Hrev as <-. cbn in *. auto.
Qed.

(** Migration never widens egress: a slot of the migrated policy may go
    remote only if the legacy settings authorised remote egress for that very
    model. *)
Theorem migration_keeps_egress input slot :
  slot ∈ slot_inputs (migrate_resolved_legacy_policy_v1 input) → si_allow_remote slot = true →
  legacy_remote input (si_model slot).
Proof.
  unfold migrate_resolved_legacy_policy_v1, legacy_remote.
  destruct (migrate_contributors _ _ _) as [cs rv] eqn:Hm.
  apply migrate_contributors_remote in Hm as [HF Hr].
  case_bool_decide as Hmode.
  - cbn. intros ->%list_elem_of_singleton. cbn. auto.
  - unfold slot_inputs. cbn. rewrite elem_of_app, elem_of_cons, list_elem_of_fmap.
    intros [(s & -> & Hs)|[->|Hs]] Ha; cbn in *; [|done|].
    + right. rewrite Forall_forall in HF. by apply HF.
    + destruct rv as [r|]; [|by apply elem_of_nil in Hs]. apply list_elem_of_singleton in Hs as ->. cbn in *.
      destruct (Hr r eq_refl Ha) as [E|?]; [|auto].
      destruct (lp_reviewer input); simplify_eq/=.
Qed.

(** Migration can produce a policy that no host facts can compile. When the
    correction allowance of the legacy settings fills what the contributor cap
    leaves, contributors and corrections already take every provider call of
    the turn, the required finalizer has none, and the compiler refuses the
    migrated policy with an invalid budget whatever the preflight says. *)
Theorem migration_can_leave_no_call_for_finalizer input preflight :
  lp_mode input ≠ Single →
  let p := migrate_resolved_legacy_policy_v1 input in
  let b := lp_budget input in
  0 ≤ max_contributors (lp_contribution_policy input) →
  0 ≤ max_total_provider_rounds b < u32_max →
  saturating_sub (max_total_provider_rounds b) (max_contributors (lp_contribution_policy input)) ≤
    saturating_mul u32_max (max_semantic_corrections_per_stage b)
      (Z.min (zlen (po_contributors p) + 2) u32_max) →
  ∃ f, compile_triage_policy_v2 p preflight = Err f ∧ reject None InvalidBudget ∈ cf_rejections f.
Proof.
  intros Hmode p b Hmc Hmax Hfull. assert (budget_invalid p = true) as Hinv.
  { apply not_false_iff_true. intros Hv. unfold budget_invalid in Hv.
    rewrite !orb_false_iff in Hv. destruct Hv as [[[[_ Hcalls] _] _] _]. apply Z.ltb_ge in Hcalls.
    revert Hfull Hcalls. subst p b. unfold phase_calls, migrate_resolved_legacy_policy_v1.
    destruct (migrate_contributors _ _ _) as [cs rv]. rewrite bool_decide_eq_false_2 by done.
    cbn [po_budget po_finalizer po_reviewer po_contributors migrate_budget bu_contributors
         bu_corrections bu_finalizer bu_reviewer cb_max_provider_calls co_max_provider_calls
         tb_max_provider_calls bu_max_provider_calls is_some].
    unfold saturating_add, saturating_sub. generalize (saturating_mul u32_max
      (max_semantic_corrections_per_stage (lp_budget input)) (Z.min (zlen cs + 2) u32_max)).
    intros k Hk. destruct rv; cbn [is_some]; lia. }
  assert (reject None InvalidBudget ∈ shape_rejections p) as Hin.
  { unfold shape_rejections, validate_budget. rewrite Hinv, !elem_of_app.
    do 3 right. apply list_elem_of_here. }
  unfold compile_triage_policy_v2. destruct (_ || _).
  { eexists. split; [reflexivity|]. cbn [cf_rejections]. apply elem_of_app. by left. }
  destruct (compile_slots _ _ _ _ _ _) as [slots rj].
  case_bool_decide as Hnil; cbn [negb].
  { rewrite !app_nil in Hnil. destruct Hnil as [[E _] _]. rewrite E in Hin. by apply elem_of_nil in Hin. }
  eexists. split; [reflexivity|]. cbn [cf_rejections]. rewrite !elem_of_app. by left; left.
Qed.

(** ** A concrete policy *)

Definition demo_fact (slot_id : string) (kind : TriageSlotKindV2) : RolePreflightV2 :=
  {| pf_slot_id := slot_id; pf_model := Demo.model; pf_kind := kind; pf_available := true;
     pf_qualification := Qualified; pf_remote := false;
     pf_qualification_schema_id := Some TRIAGE_QUALIFICATION_SCHEMA_V2;
     pf_workflow_id := Some TRIAGE_QUALIFICATION_WORKFLOW_V2;
     pf_protocol_fingerprint := Some "sha256:ab" |}.

Definition demo_slot (slot_id : string) (kind : TriageSlotKindV2) : CompiledRoleSlotV2 :=
  {| cp_slot_id := slot_id; cp_kind := kind; cp_model := Demo.model; cp_requirement := Required;
     cp_disposition := SlotAdmitted; cp_rejections := [];
     cp_qualification_schema_id := Some TRIAGE_QUALIFICATION_SCHEMA_V2;
     cp_workflow_id := Some TRIAGE_QUALIFICATION_WORKFLOW_V2;
     cp_protocol_fingerprint := Some "sha256:ab" |}.

Definition demo_policy : TriagePolicyV2 :=
  {| po_schema_id := TRIAGE_POLICY_SCHEMA_V2; po_mode := ModeEnhanced;
     po_contributors := [{| cs_slot_id := "c-1"; cs_role := TimelineAnalyst; cs_model := Demo.model;
                            cs_requirement := Required; cs_allow_remote := false |}];
     po_finalizer := Some {| fs_slot_id := "f"; fs_model := Demo.model; fs_requirement := Required;
                             fs_allow_remote := false |};
     po_reviewer := None; po_budget := TriageBudgetV2_default |}.
Definition demo_preflight : TriagePolicyPreflightV2 :=
  [demo_fact "c-1" (Contributor TimelineAnalyst); demo_fact "f" Finalizer].
Definition demo_compiled : CompiledTriagePolicyV2 :=
  {| ct_schema_id := COMPILED_TRIAGE_POLICY_SCHEMA_V2; ct_mode := ModeEnhanced;
     ct_slots := [demo_slot "c-1" (Contributor TimelineAnalyst); demo_slot "f" Finalizer];
     ct_independence_groups := [{| ig_model := Demo.model; ig_slot_ids := ["c-1"; "f"] |}];
     ct_independence_counts := {| ic_role_slots := 2; ic_distinct_model_refs := 1;
                                  ic_distinct_model_ids := 1; ic_distinct_gateways := 1 |};
     ct_budget := TriageBudgetV2_default |}.


Lemma accepted_policy_fits_budget_witness :
  admitted_contributors (ct_slots demo_compiled) ≤ 4.
Proof.
  refine (proj1 (accepted_policy_fits_budget demo_policy demo_preflight demo_compiled _ _)).
  - vm_compute. reflexivity.
  - unfold budget_unsigned. cbn. lia.
Defined.

Lemma independence_is_honest_witness :
  ic_distinct_gateways (ct_independence_counts demo_compiled) ≤
  ic_distinct_model_refs (ct_independence_counts demo_compiled).
Proof.
  refine (proj1 (independence_is_honest demo_policy demo_preflight demo_compiled _)).
  vm_compute. reflexivity.
Defined.

Lemma standard_policy_compiles_witness :
  ∃ c slot, compile_triage_policy_v2 (TriagePolicyV2_standard Demo.model false)
    [demo_fact "standard-finalizer" Finalizer] = Ok c ∧ ct_slots c = [slot] ∧
    cp_disposition slot = SlotAdmitted ∧ cp_model slot = Demo.model ∧ cp_kind slot = Finalizer ∧
    ic_role_slots (ct_independence_counts c) = 1.
Proof.
  apply (standard_policy_compiles Demo.model false (demo_fact "standard-finalizer" Finalizer));
    vm_compute; congruence.
Defined.

Definition demo_legacy_contributor : LegacyResolvedContributorV1 :=
  {| lc_role := CrTimelineAnalyst; lc_model := Demo.model; lc_require_qualified := true;
     lc_allow_remote := true |}.

(** Six contributors under the stock legacy budget. *)
Definition demo_legacy : LegacyResolvedTriagePolicyV1 :=
  {| lp_mode := Contributions; lp_primary := Demo.model; lp_primary_allow_remote := false;
     lp_reviewer := None; lp_contributors := replicate 6 demo_legacy_contributor;
     lp_budget := MultiModelBudget_default;
     lp_contribution_policy := ContributionRoutingPolicy_default |}.

Lemma migration_keeps_egress_witness :
  legacy_remote demo_legacy Demo.model.
Proof.
  apply (migration_keeps_egress demo_legacy
    {| si_slot_id := "legacy-contributor-0"; si_kind := Contributor TimelineAnalyst;
       si_model := Demo.model; si_requirement := Optional; si_allow_remote := true |}).
  - vm_compute. apply list_elem_of_here.
  - reflexivity.
Defined.

Lemma migration_can_leave_no_call_for_finalizer_witness :
  ∃ f, compile_triage_policy_v2 (migrate_resolved_legacy_policy_v1 demo_legacy) [] = Err f ∧
    reject None InvalidBudget ∈ cf_rejections f.
Proof.
  apply (migration_can_leave_no_call_for_finalizer demo_legacy []); vm_compute;
    solve [congruence | split; congruence].
Defined.
