(* ===== verification/Answer.v ===== *)
(** * Host-validated investigation answers

    [crates/cd-core/src/investigation_answer.rs]: the immutable evidence ledger
    with its digest, and [validate_model_answer], which turns a model's proposal
    into an answer envelope in which all authority is the host's. The derived
    JSON deserialiser is the parameter [from_str]. *)
From Stdlib Require Import ZArith Lia Ascii String.
From stdpp Require Import base tactics option list list_numbers sets sorting strings.
From S2P Require Import Prelude RustStr BTree Crypto TriageSdk.

Local Open Scope string_scope.
Local Open Scope list_scope.
Local Open Scope Z_scope.

#[global] Instance LogSnapshotRevisionV1_eq_dec : EqDecision LogSnapshotRevisionV1.
Proof. solve_decision. Defined.
#[global] Instance ClaimKind_eq_dec : EqDecision ClaimKind.
Proof. solve_decision. Defined.
#[global] Instance EvidenceRole_eq_dec : EqDecision EvidenceRole.
Proof. solve_decision. Defined.
#[global] Instance ClaimStatus_eq_dec : EqDecision ClaimStatus.
Proof. solve_decision. Defined.
#[global] Instance HostEvidenceEntry_eq_dec : EqDecision HostEvidenceEntry.
Proof. solve_decision. Defined.

(** ** Model proposals *)

Definition SCHEMA_V1 : string := "contextdesk.investigation_answer.v1".

Record ModelClaimV1 := {
  mc_claim_id : string;
  mc_text : string;
  mc_evidence_ids : list string;
}.
Record ModelCandidateV1 := {
  md_candidate_id : string;
  md_observations : list ModelClaimV1;
  md_symptoms : list ModelClaimV1;
  md_causal_candidates : list ModelClaimV1;
  md_initiating_causes : list ModelClaimV1;
  md_competing_explanations : list ModelClaimV1;
  md_missing_evidence : list ModelClaimV1;
}.
Record ModelInvestigationAnswerV1 := {
  ma_schema : string;
  ma_candidates : list ModelCandidateV1;
}.

Inductive ValidationError :=
| VParse | VSchema | VDuplicateId | VUnknownEvidence | VWrongScope | VWrongRevision
| VEmptyEvidence | VRootRole | VRoleMismatch | VRoleCoverage | VEmptyLedger
| VInvalidBinding | VDigestMismatch.

(** ** The ledger *)

Record HostEvidenceLedger := {
  led_binding : AnswerBindingV1;
  led_entries : list (string * HostEvidenceEntry);
}.
Definition ledger_rows (ledger : HostEvidenceLedger) : list HostEvidenceEntry :=
  (led_entries ledger).*2.
Definition ledger_get (ledger : HostEvidenceLedger) (id : string) : option HostEvidenceEntry :=
  bmap_get id (led_entries ledger).
Definition ledger_candidate_ids (ledger : HostEvidenceLedger) : list string :=
  set_collect (ev_candidate_id <$> ledger_rows ledger).

Definition role_tag (r : EvidenceRole) : ascii :=
  match r with
  | Cause => "001" | Supporting => "002" | Symptom => "003" | Neutral => "004"
  end%char.

(** What one row contributes to the hash. *)
Definition row_bytes (e : HostEvidenceEntry) : list ascii :=
  [role_tag (ev_role e)] ++ nul_field (ev_evidence_id e) ++ nul_field (ev_candidate_id e) ++
  nul_field (ev_source_label e) ++ nul_field (ev_locator e) ++ nul_field (ev_corpus_id e) ++
  nul_field (ev_content e) ++
  to_le_bytes 8 (event_revision (ev_revision e)) ++
  to_le_bytes 8 (template_analysis_revision (ev_revision e)) ++
  to_le_bytes 8 (suppression_revision (ev_revision e)).

Definition id_leb (a b : HostEvidenceEntry) : bool :=
  bool_decide (key_le (ev_evidence_id a) (ev_evidence_id b)).
Definition digest_bytes (entries : list HostEvidenceEntry) : list ascii :=
  concat (row_bytes <$> sort_by id_leb entries).

Section ledger.
Context `{Sha2}.

Definition ledger_digest (entries : list HostEvidenceEntry) : string :=
  sha256_hex (digest_bytes entries).

Fixpoint insert_entries (evidence : list HostEvidenceEntry)
    (m : list (string * HostEvidenceEntry)) :
    result ValidationError (list (string * HostEvidenceEntry)) :=
  match evidence with
  | [] => Ok m
  | e :: r =>
      if is_empty (trim (ev_evidence_id e)) then Err VDuplicateId
      else if is_some (bmap_get (ev_evidence_id e) m) then Err VDuplicateId
      else insert_entries r (bmap_insert (ev_evidence_id e) e m)
  end.

Fixpoint check_rows (binding : AnswerBindingV1) (rows : list HostEvidenceEntry) :
    result ValidationError unit :=
  match rows with
  | [] => Ok tt
  | e :: r =>
      if is_empty (trim (ev_candidate_id e)) then Err VWrongScope
      else if negb (bool_decide (ev_corpus_id e = bind_corpus_id binding)) ||
              negb (bool_decide (ev_revision e = bind_revision binding)) then Err VWrongRevision
      else check_rows binding r
  end.

Definition HostEvidenceLedger_new (binding : AnswerBindingV1)
    (evidence : list HostEvidenceEntry) : result ValidationError HostEvidenceLedger :=
  reject_if (is_empty (trim (bind_session_id binding)) || is_empty (trim (bind_turn_id binding)) ||
             is_empty (trim (bind_corpus_id binding)) ||
             is_empty (trim (bind_ledger_digest binding))) VInvalidBinding ≫= λ _,
  reject_if (bool_decide (evidence = [])) VEmptyLedger ≫= λ _,
  insert_entries evidence [] ≫= λ entries,
  reject_if (negb (bool_decide (bind_ledger_digest binding = ledger_digest entries.*2)))
    VDigestMismatch ≫= λ _,
  check_rows binding entries.*2 ≫= λ _,
  Ok {| led_binding := binding; led_entries := entries |}.
End ledger.

(** [final_answer_manifest]: per candidate, its evidence ids in ledger order. *)
Definition final_answer_manifest (ledger : HostEvidenceLedger) : list (string * list string) :=
  foldl (λ m e, bmap_upsert (ev_candidate_id e) (λ ids, ids ++ [ev_evidence_id e])
                  [ev_evidence_id e] m) [] (ledger_rows ledger).

(** ** Validation of a proposal *)

Definition citation_of (e : HostEvidenceEntry) : CanonicalCitationV1 :=
  {| cite_evidence_id := ev_evidence_id e; cite_candidate_id := ev_candidate_id e;
     cite_source_label := ev_source_label e; cite_locator := ev_locator e;
     cite_corpus_id := ev_corpus_id e; cite_revision := ev_revision e;
     cite_content := ev_content e |}.

(** The sections of a candidate in the order the validator walks them. *)
Definition claims_in_order (c : ModelCandidateV1) : list (ClaimKind * ModelClaimV1) :=
  ((Observation,.) <$> md_observations c) ++ ((SymptomClaim,.) <$> md_symptoms c) ++
  ((CausalCandidate,.) <$> md_causal_candidates c) ++
  ((InitiatingCause,.) <$> md_initiating_causes c) ++
  ((CompetingExplanation,.) <$> md_competing_explanations c) ++
  ((MissingEvidence,.) <$> md_missing_evidence c).

(** What the loops of [validate_model_answer] carry along. *)
Record Progress := {
  pr_claim_ids : list string;
  pr_citations : list (string * CanonicalCitationV1);
  pr_root : bool;
}.

(** [citations.entry(id).or_insert_with(..)]. *)
Definition cite (citations : list (string * CanonicalCitationV1)) (id : string)
    (e : HostEvidenceEntry) : list (string * CanonicalCitationV1) :=
  bmap_upsert id (λ c, c) (citation_of e) citations.

(** The loop over the evidence ids of one claim. *)
Fixpoint check_ids (ledger : HostEvidenceLedger) (kind : ClaimKind) (cand : string)
    (ids : list string) (citations : list (string * CanonicalCitationV1))
    (evidence_ids : list string) :
    result ValidationError (list (string * CanonicalCitationV1)) :=
  match evidence_ids with
  | [] => Ok citations
  | id :: rest =>
      if bool_decide (id ∈ ids) then Err VDuplicateId else
      match ledger_get ledger id with
      | None => Err VUnknownEvidence
      | Some entry =>
          if bool_decide (kind = CausalCandidate) && bool_decide (ev_role entry = Symptom)
          then Err VRoleMismatch
          else if negb (bool_decide (ev_candidate_id entry = cand)) then Err VWrongScope
          else if negb (bool_decide (ev_corpus_id entry = bind_corpus_id (led_binding ledger))) ||
                  negb (bool_decide (ev_revision entry = bind_revision (led_binding ledger)))
          then Err VWrongRevision
          else check_ids ledger kind cand (id :: ids) (cite citations id entry) rest
      end
  end.

Definition is_cause (ledger : HostEvidenceLedger) (id : string) : bool :=
  is_some_and (ledger_get ledger id) (λ e, bool_decide (ev_role e = Cause)).

Definition cause_root (ledger : HostEvidenceLedger) (kind : ClaimKind) (claim : ModelClaimV1) :
    bool :=
  bool_decide (kind = InitiatingCause) && existsb (is_cause ledger) (mc_evidence_ids claim).

(** The claim the host derives from an accepted model claim. *)
Definition host_claim (ledger : HostEvidenceLedger) (cand : string)
    (kc : ClaimKind * ModelClaimV1) : InvestigationClaimV1 :=
  let '(kind, claim) := kc in
  {| claim_id := mc_claim_id claim; claim_kind := kind; claim_text := mc_text claim;
     claim_candidate_id := cand; claim_evidence_ids := mc_evidence_ids claim;
     claim_status :=
       if bool_decide (kind = InitiatingCause) && negb (cause_root ledger kind claim)
       then Withheld else Supported |}.

(** The loop over the claims of one candidate, section by section. *)
Fixpoint check_claims (ledger : HostEvidenceLedger) (cand : string) (p : Progress)
    (claims : list (ClaimKind * ModelClaimV1)) :
    result ValidationError (list InvestigationClaimV1 * Progress) :=
  match claims with
  | [] => Ok ([], p)
  | (kind, claim) :: rest =>
      if is_empty (mc_claim_id claim) || bool_decide (mc_claim_id claim ∈ pr_claim_ids p)
      then Err VDuplicateId
      else if bool_decide (mc_evidence_ids claim = []) &&
              negb (bool_decide (kind = MissingEvidence))
      then Err VEmptyEvidence
      else
        check_ids ledger kind cand [] (pr_citations p) (mc_evidence_ids claim) ≫= λ citations,
        check_claims ledger cand
          {| pr_claim_ids := mc_claim_id claim :: pr_claim_ids p; pr_citations := citations;
             pr_root := pr_root p || cause_root ledger kind claim |} rest
          ≫= λ '(done, p), Ok (host_claim ledger cand (kind, claim) :: done, p)
  end.

(** The loop over the candidates; [seen] holds the candidate ids so far. *)
Fixpoint check_candidates (ledger : HostEvidenceLedger) (seen : list string) (p : Progress)
    (candidates : list ModelCandidateV1) :
    result ValidationError (list InvestigationCandidateV1 * list string * Progress) :=
  match candidates with
  | [] => Ok ([], seen, p)
  | c :: rest =>
      let id := md_candidate_id c in
      if is_empty id || bool_decide (id ∈ seen) then Err VDuplicateId else
      check_claims ledger id p (claims_in_order c) ≫= λ '(claims, p),
      check_candidates ledger (set_insert id seen) p rest ≫= λ '(done, seen, p),
      Ok ({| candidate_id := id; candidate_claims := claims |} :: done, seen, p)
  end.

Definition no_progress : Progress :=
  {| pr_claim_ids := []; pr_citations := []; pr_root := false |}.

Section validate.
Context (from_str : string → option ModelInvestigationAnswerV1).

Definition parse_model_json (raw : string) : result ValidationError ModelInvestigationAnswerV1 :=
  match from_str raw with
  | None => Err VParse
  | Some value =>
      if negb (bool_decide (ma_schema value = SCHEMA_V1)) then Err VSchema else Ok value
  end.

Definition validate_model_answer (raw : string) (ledger : HostEvidenceLedger) :
    result ValidationError AnswerEnvelopeV1 :=
  reject_if (bool_decide (led_entries ledger = [])) VEmptyLedger ≫= λ _,
  parse_model_json raw ≫= λ proposal,
  check_candidates ledger [] no_progress (ma_candidates proposal) ≫= λ '(candidates, seen, p),
  reject_if (negb (bool_decide (seen = ledger_candidate_ids ledger))) VWrongScope ≫= λ _,
  Ok {| env_binding := led_binding ledger;
        env_evidence := ledger_rows ledger;
        env_answer :=
          {| ans_schema := SCHEMA_V1; ans_candidates := candidates;
             ans_canonical_citations := (pr_citations p).*2;
             ans_root_cause_established := pr_root p |};
        env_semantic_attempts := 0 |}.
End validate.

(** ** Specification

    What a proposal must satisfy, and the envelope it then stands for. *)

Definition evidence_ok (ledger : HostEvidenceLedger) (kind : ClaimKind) (cand id : string) : Prop :=
  ∃ e, ledger_get ledger id = Some e ∧ ev_candidate_id e = cand ∧
    ev_corpus_id e = bind_corpus_id (led_binding ledger) ∧
    ev_revision e = bind_revision (led_binding ledger) ∧
    (kind = CausalCandidate → ev_role e ≠ Symptom).

Definition claim_ok (ledger : HostEvidenceLedger) (cand : string)
    (kc : ClaimKind * ModelClaimV1) : Prop :=
  mc_claim_id kc.2 ≠ "" ∧ (mc_evidence_ids kc.2 = [] → kc.1 = MissingEvidence) ∧
  NoDup (mc_evidence_ids kc.2) ∧ Forall (evidence_ok ledger kc.1 cand) (mc_evidence_ids kc.2).

Definition all_claims (p : ModelInvestigationAnswerV1) : list (ClaimKind * ModelClaimV1) :=
  ma_candidates p ≫= claims_in_order.

Definition proposal_ok (ledger : HostEvidenceLedger) (p : ModelInvestigationAnswerV1) : Prop :=
  Forall (λ c, md_candidate_id c ≠ "" ∧
               Forall (claim_ok ledger (md_candidate_id c)) (claims_in_order c)) (ma_candidates p) ∧
  NoDup (md_candidate_id <$> ma_candidates p) ∧
  NoDup (mc_claim_id <$> (all_claims p).*2) ∧
  ∀ x, x ∈ md_candidate_id <$> ma_candidates p ↔ x ∈ ev_candidate_id <$> ledger_rows ledger.

Definition cited (p : ModelInvestigationAnswerV1) : list string :=
  (all_claims p).*2 ≫= mc_evidence_ids.

Definition answer_of (ledger : HostEvidenceLedger) (p : ModelInvestigationAnswerV1) :
    AnswerEnvelopeV1 :=
  {| env_binding := led_binding ledger;
     env_evidence := ledger_rows ledger;
     env_answer :=
       {| ans_schema := SCHEMA_V1;
          ans_candidates :=
            (λ c, {| candidate_id := md_candidate_id c;
                     candidate_claims :=
                       host_claim ledger (md_candidate_id c) <$> claims_in_order c |})
            <$> ma_candidates p;
          ans_canonical_citations :=
            citation_of <$> List.filter (λ e, bool_decide (ev_evidence_id e ∈ cited p))
                              (ledger_rows ledger);
          ans_root_cause_established :=
            existsb (λ kc, cause_root ledger kc.1 kc.2) (all_claims p) |};
     env_semantic_attempts := 0 |}.

(** The type invariant of a ledger: rows in key order under their own ids, all
    from the bound snapshot. *)
Definition ledger_ok (ledger : HostEvidenceLedger) : Prop :=
  bmap_ok (led_entries ledger) ∧
  Forall (λ kv, kv.1 = ev_evidence_id kv.2 ∧ ev_candidate_id kv.2 ≠ "" ∧
                ev_corpus_id kv.2 = bind_corpus_id (led_binding ledger) ∧
                ev_revision kv.2 = bind_revision (led_binding ledger)) (led_entries ledger).

(** ** Lemmas: the ledger *)

Section ledger_lemmas.
Context `{Sha2}.

Lemma insert_entries_Ok evidence m m' :
  bmap_ok m → Forall (λ kv, kv.1 = ev_evidence_id kv.2) m →
  insert_entries evidence m = Ok m' →
  bmap_ok m' ∧ Forall (λ kv, kv.1 = ev_evidence_id kv.2) m' ∧
  m'.*2 ≡ₚ m.*2 ++ evidence ∧ Forall (λ e, trim (ev_evidence_id e) ≠ "") evidence.
Proof.
  revert m. induction evidence as [|e r IH]; intros m Hok Hkey Hins; cbn in Hins.
  { inv_result. by rewrite app_nil_r. }
  destruct (is_empty _) eqn:He; [done|]. destruct (bmap_get _ m) eqn:Hget; [done|].
  assert (bmap_insert (ev_evidence_id e) e m ≡ₚ (ev_evidence_id e, e) :: m) as Hperm
    by by apply bmap_insert_perm.
  apply IH in Hins as (? & ? & Hp & ?); [|by apply bmap_insert_ok|by rewrite Hperm; constructor].
  split_and!; [done|done| |].
  - rewrite Hp, Hperm. cbn. by rewrite Permutation_middle.
  - constructor; [|done]. by apply bool_decide_eq_false in He.
Qed.

Lemma check_rows_Ok binding rows :
  check_rows binding rows = Ok tt →
  Forall (λ e, trim (ev_candidate_id e) ≠ "" ∧ ev_corpus_id e = bind_corpus_id binding ∧
               ev_revision e = bind_revision binding) rows.
Proof.
  induction rows as [|e r IH]; cbn; intros Hc; [constructor|].
  destruct (is_empty _) eqn:He; [done|]. destruct (_ || _) eqn:Hb; [done|].
  unfold is_empty in He. split_bool. constructor; [done|auto].
Qed.

(** What a constructed ledger is: the given rows, each once, in id order and
    under the bound digest. *)
(** A well-formed ledger is determined by its rows. *)
Lemma ledger_ok_entries ledger :
  ledger_ok ledger → led_entries ledger = (λ e, (ev_evidence_id e, e)) <$> ledger_rows ledger.
Proof.
  intros [_ Hf]. unfold ledger_rows. rewrite <-list_fmap_compose.
  induction Hf as [|[k e] m (Hk & _) _ IH]; [done|]. cbn in *. by rewrite Hk, <-IH.
Qed.

Lemma ledger_ok_NoDup ledger : ledger_ok ledger → NoDup (ev_evidence_id <$> ledger_rows ledger).
Proof.
  intros Hok. pose proof Hok as [Hs%sorted_NoDup _]. unfold keys in Hs.
  rewrite (ledger_ok_entries _ Hok), <-list_fmap_compose in Hs. exact Hs.
Qed.

Lemma ledger_new_Ok binding evidence ledger :
  HostEvidenceLedger_new binding evidence = Ok ledger →
  ledger_ok ledger ∧ led_binding ledger = binding ∧ ledger_rows ledger ≡ₚ evidence ∧
  evidence ≠ [] ∧ bind_ledger_digest binding = ledger_digest (ledger_rows ledger).
Proof.
  unfold HostEvidenceLedger_new. intros Hnew. inv_result. split_bool.
  apply insert_entries_Ok in Hstep1 as (Hok & Hkeys & Hp & _); [|auto with host|constructor].
  apply check_rows_Ok in Hstep3. unfold ledger_ok, ledger_rows. cbn.
  split_and!; [done| |done..].
  rewrite Forall_forall in Hkeys. rewrite Forall_forall in Hstep3.
  apply Forall_forall. intros [k e] Hin.
  assert (e ∈ a1.*2) as Hin2 by (apply list_elem_of_fmap; by exists (k, e)).
  destruct (Hstep3 e Hin2) as (Hc & ? & ?). split_and!; [by apply Hkeys in Hin| |done..].
  cbn. intros E. by rewrite E in Hc.
Qed.

Lemma ledger_get_row ledger id e :
  ledger_ok ledger → ledger_get ledger id = Some e → e ∈ ledger_rows ledger ∧ ev_evidence_id e = id.
Proof.
  intros [Hok Hall] Hget. apply bmap_get_elem in Hget; [|done]. split.
  - apply list_elem_of_fmap. by exists (id, e).
  - rewrite Forall_forall in Hall. by apply Hall in Hget as (? & _).
Qed.

Lemma ledger_get_self ledger e :
  ledger_ok ledger → e ∈ ledger_rows ledger → ledger_get ledger (ev_evidence_id e) = Some e.
Proof.
  intros [Hok Hall] ([k e'] & -> & Hin)%list_elem_of_fmap. apply bmap_get_elem; [done|].
  rewrite Forall_forall in Hall. destruct (Hall _ Hin) as (Hk & _). cbn in *. by rewrite <-Hk.
Qed.
End ledger_lemmas.

(** ** Lemmas: the validator loops *)

Definition cite_id (ledger : HostEvidenceLedger) (citations : list (string * CanonicalCitationV1))
    (id : string) : list (string * CanonicalCitationV1) :=
  match ledger_get ledger id with Some e => cite citations id e | None => citations end.

Lemma check_ids_Ok ledger kind cand ids cits eids cits' :
  check_ids ledger kind cand ids cits eids = Ok cits' ↔
    NoDup eids ∧ (∀ id, id ∈ eids → id ∉ ids) ∧ Forall (evidence_ok ledger kind cand) eids ∧
    cits' = foldl (cite_id ledger) cits eids.
Proof.
  revert ids cits. induction eids as [|id eids IH]; intros ids cits; cbn.
  { split; [intros [= ->]; split_and!; [constructor|set_solver|constructor|done]|].
    by intros (_ & _ & _ & ->). }
  rewrite NoDup_cons, Forall_cons. unfold evidence_ok at 1, cite_id at 2.
  destruct (decide (id ∈ ids)) as [Hin|Hin].
  { rewrite bool_decide_eq_true_2 by done. split; [done|]. intros (_ & Hn & _). exfalso.
    apply (Hn id); [by left|done]. }
  rewrite bool_decide_eq_false_2 by done.
  destruct (ledger_get ledger id) as [e|]; [|naive_solver].
  destruct (bool_decide (kind = _) && _) eqn:Hr.
  { split; [done|]. split_bool. naive_solver. }
  assert (kind = CausalCandidate → ev_role e ≠ Symptom) as Hrole.
  { intros -> E. by rewrite E in Hr. }
  destruct (decide (ev_candidate_id e = cand)) as [Hc|Hc];
    [rewrite (bool_decide_eq_true_2 _ Hc)|rewrite (bool_decide_eq_false_2 _ Hc); naive_solver].
  cbn [negb]. destruct (_ || _) eqn:Hb.
  { split; [done|]. apply orb_true_iff in Hb as [Hb|Hb]; split_bool; naive_solver. }
  split_bool. rewrite IH. clear IH. set_solver.
Qed.

Lemma check_claims_Ok ledger cand p claims done p' :
  check_claims ledger cand p claims = Ok (done, p') ↔
    Forall (claim_ok ledger cand) claims ∧ NoDup (mc_claim_id <$> claims.*2) ∧
    (∀ x, x ∈ mc_claim_id <$> claims.*2 → x ∉ pr_claim_ids p) ∧
    done = host_claim ledger cand <$> claims ∧
    p' = {| pr_claim_ids := rev (mc_claim_id <$> claims.*2) ++ pr_claim_ids p;
            pr_citations := foldl (cite_id ledger) (pr_citations p) (claims.*2 ≫= mc_evidence_ids);
            pr_root := pr_root p || existsb (λ kc, cause_root ledger kc.1 kc.2) claims |}.
Proof.
  revert p done p'. induction claims as [|[kind claim] claims IH]; intros p done p'; cbn.
  { destruct p as [a b c]. cbn. rewrite orb_false_r. split.
    - intros [= <- <-]. split_and!; [constructor..|set_solver|done|done].
    - by intros (_ & _ & _ & -> & ->). }
  rewrite Forall_cons, NoDup_cons. unfold claim_ok at 1. cbn [fst snd].
  destruct (is_empty _ || _) eqn:Hid.
  { split; [done|]. intros ([(Hne & _) _] & _ & Hfresh & _). unfold is_empty in Hid.
    apply orb_true_iff in Hid as [Hid|Hid]; split_bool; [done|].
    exfalso. by apply (Hfresh (mc_claim_id claim)); [left|]. }
  unfold is_empty in Hid. split_bool.
  destruct (bool_decide (mc_evidence_ids claim = []) && _) eqn:Hev.
  { split; [done|]. split_bool. naive_solver. }
  assert (mc_evidence_ids claim = [] → kind = MissingEvidence) as Hev'.
  { intros E. rewrite E in Hev. cbn in Hev. by split_bool. }
  rewrite bind_Ok. setoid_rewrite bind_Ok. setoid_rewrite check_ids_Ok. split.
  - intros (cits & (Hnd & _ & Hall & ->) & [done1 p1] & Hrest & [= <- <-]).
    apply IH in Hrest as (H1 & H2 & H3 & -> & ->). cbn in *. split_and!; try done.
    + intros Hin. apply (H3 _ Hin). by left.
    + set_solver.
    + f_equal; [|by rewrite foldl_app|by rewrite orb_assoc].
      by rewrite <-(assoc_L (++)).
  - intros ([(_ & _ & Hnd & Hall) Hcl] & [Hni Hnd'] & Hfresh & -> & ->).
    eexists. split; [split_and!; [done|set_solver|done|done]|].
    eexists (_, _). split; [|reflexivity]. apply IH. cbn. split_and!; [done|done| |done|].
    + intros x Hx. specialize (Hfresh x). set_solver.
    + f_equal; [|by rewrite foldl_app|by rewrite orb_assoc].
      by rewrite <-(assoc_L (++)).
Qed.

Definition host_candidate (ledger : HostEvidenceLedger) (c : ModelCandidateV1) :
    InvestigationCandidateV1 :=
  {| candidate_id := md_candidate_id c;
     candidate_claims := host_claim ledger (md_candidate_id c) <$> claims_in_order c |}.

Definition claim_ids_of (candidates : list ModelCandidateV1) : list string :=
  mc_claim_id <$> (candidates ≫= claims_in_order).*2.

Lemma claim_ids_of_cons c cs :
  claim_ids_of (c :: cs) = (mc_claim_id <$> (claims_in_order c).*2) ++ claim_ids_of cs.
Proof. unfold claim_ids_of. by rewrite bind_cons, !fmap_app. Qed.

Lemma check_candidates_Ok ledger seen p cs done seen' p' :
  check_candidates ledger seen p cs = Ok (done, seen', p') ↔
    Forall (λ c, md_candidate_id c ≠ "" ∧
                 Forall (claim_ok ledger (md_candidate_id c)) (claims_in_order c)) cs ∧
    NoDup (md_candidate_id <$> cs) ∧ (∀ x, x ∈ md_candidate_id <$> cs → x ∉ seen) ∧
    NoDup (claim_ids_of cs) ∧ (∀ x, x ∈ claim_ids_of cs → x ∉ pr_claim_ids p) ∧
    done = host_candidate ledger <$> cs ∧
    seen' = foldl (λ s k, set_insert k s) seen (md_candidate_id <$> cs) ∧
    p' = {| pr_claim_ids := rev (claim_ids_of cs) ++ pr_claim_ids p;
            pr_citations := foldl (cite_id ledger) (pr_citations p)
                              ((cs ≫= claims_in_order).*2 ≫= mc_evidence_ids);
            pr_root := pr_root p ||
                       existsb (λ kc, cause_root ledger kc.1 kc.2) (cs ≫= claims_in_order) |}.
Proof.
  revert seen p done seen' p'. induction cs as [|c cs IH]; intros seen p done seen' p'.
  { cbn. destruct p as [x y z]. cbn. rewrite orb_false_r. split.
    - intros [= <- <- <-]. split_and!; try constructor; set_solver.
    - by intros (_ & _ & _ & _ & _ & -> & -> & ->). }
  cbn [check_candidates].
  rewrite Forall_cons, !fmap_cons, NoDup_cons, claim_ids_of_cons, NoDup_app, bind_cons.
  cbn [foldl].
  destruct (is_empty _ || _) eqn:Hid.
  { split; [done|]. intros ([[Hne _] _] & _ & Hfresh & _). unfold is_empty in Hid.
    apply orb_true_iff in Hid as [Hid|Hid]; split_bool; [done|].
    exfalso. by apply (Hfresh (md_candidate_id c)); [left|]. }
  unfold is_empty in Hid. split_bool. rewrite bind_Ok.
  assert (∀ (q : Progress) (l : list ModelCandidateV1),
    {| pr_claim_ids := rev (claim_ids_of l) ++
         rev (mc_claim_id <$> (claims_in_order c).*2) ++ pr_claim_ids q;
       pr_citations := foldl (cite_id ledger) (foldl (cite_id ledger) (pr_citations q)
           ((claims_in_order c).*2 ≫= mc_evidence_ids)) ((l ≫= claims_in_order).*2 ≫= mc_evidence_ids);
       pr_root := (pr_root q || existsb (λ kc, cause_root ledger kc.1 kc.2) (claims_in_order c)) ||
           existsb (λ kc, cause_root ledger kc.1 kc.2) (l ≫= claims_in_order) |} =
    {| pr_claim_ids := rev ((mc_claim_id <$> (claims_in_order c).*2) ++ claim_ids_of l) ++
         pr_claim_ids q;
       pr_citations := foldl (cite_id ledger) (pr_citations q)
           ((claims_in_order c ++ (l ≫= claims_in_order)).*2 ≫= mc_evidence_ids);
       pr_root := pr_root q || existsb (λ kc, cause_root ledger kc.1 kc.2)
           (claims_in_order c ++ (l ≫= claims_in_order)) |}) as Hacc.
  { intros q l. rewrite rev_app_distr, fmap_app, bind_app, foldl_app, existsb_app.
    by rewrite <-(assoc_L (++)), orb_assoc. }
  split.
  - intros ([claims p1] & Hc & Hrest). apply check_claims_Ok in Hc as (H1 & H2 & H3 & -> & ->).
    rewrite bind_Ok in Hrest. destruct Hrest as ([[done1 seen1] p2] & Hr & [= <- <- <-]).
    apply IH in Hr as (H4 & H5 & H6 & H7 & H8 & -> & -> & ->). cbn [pr_claim_ids pr_citations pr_root] in *.
    split_and!; try done.
    + intros Hin. apply (H6 _ Hin), set_insert_elem. by left.
    + intros x [->|Hx]%elem_of_cons; [done|]. intros Hs. apply (H6 x Hx), set_insert_elem. by right.
    + intros x Hx Hx'. apply (H8 x Hx'), elem_of_app. left. by apply elem_of_rev.
    + intros x [Hx|Hx]%elem_of_app; [by apply H3|]. intros Hp. apply (H8 x Hx), elem_of_app. by right.
  - intros ([[_ Hcl] Hcs] & [Hni Hnd] & Hseen & (Hu & Hdis & Hus) & Hfresh & -> & -> & ->).
    eexists (_, _). split.
    { apply check_claims_Ok. split_and!; [done|done| |done|done].
      intros x Hx. apply Hfresh, elem_of_app. by left. }
    rewrite bind_Ok. eexists (_, _, _). split; [|reflexivity].
    apply IH. cbn [pr_claim_ids pr_citations pr_root]. split_and!; try done.
    + intros x Hx [->|Hs]%set_insert_elem; [done|]. apply (Hseen x); [by right|done].
    + intros x Hx [Hr|Hp]%elem_of_app.
      { rewrite elem_of_rev in Hr. by destruct (Hdis x Hr). }
      apply (Hfresh x); [apply elem_of_app; by right|done].
Qed.

Lemma cite_ids_get ledger ids cits k :
  bmap_get k (foldl (cite_id ledger) cits ids) =
    match bmap_get k cits with
    | Some c => Some c
    | None => if bool_decide (k ∈ ids) then citation_of <$> ledger_get ledger k else None
    end.
Proof.
  revert cits. induction ids as [|id ids IH]; intros cits; cbn.
  { rewrite bool_decide_eq_false_2 by apply not_elem_of_nil.
    by destruct (bmap_get k cits). }
  rewrite IH. clear IH. unfold cite_id, cite.
  assert (bool_decide (k ∈ id :: ids) = bool_decide (k = id) || bool_decide (k ∈ ids)) as ->.
  { apply eq_true_iff_eq. rewrite orb_true_iff, !bool_decide_eq_true. apply elem_of_cons. }
  destruct (decide (k = id)) as [->|Hk];
    [rewrite (bool_decide_eq_true_2 (id = id)) by done|rewrite (bool_decide_eq_false_2 (k = id)) by done];
    destruct (ledger_get ledger id) as [e|] eqn:He; rewrite ?bmap_get_upsert.
  - rewrite bool_decide_eq_true_2 by done. by destruct (bmap_get id cits).
  - destruct (bmap_get id cits); [done|]. cbn. by destruct (bool_decide _).
  - by rewrite bool_decide_eq_false_2 by done.
  - done.
Qed.

Lemma cite_ids_ok ledger ids cits : bmap_ok cits → bmap_ok (foldl (cite_id ledger) cits ids).
Proof.
  revert cits. induction ids as [|id ids IH]; intros cits Hok; cbn; [done|]. apply IH.
  unfold cite_id, cite. case_match; auto with host.
Qed.

Section validate_lemmas.
Context (from_str : string → option ModelInvestigationAnswerV1).

Lemma parse_model_json_Ok raw p :
  parse_model_json from_str raw = Ok p ↔ from_str raw = Some p ∧ ma_schema p = SCHEMA_V1.
Proof.
  unfold parse_model_json. destruct (from_str raw) as [v|]; [|naive_solver].
  destruct (decide (ma_schema v = SCHEMA_V1)).
  - rewrite bool_decide_eq_true_2 by done. naive_solver.
  - rewrite bool_decide_eq_false_2 by done. naive_solver.
Qed.

(** The lazily filled citation map holds the cited rows in ledger order. *)
Lemma citations_are_cited_rows ledger ids :
  ledger_ok ledger →
  (foldl (cite_id ledger) [] ids).*2 =
    citation_of <$> List.filter (λ e, bool_decide (ev_evidence_id e ∈ ids)) (ledger_rows ledger).
Proof.
  intros [Hok Hall].
  set (m := (λ kv, (kv.1, citation_of kv.2)) <$>
            List.filter (λ kv, bool_decide (kv.1 ∈ ids)) (led_entries ledger)).
  assert (foldl (cite_id ledger) [] ids = m) as ->.
  { assert (bmap_ok m) as Hm.
    { unfold bmap_ok, keys, m. rewrite <-list_fmap_compose.
      change (StronglySorted key_lt (fst <$> List.filter (λ kv, bool_decide (kv.1 ∈ ids))
        (led_entries ledger))). by apply StronglySorted_fmap_filter. }
    apply bmap_ext; [apply cite_ids_ok; auto with host|done|]. intros k.
    rewrite cite_ids_get.
    change (bmap_get k []) with (@None CanonicalCitationV1). cbv iota. apply option_eq. intros c. rewrite bmap_get_elem by done.
    unfold m. rewrite list_elem_of_fmap. unfold ledger_get. case_bool_decide as Hk.
    - rewrite fmap_Some. setoid_rewrite (bmap_get_elem k (led_entries ledger)); [|done..].
      split; [intros (e & He & ->)|intros ([k' e] & [= -> ->] & [Hin _]%elem_of_filter_bool)].
      + exists (k, e). split; [done|]. apply elem_of_filter_bool. cbn.
        by rewrite bool_decide_eq_true_2.
      + by exists e.
    - split; [done|]. intros ([k' e] & [= -> ->] & [_ Hf]%elem_of_filter_bool).
      cbn in Hf. by rewrite bool_decide_eq_false_2 in Hf. }
  unfold m, ledger_rows. rewrite <-list_fmap_compose. clear m Hok.
  induction Hall as [|[k e] l (Hk & _) _ IH]; cbn in *; [done|]. subst k.
  destruct (bool_decide _); cbn; by rewrite IH.
Qed.

Lemma validate_model_answer_spec raw ledger env :
  ledger_ok ledger → led_entries ledger ≠ [] →
  validate_model_answer from_str raw ledger = Ok env ↔
    ∃ p, from_str raw = Some p ∧ ma_schema p = SCHEMA_V1 ∧ proposal_ok ledger p ∧
      env = answer_of ledger p.
Proof.
  intros Hok Hne. unfold validate_model_answer. rewrite bool_decide_eq_false_2 by done. cbn.
  rewrite bind_Ok. setoid_rewrite parse_model_json_Ok. setoid_rewrite bind_Ok.
  unfold proposal_ok, answer_of, all_claims, cited, all_claims. split.
  - intros (p & (Hp & Hs) & [[cs seen] pr] & Hc & Hend). exists p. split_and!; [done|done|..].
    all: apply check_candidates_Ok in Hc as (H1 & H2 & _ & H4 & _ & -> & -> & ->);
      cbn [pr_citations pr_root no_progress] in *; inv_result; split_bool.
    1, 2, 3: done.
    + by apply set_eq_iff.
    + do 2 f_equal. by apply citations_are_cited_rows.
  - intros (p & Hp & Hs & (H1 & H2 & H3 & H4) & ->). exists p. split; [done|].
    eexists (_, _, _). split.
    { apply check_candidates_Ok. split_and!; [done|done| |done| |done|done|done].
      all: cbn; intros x _; apply not_elem_of_nil. }
    change (foldl _ [] (md_candidate_id <$> ma_candidates p))
      with (set_collect (md_candidate_id <$> ma_candidates p)).
    unfold ledger_candidate_ids. rewrite bool_decide_eq_true_2 by (by apply set_eq_iff). cbn.
    do 3 f_equal. by apply citations_are_cited_rows.
Qed.
End validate_lemmas.

Lemma host_claim_root ledger cand kc :
  claim_kind (host_claim ledger cand kc) = InitiatingCause ∧
  claim_status (host_claim ledger cand kc) = Supported ↔ cause_root ledger kc.1 kc.2 = true.
Proof.
  destruct kc as [kind claim]. cbn. unfold cause_root.
  destruct (decide (kind = InitiatingCause)) as [->|Hk].
  - rewrite bool_decide_eq_true_2 by done. cbn. destruct (existsb _ _); cbn; naive_solver.
  - rewrite bool_decide_eq_false_2 by done. cbn. naive_solver.
Qed.

Lemma host_claims_elem ledger p claim :
  claim ∈ (ans_candidates (env_answer (answer_of ledger p)) ≫= candidate_claims) ↔
  ∃ c kc, c ∈ ma_candidates p ∧ kc ∈ claims_in_order c ∧
    claim = host_claim ledger (md_candidate_id c) kc.
Proof.
  cbn. rewrite list_elem_of_bind. setoid_rewrite list_elem_of_fmap. split.
  - intros (c & Hcl & mc & -> & Hmc). apply list_elem_of_fmap in Hcl as (kc & -> & ?). eauto 6.
  - intros (c & kc & Hc & Hkc & ->). eexists. split; [|by exists c]. cbn.
    apply list_elem_of_fmap. eauto.
Qed.

Lemma all_claims_elem p kc :
  kc ∈ all_claims p ↔ ∃ c, c ∈ ma_candidates p ∧ kc ∈ claims_in_order c.
Proof. unfold all_claims. rewrite list_elem_of_bind. naive_solver. Qed.

(** ** Lemmas: the digest *)

Definition row_encodable (e : HostEvidenceEntry) : Prop :=
  nul_free (ev_evidence_id e) ∧ nul_free (ev_candidate_id e) ∧ nul_free (ev_source_label e) ∧
  nul_free (ev_locator e) ∧ nul_free (ev_corpus_id e) ∧ nul_free (ev_content e) ∧
  fits_u64 (event_revision (ev_revision e)) ∧
  fits_u64 (template_analysis_revision (ev_revision e)) ∧
  fits_u64 (suppression_revision (ev_revision e)).
#[global] Instance row_encodable_dec e : Decision (row_encodable e).
Proof. unfold row_encodable, nul_free, fits_u64. apply _. Defined.

Lemma row_bytes_self_delimiting : self_delimiting row_encodable row_bytes.
Proof.
  intros a b x y (?&?&?&?&?&?&?&?&?) (?&?&?&?&?&?&?&?&?) E. unfold row_bytes in E.
  rewrite <-!(assoc_L (++)) in E.
  apply (tag_self_delimiting role_tag) in E as [Hr E]; [|by intros [] []|done..].
  do 6 (apply nul_field_self_delimiting in E as [? E]; [|done..]).
  do 3 (apply le_u64_self_delimiting in E as [? E]; [|done..]).
  split; [|done].
  destruct a as [? ? ? ? ? [? ? ?] ? ?], b as [? ? ? ? ? [? ? ?] ? ?]; cbn in *; by subst.
Qed.

(** The rows of a ledger are already in the order in which they are hashed. *)
Lemma ledger_rows_sorted ledger :
  ledger_ok ledger → sort_by id_leb (ledger_rows ledger) = ledger_rows ledger.
Proof.
  intros [Hok Hall]. apply sort_by_id. unfold bmap_ok, keys, ledger_rows in *.
  induction Hall as [|[k e] l (Hk & _) Hl IH]; cbn in *; [constructor|].
  apply StronglySorted_inv in Hok as [Hok Hlt]. constructor; [by apply IH|].
  apply Forall_forall. intros e' ([k' e''] & -> & Hin)%list_elem_of_fmap. cbn.
  rewrite Forall_forall in Hlt. rewrite Forall_forall in Hl. destruct (Hl _ Hin) as (Hk' & _). cbn in *. subst.
  apply bool_decide_eq_true, (Hlt (ev_evidence_id e'')), list_elem_of_fmap. by exists (ev_evidence_id e'', e'').
Qed.

(** ** Properties *)

(** C4. The validator accepts exactly the grounded proposals and adds all
    authority itself: against a constructed ledger, a text is accepted if and
    only if it parses under the schema to a proposal with non-empty unique ids,
    whose claims cite distinct rows of their own candidate and snapshot (none
    empty outside missing evidence, no symptom row in a causal claim), covering
    exactly the ledger's candidates; the envelope is then the one computed from
    the ledger, with the cited rows as citations. *)
Theorem validator_accepts_exactly_grounded_proposals `{Sha2} from_str binding evidence ledger
    raw env :
  HostEvidenceLedger_new binding evidence = Ok ledger →
  validate_model_answer from_str raw ledger = Ok env ↔
    ∃ p, from_str raw = Some p ∧ ma_schema p = SCHEMA_V1 ∧ proposal_ok ledger p ∧
      env = answer_of ledger p.
Proof.
  intros (Hok & _ & Hp & Hne & _)%ledger_new_Ok. apply validate_model_answer_spec; [done|].
  intros E. unfold ledger_rows in Hp. rewrite E in Hp. by apply Permutation_nil_l in Hp.
Qed.

(** C34. An accepted answer cannot overclaim: every claim stays in its candidate
    and cites only ledger rows of that candidate; a supported initiating cause
    cites a row the host labelled as cause; the root cause is established
    exactly when such a claim is present; every citation is a copy of a ledger
    row that some claim cites, and every cited id has one. *)
Theorem accepted_answer_cannot_overclaim `{Sha2} from_str binding evidence ledger raw env :
  HostEvidenceLedger_new binding evidence = Ok ledger →
  validate_model_answer from_str raw ledger = Ok env →
  let answer := env_answer env in
  let claims := ans_candidates answer ≫= candidate_claims in
  env_binding env = binding ∧ env_evidence env ≡ₚ evidence ∧
  (∀ c claim, c ∈ ans_candidates answer → claim ∈ candidate_claims c →
     claim_candidate_id claim = candidate_id c ∧
     ∀ id, id ∈ claim_evidence_ids claim →
       ∃ e, e ∈ evidence ∧ ev_evidence_id e = id ∧ ev_candidate_id e = candidate_id c) ∧
  (ans_root_cause_established answer = true ↔
     ∃ claim, claim ∈ claims ∧ claim_kind claim = InitiatingCause ∧ claim_status claim = Supported) ∧
  (∀ claim, claim ∈ claims → claim_kind claim = InitiatingCause → claim_status claim = Supported →
     ∃ e, e ∈ evidence ∧ ev_role e = Cause ∧ ev_evidence_id e ∈ claim_evidence_ids claim) ∧
  (∀ cit, cit ∈ ans_canonical_citations answer ↔
     ∃ e claim, e ∈ evidence ∧ cit = citation_of e ∧ claim ∈ claims ∧
       ev_evidence_id e ∈ claim_evidence_ids claim).
Proof.
  intros (Hok & <- & Hp & Hne & _)%ledger_new_Ok.
  rewrite validate_model_answer_spec; [|done|].
  2: { intros E. unfold ledger_rows in Hp. rewrite E in Hp. by apply Permutation_nil_l in Hp. }
  intros (p & _ & _ & (Hall & _) & ->). rewrite Forall_forall in Hall.
  intros answer claims. subst answer claims. setoid_rewrite host_claims_elem.
  assert (∀ c kc id, c ∈ ma_candidates p → kc ∈ claims_in_order c → id ∈ mc_evidence_ids kc.2 →
    ∃ e, e ∈ evidence ∧ ev_evidence_id e = id ∧ ev_candidate_id e = md_candidate_id c) as Hev.
  { intros c kc id Hc Hkc Hid. destruct (Hall c Hc) as [_ Hcl]. rewrite Forall_forall in Hcl.
    destruct (Hcl kc Hkc) as (_ & _ & _ & He). rewrite Forall_forall in He.
    destruct (He id Hid) as (e & Hget & ? & _). apply ledger_get_row in Hget as [Hin ?]; [|done].
    exists e. split_and!; [by rewrite <-Hp|done..]. }
  split_and!; [done|done|..].
  - intros c claim (mc & -> & Hmc)%list_elem_of_fmap (kc & -> & Hkc)%list_elem_of_fmap.
    split; [by destruct kc|]. intros id Hid. apply (Hev mc kc); [done..|by destruct kc].
  - cbn. rewrite existsb_elem_of. setoid_rewrite all_claims_elem. split.
    + intros (kc & (c & Hc & Hkc) & Hr). eexists. split; [by exists c, kc|]. by apply host_claim_root.
    + intros (claim & (c & kc & Hc & Hkc & ->) & Hs%host_claim_root). eauto.
  - intros claim (c & kc & Hc & Hkc & ->) Hk Hs.
    pose proof (proj1 (host_claim_root _ _ _) (conj Hk Hs)) as Hr.
    unfold cause_root, is_cause in Hr. split_bool.
    apply existsb_elem_of in H1 as (id & Hid & (e & He & Hrole%bool_decide_eq_true)%is_some_and_true).
    apply ledger_get_row in He as [He <-]; [|done].
    exists e. split_and!; [by rewrite <-Hp|done|by destruct kc].
  - intros cit. cbn. rewrite list_elem_of_fmap. setoid_rewrite elem_of_filter_bool.
    setoid_rewrite bool_decide_eq_true. unfold cited. setoid_rewrite list_elem_of_bind. split.
    + intros (e & -> & He & mcl & Hid & (kc & -> & (c & Hc & Hkc)%all_claims_elem)%list_elem_of_fmap).
      exists e, (host_claim ledger (md_candidate_id c) kc).
      split_and!; [by rewrite <-Hp|done|by exists c, kc|by destruct kc].
    + intros (e & claim & He & -> & (c & kc & Hc & Hkc & ->) & Hid).
      exists e. split_and!; [done|by rewrite Hp|]. exists kc.2. split; [by destruct kc|].
      apply list_elem_of_fmap. exists kc. split; [done|]. apply all_claims_elem. eauto.
Qed.

(** The ledger digest identifies the evidence: two constructed ledgers whose
    bindings carry the same digest hold the same rows, unless SHA-256 collides,
    as long as no text field contains a NUL byte and revisions fit [u64]. *)
Lemma ledger_digest_identifies_rows `{Sha2} b1 b2 ev1 ev2 l1 l2 :
  HostEvidenceLedger_new b1 ev1 = Ok l1 → HostEvidenceLedger_new b2 ev2 = Ok l2 →
  bind_ledger_digest b1 = bind_ledger_digest b2 →
  Forall row_encodable ev1 → Forall row_encodable ev2 →
  ledger_rows l1 = ledger_rows l2 ∨ sha_collision.
Proof.
  intros (Hok1 & _ & Hp1 & _ & Hd1)%ledger_new_Ok (Hok2 & _ & Hp2 & _ & Hd2)%ledger_new_Ok Hd He1 He2.
  rewrite Hd1, Hd2 in Hd. apply digest_eq_or_collision in Hd as [Hd|?]; [left|by right].
  unfold digest_bytes in Hd. rewrite !ledger_rows_sorted in Hd by done.
  eapply concat_self_delimiting_end; [apply row_bytes_self_delimiting| |by rewrite Hp1|by rewrite Hp2|done].
  intros a. by destruct a.
Qed.

(** The NUL-terminated framing of the digest is ambiguous when a field may
    hold a NUL byte: moving text across the boundary between source label and
    locator gives a different row with the same digest, whatever the hash
    function. *)
Theorem ledger_digest_framing_ambiguous `{Sha2} :
  ∃ e1 e2, e1 ≠ e2 ∧ ev_source_label e1 ≠ ev_source_label e2 ∧
    ledger_digest [e1] = ledger_digest [e2].
Proof.
  set (row source locator :=
    {| ev_evidence_id := "e1"; ev_candidate_id := "g1"; ev_source_label := source;
       ev_locator := locator; ev_corpus_id := "c"; ev_content := "";
       ev_revision := {| event_revision := 1; template_analysis_revision := 1;
                         suppression_revision := 1 |};
       ev_role := Neutral |}).
  set (nul := String NUL "").
  exists (row ("a" +:+ nul +:+ "b") "c"), (row "a" ("b" +:+ nul +:+ "c")).
  split; [|split]; [vm_compute; congruence..|]. unfold ledger_digest. f_equal.
Qed.

(** ** Witnesses

    A hash that is the identity on bytes, and a parser that knows one text. *)

Module AnswerDemo.
#[export] Instance sha2 : Sha2 := {| sha256_hex := λ bs, "h" +:+ of_bytes bs |}.
Definition row (id cand : string) (role : EvidenceRole) : HostEvidenceEntry :=
  {| ev_evidence_id := id; ev_candidate_id := cand; ev_source_label := "app.log";
     ev_locator := "seq=1"; ev_corpus_id := "c"; ev_content := "boot failed";
     ev_revision := {| event_revision := 1; template_analysis_revision := 2;
                       suppression_revision := 3 |};
     ev_role := role |}.
Definition evidence : list HostEvidenceEntry := [row "e2" "g" Symptom; row "e1" "g" Cause].
Definition binding : AnswerBindingV1 :=
  {| bind_session_id := "s"; bind_turn_id := "t"; bind_corpus_id := "c";
     bind_revision := {| event_revision := 1; template_analysis_revision := 2;
                         suppression_revision := 3 |};
     bind_ledger_digest := ledger_digest evidence |}.
Definition ledger : HostEvidenceLedger :=
  {| led_binding := binding; led_entries := [("e1", row "e1" "g" Cause); ("e2", row "e2" "g" Symptom)] |}.
Definition claim (id : string) (ids : list string) : ModelClaimV1 :=
  {| mc_claim_id := id; mc_text := "text"; mc_evidence_ids := ids |}.
Definition proposal : ModelInvestigationAnswerV1 :=
  {| ma_schema := SCHEMA_V1;
     ma_candidates :=
       [{| md_candidate_id := "g"; md_observations := []; md_symptoms := [claim "k1" ["e2"]];
           md_causal_candidates := []; md_initiating_causes := [claim "k2" ["e1"]];
           md_competing_explanations := []; md_missing_evidence := [claim "k3" []] |}] |}.
Definition from_str (raw : string) : option ModelInvestigationAnswerV1 :=
  if bool_decide (raw = "{}") then Some proposal else None.

Lemma ledger_built : HostEvidenceLedger_new binding evidence = Ok ledger.
Proof. vm_compute. reflexivity. Qed.
Lemma proposal_accepted : validate_model_answer from_str "{}" ledger = Ok (answer_of ledger proposal).
Proof. vm_compute. reflexivity. Qed.
End AnswerDemo.

Lemma validator_accepts_exactly_grounded_proposals_witness :
  proposal_ok AnswerDemo.ledger AnswerDemo.proposal.
Proof.
  destruct (proj1 (validator_accepts_exactly_grounded_proposals AnswerDemo.from_str
    AnswerDemo.binding AnswerDemo.evidence AnswerDemo.ledger "{}" _ AnswerDemo.ledger_built)
    AnswerDemo.proposal_accepted) as (p & Hp & _ & Hok & _).
  change (Some AnswerDemo.proposal = Some p) in Hp. injection Hp as ->. exact Hok.
Defined.

Lemma accepted_answer_cannot_overclaim_witness :
  ∃ claim, claim ∈ (ans_candidates (env_answer (answer_of AnswerDemo.ledger AnswerDemo.proposal))
                    ≫= candidate_claims) ∧
    claim_kind claim = InitiatingCause ∧ claim_status claim = Supported.
Proof.
  destruct (accepted_answer_cannot_overclaim AnswerDemo.from_str AnswerDemo.binding
    AnswerDemo.evidence AnswerDemo.ledger "{}" _ AnswerDemo.ledger_built
    AnswerDemo.proposal_accepted) as (_ & _ & _ & Hroot & _).
  apply Hroot. vm_compute. reflexivity.
Defined.
