(* ===== verification/Terminal.v ===== *)
(** * Terminals of a model call

    [crates/cd-core/src/linked_triage_contract.rs] (known response wrappers) and
    [crates/cd-core/src/fast_triage/terminal.rs] (one terminal, split into
    reasoning, visible text and typed object). The theorems say what these
    functions may strip: complete reasoning blocks, one complete Markdown fence
    and whitespace, and nothing else. *)
From Stdlib Require Import ZArith Lia Ascii String.
From stdpp Require Import base tactics option list list_numbers sets strings.
From S2P Require Import Prelude RustStr Answer.

Local Open Scope string_scope.
Local Open Scope list_scope.
Local Open Scope Z_scope.

(** ** Diagnostics *)

Inductive LinkedTriageDiagnosticCategory :=
| CandidateContractFailure | FinalComparisonFailure | EmptyTerminalAnswer | TransportFailure
| Timeout | SuccessfulBoundedCorrection | CompatibleSuccess.

Definition classify_final_comparison_outcome (empty_visible : bool)
    (validation : result ValidationError unit) (semantic_attempts : Z)
    (transport_failed timed_out : bool) : LinkedTriageDiagnosticCategory :=
  if timed_out then Timeout
  else if transport_failed then TransportFailure
  else if empty_visible then EmptyTerminalAnswer
  else match validation with
       | Ok _ => if 0 <? semantic_attempts then SuccessfulBoundedCorrection else CompatibleSuccess
       | Err _ => FinalComparisonFailure
       end.

Definition classify_candidate_stage_outcome (empty_visible contract_accepted transport_failed
    timed_out : bool) : LinkedTriageDiagnosticCategory :=
  if timed_out then Timeout
  else if transport_failed then TransportFailure
  else if empty_visible then EmptyTerminalAnswer
  else if contract_accepted then CompatibleSuccess else CandidateContractFailure.

(** ** Reasoning blocks and fences *)

Definition TAGS : list string := ["think"; "analysis"; "reasoning"].
Definition open_tag (tag : string) : string := "<" +:+ tag +:+ ">".
Definition close_tag (tag : string) : string := "</" +:+ tag +:+ ">".

(** The first tag of the list whose opening marker starts [s], with the text
    after the marker. *)
Fixpoint opened (tags : list string) (s : string) : option (string * string) :=
  match tags with
  | [] => None
  | tag :: tags =>
      match strip_prefix (open_tag tag) s with
      | Some body => Some (tag, body)
      | None => opened tags s
      end
  end.

(** One unwrapping of [split_complete_reasoning_prefix]: the first tag that
    opens and closes. *)
Fixpoint unwrap (tags : list string) (s : string) : option (string * string) :=
  match tags with
  | [] => None
  | tag :: tags =>
      match strip_prefix (open_tag tag) s ≫= split_once (close_tag tag) with
      | Some (block, rest) => Some (block, trim rest)
      | None => unwrap tags s
      end
  end.

Fixpoint split_go (n : nat) (reasoning trimmed : string) : string * string :=
  match n with
  | O => (reasoning, trimmed)
  | S n =>
      match unwrap TAGS trimmed with
      | Some (block, rest) => split_go n (reasoning +:+ block) rest
      | None => (reasoning, trimmed)
      end
  end.
Definition split_complete_reasoning_prefix (raw : string) : string * string :=
  split_go 4 "" (trim raw).

Definition strip_complete_reasoning_blocks (raw : string) : string :=
  (split_complete_reasoning_prefix raw).2.
Definition is_empty_visible_terminal (raw : string) : bool :=
  is_empty (trim (strip_complete_reasoning_blocks (trim raw))).

(** [normalize_known_json_wrapper]'s loop; an unclosed block ends it. *)
Fixpoint normalize_go (n : nat) (trimmed : string) : option string :=
  match n with
  | O => Some trimmed
  | S n =>
      match opened TAGS trimmed with
      | Some (tag, body) =>
          '(_, rest) ← split_once (close_tag tag) body; normalize_go n (trim rest)
      | None => Some trimmed
      end
  end.

(** [s.rfind(sep)]: the text before and after the last occurrence. *)
Fixpoint rsplit_once_bytes (sep s : list ascii) : option (list ascii * list ascii) :=
  match s with
  | [] => if bool_decide (sep = []) then Some ([], []) else None
  | a :: r =>
      match rsplit_once_bytes sep r with
      | Some (l, t) => Some (a :: l, t)
      | None => if bool_decide (sep `prefix_of` s) then Some ([], drop (length sep) s) else None
      end
  end.
Definition rsplit_once (sep s : string) : option (string * string) :=
  '(l, r) ← rsplit_once_bytes (bytes sep) (bytes s); Some (of_bytes l, of_bytes r).

Definition LINE_FEED : string := String "010" "".
Definition FENCE : string := "```".
Definition braced (s : string) : bool := starts_with "{" s && ends_with "}" s.

Definition normalize_known_json_wrapper (raw : string) : option string :=
  trimmed ← normalize_go 4 (trim raw);
  match strip_prefix FENCE trimmed with
  | Some fence_body =>
      '(_, body) ← split_once LINE_FEED fence_body;
      '(inner, after) ← rsplit_once FENCE body;
      if negb (is_empty (trim after)) then None
      else let object := trim inner in if braced object then Some object else None
  | None => if braced trimmed then Some trimmed else None
  end.

Definition preparation_for_host_validation (raw : string) :
    result LinkedTriageDiagnosticCategory string :=
  if is_empty_visible_terminal raw then Err EmptyTerminalAnswer
  else match normalize_known_json_wrapper raw with
       | Some object => if is_empty (trim object) then Err EmptyTerminalAnswer else Ok object
       | None => Ok (trim raw)
       end.

Definition visible_text_leaks_reasoning_markers (visible : string) : bool :=
  let lower := to_ascii_lowercase visible in
  existsb (λ tag, contains (open_tag tag) lower || contains (close_tag tag) lower) TAGS.

(** ** One terminal *)

Inductive FastTriageTerminalState := TypedObject | EmptyVisible | Malformed.
#[global] Instance FastTriageTerminalState_eq_dec : EqDecision FastTriageTerminalState.
Proof. solve_decision. Defined.

Record FastTriageToolCallRef := {
  tc_id : string;
  tc_name : string;
  tc_argument_chars : Z;
}.

(** [s.chars().count()]: the bytes that start a character. *)
Definition chars_count (s : string) : Z := zlen (List.filter (λ c, negb (cont c)) (bytes s)).

(** The fields of a [ChatCompletion] the terminal reads; a tool call is its id,
    name and argument text. *)
Record ChatCompletion := {
  cc_content : string;
  cc_tool_calls : list (string * string * string);
  cc_finish_reason : string;
}.

Record FastTriageTerminal := {
  te_visible : string;
  te_typed_object : option string;
  te_reasoning : string;
  te_tool_calls : list FastTriageToolCallRef;
  te_finish_reason : string;
  te_state : FastTriageTerminalState;
}.

Definition classify_visible (visible : string) : FastTriageTerminalState * option string :=
  if is_empty (trim visible) then (EmptyVisible, None)
  else match normalize_known_json_wrapper visible with
       | Some object =>
           if negb (is_empty (trim object)) then (TypedObject, Some object)
           else (EmptyVisible, None)
       | None => (Malformed, None)
       end.

Definition from_raw (raw finish_reason : string) (tool_calls : list FastTriageToolCallRef) :
    FastTriageTerminal :=
  let '(reasoning, visible) := split_complete_reasoning_prefix raw in
  let '(state, typed_object) := classify_visible visible in
  {| te_visible := visible; te_typed_object := typed_object; te_reasoning := reasoning;
     te_tool_calls := tool_calls; te_finish_reason := finish_reason; te_state := state |}.

Definition tool_call_ref (call : string * string * string) : FastTriageToolCallRef :=
  let '(id, name, arguments) := call in
  {| tc_id := id; tc_name := name; tc_argument_chars := chars_count arguments |}.

Definition terminal_parse (completion : ChatCompletion) (streamed : string) : FastTriageTerminal :=
  let raw := if is_empty (trim (cc_content completion)) then streamed else cc_content completion in
  from_raw raw (cc_finish_reason completion) (tool_call_ref <$> cc_tool_calls completion).

Definition visible_chars (t : FastTriageTerminal) : Z := chars_count (te_visible t).
Definition reasoning_chars (t : FastTriageTerminal) : Z := chars_count (te_reasoning t).
Definition reasoning_present (t : FastTriageTerminal) : bool :=
  negb (is_empty (trim (te_reasoning t))).

(** ** What a terminal is made of *)

(** A complete reasoning block and the blank text after it. *)
Record block := { bl_tag : string; bl_text : string; bl_gap : string }.
Definition render_block (b : block) : string :=
  open_tag (bl_tag b) +:+ bl_text b +:+ close_tag (bl_tag b) +:+ bl_gap b.
Definition block_ok (b : block) : Prop :=
  bl_tag b ∈ TAGS ∧ contains (close_tag (bl_tag b)) (bl_text b) = false ∧ blank (bl_gap b).
Fixpoint cat (l : list string) : string :=
  match l with [] => EmptyString | s :: l => s +:+ cat l end.
Definition opens_with_block (s : string) : Prop :=
  ∃ tag text rest, tag ∈ TAGS ∧ s = open_tag tag +:+ text +:+ close_tag tag +:+ rest.

(** [wrapped obj s]: [s] is [obj] inside complete reasoning blocks, blank text
    and at most one fence, which sits directly around the object. *)
Inductive wrapped (obj : string) : string → Prop :=
| wrapped_bare : wrapped obj obj
| wrapped_fence info l r z :
    contains LINE_FEED info = false → blank l → blank r → blank z →
    wrapped obj (FENCE +:+ info +:+ LINE_FEED +:+ l +:+ obj +:+ r +:+ FENCE +:+ z)
| wrapped_blank l s r : blank l → blank r → wrapped obj s → wrapped obj (l +:+ s +:+ r)
| wrapped_block tag text s :
    tag ∈ TAGS → wrapped obj s →
    wrapped obj (open_tag tag +:+ text +:+ close_tag tag +:+ s).

Lemma unwrap_Some tags s text rest :
  unwrap tags s = Some (text, rest) →
  ∃ tag l r, tag ∈ tags ∧ contains (close_tag tag) text = false ∧ blank l ∧ blank r ∧
    s = open_tag tag +:+ text +:+ close_tag tag +:+ l +:+ rest +:+ r.
Proof.
  induction tags as [|tag tags IH]; [done|]. cbn.
  destruct (strip_prefix (open_tag tag) s ≫= split_once (close_tag tag)) as [[b r0]|] eqn:E.
  - intros [= -> <-]. apply bind_Some in E as (body & Hs%strip_prefix_Some & Hc).
    apply split_once_Some in Hc as [-> Hc]. destruct (trim_split r0) as (l & r & Hr0 & Hl & Hr).
    exists tag, l, r. split_and!; [by left|by apply Hc|done..|]. by rewrite <-Hr0.
  - intros (t & l & r & ? & ?)%IH. exists t, l, r. split; [by right|done].
Qed.

Lemma unwrap_None tags s tag text rest :
  unwrap tags s = None → tag ∈ tags →
  s ≠ open_tag tag +:+ text +:+ close_tag tag +:+ rest.
Proof.
  intros Hu Ht ->. induction tags as [|t tags IH]; [by apply not_elem_of_nil in Ht|].
  cbn in Hu. destruct (strip_prefix (open_tag t) _ ≫= _) as [[]|] eqn:E; [done|].
  apply elem_of_cons in Ht as [->|Ht]; [|by apply IH].
  rewrite (proj2 (strip_prefix_Some _ _ _) eq_refl) in E. cbn in E.
  apply split_once_None, not_true_iff_false in E. apply E, contains_spec. eauto.
Qed.

Lemma split_go_exact n acc s :
  ∃ blocks tail,
    s = cat (render_block <$> blocks) +:+ (split_go n acc s).2 +:+ tail ∧
    (split_go n acc s).1 = acc +:+ cat (bl_text <$> blocks) ∧
    Forall block_ok blocks ∧ blank tail ∧ (length blocks ≤ n)%nat ∧
    ((length blocks < n)%nat → ~ opens_with_block (split_go n acc s).2).
Proof.
  revert acc s. induction n as [|n IH]; intros acc s.
  { exists [], EmptyString. cbn. rewrite !str_app_nil_r.
    split_and!; [done..|constructor|constructor|lia|lia]. }
  cbn [split_go]. destruct (unwrap TAGS s) as [[text rest]|] eqn:E.
  - destruct (unwrap_Some _ _ _ _ E) as (tag & l & r & Ht & Hc & Hl & Hr & Hs).
    destruct (IH (acc +:+ text) rest) as (blocks & tail & Hrest & Hacc & Hok & Htail & Hlen & Hmax).
    exists ({| bl_tag := tag; bl_text := text; bl_gap := l |} :: blocks), (tail +:+ r).
    split_and!.
    + rewrite Hs. rewrite Hrest at 1. cbn. unfold render_block. cbn. by rewrite !str_assoc.
    + rewrite Hacc. cbn. by rewrite str_assoc.
    + by constructor.
    + by apply blank_app.
    + cbn. lia.
    + cbn. intros ?. apply Hmax. lia.
  - exists [], EmptyString. cbn. rewrite !str_app_nil_r.
    split_and!; [done..|constructor|constructor|lia|].
    intros _ (tag & text & rest & Ht & Hs). exact (unwrap_None _ _ _ _ _ E Ht Hs).
Qed.

Lemma opened_Some tags s tag body :
  opened tags s = Some (tag, body) → tag ∈ tags ∧ s = open_tag tag +:+ body.
Proof.
  induction tags as [|t tags IH]; [done|]. cbn.
  destruct (strip_prefix (open_tag t) s) eqn:E.
  - intros [= -> ->]. apply strip_prefix_Some in E. split; [by left|done].
  - intros [? ?]%IH. split; [by right|done].
Qed.

Lemma wrapped_trim obj s : wrapped obj (trim s) → wrapped obj s.
Proof.
  intros H. destruct (trim_split s) as (l & r & E & ? & ?).
  remember (trim s) as t eqn:Ht. rewrite E. by apply wrapped_blank.
Qed.

Lemma normalize_go_wrapped n obj s v :
  normalize_go n s = Some v → wrapped obj v → wrapped obj s.
Proof.
  revert s. induction n as [|n IH]; intros s; cbn [normalize_go]; [by intros [= ->]|].
  destruct (opened TAGS s) as [[tag body]|] eqn:E; [|by intros [= ->]].
  intros ([text rest] & Hc & Hgo)%bind_Some Hv.
  apply opened_Some in E as [Ht ->]. apply split_once_Some in Hc as [-> _].
  apply wrapped_block; [done|]. apply wrapped_trim. by apply (IH (trim rest)).
Qed.

Lemma rsplit_once_bytes_Some sep s l t :
  rsplit_once_bytes sep s = Some (l, t) → s = l ++ sep ++ t.
Proof.
  revert l t. induction s as [|a s IH]; intros l t; cbn.
  - case_bool_decide; [|done]. subst. by intros [= <- <-].
  - destruct (rsplit_once_bytes sep s) as [[l0 t0]|].
    + intros [= <- <-]. by rewrite (IH l0 t0 eq_refl).
    + case_bool_decide; [|done]. intros [= <- <-]. by apply (prefix_drop sep).
Qed.

Lemma rsplit_once_Some sep s l t : rsplit_once sep s = Some (l, t) → s = l +:+ sep +:+ t.
Proof.
  unfold rsplit_once. destruct (rsplit_once_bytes _ _) as [[l0 t0]|] eqn:E; [|done].
  intros [= <- <-]. apply rsplit_once_bytes_Some in E. apply (inj bytes).
  by rewrite !bytes_app, !bytes_of_bytes.
Qed.

Lemma normalize_known_json_wrapper_wrapped raw obj :
  normalize_known_json_wrapper raw = Some obj → braced obj = true ∧ wrapped obj raw.
Proof.
  unfold normalize_known_json_wrapper. intros (v & Hgo & H)%bind_Some.
  enough (braced obj = true ∧ wrapped obj v) as [? Hv].
  { split; [done|]. apply wrapped_trim. by apply (normalize_go_wrapped 4 _ _ v). }
  destruct (strip_prefix FENCE v) as [body0|] eqn:Hf.
  - apply strip_prefix_Some in Hf as ->.
    apply bind_Some in H as ([info body] & Hi & H). apply bind_Some in H as ([inner z] & Hr & H).
    apply split_once_Some in Hi as [-> Hi]. apply rsplit_once_Some in Hr as ->.
    destruct (is_empty (trim z)) eqn:Hz; [|done]. cbn in H.
    destruct (braced (trim inner)) eqn:Hb; [|done]. injection H as <-. split; [done|].
    destruct (trim_split inner) as (l & r & E & Hl & Hrr).
    remember (trim inner) as o eqn:Ho. rewrite E, !str_assoc.
    apply wrapped_fence; [by apply Hi|done..|]. apply blank_of_trim. by apply bool_decide_eq_true in Hz.
  - destruct (braced v) eqn:Hb; [|done]. injection H as <-. split; [done|constructor].
Qed.

Lemma wrapped_split_go n acc obj s : wrapped obj (split_go n acc s).2 → wrapped obj s.
Proof.
  revert acc s. induction n as [|n IH]; intros acc s; cbn [split_go]; [done|].
  destruct (unwrap TAGS s) as [[text rest]|] eqn:E; [|done]. intros H%IH.
  destruct (unwrap_Some _ _ _ _ E) as (tag & l & r & Ht & _ & Hl & Hr & ->).
  apply wrapped_block; [done|]. by apply wrapped_blank.
Qed.

Lemma reasoning_split_wrapped raw obj :
  wrapped obj (split_complete_reasoning_prefix raw).2 → wrapped obj raw.
Proof. intros H%wrapped_split_go. by apply wrapped_trim. Qed.

(** An object between braces survives trimming. *)
Lemma braced_not_blank s : braced s = true → is_empty (trim s) = false.
Proof.
  unfold braced. intros [(r & ->)%starts_with_spec He]%andb_true_iff.
  apply bool_decide_eq_true in He as [k Hk]. change (bytes "}") with ["}"%char] in Hk.
  apply bool_decide_eq_false. intros E%(f_equal bytes). revert E. unfold trim, trim_bytes.
  rewrite bytes_of_bytes. rewrite bytes_app in *. change (bytes "{") with ["{"%char] in *.
  cbn [app] in *. rewrite trim_start_plain by done. rewrite Hk, rev_app_distr. cbn [rev app].
  rewrite trim_end_plain by done. cbn [rev]. rewrite rev_involutive.
  by destruct k.
Qed.

(** ** Claims *)

(** Splitting a terminal into reasoning and visible text loses nothing: the
    raw text is blank space, at most four complete reasoning blocks, the visible
    text and blank space, in this order, and the reasoning is exactly the text of
    those blocks. When fewer than four blocks were taken, the visible text does
    not begin with another complete block. *)
Theorem reasoning_split_is_exact raw :
  let '(reasoning, visible) := split_complete_reasoning_prefix raw in
  ∃ lead blocks tail,
    raw = lead +:+ cat (render_block <$> blocks) +:+ visible +:+ tail ∧
    blank lead ∧ blank tail ∧ Forall block_ok blocks ∧
    reasoning = cat (bl_text <$> blocks) ∧ (length blocks ≤ 4)%nat ∧
    ((length blocks < 4)%nat → ~ opens_with_block visible).
Proof.
  unfold split_complete_reasoning_prefix.
  destruct (trim_split raw) as (l & r & E & Hl & Hr). revert E.
  generalize (trim raw) as t. intros t ->.
  destruct (split_go_exact 4 EmptyString t) as (blocks & tail & Ht & Hacc & Hok & Htail & Hlen & Hmax).
  destruct (split_go 4 EmptyString t) as [reasoning visible]. cbn [fst snd] in *.
  exists l, blocks, (tail +:+ r). split_and!; [|done|by apply blank_app|done..].
  by rewrite Ht, !str_assoc.
Qed.

(** A typed object is a verbatim piece of the raw terminal: it starts with an
    opening and ends with a closing brace, and everything around it is complete
    reasoning blocks, blank space and at most one complete code fence. So prose is
    never repaired into an object and no byte of the object is changed. The typed
    object is present exactly in the typed state, and an empty visible terminal
    held nothing but reasoning blocks and blank space. *)
Theorem typed_object_is_verbatim raw finish_reason tool_calls :
  let t := from_raw raw finish_reason tool_calls in
  match te_state t, te_typed_object t with
  | TypedObject, Some obj => braced obj = true ∧ wrapped obj raw
  | EmptyVisible, None => wrapped EmptyString raw
  | Malformed, None => normalize_known_json_wrapper (te_visible t) = None
  | _, _ => False
  end.
Proof.
  unfold from_raw. pose proof (reasoning_split_wrapped raw) as Hw.
  destruct (split_complete_reasoning_prefix raw) as [reasoning visible]. cbn [snd] in Hw.
  unfold classify_visible. destruct (is_empty (trim visible)) eqn:He; cbn [te_state te_typed_object te_visible].
  { apply Hw, wrapped_trim. apply bool_decide_eq_true in He as ->. constructor. }
  destruct (normalize_known_json_wrapper visible) as [obj|] eqn:Hn; [|exact Hn].
  apply normalize_known_json_wrapper_wrapped in Hn as [Hb Hv].
  rewrite braced_not_blank by done. cbn [negb te_state te_typed_object]. eauto.
Qed.
