(* ===== verification/Neighborhood.v ===== *)
(** * The fast-triage neighborhood

    [crates/cd-core/src/fast_triage/neighborhood.rs]: the bounded classification
    of the host's evidence rows. The scope of a row is declared in
    [fast_triage/packet.rs], the two bounds in [tool_host.rs]. *)
From Stdlib Require Import ZArith Lia Ascii String.
From stdpp Require Import base tactics option list list_numbers sets sorting strings.
From S2P Require Import Prelude RustStr BTree.

Local Open Scope string_scope.
Local Open Scope list_scope.
Local Open Scope Z_scope.

(** ** Vocabulary *)

Inductive TimeQuality := TimeWall | TimeMixed | TimeOrderOnly.

Inductive FastTriageClockCompatibility := ResolvedComparable | OrderOnly.
#[global] Instance FastTriageClockCompatibility_eq_dec : EqDecision FastTriageClockCompatibility.
Proof. solve_decision. Defined.
Definition clock_as_str (c : FastTriageClockCompatibility) : string :=
  match c with ResolvedComparable => "resolved_comparable" | OrderOnly => "order_only" end.
Definition clock_compatibility_from_time_quality (q : TimeQuality) :
    FastTriageClockCompatibility :=
  match q with TimeWall => ResolvedComparable | TimeMixed | TimeOrderOnly => OrderOnly end.

Inductive FastTriageEvidenceScope := ScopeCandidate | ScopeIndependent.
#[global] Instance FastTriageEvidenceScope_eq_dec : EqDecision FastTriageEvidenceScope.
Proof. solve_decision. Defined.
Definition scope_as_str (s : FastTriageEvidenceScope) : string :=
  match s with ScopeCandidate => "candidate" | ScopeIndependent => "independent" end.

Inductive FastTriageEvidenceCategory :=
| Focus | PrecedingSameSource | FollowingSameSource | CrossSourceTemporal | TraceLinked
| Propagation | IndependentNoise.
#[global] Instance FastTriageEvidenceCategory_eq_dec : EqDecision FastTriageEvidenceCategory.
Proof. solve_decision. Defined.
Definition category_as_str (c : FastTriageEvidenceCategory) : string :=
  match c with
  | Focus => "focus"
  | PrecedingSameSource => "preceding_same_source"
  | FollowingSameSource => "following_same_source"
  | CrossSourceTemporal => "cross_source_temporal"
  | TraceLinked => "trace_linked"
  | Propagation => "propagation"
  | IndependentNoise => "independent_noise"
  end.

Record FastTriageNeighborhoodBudget := {
  same_source_radius : Z;
  cross_source_radius : Z;
  max_context_rows : Z;
}.
Definition BROAD_LOG_TRIAGE_COMPARISON_NEIGHBOR_RADIUS : Z := 2.
Definition BROAD_LOG_TRIAGE_COMPARISON_CONTEXT_IDENTITY_CAP : Z := 32.
Definition default_budget : FastTriageNeighborhoodBudget :=
  {| same_source_radius := BROAD_LOG_TRIAGE_COMPARISON_NEIGHBOR_RADIUS;
     cross_source_radius := BROAD_LOG_TRIAGE_COMPARISON_NEIGHBOR_RADIUS;
     max_context_rows := BROAD_LOG_TRIAGE_COMPARISON_CONTEXT_IDENTITY_CAP |}.

Record NeighborhoodRow := {
  nr_evidence_id : string;
  nr_candidate_id : string;
  nr_source_label : string;
  nr_scope : FastTriageEvidenceScope;
  nr_chronology_ordinal : option Z;
}.

Record FastTriageNeighborhood := {
  categories : list (string * FastTriageEvidenceCategory);
  withheld_clock_incompatible : Z;
  withheld_out_of_radius : Z;
  withheld_over_budget : Z;
}.
Definition category (n : FastTriageNeighborhood) (id : string) :
    option FastTriageEvidenceCategory := bmap_get id (categories n).
Definition category_count (n : FastTriageNeighborhood) (c : FastTriageEvidenceCategory) : Z :=
  zlen (List.filter (λ v, bool_decide (v = c)) (categories n).*2).

Definition in_scope (s : FastTriageEvidenceScope) (row : NeighborhoodRow) : bool :=
  bool_decide (nr_scope row = s).

(** ** Focus geometry *)

Record Geometry := {
  candidate_first : list (string * (Z * string));
  focus_ordinals_by_source : list (string * list Z);
  all_focus_ordinals : list Z;
}.

(** [(ordinal, source) < (current.0, current.1)] *)
Definition pair_ltb (a b : Z * string) : bool :=
  (a.1 <? b.1) || ((a.1 =? b.1) && bool_decide (String.le a.2 b.2) && negb (bool_decide (a.2 = b.2))).
Definition earlier (a current : Z * string) : Z * string := if pair_ltb a current then a else current.

Definition focus_step (g : Geometry) (row : NeighborhoodRow) : Geometry :=
  match nr_chronology_ordinal row with
  | None => g
  | Some ordinal =>
      {| candidate_first :=
           bmap_upsert (nr_candidate_id row) (earlier (ordinal, nr_source_label row))
             (ordinal, nr_source_label row) (candidate_first g);
         focus_ordinals_by_source :=
           bmap_upsert (nr_source_label row) (set_insert ordinal) [ordinal]
             (focus_ordinals_by_source g);
         all_focus_ordinals := set_insert ordinal (all_focus_ordinals g) |}
  end.
Definition no_geometry : Geometry :=
  {| candidate_first := []; focus_ordinals_by_source := []; all_focus_ordinals := [] |}.
Definition focus_geometry (rows : list NeighborhoodRow) : Geometry :=
  foldl focus_step no_geometry (List.filter (in_scope ScopeCandidate) rows).

(** ** Candidate rows *)

Definition candidate_category (traces : list string) (g : Geometry) (row : NeighborhoodRow) :
    FastTriageEvidenceCategory :=
  match bool_decide (nr_candidate_id row ∈ traces),
        bmap_get (nr_candidate_id row) (candidate_first g), nr_chronology_ordinal row with
  | true, Some (first_ordinal, first_source), Some ordinal =>
      if negb (bool_decide (nr_source_label row = first_source))
      then if first_ordinal <? ordinal then Propagation else TraceLinked
      else Focus
  | true, Some (_, first_source), None =>
      if negb (bool_decide (nr_source_label row = first_source)) then TraceLinked else Focus
  | _, _, _ => Focus
  end.

(** ** Independent rows *)

Definition abs_diff (a b : Z) : Z := Z.abs (a - b).

(** [iter.min()]: the first of the least values. *)
Definition min_by {A} (lt : A → A → bool) (l : list A) : option A :=
  match l with
  | [] => None
  | a :: l => Some (foldl (λ m x, if lt x m then x else m) a l)
  end.
Definition zpair_ltb (a b : Z * Z) : bool := (a.1 <? b.1) || ((a.1 =? b.1) && (a.2 <? b.2)).
Definition unwrap_or {A} (d : A) (o : option A) : A := match o with Some a => a | None => d end.

Record Ranked := {
  rk_distance : Z;
  rk_ordinal : Z;
  rk_evidence_id : string;
  rk_category : FastTriageEvidenceCategory;
}.

(** What the loop body does with a row: withhold it for a reason, or rank it. *)
Inductive Placement := NoOrdinal | OutOfRadius | ClockIncompatible | Rank (r : Ranked).

Definition place_row (clock : FastTriageClockCompatibility) (budget : FastTriageNeighborhoodBudget)
    (g : Geometry) (row : NeighborhoodRow) : Placement :=
  match nr_chronology_ordinal row with
  | None => NoOrdinal
  | Some ordinal =>
      match bmap_get (nr_source_label row) (focus_ordinals_by_source g) with
      | Some focus =>
          let nearest := unwrap_or (u64_max, ordinal)
            (min_by zpair_ltb ((λ value, (abs_diff value ordinal, value)) <$> focus)) in
          if same_source_radius budget <? nearest.1 then OutOfRadius
          else Rank {| rk_distance := nearest.1; rk_ordinal := ordinal;
                       rk_evidence_id := nr_evidence_id row;
                       rk_category := if ordinal <? nearest.2 then PrecedingSameSource
                                      else FollowingSameSource |}
      | None =>
          if negb (bool_decide (clock = ResolvedComparable)) then ClockIncompatible
          else
            let nearest := unwrap_or u64_max
              (min_by Z.ltb ((λ value, abs_diff value ordinal) <$> all_focus_ordinals g)) in
            if cross_source_radius budget <? nearest then OutOfRadius
            else Rank {| rk_distance := nearest; rk_ordinal := ordinal;
                         rk_evidence_id := nr_evidence_id row;
                         rk_category := CrossSourceTemporal |}
      end
  end.

Definition put_category (id : string) (c : FastTriageEvidenceCategory) (out : FastTriageNeighborhood) :
    FastTriageNeighborhood :=
  {| categories := bmap_insert id c (categories out);
     withheld_clock_incompatible := withheld_clock_incompatible out;
     withheld_out_of_radius := withheld_out_of_radius out;
     withheld_over_budget := withheld_over_budget out |}.
Definition bump_clock (out : FastTriageNeighborhood) : FastTriageNeighborhood :=
  {| categories := categories out;
     withheld_clock_incompatible := withheld_clock_incompatible out + 1;
     withheld_out_of_radius := withheld_out_of_radius out;
     withheld_over_budget := withheld_over_budget out |}.
Definition bump_radius (out : FastTriageNeighborhood) : FastTriageNeighborhood :=
  {| categories := categories out;
     withheld_clock_incompatible := withheld_clock_incompatible out;
     withheld_out_of_radius := withheld_out_of_radius out + 1;
     withheld_over_budget := withheld_over_budget out |}.
Definition bump_budget (out : FastTriageNeighborhood) : FastTriageNeighborhood :=
  {| categories := categories out;
     withheld_clock_incompatible := withheld_clock_incompatible out;
     withheld_out_of_radius := withheld_out_of_radius out;
     withheld_over_budget := withheld_over_budget out + 1 |}.

Definition independent_step (clock : FastTriageClockCompatibility)
    (budget : FastTriageNeighborhoodBudget) (g : Geometry)
    (st : FastTriageNeighborhood * list Ranked) (row : NeighborhoodRow) :
    FastTriageNeighborhood * list Ranked :=
  let '(out, ranked) := st in
  match place_row clock budget g row with
  | NoOrdinal => (put_category (nr_evidence_id row) IndependentNoise out, ranked)
  | OutOfRadius => (put_category (nr_evidence_id row) IndependentNoise (bump_radius out), ranked)
  | ClockIncompatible => (put_category (nr_evidence_id row) IndependentNoise (bump_clock out), ranked)
  | Rank r => (out, ranked ++ [r])
  end.

(** [(distance, ordinal, evidence_id)], lexicographically. *)
Definition ranked_leb (a b : Ranked) : bool :=
  (rk_distance a <? rk_distance b) ||
  ((rk_distance a =? rk_distance b) &&
     ((rk_ordinal a <? rk_ordinal b) ||
      ((rk_ordinal a =? rk_ordinal b) &&
         bool_decide (String.le (rk_evidence_id a) (rk_evidence_id b))))).

Definition final_step (budget : FastTriageNeighborhoodBudget)
    (st : FastTriageNeighborhood * Z) (row : Ranked) : FastTriageNeighborhood * Z :=
  let '(out, index) := st in
  (if index <? max_context_rows budget then put_category (rk_evidence_id row) (rk_category row) out
   else put_category (rk_evidence_id row) IndependentNoise (bump_budget out), index + 1).

Definition empty_neighborhood : FastTriageNeighborhood :=
  {| categories := []; withheld_clock_incompatible := 0; withheld_out_of_radius := 0;
     withheld_over_budget := 0 |}.

Definition classify_neighborhood (rows : list NeighborhoodRow) (traces : list string)
    (clock : FastTriageClockCompatibility) (budget : FastTriageNeighborhoodBudget) :
    FastTriageNeighborhood :=
  let g := focus_geometry rows in
  let out := foldl (λ out row, put_category (nr_evidence_id row) (candidate_category traces g row) out)
    empty_neighborhood (List.filter (in_scope ScopeCandidate) rows) in
  let '(out, ranked) := foldl (independent_step clock budget g) (out, [])
    (List.filter (in_scope ScopeIndependent) rows) in
  (foldl (final_step budget) (out, 0) (sort_by ranked_leb ranked)).1.

(** ** What the loops compute *)

Definition bump (dclock dradius dbudget : Z) (l : list (string * FastTriageEvidenceCategory))
    (out : FastTriageNeighborhood) : FastTriageNeighborhood :=
  {| categories := inserts (categories out) l;
     withheld_clock_incompatible := withheld_clock_incompatible out + dclock;
     withheld_out_of_radius := withheld_out_of_radius out + dradius;
     withheld_over_budget := withheld_over_budget out + dbudget |}.

Definition is_clock (p : Placement) : bool := match p with ClockIncompatible => true | _ => false end.
Definition is_radius (p : Placement) : bool := match p with OutOfRadius => true | _ => false end.
Definition is_unplaced (p : Placement) : bool := match p with NoOrdinal => true | _ => false end.
Definition ranked_of (p : Placement) : option Ranked := match p with Rank r => Some r | _ => None end.
Definition withheld_of (x : NeighborhoodRow * Placement) :
    option (string * FastTriageEvidenceCategory) :=
  match x.2 with Rank _ => None | _ => Some (nr_evidence_id x.1, IndependentNoise) end.

Definition tally (p : Placement → bool) (l : list Placement) : Z := zlen (List.filter p l).

(** The categories of the ranked rows, the first [n] of which fit the budget. *)
Fixpoint capped (n : Z) (l : list Ranked) : list (string * FastTriageEvidenceCategory) :=
  match l with
  | [] => []
  | r :: l => (rk_evidence_id r, if 0 <? n then rk_category r else IndependentNoise) :: capped (n - 1) l
  end.

Section facts.
Context (traces : list string) (clock : FastTriageClockCompatibility)
        (budget : FastTriageNeighborhoodBudget).

Lemma bump_bump a b c l a' b' c' l' out :
  bump a' b' c' l' (bump a b c l out) = bump (a + a') (b + b') (c + c') (l ++ l') out.
Proof. unfold bump, inserts. cbn. rewrite foldl_app. f_equal; lia. Qed.

Lemma bump_nil out : bump 0 0 0 [] out = out.
Proof. destruct out. unfold bump. cbn. f_equal; lia. Qed.

Lemma put_bump id c out : put_category id c out = bump 0 0 0 [(id, c)] out.
Proof. unfold put_category, bump. cbn. f_equal; lia. Qed.
Lemma put_bump_clock id c out : put_category id c (bump_clock out) = bump 1 0 0 [(id, c)] out.
Proof. unfold put_category, bump_clock, bump. cbn. f_equal; lia. Qed.
Lemma put_bump_radius id c out : put_category id c (bump_radius out) = bump 0 1 0 [(id, c)] out.
Proof. unfold put_category, bump_radius, bump. cbn. f_equal; lia. Qed.
Lemma put_bump_budget id c out : put_category id c (bump_budget out) = bump 0 0 1 [(id, c)] out.
Proof. unfold put_category, bump_budget, bump. cbn. f_equal; lia. Qed.

Lemma candidate_loop (f : NeighborhoodRow → FastTriageEvidenceCategory) out rows :
  foldl (λ out row, put_category (nr_evidence_id row) (f row) out) out rows =
  bump 0 0 0 ((λ row, (nr_evidence_id row, f row)) <$> rows) out.
Proof.
  revert out. induction rows as [|r rows IH]; intros out; cbn; [by rewrite bump_nil|].
  by rewrite IH, put_bump, bump_bump.
Qed.

Lemma independent_loop g out rk rows :
  let ps := place_row clock budget g <$> rows in
  foldl (independent_step clock budget g) (out, rk) rows =
  (bump (tally is_clock ps) (tally is_radius ps) 0 (omap withheld_of (zip rows ps)) out,
   rk ++ omap ranked_of ps).
Proof.
  cbn zeta. revert out rk. induction rows as [|r rows IH]; intros out rk.
  { cbn. by rewrite bump_nil, app_nil_r. }
  cbn [foldl fmap list_fmap zip_with omap list_omap]. unfold independent_step at 2. unfold tally in *.
  unfold withheld_of at 1. cbn [snd fst List.filter].
  destruct (place_row clock budget g r) as [| | |q]; cbn [is_clock is_radius ranked_of]; rewrite IH.
  - by rewrite put_bump, bump_bump.
  - rewrite put_bump_radius, bump_bump, !zlen_cons. cbn [app]. by rewrite Z.add_0_l.
  - rewrite put_bump_clock, bump_bump, !zlen_cons. cbn [app]. by rewrite Z.add_0_l.
  - by rewrite <-(assoc_L (++)).
Qed.

Lemma final_loop out i l :
  0 ≤ i →
  (foldl (final_step budget) (out, i) l).1 =
  bump 0 0 (zlen l - Z.min (zlen l) (Z.max 0 (max_context_rows budget - i)))
    (capped (max_context_rows budget - i) l) out.
Proof.
  revert out i. induction l as [|r l IH]; intros out i Hi.
  { cbn [foldl capped]. transitivity (bump 0 0 0 [] out); [by rewrite bump_nil|].
    f_equal. unfold zlen. cbn [length]. lia. }
  cbn [foldl capped]. unfold final_step at 2. rewrite zlen_cons. pose proof (zlen_nonneg l).
  replace (0 <? max_context_rows budget - i) with (i <? max_context_rows budget) by lia.
  replace (max_context_rows budget - i - 1) with (max_context_rows budget - (i + 1)) by lia.
  destruct (Z.ltb_spec i (max_context_rows budget)) as [Hlt|Hge]; rewrite IH by lia.
  - rewrite put_bump, bump_bump. cbn [app]. f_equal. lia.
  - rewrite put_bump_budget, bump_bump. cbn [app]. f_equal. lia.
Qed.

(** *** Geometry *)

Lemma pair_ltb_spec a b :
  pair_ltb a b = true ↔ a.1 < b.1 ∨ a.1 = b.1 ∧ String.le a.2 b.2 ∧ a.2 ≠ b.2.
Proof.
  unfold pair_ltb. rewrite orb_true_iff, !andb_true_iff, Z.ltb_lt, Z.eqb_eq, negb_true_iff.
  rewrite bool_decide_eq_true, bool_decide_eq_false. tauto.
Qed.

Lemma pair_ltb_total a b : pair_ltb a b = false → pair_ltb b a = false → a = b.
Proof.
  rewrite <-!not_true_iff_false, !pair_ltb_spec. destruct a as [x s], b as [y t]. cbn.
  intros H1 H2. assert (x = y) as ->.
  { destruct (Z.lt_trichotomy x y) as [?|[?|?]]; [destruct H1; by left|done|destruct H2; left; lia]. }
  destruct (decide (s = t)) as [->|Hst]; [done|].
  destruct (total String.le s t); [destruct H1|destruct H2]; by right.
Qed.

Lemma pair_ltb_trans a b c : pair_ltb a b = true → pair_ltb b c = true → pair_ltb a c = true.
Proof.
  rewrite !pair_ltb_spec. intros [H1|(H1 & Hle & Hne)] [H2|(H2 & Hle' & Hne')]; [left; lia..|].
  right. split; [lia|]. split; [by etrans|]. intros E. rewrite E in *.
  apply Hne'. by apply (anti_symm String.le).
Qed.

Lemma pair_ltb_asym a b : pair_ltb a b = true → pair_ltb b a = false.
Proof.
  intros H. apply not_true_iff_false. intros H'. pose proof (pair_ltb_trans _ _ _ H H') as E.
  apply pair_ltb_spec in E as [?|(_ & _ & ?)]; [lia|done].
Qed.

Lemma earlier_comm a b : earlier a b = earlier b a.
Proof.
  unfold earlier. destruct (pair_ltb a b) eqn:E; [by rewrite (pair_ltb_asym _ _ E)|].
  destruct (pair_ltb b a) eqn:E'; [done|]. symmetry. by apply pair_ltb_total.
Qed.

Lemma earlier_left_comm a b x : earlier a (earlier b x) = earlier b (earlier a x).
Proof.
  unfold earlier.
  destruct (pair_ltb b x) eqn:Hbx, (pair_ltb a x) eqn:Hax; rewrite ?Hbx, ?Hax; try done.
  - apply earlier_comm.
  - destruct (pair_ltb a b) eqn:Hab; [|done].
    by rewrite (pair_ltb_trans _ _ _ Hab Hbx) in Hax.
  - destruct (pair_ltb b a) eqn:Hba; [|done].
    by rewrite (pair_ltb_trans _ _ _ Hba Hax) in Hbx.
Qed.

Definition geometry_ok (g : Geometry) : Prop :=
  bmap_ok (candidate_first g) ∧ bmap_ok (focus_ordinals_by_source g) ∧
  (∀ k s, bmap_get k (focus_ordinals_by_source g) = Some s → StronglySorted key_lt s ∧ s ≠ []) ∧
  StronglySorted key_lt (all_focus_ordinals g).

Lemma focus_step_ok g row : geometry_ok g → geometry_ok (focus_step g row).
Proof.
  intros (H1 & H2 & H3 & H4). unfold focus_step. destruct (nr_chronology_ordinal row); [|done].
  split_and!; cbn; [by apply bmap_upsert_ok..| |by apply set_insert_sorted].
  intros k s. rewrite bmap_get_upsert. case_bool_decide; [|by apply H3]. intros [= <-].
  destruct (bmap_get _ _) as [s|] eqn:E; cbn; [|by repeat constructor].
  destruct (H3 _ _ E). split; [by apply set_insert_sorted|].
  intros Hs. apply (not_elem_of_nil z). rewrite <-Hs. apply set_insert_elem. by left.
Qed.

Lemma no_geometry_ok : geometry_ok no_geometry.
Proof. split_and!; [constructor..|done|constructor]. Qed.

Lemma focus_geometry_ok rows : geometry_ok (focus_geometry rows).
Proof. apply (foldl_inv geometry_ok); [apply focus_step_ok|apply no_geometry_ok]. Qed.

Lemma focus_step_comm g a b :
  geometry_ok g → focus_step (focus_step g a) b = focus_step (focus_step g b) a.
Proof.
  intros (H1 & H2 & H3 & H4). unfold focus_step.
  destruct (nr_chronology_ordinal a), (nr_chronology_ordinal b); try done. cbn. f_equal.
  - apply bmap_upsert_comm; [done|apply earlier_comm|]. intros. apply earlier_left_comm.
  - apply bmap_upsert_comm; [done|apply (set_insert_comm _ _ []); constructor|].
    intros x Hx. apply set_insert_comm. by destruct (H3 _ _ Hx).
  - by apply set_insert_comm.
Qed.

Lemma focus_geometry_perm rows rows' : rows ≡ₚ rows' → focus_geometry rows = focus_geometry rows'.
Proof.
  intros Hp. apply (foldl_perm geometry_ok);
    [apply focus_step_ok|apply focus_step_comm|apply no_geometry_ok|by rewrite Hp].
Qed.

(** *** The whole classification *)

Definition candidates (rows : list NeighborhoodRow) := List.filter (in_scope ScopeCandidate) rows.
Definition independents (rows : list NeighborhoodRow) := List.filter (in_scope ScopeIndependent) rows.
Definition placements (rows : list NeighborhoodRow) : list Placement :=
  place_row clock budget (focus_geometry rows) <$> independents rows.
Definition ranking (rows : list NeighborhoodRow) : list Ranked :=
  sort_by ranked_leb (omap ranked_of (placements rows)).
Definition assignments (rows : list NeighborhoodRow) :
    list (string * FastTriageEvidenceCategory) :=
  ((λ row, (nr_evidence_id row, candidate_category traces (focus_geometry rows) row))
     <$> candidates rows) ++
  omap withheld_of (zip (independents rows) (placements rows)) ++
  capped (max_context_rows budget) (ranking rows).

Lemma classify_eq rows :
  classify_neighborhood rows traces clock budget =
  bump (tally is_clock (placements rows)) (tally is_radius (placements rows))
    (zlen (ranking rows) - Z.min (zlen (ranking rows)) (Z.max 0 (max_context_rows budget)))
    (assignments rows) empty_neighborhood.
Proof.
  unfold classify_neighborhood. rewrite candidate_loop, independent_loop. cbn zeta. cbn [app].
  rewrite final_loop by lia. rewrite !bump_bump, Z.sub_0_r.
  unfold ranking, placements, independents. f_equal; lia.
Qed.

Lemma scopes_perm rows : candidates rows ++ independents rows ≡ₚ rows.
Proof.
  unfold candidates, independents. induction rows as [|r rows IH]; [done|]. cbn [List.filter].
  assert (in_scope ScopeIndependent r = negb (in_scope ScopeCandidate r)) as ->
    by (unfold in_scope; by destruct (nr_scope r)).
  destruct (in_scope ScopeCandidate r); cbn [negb app]; [by rewrite IH|].
  by rewrite <-Permutation_middle, IH.
Qed.

Lemma place_row_id g row r : place_row clock budget g row = Rank r → rk_evidence_id r = nr_evidence_id row.
Proof.
  unfold place_row. intros H.
  repeat (case_match; cbn in H; try discriminate); by injection H as <-.
Qed.

Lemma capped_keys n l : keys (capped n l) = rk_evidence_id <$> l.
Proof.
  revert n. induction l as [|r l IH]; intros n; [done|]. cbn.
  change (keys ((rk_evidence_id r, ?c) :: ?k)) with (rk_evidence_id r :: keys k).
  by rewrite IH.
Qed.

Lemma placed_ids g rows :
  keys (omap withheld_of (zip rows (place_row clock budget g <$> rows))) ++
  (rk_evidence_id <$> omap ranked_of (place_row clock budget g <$> rows)) ≡ₚ nr_evidence_id <$> rows.
Proof.
  induction rows as [|r rows IH]; [done|].
  cbn [fmap list_fmap zip_with omap list_omap]. unfold withheld_of at 1. cbn [snd fst].
  destruct (place_row clock budget g r) as [| | |q] eqn:E; cbn [ranked_of];
    [unfold keys in *; cbn; by rewrite IH..|].
  rewrite fmap_cons, <-Permutation_middle, IH. by rewrite (place_row_id _ _ _ E).
Qed.

Lemma assignments_keys rows : keys (assignments rows) ≡ₚ nr_evidence_id <$> rows.
Proof.
  transitivity (nr_evidence_id <$> candidates rows ++ independents rows); [|by rewrite scopes_perm].
  unfold assignments, ranking, placements, keys at 1. rewrite !fmap_app. f_equiv.
  - by rewrite <-list_fmap_compose.
  - fold (keys (capped (max_context_rows budget)
      (sort_by ranked_leb (omap ranked_of (place_row clock budget (focus_geometry rows)
         <$> independents rows))))).
    rewrite capped_keys, sort_by_perm. apply placed_ids.
Qed.

(** *** The ranking *)

Lemma ranked_leb_spec a b :
  ranked_leb a b = true ↔
    rk_distance a < rk_distance b ∨ rk_distance a = rk_distance b ∧
      (rk_ordinal a < rk_ordinal b ∨ rk_ordinal a = rk_ordinal b ∧
         String.le (rk_evidence_id a) (rk_evidence_id b)).
Proof.
  unfold ranked_leb. rewrite !orb_true_iff, !andb_true_iff, !orb_true_iff, !andb_true_iff.
  by rewrite !Z.ltb_lt, !Z.eqb_eq, bool_decide_eq_true.
Qed.

Lemma ranked_leb_total a b : ranked_leb a b = false → ranked_leb b a = true.
Proof.
  rewrite <-not_true_iff_false, !ranked_leb_spec. intros H.
  destruct (Z.lt_trichotomy (rk_distance a) (rk_distance b)) as [?|[?|?]];
    [destruct H; by left| |left; lia]. right. split; [done|].
  destruct (Z.lt_trichotomy (rk_ordinal a) (rk_ordinal b)) as [?|[?|?]];
    [destruct H; right; split; [done|by left]| |left; lia]. right. split; [done|].
  destruct (total String.le (rk_evidence_id a) (rk_evidence_id b)); [|done].
  destruct H. right. split; [done|]. by right.
Qed.

Lemma ranked_leb_trans a b c : ranked_leb a b = true → ranked_leb b c = true → ranked_leb a c = true.
Proof.
  rewrite !ranked_leb_spec. intros [?|(? & [?|(? & ?)])] [?|(? & [?|(? & ?)])].
  all: try (left; lia). all: right; split; [lia|]. all: try (left; lia).
  right. split; [lia|]. by etrans.
Qed.

Lemma ranking_ids_NoDup rows :
  NoDup (nr_evidence_id <$> rows) → NoDup (rk_evidence_id <$> omap ranked_of (placements rows)).
Proof.
  intros Hnd. apply (NoDup_app (keys (omap withheld_of (zip (independents rows) (placements rows))))).
  unfold placements. rewrite placed_ids.
  eapply (NoDup_app (nr_evidence_id <$> candidates rows)). by rewrite <-fmap_app, scopes_perm.
Qed.

Lemma ranking_perm rows rows' :
  NoDup (nr_evidence_id <$> rows) → rows ≡ₚ rows' → ranking rows = ranking rows'.
Proof.
  intros Hnd Hp. unfold ranking. apply sort_by_perm_eq.
  - apply ranked_leb_total.
  - apply ranked_leb_trans.
  - intros x y Hx Hy. rewrite !ranked_leb_spec. intros H1 H2.
    apply (NoDup_fmap_eq rk_evidence_id (omap ranked_of (placements rows)));
      [by apply ranking_ids_NoDup|done..|].
    apply (anti_symm String.le); [destruct H1 as [?|(? & [?|(? & ?)])]|destruct H2 as [?|(? & [?|(? & ?)])]];
      done || lia.
  - unfold placements, independents. by rewrite (focus_geometry_perm _ _ Hp), Hp.
Qed.

Lemma zip_fmap_self {A B} (f : A → B) (l : list A) : zip l (f <$> l) = (λ a, (a, f a)) <$> l.
Proof. induction l as [|a l IH]; [done|]. cbn. by rewrite IH. Qed.

Lemma assignments_perm rows rows' :
  NoDup (nr_evidence_id <$> rows) → rows ≡ₚ rows' → assignments rows ≡ₚ assignments rows'.
Proof.
  intros Hnd Hp. unfold assignments. rewrite (ranking_perm _ _ Hnd Hp).
  unfold placements, candidates, independents. rewrite !zip_fmap_self, (focus_geometry_perm _ _ Hp).
  by rewrite Hp.
Qed.

#[global] Instance tally_perm p : Proper ((≡ₚ) ==> (=)) (tally p).
Proof. intros l k H. unfold tally, zlen. by rewrite H. Qed.

(** *** What each placement means *)

(** A row of the host's focus selection with its ordinal. *)
Definition focus_at (rows : list NeighborhoodRow) (source : string) (o : Z) : Prop :=
  ∃ f, f ∈ candidates rows ∧ nr_source_label f = source ∧ nr_chronology_ordinal f = Some o.

Lemma focus_sources rows source o :
  (∃ s, bmap_get source (focus_ordinals_by_source (focus_geometry rows)) = Some s ∧ o ∈ s) ↔
  focus_at rows source o.
Proof.
  unfold focus_at, focus_geometry, candidates.
  generalize (List.filter (in_scope ScopeCandidate) rows) as l. intros l.
  assert (∀ g, (∃ s, bmap_get source (focus_ordinals_by_source (foldl focus_step g l)) = Some s ∧ o ∈ s) ↔
    (∃ s, bmap_get source (focus_ordinals_by_source g) = Some s ∧ o ∈ s) ∨
    ∃ f, f ∈ l ∧ nr_source_label f = source ∧ nr_chronology_ordinal f = Some o) as Hgen.
  { induction l as [|f l IH]; intros g; cbn.
    { split; [by left|]. intros [?|(f & Hf & _)]; [done|by apply not_elem_of_nil in Hf]. }
    rewrite IH. clear IH. unfold focus_step. destruct (nr_chronology_ordinal f) as [o'|] eqn:Ho; cbn.
    - rewrite bmap_get_upsert. case_bool_decide as Hs; [subst source|]; [|naive_solver set_solver].
      setoid_rewrite elem_of_cons. destruct (bmap_get _ _) as [s|] eqn:E; cbn.
      + setoid_rewrite (inj_iff Some). 
        split.
        * intros [(s' & <- & [->|?]%set_insert_elem)|?]; naive_solver.
        * intros [(s' & <- & ?)|(f' & [->|?] & ? & ?)]; [left|left|naive_solver];
            eexists; (split; [done|]); apply set_insert_elem; naive_solver.
      + split.
        * intros [(s' & [= <-] & ->%list_elem_of_singleton)|?]; naive_solver.
        * intros [(s' & ? & ?)|(f' & [->|?] & ? & ?)]; [done| |naive_solver].
          left. exists [o']. split; [done|]. apply list_elem_of_singleton. naive_solver.
    - setoid_rewrite elem_of_cons. naive_solver. }
  rewrite Hgen. cbn. split; [intros [(s & ? & ?)|?]; done|by right].
Qed.

Lemma all_focus_spec rows o :
  o ∈ all_focus_ordinals (focus_geometry rows) ↔ ∃ source, focus_at rows source o.
Proof.
  unfold focus_at, focus_geometry, candidates.
  generalize (List.filter (in_scope ScopeCandidate) rows) as l. intros l.
  induction l as [|f l IH] using rev_ind; [cbn; set_solver|].
  rewrite foldl_snoc. unfold focus_step at 1. setoid_rewrite elem_of_app.
  setoid_rewrite list_elem_of_singleton. destruct (nr_chronology_ordinal f) as [o'|] eqn:Ho; cbn.
  - rewrite set_insert_elem, IH. naive_solver.
  - rewrite IH. naive_solver.
Qed.

(** The candidate's earliest focus row. *)
Lemma candidate_first_spec rows c p :
  bmap_get c (candidate_first (focus_geometry rows)) = Some p →
  (∃ f, f ∈ candidates rows ∧ nr_candidate_id f = c ∧ nr_source_label f = p.2 ∧
        nr_chronology_ordinal f = Some p.1) ∧
  ∀ f o, f ∈ candidates rows → nr_candidate_id f = c → nr_chronology_ordinal f = Some o →
    pair_ltb (o, nr_source_label f) p = false.
Proof.
  unfold focus_geometry, candidates.
  generalize (List.filter (in_scope ScopeCandidate) rows) as l. intros l. revert p.
  induction l as [|r l IH] using rev_ind; intros p; [done|].
  rewrite foldl_snoc. unfold focus_step at 1. setoid_rewrite elem_of_app.
  setoid_rewrite list_elem_of_singleton. destruct (nr_chronology_ordinal r) as [o'|] eqn:Ho; cbn.
  2: { intros [(f & ? & ?) Hmin]%IH. split; [exists f; split; [by left|done]|].
       intros g o [Hg| ->] ? Hgo; [by eapply Hmin|congruence]. }
  rewrite bmap_get_upsert. case_bool_decide as Hc; [subst c|].
  2: { intros [(f & ? & ?) Hmin]%IH. split; [exists f; split; [by left|done]|].
       intros g o [Hg| ->] ? Hgo; [by eapply Hmin|done]. }
  destruct (bmap_get _ _) as [q|] eqn:E; cbn; intros [= <-].
  - destruct (IH _ eq_refl) as [(f & ? & ? & ? & ?) Hmin]. unfold earlier.
    destruct (pair_ltb (o', nr_source_label r) q) eqn:Hlt; cbn.
    + split; [exists r; split_and!; [by right|done..]|]. intros g o [Hg| ->] ? Hgo.
      * apply not_true_iff_false. intros H'. apply (not_true_iff_false (pair_ltb (o, nr_source_label g) q));
          [by eapply Hmin|]. by eapply pair_ltb_trans.
      * rewrite Ho in Hgo. injection Hgo as <-. apply not_true_iff_false. intros H'.
        by rewrite (pair_ltb_asym _ _ H') in H'.
    + split; [exists f; split_and!; [by left|done..]|]. intros g o [Hg| ->] ? Hgo; [by eapply Hmin|].
      rewrite Ho in Hgo. by injection Hgo as <-.
  - split; [exists r; split_and!; [by right|done..]|]. intros g o [Hg| ->] Hgc Hgo; cbn.
    + exfalso. revert E. clear -Hg Hgc Hgo. induction l as [|x l IHl] using rev_ind; [by apply not_elem_of_nil in Hg|].
      rewrite foldl_snoc. unfold focus_step at 1. apply elem_of_app in Hg as [Hg| ->%list_elem_of_singleton].
      * destruct (nr_chronology_ordinal x); cbn; [|by apply IHl]. rewrite bmap_get_upsert.
        case_bool_decide; [done|by apply IHl].
      * rewrite Hgo. cbn. rewrite bmap_get_upsert, bool_decide_eq_true_2; done.
    + rewrite Ho in Hgo. injection Hgo as <-. apply not_true_iff_false. intros H'.
      by rewrite (pair_ltb_asym _ _ H') in H'.
Qed.

Lemma min_by_spec {A} (lt : A → A → bool) l m :
  (∀ a b c, lt b a = false → lt c b = false → lt c a = false) →
  (∀ a b, lt a b = true → lt b a = false) →
  min_by lt l = Some m → m ∈ l ∧ ∀ x, x ∈ l → lt x m = false.
Proof.
  intros Htrans Hasym. destruct l as [|a l]; [done|]. cbn. intros [= <-].
  assert (∀ x, lt x x = false) as Hirr.
  { intros x. apply not_true_iff_false. intros H. pose proof (Hasym _ _ H). congruence. }
  induction l as [|b l IH] using rev_ind; cbn.
  { split; [by left|]. intros x ->%list_elem_of_singleton. apply Hirr. }
  rewrite foldl_snoc. destruct IH as [Hin Hmin].
  remember (foldl _ a l) as m eqn:Hm. clear Hm. destruct (lt b m) eqn:E.
  - split; [set_solver|]. intros x. rewrite elem_of_cons, elem_of_app, list_elem_of_singleton.
    intros Hx. assert (lt m b = false) by by apply Hasym.
    destruct Hx as [Hx|[Hx|Hx]]; [..|subst; apply Hirr]; apply (Htrans b m x); try done;
      apply Hmin; apply elem_of_cons; tauto.
  - split; [set_solver|]. intros x. rewrite elem_of_cons, elem_of_app, list_elem_of_singleton.
    intros [Hx|[Hx| ->]]; [apply Hmin, elem_of_cons; tauto..|done].
Qed.

Lemma min_by_nonempty {A} (lt : A → A → bool) l : l ≠ [] → ∃ m, min_by lt l = Some m.
Proof. destruct l; [done|]. cbn. eauto. Qed.

Lemma zpair_min l m :
  min_by zpair_ltb l = Some m → m ∈ l ∧ ∀ x, x ∈ l → m.1 ≤ x.1.
Proof.
  intros H. apply min_by_spec in H as [Hin Hmin].
  - split; [done|]. intros x Hx%Hmin. unfold zpair_ltb in Hx. lia.
  - unfold zpair_ltb. intros [] [] []; cbn. lia.
  - unfold zpair_ltb. intros [] []; cbn. lia.
Qed.

(** Why an independent row is placed where it is. *)
Definition placed_because (rows : list NeighborhoodRow) (row : NeighborhoodRow) (p : Placement) :
    Prop :=
  match nr_chronology_ordinal row, p with
  | None, NoOrdinal => True
  | Some o, ClockIncompatible =>
      clock ≠ ResolvedComparable ∧ ∀ f, ~ focus_at rows (nr_source_label row) f
  | Some o, OutOfRadius =>
      (∃ f, focus_at rows (nr_source_label row) f) ∧
        (∀ f, focus_at rows (nr_source_label row) f → same_source_radius budget < abs_diff f o) ∨
      clock = ResolvedComparable ∧ (∀ f, ~ focus_at rows (nr_source_label row) f) ∧
        (∀ s f, focus_at rows s f → cross_source_radius budget < abs_diff f o)
  | Some o, Rank r =>
      rk_ordinal r = o ∧ rk_evidence_id r = nr_evidence_id row ∧
      match rk_category r with
      | PrecedingSameSource | FollowingSameSource =>
          ∃ f, focus_at rows (nr_source_label row) f ∧ rk_distance r = abs_diff f o ∧
            rk_distance r ≤ same_source_radius budget ∧
            (∀ f', focus_at rows (nr_source_label row) f' → rk_distance r ≤ abs_diff f' o) ∧
            (rk_category r = PrecedingSameSource ↔ o < f)
      | CrossSourceTemporal =>
          clock = ResolvedComparable ∧ (∀ f, ~ focus_at rows (nr_source_label row) f) ∧
          ∃ s f, focus_at rows s f ∧ rk_distance r = abs_diff f o ∧
            rk_distance r ≤ cross_source_radius budget
      | _ => False
      end
  | _, _ => False
  end.

Lemma place_row_because rows row :
  cross_source_radius budget < u64_max →
  placed_because rows row (place_row clock budget (focus_geometry rows) row).
Proof.
  intros Hr. unfold placed_because, place_row. destruct (nr_chronology_ordinal row) as [o|]; [|done].
  pose proof (focus_sources rows (nr_source_label row)) as Hsrc.
  destruct (bmap_get (nr_source_label row) _) as [focus|] eqn:E.
  - assert (∀ f, f ∈ focus ↔ focus_at rows (nr_source_label row) f) as Hf.
    { intros f. rewrite <-Hsrc. naive_solver. }
    destruct (focus_geometry_ok rows) as (_ & _ & Hne & _). destruct (Hne _ _ E) as [_ Hne'].
    destruct (min_by_nonempty zpair_ltb ((λ v, (abs_diff v o, v)) <$> focus)) as [m Hm].
    { by destruct focus. }
    rewrite Hm. cbn [unwrap_or]. destruct (zpair_min _ _ Hm) as [(f & -> & Hin)%list_elem_of_fmap Hmin].
    assert (∀ f', focus_at rows (nr_source_label row) f' → abs_diff f o ≤ abs_diff f' o) as Hnear.
    { intros f' Hf'%Hf. apply (Hmin (abs_diff f' o, f')). apply list_elem_of_fmap. eauto. }
    apply Hf in Hin. cbn [fst snd].
    destruct (Z.ltb_spec (same_source_radius budget) (abs_diff f o)) as [Hlt|Hge]; cbn.
    + left. split; [eauto|]. intros f' Hf'%Hnear. lia.
    + split_and!; [done..|]. destruct (Z.ltb_spec o f); exists f; split_and!; try done; split; (done || lia).
  - assert (∀ f, ~ focus_at rows (nr_source_label row) f) as Hno.
    { intros f (? & ? & ?)%Hsrc. congruence. }
    case_bool_decide as Hc; cbn [negb]; [|done].
    destruct (min_by Z.ltb _) as [m|] eqn:Hm; cbn [unwrap_or].
    + apply min_by_spec in Hm as [(f & -> & [s Hin]%all_focus_spec)%list_elem_of_fmap Hmin]; [|lia..].
      destruct (Z.ltb_spec (cross_source_radius budget) (abs_diff f o)) as [Hlt|Hge]; cbn.
      * right. split_and!; [done..|]. intros s' f' Hf'.
        assert (Z.ltb (abs_diff f' o) (abs_diff f o) = false); [|lia].
        apply Hmin, list_elem_of_fmap. exists f'. split; [done|]. apply all_focus_spec. eauto.
      * split_and!; [done..|]. eauto 10.
    + rewrite (proj2 (Z.ltb_lt _ _)) by lia. right. split_and!; [done..|].
      intros s f Hf. assert (f ∈ all_focus_ordinals (focus_geometry rows)) as Hin
        by (apply all_focus_spec; eauto).
      destruct (all_focus_ordinals (focus_geometry rows)); [by apply not_elem_of_nil in Hin|done].
Qed.

(** *** Reading the result *)

Lemma capped_split n l :
  capped n l = ((λ r, (rk_evidence_id r, rk_category r)) <$> take (Z.to_nat n) l) ++
               ((λ r, (rk_evidence_id r, IndependentNoise)) <$> drop (Z.to_nat n) l).
Proof.
  revert n. induction l as [|r l IH]; intros n; cbn; [by rewrite take_nil, drop_nil|].
  rewrite IH. destruct (Z.ltb_spec 0 n).
  - replace (Z.to_nat n) with (S (Z.to_nat (n - 1))) by lia. done.
  - replace (Z.to_nat n) with O by lia. replace (Z.to_nat (n - 1)) with O by lia. done.
Qed.

Lemma category_assigned rows id c :
  NoDup (nr_evidence_id <$> rows) →
  category (classify_neighborhood rows traces clock budget) id = Some c ↔ (id, c) ∈ assignments rows.
Proof.
  intros Hnd. rewrite classify_eq. unfold category. cbn.
  apply inserts_get. by rewrite assignments_keys.
Qed.

Lemma elem_candidates rows row : row ∈ candidates rows ↔ row ∈ rows ∧ nr_scope row = ScopeCandidate.
Proof. unfold candidates. rewrite elem_of_filter_bool. unfold in_scope. by rewrite bool_decide_eq_true. Qed.
Lemma elem_independents rows row : row ∈ independents rows ↔ row ∈ rows ∧ nr_scope row = ScopeIndependent.
Proof. unfold independents. rewrite elem_of_filter_bool. unfold in_scope. by rewrite bool_decide_eq_true. Qed.

Lemma elem_ranking rows r :
  r ∈ ranking rows ↔
    ∃ row, row ∈ independents rows ∧ place_row clock budget (focus_geometry rows) row = Rank r.
Proof.
  unfold ranking, placements. rewrite sort_by_perm, list_elem_of_omap.
  setoid_rewrite list_elem_of_fmap. split.
  - intros (p & (row & -> & ?) & Hp). exists row. split; [done|].
    by destruct (place_row _ _ _ row); [done..|]; injection Hp as ->.
  - intros (row & ? & Hp). exists (Rank r). naive_solver.
Qed.

(** What the category of a row promises about the row. *)
Definition category_because (rows : list NeighborhoodRow) (row : NeighborhoodRow)
    (c : FastTriageEvidenceCategory) : Prop :=
  match c with
  | Focus => nr_scope row = ScopeCandidate
  | TraceLinked | Propagation =>
      nr_scope row = ScopeCandidate ∧ nr_candidate_id row ∈ traces ∧
      ∃ first o1, first ∈ candidates rows ∧ nr_candidate_id first = nr_candidate_id row ∧
        nr_source_label first ≠ nr_source_label row ∧ nr_chronology_ordinal first = Some o1 ∧
        (c = Propagation ↔ ∃ o, nr_chronology_ordinal row = Some o ∧ o1 < o)
  | PrecedingSameSource =>
      nr_scope row = ScopeIndependent ∧ ∃ o f, nr_chronology_ordinal row = Some o ∧
        focus_at rows (nr_source_label row) f ∧ 0 < f - o ≤ same_source_radius budget
  | FollowingSameSource =>
      nr_scope row = ScopeIndependent ∧ ∃ o f, nr_chronology_ordinal row = Some o ∧
        focus_at rows (nr_source_label row) f ∧ 0 ≤ o - f ≤ same_source_radius budget
  | CrossSourceTemporal =>
      nr_scope row = ScopeIndependent ∧ clock = ResolvedComparable ∧
      (∀ f, ~ focus_at rows (nr_source_label row) f) ∧
      ∃ o s f, nr_chronology_ordinal row = Some o ∧ focus_at rows s f ∧
        abs_diff f o ≤ cross_source_radius budget
  | IndependentNoise => nr_scope row = ScopeIndependent
  end.

Lemma candidate_category_because rows row :
  nr_scope row = ScopeCandidate →
  category_because rows row (candidate_category traces (focus_geometry rows) row).
Proof.
  intros Hs. unfold candidate_category. case_bool_decide as Ht; [|done].
  destruct (bmap_get _ _) as [[o1 s1]|] eqn:E; [|done].
  apply candidate_first_spec in E as [(f & Hf & Hc & Hsrc & Ho) _]. cbn in *.
  destruct (nr_chronology_ordinal row) as [o|] eqn:Hor; case_bool_decide as Hne; try done; cbn [negb].
  - destruct (Z.ltb_spec o1 o); (split_and!; [done..|]); exists f, o1; split_and!; try done; try congruence.
    + naive_solver.
    + split; [done|]. intros (o' & Ho' & ?). rewrite Hor in Ho'. injection Ho' as <-. lia.
  - split_and!; [done..|]. exists f, o1. split_and!; try done; try congruence. naive_solver.
Qed.

Lemma ranked_because rows row r :
  nr_scope row = ScopeIndependent → placed_because rows row (Rank r) →
  category_because rows row (rk_category r).
Proof.
  unfold placed_because. intros Hs. destruct (nr_chronology_ordinal row) as [o|] eqn:Ho; [|done].
  intros (_ & _ & H). unfold category_because.
  destruct (rk_category r); try done.
  - destruct H as (f & Hf & Hd & Hle & _ & Hside). split; [done|]. exists o, f. unfold abs_diff in *.
    assert (o < f) by by apply Hside. split_and!; [done..|lia|lia].
  - destruct H as (f & Hf & Hd & Hle & _ & Hside). split; [done|]. exists o, f. unfold abs_diff in *.
    assert (~ o < f) by (by intros ?%Hside). split_and!; [done..|lia|lia].
  - destruct H as (Hc & Hno & s & f & Hf & Hd & Hle). split_and!; [done..|].
    exists o, s, f. split_and!; [done..|]. lia.
Qed.

Lemma classified_ids rows id :
  NoDup (nr_evidence_id <$> rows) →
  is_Some (category (classify_neighborhood rows traces clock budget) id) ↔ id ∈ nr_evidence_id <$> rows.
Proof.
  intros Hnd. unfold is_Some. setoid_rewrite category_assigned; [|done].
  rewrite <-assignments_keys. unfold keys. rewrite list_elem_of_fmap. split.
  - intros [c Hc]. by exists (id, c).
  - intros ([id' c] & -> & ?). by exists c.
Qed.

(** *** Counting *)

Definition is_context (c : FastTriageEvidenceCategory) : bool :=
  match c with PrecedingSameSource | FollowingSameSource | CrossSourceTemporal => true | _ => false end.
Definition tally_cat (p : FastTriageEvidenceCategory → bool)
    (l : list (string * FastTriageEvidenceCategory)) : Z := zlen (List.filter p l.*2).

Lemma tally_cat_app p l k : tally_cat p (l ++ k) = tally_cat p l + tally_cat p k.
Proof. unfold tally_cat. by rewrite fmap_app, List.filter_app, zlen_app. Qed.

(** A part of the assignments all of whose categories answer alike. *)
Lemma tally_cat_all p l :
  Forall (λ x, p x.2 = true) l → tally_cat p l = zlen l.
Proof. unfold tally_cat. induction 1 as [|x l Hx _ IH]; [done|]. cbn. rewrite Hx, !zlen_cons. lia. Qed.
Lemma tally_cat_none p l : Forall (λ x, p x.2 = false) l → tally_cat p l = 0.
Proof. unfold tally_cat. induction 1 as [|x l Hx _ IH]; [done|]. cbn. by rewrite Hx. Qed.

Lemma category_count_tally rows c :
  NoDup (nr_evidence_id <$> rows) →
  category_count (classify_neighborhood rows traces clock budget) c =
  tally_cat (λ v, bool_decide (v = c)) (assignments rows).
Proof.
  intros Hnd. rewrite classify_eq. unfold category_count, tally_cat, zlen. cbn.
  by rewrite inserts_perm, app_nil_r by (done || by rewrite assignments_keys).
Qed.

Lemma tally_context l :
  tally_cat is_context l =
  tally_cat (λ v, bool_decide (v = PrecedingSameSource)) l +
  tally_cat (λ v, bool_decide (v = FollowingSameSource)) l +
  tally_cat (λ v, bool_decide (v = CrossSourceTemporal)) l.
Proof.
  unfold tally_cat. induction l as [|[id c] l IH]; [done|]. rewrite !fmap_cons. cbn [snd List.filter].
  repeat case_bool_decide; subst; try discriminate; cbn [is_context]; rewrite ?zlen_cons; try lia.
  destruct c; try done; lia.
Qed.

Lemma zlen_withheld g rows :
  let ps := place_row clock budget g <$> rows in
  zlen (omap withheld_of (zip rows ps)) = tally is_unplaced ps + tally is_clock ps + tally is_radius ps.
Proof.
  cbn zeta. unfold tally. induction rows as [|r rows IH]; [done|].
  cbn [fmap list_fmap zip_with omap list_omap]. unfold withheld_of at 1. cbn [snd fst].
  destruct (place_row clock budget g r); cbn [is_unplaced is_clock is_radius List.filter];
    rewrite ?zlen_cons, ?IH; lia.
Qed.

Lemma withheld_noise g rows :
  Forall (λ x, x.2 = IndependentNoise) (omap withheld_of (zip rows (place_row clock budget g <$> rows))).
Proof.
  apply Forall_forall. intros x (y & _ & Hy)%list_elem_of_omap. unfold withheld_of in Hy.
  destruct y.2; by simplify_eq.
Qed.

Lemma candidate_not_independent g row :
  is_context (candidate_category traces g row) = false ∧
  candidate_category traces g row ≠ IndependentNoise.
Proof. unfold candidate_category. repeat case_match; done. Qed.

Lemma ranked_is_context g row r :
  place_row clock budget g row = Rank r → is_context (rk_category r) = true.
Proof.
  unfold place_row. intros H.
  repeat (case_match; cbn in H; try discriminate); injection H as <-; cbn; by repeat case_match.
Qed.

Lemma ranking_context rows : Forall (λ r, is_context (rk_category r) = true) (ranking rows).
Proof. apply Forall_forall. intros r (row & _ & Hr)%elem_ranking. by eapply ranked_is_context. Qed.

Lemma tally_assignments p rows :
  tally_cat p (assignments rows) =
  tally_cat p ((λ row, (nr_evidence_id row, candidate_category traces (focus_geometry rows) row))
                 <$> candidates rows) +
  (tally_cat p (omap withheld_of (zip (independents rows) (placements rows))) +
   (tally_cat p ((λ r, (rk_evidence_id r, rk_category r))
                   <$> take (Z.to_nat (max_context_rows budget)) (ranking rows)) +
    tally_cat p ((λ r, (rk_evidence_id r, IndependentNoise))
                   <$> drop (Z.to_nat (max_context_rows budget)) (ranking rows)))).
Proof. unfold assignments. by rewrite !tally_cat_app, capped_split, tally_cat_app. Qed.

Lemma context_count rows :
  tally_cat is_context (assignments rows) ≤ Z.max 0 (max_context_rows budget).
Proof.
  rewrite tally_assignments, (tally_cat_none _ (_ <$> candidates rows)),
    (tally_cat_none _ (omap _ _)), (tally_cat_all _ (_ <$> take _ _)), (tally_cat_none _ (_ <$> drop _ _)).
  - unfold zlen. rewrite length_fmap, length_take. lia.
  - apply Forall_fmap, Forall_forall. by intros.
  - apply Forall_fmap, Forall_take, ranking_context.
  - eapply Forall_impl; [apply withheld_noise|]. intros x Hx. cbn. by rewrite Hx.
  - apply Forall_fmap, Forall_forall. intros. apply candidate_not_independent.
Qed.

Lemma unplaced_rows rows :
  tally is_unplaced (placements rows) =
  zlen (List.filter (λ row, in_scope ScopeIndependent row &&
                            negb (is_some (nr_chronology_ordinal row))) rows).
Proof.
  unfold placements, independents, tally, zlen. generalize (focus_geometry rows) as g. intros g. f_equal.
  induction rows as [|r rows IH]; [done|]. cbn. destruct (in_scope ScopeIndependent r); cbn; [|done].
  unfold place_row at 1. destruct (nr_chronology_ordinal r); cbn; [|by rewrite IH].
  repeat case_match; cbn; done.
Qed.

Lemma noise_count rows :
  tally_cat (λ v, bool_decide (v = IndependentNoise)) (assignments rows) =
  tally is_unplaced (placements rows) + tally is_clock (placements rows) +
  tally is_radius (placements rows) +
  (zlen (ranking rows) - Z.min (zlen (ranking rows)) (Z.max 0 (max_context_rows budget))).
Proof.
  rewrite tally_assignments, (tally_cat_none _ (_ <$> candidates rows)),
    (tally_cat_all _ (omap _ _)), (tally_cat_none _ (_ <$> take _ _)), (tally_cat_all _ (_ <$> drop _ _)).
  - unfold placements. rewrite zlen_withheld. unfold zlen. rewrite length_fmap, length_drop. lia.
  - apply Forall_fmap, Forall_forall. intros. by apply bool_decide_eq_true.
  - apply Forall_fmap, Forall_take. eapply Forall_impl; [apply ranking_context|].
    intros r Hr. apply bool_decide_eq_false. cbn in *. by intros E; rewrite E in Hr.
  - eapply Forall_impl; [apply withheld_noise|]. intros x Hx. by apply bool_decide_eq_true.
  - apply Forall_fmap, Forall_forall. intros. apply bool_decide_eq_false, candidate_not_independent.
Qed.

(** An id is assigned once: a kept row is in the prefix the cap admits. *)
Lemma ranking_kept_first rows kept lost :
  NoDup (nr_evidence_id <$> rows) → kept ∈ ranking rows → lost ∈ ranking rows →
  (rk_evidence_id kept, rk_category kept) ∈ assignments rows →
  (rk_evidence_id lost, IndependentNoise) ∈ assignments rows → ranked_leb kept lost = true.
Proof.
  intros Hnd Hk Hl Hka Hla. set (n := Z.to_nat (max_context_rows budget)).
  assert (∀ id a b, (id, a) ∈ assignments rows → (id, b) ∈ assignments rows → a = b) as Hfun.
  { intros id a b Ha Hb. assert (NoDup (keys (assignments rows))) as Hnd' by by rewrite assignments_keys.
    pose proof (NoDup_fmap_eq fst _ _ _ Hnd' Ha Hb eq_refl). by simplify_eq. }
  assert (∀ r, (r ∈ take n (ranking rows) → (rk_evidence_id r, rk_category r) ∈ assignments rows) ∧
               (r ∈ drop n (ranking rows) → (rk_evidence_id r, IndependentNoise) ∈ assignments rows)) as Hin.
  { intros r. unfold assignments. rewrite !elem_of_app, capped_split, !elem_of_app, !list_elem_of_fmap.
    split; intros; do 2 right; eauto. }
  assert (∀ r, r ∈ ranking rows → rk_category r ≠ IndependentNoise) as Hcat.
  { intros r Hr E. pose proof (ranking_context rows) as H. rewrite Forall_forall in H.
    specialize (H r Hr). cbn in H. by rewrite E in H. }
  pose proof (sort_by_sorted ranked_leb ranked_leb_total ranked_leb_trans
                (omap ranked_of (placements rows))) as Hsorted. fold (ranking rows) in Hsorted.
  rewrite <-(take_drop n (ranking rows)) in Hsorted, Hk, Hl.
  apply elem_of_app in Hk as [Hk|Hk].
  2: { exfalso. apply (Hcat kept); [rewrite <-(take_drop n (ranking rows)); set_solver|].
       eapply Hfun; [exact Hka|]. by apply Hin. }
  apply elem_of_app in Hl as [Hl|Hl].
  { exfalso. apply (Hcat lost); [rewrite <-(take_drop n (ranking rows)); set_solver|].
    eapply Hfun; [|exact Hla]. by apply Hin. }
  exact (StronglySorted_app_1_elem_of _ _ _ _ _ Hsorted Hk Hl).
Qed.
End facts.

(** The trace correlation shows in the categories only. *)
Lemma same_categories_same_neighborhood rows traces traces' clock budget :
  NoDup (nr_evidence_id <$> rows) →
  (∀ id, id ∈ nr_evidence_id <$> rows →
     unwrap_or IndependentNoise (category (classify_neighborhood rows traces clock budget) id) =
     unwrap_or IndependentNoise (category (classify_neighborhood rows traces' clock budget) id)) →
  classify_neighborhood rows traces clock budget = classify_neighborhood rows traces' clock budget.
Proof.
  intros Hnd Hcat. pose proof (λ t id, classified_ids t clock budget rows id Hnd) as Hids.
  rewrite !classify_eq in *. unfold bump in *. cbn in *. f_equal.
  apply bmap_ext; [apply inserts_ok, bmap_nil_ok..|]. intros id. unfold category in *.
  pose proof (Hids traces id) as H1. pose proof (Hids traces' id) as H2. rewrite classify_eq in H1, H2.
  cbn in H1, H2. specialize (Hcat id). cbn [categories] in Hcat.
  destruct (bmap_get id (inserts [] (assignments traces clock budget rows))) as [c|],
    (bmap_get id (inserts [] (assignments traces' clock budget rows))) as [c'|].
  - f_equal. apply Hcat, H1. eauto.
  - destruct (proj2 H2) as [? ?]; [apply H1; eauto|done].
  - destruct (proj2 H1) as [? ?]; [apply H2; eauto|done].
  - done.
Qed.

(** ** Claims *)

(** The classification does not depend on the order in which the host lists
    the rows: with distinct evidence ids, two listings of the same rows give the
    same category for every row and the same counters, also where the row cap
    truncates. *)
Theorem neighborhood_ignores_row_order rows rows' traces clock budget :
  NoDup (nr_evidence_id <$> rows) → rows ≡ₚ rows' →
  classify_neighborhood rows traces clock budget = classify_neighborhood rows' traces clock budget.
Proof.
  intros Hnd Hp. rewrite !classify_eq. unfold bump. cbn.
  rewrite (ranking_perm _ _ _ _ Hnd Hp).
  rewrite (inserts_perm_eq (assignments traces clock budget rows)
             (assignments traces clock budget rows'));
    [|by rewrite assignments_keys|by apply assignments_perm].
  assert (placements clock budget rows ≡ₚ placements clock budget rows') as Hpl.
  { unfold placements, independents. by rewrite (focus_geometry_perm _ _ Hp), Hp. }
  by rewrite (tally_perm is_clock _ _ Hpl), (tally_perm is_radius _ _ Hpl).
Qed.

(** Every row is classified, and its category is justified by the host's own
    facts: focus, trace-linked and propagation only for candidate rows (the last
    two only inside a trace-correlated group, across sources, and propagation
    exactly for rows later than the group's earliest row); preceding and following
    only within the same-source radius of a focus row, on the named side; a
    cross-source temporal reading only under comparable clocks, for a source
    without focus rows, within the radius. *)
Theorem neighborhood_categories_are_justified rows traces clock budget row :
  NoDup (nr_evidence_id <$> rows) → cross_source_radius budget < u64_max → row ∈ rows →
  ∃ c, category (classify_neighborhood rows traces clock budget) (nr_evidence_id row) = Some c ∧
       category_because traces clock budget rows row c.
Proof.
  intros Hnd Hr Hrow. setoid_rewrite (category_assigned _ _ _ _ _ _ Hnd). unfold assignments.
  setoid_rewrite elem_of_app. setoid_rewrite elem_of_app. destruct (nr_scope row) eqn:Hs.
  - eexists. split; [left; apply list_elem_of_fmap; exists row; split; [done|by apply elem_candidates]|].
    by apply candidate_category_because.
  - assert (row ∈ independents rows) as Hin by by apply elem_independents.
    pose proof (place_row_because clock budget rows row Hr) as Hb.
    destruct (place_row clock budget (focus_geometry rows) row) as [| | |r] eqn:E.
    1-3: exists IndependentNoise; split; [right; left|done]; unfold placements;
      rewrite zip_fmap_self, list_elem_of_omap; exists (row, place_row clock budget (focus_geometry rows) row);
      split; [apply list_elem_of_fmap; eauto|unfold withheld_of; cbn; by rewrite E].
    assert (r ∈ ranking clock budget rows) as Hrk by (apply elem_ranking; eauto).
    rewrite <-(take_drop (Z.to_nat (max_context_rows budget)) (ranking clock budget rows)) in Hrk.
    setoid_rewrite capped_split. setoid_rewrite elem_of_app. setoid_rewrite list_elem_of_fmap.
    rewrite <-(place_row_id _ _ _ _ _ E). apply elem_of_app in Hrk as [Hk|Hk].
    + exists (rk_category r). split; [do 2 right; left; eauto|]. by apply ranked_because.
    + exists IndependentNoise. split; [do 3 right; eauto|done].
Qed.

(** The classification is bounded and accounts for what it withholds: at most
    [max_context_rows] rows carry a context category, every row has exactly one
    category, the rows left as independent noise are exactly those without an
    ordinal and those the three counters report, and when the cap truncates, no
    row is dropped in favour of one that ranks behind it. *)
Theorem neighborhood_is_bounded_and_accounted rows traces clock budget :
  NoDup (nr_evidence_id <$> rows) →
  let out := classify_neighborhood rows traces clock budget in
  category_count out PrecedingSameSource + category_count out FollowingSameSource +
    category_count out CrossSourceTemporal ≤ Z.max 0 (max_context_rows budget) ∧
  (categories out).*1 ≡ₚ nr_evidence_id <$> rows ∧
  category_count out IndependentNoise =
    zlen (List.filter (λ row, in_scope ScopeIndependent row && negb (is_some (nr_chronology_ordinal row))) rows) +
    withheld_clock_incompatible out + withheld_out_of_radius out + withheld_over_budget out ∧
  ∀ kept lost,
    kept ∈ ranking clock budget rows → lost ∈ ranking clock budget rows →
    category out (rk_evidence_id kept) = Some (rk_category kept) →
    category out (rk_evidence_id lost) = Some IndependentNoise →
    ranked_leb kept lost = true.
Proof.
  intros Hnd out. subst out. rewrite !category_count_tally by done. split_and!.
  - rewrite <-tally_context. apply context_count.
  - rewrite classify_eq. cbn. rewrite inserts_perm, app_nil_r by (done || by rewrite assignments_keys).
    apply assignments_keys.
  - rewrite noise_count, unplaced_rows, classify_eq. cbn. lia.
  - intros kept lost Hk Hl. rewrite !category_assigned by done. by apply ranking_kept_first.
Qed.

(** ** A concrete neighborhood *)

Module NeighborhoodDemo.
Definition row (id cand source : string) (scope : FastTriageEvidenceScope) (o : option Z) :
    NeighborhoodRow :=
  {| nr_evidence_id := id; nr_candidate_id := cand; nr_source_label := source; nr_scope := scope;
     nr_chronology_ordinal := o |}.
Definition rows : list NeighborhoodRow :=
  [row "f1" "g" "a.log" ScopeCandidate (Some 10); row "f2" "g" "b.log" ScopeCandidate (Some 12);
   row "t1" "timeline" "a.log" ScopeIndependent (Some 9);
   row "t2" "timeline" "c.log" ScopeIndependent (Some 11);
   row "t3" "timeline" "a.log" ScopeIndependent (Some 90);
   row "t4" "timeline" "a.log" ScopeIndependent None].
Definition budget : FastTriageNeighborhoodBudget :=
  {| same_source_radius := 2; cross_source_radius := 2; max_context_rows := 1 |}.
Definition out : FastTriageNeighborhood :=
  classify_neighborhood rows ["g"] ResolvedComparable budget.
Example categories_of_rows :
  category out <$> (nr_evidence_id <$> rows) =
  [Some Focus; Some Propagation; Some PrecedingSameSource; Some IndependentNoise;
   Some IndependentNoise; Some IndependentNoise] ∧
  withheld_out_of_radius out = 1 ∧ withheld_over_budget out = 1.
Proof. vm_compute. done. Qed.
Lemma ids : NoDup (nr_evidence_id <$> rows).
Proof. apply (bool_decide_unpack _). vm_compute. exact I. Qed.
End NeighborhoodDemo.

Lemma neighborhood_ignores_row_order_witness :
  classify_neighborhood NeighborhoodDemo.rows ["g"] ResolvedComparable NeighborhoodDemo.budget =
  classify_neighborhood (rev NeighborhoodDemo.rows) ["g"] ResolvedComparable NeighborhoodDemo.budget.
Proof.
  apply (neighborhood_ignores_row_order NeighborhoodDemo.rows); [exact NeighborhoodDemo.ids|].
  apply Permutation_rev.
Defined.

Lemma neighborhood_categories_are_justified_witness :
  category_because ["g"] ResolvedComparable NeighborhoodDemo.budget NeighborhoodDemo.rows
    (NeighborhoodDemo.row "t1" "timeline" "a.log" ScopeIndependent (Some 9)) PrecedingSameSource.
Proof.
  destruct (neighborhood_categories_are_justified NeighborhoodDemo.rows ["g"] ResolvedComparable
    NeighborhoodDemo.budget (NeighborhoodDemo.row "t1" "timeline" "a.log" ScopeIndependent (Some 9))
    NeighborhoodDemo.ids) as (c & Hc & Hb).
  - vm_compute. reflexivity.
  - apply elem_of_cons; right. apply elem_of_cons; right. by left.
  - change (Some PrecedingSameSource = Some c) in Hc. injection Hc as <-. exact Hb.
Defined.

Lemma neighborhood_is_bounded_and_accounted_witness :
  category_count NeighborhoodDemo.out PrecedingSameSource +
    category_count NeighborhoodDemo.out FollowingSameSource +
    category_count NeighborhoodDemo.out CrossSourceTemporal ≤ 1.
Proof.
  exact (proj1 (neighborhood_is_bounded_and_accounted NeighborhoodDemo.rows ["g"]
    ResolvedComparable NeighborhoodDemo.budget NeighborhoodDemo.ids)).
Defined.
