(* ===== verification/FastPacket.v ===== *)
(** * The fast-triage packet

    [crates/cd-core/src/fast_triage/packet.rs]: the immutable packet one fast
    model call is bound to, built from the evidence ledger and the host's
    neighborhood policy, and the identity it carries. *)
From Stdlib Require Import ZArith Lia Ascii String.
From stdpp Require Import base tactics option list list_numbers sets sorting strings.
From S2P Require Import Prelude RustStr BTree Crypto TriageSdk Answer Neighborhood.

Local Open Scope string_scope.
Local Open Scope list_scope.
Local Open Scope Z_scope.

Definition FAST_TRIAGE_PACKET_SCHEMA_V1 : string := "contextdesk.fast_triage.packet.v1".

Definition evidence_role_label (role : EvidenceRole) : string :=
  match role with
  | Cause => "initiating_cause"
  | Supporting => "supporting_evidence"
  | Symptom => "downstream_symptom"
  | Neutral => "unclassified"
  end.

Record FastTriagePacketRow := {
  pk_evidence_id : string;
  pk_candidate_id : string;
  pk_role : EvidenceRole;
  pk_scope : FastTriageEvidenceScope;
  pk_chronology_ordinal : option Z;
  pk_context_category : FastTriageEvidenceCategory;
}.

Inductive FastTriageRoleEvidence := HostLabelled | HostNeutral.

Record FastTriagePacketInputs := {
  in_ledger : HostEvidenceLedger;
  in_independent_candidate_id : option string;
  in_timeline_complete : bool;
  in_clock : FastTriageClockCompatibility;
  in_trace_correlated_candidates : list string;
  in_neighborhood : FastTriageNeighborhoodBudget;
}.

Record FastTriagePacketV1 := {
  pkt_ledger : HostEvidenceLedger;
  pkt_rows : list FastTriagePacketRow;
  pkt_independent_candidate_id : option string;
  pkt_timeline_complete : bool;
  pkt_clock : FastTriageClockCompatibility;
  pkt_neighborhood : FastTriageNeighborhood;
  pkt_packet_id : string;
}.

(** ** Identity *)

Definition ordinal_bytes (o : option Z) : list ascii :=
  match o with
  | Some ordinal => "001"%char :: to_le_bytes 8 ordinal
  | None => ["000"%char]
  end.

Definition packet_row_bytes (row : FastTriagePacketRow) : list ascii :=
  len_field (pk_evidence_id row) ++ len_field (pk_candidate_id row) ++
  len_field (evidence_role_label (pk_role row)) ++ len_field (scope_as_str (pk_scope row)) ++
  len_field (category_as_str (pk_context_category row)) ++ ordinal_bytes (pk_chronology_ordinal row).

Definition revision_bytes (r : LogSnapshotRevisionV1) : list ascii :=
  to_le_bytes 8 (event_revision r) ++ to_le_bytes 8 (template_analysis_revision r) ++
  to_le_bytes 8 (suppression_revision r).
Definition bool_byte (b : bool) : ascii := if b then "001"%char else "000"%char.

Definition packet_bytes (binding : AnswerBindingV1) (rows : list FastTriagePacketRow)
    (independent_candidate_id : option string) (timeline_complete : bool)
    (clock : FastTriageClockCompatibility) (budget : FastTriageNeighborhoodBudget) : list ascii :=
  len_field FAST_TRIAGE_PACKET_SCHEMA_V1 ++ len_field (bind_session_id binding) ++
  len_field (bind_turn_id binding) ++ len_field (bind_corpus_id binding) ++
  len_field (bind_ledger_digest binding) ++ revision_bytes (bind_revision binding) ++
  len_field (unwrap_or EmptyString independent_candidate_id) ++ [bool_byte timeline_complete] ++
  len_field (clock_as_str clock) ++ to_le_bytes 8 (same_source_radius budget) ++
  to_le_bytes 8 (cross_source_radius budget) ++ to_le_bytes 8 (max_context_rows budget) ++
  to_le_bytes 8 (zlen rows) ++ concat (packet_row_bytes <$> rows).

Section packet.
Context `{Sha2}.

Definition packet_identity (ledger : HostEvidenceLedger) (rows : list FastTriagePacketRow)
    (independent_candidate_id : option string) (timeline_complete : bool)
    (clock : FastTriageClockCompatibility) (budget : FastTriageNeighborhoodBudget) : string :=
  sha256_hex (packet_bytes (led_binding ledger) rows independent_candidate_id timeline_complete
                clock budget).

(** ** Building *)

(** [.map(str::trim).filter(|id| !id.is_empty())] *)
Definition normalized_id (id : option string) : option string :=
  match id with
  | Some id => if is_empty (trim id) then None else Some (trim id)
  | None => None
  end.
Definition scope_of (independent : option string) (candidate_id : string) :
    FastTriageEvidenceScope :=
  if bool_decide (independent = Some candidate_id) then ScopeIndependent else ScopeCandidate.
Definition ordinal_of (locator : string) : option Z :=
  value ← strip_prefix "seq=" locator; parse_u64 (trim value).

Definition neighborhood_row (independent : option string) (e : HostEvidenceEntry) :
    NeighborhoodRow :=
  {| nr_evidence_id := ev_evidence_id e; nr_candidate_id := ev_candidate_id e;
     nr_source_label := ev_source_label e; nr_scope := scope_of independent (ev_candidate_id e);
     nr_chronology_ordinal := ordinal_of (ev_locator e) |}.
Definition packet_row (independent : option string) (n : FastTriageNeighborhood)
    (e : HostEvidenceEntry) : FastTriagePacketRow :=
  {| pk_evidence_id := ev_evidence_id e; pk_candidate_id := ev_candidate_id e;
     pk_role := ev_role e; pk_scope := scope_of independent (ev_candidate_id e);
     pk_chronology_ordinal := ordinal_of (ev_locator e);
     pk_context_category := unwrap_or IndependentNoise (category n (ev_evidence_id e)) |}.

Definition packet_build (i : FastTriagePacketInputs) : FastTriagePacketV1 :=
  let independent := normalized_id (in_independent_candidate_id i) in
  let entries := ledger_rows (in_ledger i) in
  let n := classify_neighborhood (neighborhood_row independent <$> entries)
             (in_trace_correlated_candidates i) (in_clock i) (in_neighborhood i) in
  let rows := packet_row independent n <$> entries in
  {| pkt_ledger := in_ledger i; pkt_rows := rows; pkt_independent_candidate_id := independent;
     pkt_timeline_complete := in_timeline_complete i; pkt_clock := in_clock i;
     pkt_neighborhood := n;
     pkt_packet_id := packet_identity (in_ledger i) rows independent (in_timeline_complete i)
                        (in_clock i) (in_neighborhood i) |}.

Definition from_ledger (ledger : HostEvidenceLedger) (independent_candidate_id : option string)
    (timeline_complete : bool) : FastTriagePacketV1 :=
  packet_build {| in_ledger := ledger; in_independent_candidate_id := independent_candidate_id;
                  in_timeline_complete := timeline_complete; in_clock := OrderOnly;
                  in_trace_correlated_candidates := []; in_neighborhood := default_budget |}.
End packet.

(** ** Reading *)

Definition role_evidence (p : FastTriagePacketV1) : FastTriageRoleEvidence :=
  if existsb (λ row, negb (bool_decide (pk_role row = Neutral))) (pkt_rows p)
  then HostLabelled else HostNeutral.
Definition packet_candidate_ids (p : FastTriagePacketV1) : list string :=
  set_collect (pk_candidate_id <$>
    List.filter (λ row, bool_decide (pk_scope row = ScopeCandidate)) (pkt_rows p)).
Definition packet_get (p : FastTriagePacketV1) (evidence_id : string) :
    option FastTriagePacketRow :=
  List.find (λ row, bool_decide (pk_evidence_id row = evidence_id)) (pkt_rows p).

(** ** The identity determines the packet *)

Definition encodable_binding (b : AnswerBindingV1) : Prop :=
  u64_str (bind_session_id b) ∧ u64_str (bind_turn_id b) ∧ u64_str (bind_corpus_id b) ∧
  u64_str (bind_ledger_digest b) ∧ fits_u64 (event_revision (bind_revision b)) ∧
  fits_u64 (template_analysis_revision (bind_revision b)) ∧
  fits_u64 (suppression_revision (bind_revision b)).
Definition encodable_budget (b : FastTriageNeighborhoodBudget) : Prop :=
  fits_u64 (same_source_radius b) ∧ fits_u64 (cross_source_radius b) ∧ fits_u64 (max_context_rows b).
Definition encodable_row (r : FastTriagePacketRow) : Prop :=
  u64_str (pk_evidence_id r) ∧ u64_str (pk_candidate_id r) ∧
  match pk_chronology_ordinal r with Some o => fits_u64 o | None => True end.

Lemma label_self_delimiting {A} (label : A → string) :
  Inj (=) (=) label → (∀ a, u64_str (label a)) →
  self_delimiting (λ _, True) (λ a, len_field (label a)).
Proof.
  intros Hinj Hlen a b x y _ _ E. apply len_field_self_delimiting in E as [E ->]; [|done..].
  split; [by apply Hinj|done].
Qed.

Lemma role_label_self_delimiting :
  self_delimiting (λ _, True) (λ a, len_field (evidence_role_label a)).
Proof. apply label_self_delimiting; [by intros [] []|]. intros []; vm_compute; congruence. Qed.
Lemma scope_label_self_delimiting : self_delimiting (λ _, True) (λ a, len_field (scope_as_str a)).
Proof. apply label_self_delimiting; [by intros [] []|]. intros []; vm_compute; congruence. Qed.
Lemma category_label_self_delimiting :
  self_delimiting (λ _, True) (λ a, len_field (category_as_str a)).
Proof. apply label_self_delimiting; [by intros [] []|]. intros []; vm_compute; congruence. Qed.
Lemma clock_label_self_delimiting : self_delimiting (λ _, True) (λ a, len_field (clock_as_str a)).
Proof. apply label_self_delimiting; [by intros [] []|]. intros []; vm_compute; congruence. Qed.

Lemma ordinal_self_delimiting :
  self_delimiting (λ o, match o with Some n => fits_u64 n | None => True end) ordinal_bytes.
Proof.
  intros [a|] [b|] x y Ha Hb E; cbn [ordinal_bytes app] in E; try done.
  - apply (f_equal tail) in E. cbn [tail] in E. apply le_u64_self_delimiting in E as [-> ->]; done.
  - by injection E as ->.
Qed.

Lemma packet_row_self_delimiting : self_delimiting encodable_row packet_row_bytes.
Proof.
  intros a b x y (?&?&?) (?&?&?) E. unfold packet_row_bytes in E. rewrite <-!(assoc_L (++)) in E.
  do 2 (apply len_field_self_delimiting in E as [? E]; [|done..]).
  apply role_label_self_delimiting in E as [? E]; [|done..].
  apply scope_label_self_delimiting in E as [? E]; [|done..].
  apply category_label_self_delimiting in E as [? E]; [|done..].
  apply ordinal_self_delimiting in E as [? E]; [|done..].
  split; [|done]. destruct a, b; cbn in *; by subst.
Qed.

Lemma revision_self_delimiting :
  self_delimiting (λ r, fits_u64 (event_revision r) ∧ fits_u64 (template_analysis_revision r) ∧
                        fits_u64 (suppression_revision r)) revision_bytes.
Proof.
  intros a b x y (?&?&?) (?&?&?) E. unfold revision_bytes in E. rewrite <-!(assoc_L (++)) in E.
  do 3 (apply le_u64_self_delimiting in E as [? E]; [|done..]).
  split; [|done]. destruct a, b; cbn in *; by subst.
Qed.

(** The identifier of the separately scoped timeline is never empty. *)
Definition some_nonempty (id : option string) : Prop :=
  match id with Some s => s ≠ EmptyString ∧ u64_str s | None => True end.

Lemma packet_bytes_inj b1 rows1 i1 t1 c1 g1 b2 rows2 i2 t2 c2 g2 :
  encodable_binding b1 → encodable_binding b2 → encodable_budget g1 → encodable_budget g2 →
  some_nonempty i1 → some_nonempty i2 → Forall encodable_row rows1 → Forall encodable_row rows2 →
  zlen rows1 ≤ u64_max → zlen rows2 ≤ u64_max →
  packet_bytes b1 rows1 i1 t1 c1 g1 = packet_bytes b2 rows2 i2 t2 c2 g2 →
  b1 = b2 ∧ rows1 = rows2 ∧ i1 = i2 ∧ t1 = t2 ∧ c1 = c2 ∧ g1 = g2.
Proof.
  intros (?&?&?&?&?&?&?) (?&?&?&?&?&?&?) (?&?&?) (?&?&?) Hi1 Hi2 Hr1 Hr2 Hz1 Hz2 E.
  unfold packet_bytes in E. rewrite (app_inv_head_iff (len_field FAST_TRIAGE_PACKET_SCHEMA_V1)) in E.
  do 4 (apply len_field_self_delimiting in E as [? E]; [|done..]).
  apply revision_self_delimiting in E as [? E]; [|done..].
  apply len_field_self_delimiting in E as [Hi E];
    [|destruct i1 as [s|]; [by destruct Hi1|vm_compute; congruence]
     |destruct i2 as [s|]; [by destruct Hi2|vm_compute; congruence]].
  apply (tag_self_delimiting bool_byte) in E as [? E]; [|by intros [] []|done..].
  apply clock_label_self_delimiting in E as [? E]; [|done..].
  do 3 (apply le_u64_self_delimiting in E as [? E]; [|done..]).
  apply le_u64_self_delimiting in E as [Hlen E]; [|split; [apply zlen_nonneg|done]..].
  rewrite <-(app_nil_r (concat (_ <$> rows1))), <-(app_nil_r (concat (_ <$> rows2))) in E.
  apply (concat_self_delimiting encodable_row) in E as [? _];
    [|apply packet_row_self_delimiting|done..|unfold zlen in Hlen; lia].
  split_and!; [destruct b1, b2; cbn in *; by subst|done| |done|done|destruct g1, g2; cbn in *; by subst].
  destruct i1 as [s1|], i2 as [s2|]; cbn in *; subst; naive_solver.
Qed.

(** ** A built packet *)

Section built.
Context `{Sha2}.

Lemma normalized_id_nonempty id :
  match id with Some s => u64_str (trim s) | None => True end → some_nonempty (normalized_id id).
Proof.
  destruct id as [s|]; [|done]. cbn. unfold is_empty. case_bool_decide; [done|]. by split.
Qed.

Definition neighborhood_rows (i : FastTriagePacketInputs) : list NeighborhoodRow :=
  neighborhood_row (normalized_id (in_independent_candidate_id i)) <$> ledger_rows (in_ledger i).

Lemma neighborhood_rows_ids i :
  nr_evidence_id <$> neighborhood_rows i = ev_evidence_id <$> ledger_rows (in_ledger i).
Proof. unfold neighborhood_rows. by rewrite <-list_fmap_compose. Qed.

(** A row is found under its id, with the facts of the ledger entry. *)
Lemma packet_get_ledger i id :
  ledger_ok (in_ledger i) →
  packet_get (packet_build i) id =
    packet_row (normalized_id (in_independent_candidate_id i)) (pkt_neighborhood (packet_build i))
      <$> ledger_get (in_ledger i) id.
Proof.
  intros Hok. unfold ledger_get, bmap_get. rewrite (ledger_ok_entries _ Hok).
  unfold packet_get. cbn [pkt_rows packet_build]. set (n := pkt_neighborhood (packet_build i)).
  change (classify_neighborhood _ _ _ _) with n. clearbody n.
  induction (ledger_rows (in_ledger i)) as [|e l IH]; [done|]. cbn. by case_bool_decide.
Qed.

(** The counters do not depend on the trace correlation, and the categories are
    in the rows. *)
Lemma same_rows_same_neighborhood i1 i2 :
  ledger_ok (in_ledger i1) → in_ledger i1 = in_ledger i2 →
  normalized_id (in_independent_candidate_id i1) = normalized_id (in_independent_candidate_id i2) →
  in_clock i1 = in_clock i2 → in_neighborhood i1 = in_neighborhood i2 →
  pkt_rows (packet_build i1) = pkt_rows (packet_build i2) →
  pkt_neighborhood (packet_build i1) = pkt_neighborhood (packet_build i2).
Proof.
  intros Hok Hl Hi Hc Hb. cbn [pkt_rows pkt_neighborhood packet_build].
  rewrite <-Hl, <-Hi, <-Hc, <-Hb. set (rows := neighborhood_row _ <$> ledger_rows _).
  assert (nr_evidence_id <$> rows = ev_evidence_id <$> ledger_rows (in_ledger i1)) as Hids
    by apply neighborhood_rows_ids.
  assert (NoDup (nr_evidence_id <$> rows)) as Hnd by (rewrite Hids; by apply ledger_ok_NoDup).
  intros Hrows. apply same_categories_same_neighborhood; [done|].
  intros id Hid. rewrite Hids in Hid. apply list_elem_of_fmap in Hid as (e & -> & He).
  by injection (fmap_eq_elem _ _ _ _ Hrows He).
Qed.

Definition encodable_inputs (i : FastTriagePacketInputs) : Prop :=
  encodable_binding (led_binding (in_ledger i)) ∧ encodable_budget (in_neighborhood i) ∧
  match in_independent_candidate_id i with Some s => u64_str (trim s) | None => True end ∧
  Forall (λ e, u64_str (ev_evidence_id e) ∧ u64_str (ev_candidate_id e)) (ledger_rows (in_ledger i)) ∧
  zlen (ledger_rows (in_ledger i)) ≤ u64_max.

#[global] Instance encodable_inputs_dec i : Decision (encodable_inputs i).
Proof.
  unfold encodable_inputs, encodable_binding, encodable_budget, fits_u64, u64_str.
  destruct (in_independent_candidate_id i); apply _.
Defined.

Lemma ordinal_of_fits locator o : ordinal_of locator = Some o → fits_u64 o.
Proof.
  unfold ordinal_of. intros (v & _ & Hp)%bind_Some. by apply parse_u64_fits in Hp.
Qed.

Lemma packet_id_facts i1 i2 :
  encodable_inputs i1 → encodable_inputs i2 →
  pkt_packet_id (packet_build i1) = pkt_packet_id (packet_build i2) →
  sha_collision ∨
  led_binding (in_ledger i1) = led_binding (in_ledger i2) ∧
  pkt_rows (packet_build i1) = pkt_rows (packet_build i2) ∧
  normalized_id (in_independent_candidate_id i1) = normalized_id (in_independent_candidate_id i2) ∧
  in_timeline_complete i1 = in_timeline_complete i2 ∧ in_clock i1 = in_clock i2 ∧
  in_neighborhood i1 = in_neighborhood i2.
Proof.
  assert (∀ i, encodable_inputs i → Forall encodable_row (pkt_rows (packet_build i)) ∧
                                    zlen (pkt_rows (packet_build i)) ≤ u64_max) as Hrows.
  { intros i (_ & _ & _ & He & Hz). cbn. split; [|unfold zlen in *; by rewrite length_fmap].
    apply Forall_fmap. eapply Forall_impl; [exact He|]. intros e [? ?]. split_and!; [done..|]. cbn.
    destruct (ordinal_of (ev_locator e)) eqn:E; [by eapply ordinal_of_fits|done]. }
  intros H1 H2 Hid. destruct (Hrows i1 H1), (Hrows i2 H2).
  destruct H1 as (?&?&?&_), H2 as (?&?&?&_).
  apply digest_eq_or_collision in Hid as [E|?]; [right|by left].
  by apply packet_bytes_inj in E; [|try done; by apply normalized_id_nonempty..].
Qed.
End built.

(** ** Claims *)

(** C35. The packet id identifies the whole packet: two packets built from
    constructed ledgers that carry the same id are equal in every part (ledger
    with its evidence content, rows with role, scope, ordinal and category,
    timeline scope, completeness, clock verdict and neighborhood accounting),
    unless SHA-256 collides. The evidence fields hold no NUL byte, lengths and
    counts fit [u64]. *)
Theorem packet_id_identifies_the_packet `{Sha2} b1 b2 ev1 ev2 i1 i2 :
  HostEvidenceLedger_new b1 ev1 = Ok (in_ledger i1) →
  HostEvidenceLedger_new b2 ev2 = Ok (in_ledger i2) →
  Forall row_encodable ev1 → Forall row_encodable ev2 →
  encodable_inputs i1 → encodable_inputs i2 →
  pkt_packet_id (packet_build i1) = pkt_packet_id (packet_build i2) →
  packet_build i1 = packet_build i2 ∨ sha_collision.
Proof.
  intros Hl1 Hl2 He1 He2 Hi1 Hi2 Hid.
  destruct (packet_id_facts i1 i2 Hi1 Hi2 Hid) as [?|(Hb & Hrows & Hind & Ht & Hc & Hg)]; [by right|].
  pose proof (ledger_new_Ok _ _ _ Hl1) as (Hok1 & Hb1 & _ & _ & _).
  pose proof (ledger_new_Ok _ _ _ Hl2) as (Hok2 & Hb2 & _ & _ & _).
  destruct (ledger_digest_identifies_rows _ _ _ _ _ _ Hl1 Hl2) as [Hr|?]; [congruence|done..| |by right].
  assert (in_ledger i1 = in_ledger i2) as Hl.
  { pose proof (ledger_ok_entries _ Hok1) as E1. pose proof (ledger_ok_entries _ Hok2) as E2.
    destruct (in_ledger i1), (in_ledger i2). cbn in *. congruence. }
  left. pose proof (same_rows_same_neighborhood i1 i2 Hok1 Hl Hind Hc Hg Hrows) as Hn.
  destruct (packet_build i1) eqn:E1, (packet_build i2) eqn:E2. cbn in Hn, Hrows, Hid.
  unfold packet_build in E1, E2. injection E1 as <- _ <- <- <- _ _. injection E2 as <- _ <- <- <- _ _.
  congruence.
Qed.

Module PacketDemo.
Export AnswerDemo.
Definition inputs (timeline : string) : FastTriagePacketInputs :=
  {| in_ledger := AnswerDemo.ledger; in_independent_candidate_id := Some timeline;
     in_timeline_complete := true; in_clock := OrderOnly; in_trace_correlated_candidates := [];
     in_neighborhood := default_budget |}.
End PacketDemo.

Lemma packet_id_identifies_the_packet_witness :
  @packet_build AnswerDemo.sha2 (PacketDemo.inputs "timeline") =
    @packet_build AnswerDemo.sha2 (PacketDemo.inputs " timeline ") ∨ @sha_collision AnswerDemo.sha2.
Proof.
  refine (@packet_id_identifies_the_packet AnswerDemo.sha2 AnswerDemo.binding AnswerDemo.binding
    AnswerDemo.evidence AnswerDemo.evidence (PacketDemo.inputs "timeline")
    (PacketDemo.inputs " timeline ") _ _ _ _ _ _ _).
  - exact AnswerDemo.ledger_built.
  - exact AnswerDemo.ledger_built.
  - apply (bool_decide_unpack _). vm_compute. exact I.
  - apply (bool_decide_unpack _). vm_compute. exact I.
  - apply (bool_decide_unpack _). vm_compute. exact I.
  - apply (bool_decide_unpack _). vm_compute. exact I.
  - vm_compute. reflexivity.
Defined.
