(* ===== verification/FastValidate.v ===== *)
(** * Selecting and validating the fast-triage route

    [crates/cd-core/src/fast_triage/selection.rs] (which turns may run the fast
    route at all) and [crates/cd-core/src/fast_triage/validate.rs] (which
    proposals of a fast model the host accepts). *)
From Stdlib Require Import ZArith Lia Ascii String.
From stdpp Require Import base tactics option list list_numbers sets sorting strings.
From S2P Require Import Prelude RustStr BTree Crypto TriageSdk Answer Neighborhood FastPacket.

Local Open Scope string_scope.
Local Open Scope list_scope.
Local Open Scope Z_scope.

(** ** Selection *)

Inductive FastTriageWorkflowContract := HostGroundedSynthesisCompletePacket.
#[global] Instance FastTriageWorkflowContract_eq_dec : EqDecision FastTriageWorkflowContract.
Proof. solve_decision. Defined.
Inductive FastTriageRouteVerdict := Qualified | Unqualified | Inconclusive.
#[global] Instance FastTriageRouteVerdict_eq_dec : EqDecision FastTriageRouteVerdict.
Proof. solve_decision. Defined.

Record FastTriageRouteRecord := {
  rec_profile_id : string;
  rec_model_id : string;
  rec_workflow_contract : FastTriageWorkflowContract;
  rec_verdict : FastTriageRouteVerdict;
  rec_contract_fingerprint : string;
}.
Record FastTriageRouteRequest := {
  req_enabled : bool;
  req_profile_id : option string;
  req_model_id : option string;
  req_workflow_contract : FastTriageWorkflowContract;
  req_contract_fingerprint : string;
}.
Inductive FastTriageRouteRejection :=
| RouteDisabled | TurnIdentityUnknown | NoRecordForProfileModel | WorkflowContractMismatch
| VerdictNotQualified | ContractFingerprintStale | PacketExceedsContextBudget.

Record FastTriageRoleBinding := {
  role_profile_id : string;
  role_model_id : string;
}.
Record SelectedFastRoute := {
  sel_role : FastTriageRoleBinding;
  sel_workflow_contract : FastTriageWorkflowContract;
  sel_contract_fingerprint : string;
}.
Inductive FastTriageRouteSelection :=
| Selected (route : SelectedFastRoute)
| NotSelected (rejection : FastTriageRouteRejection).

Definition select_fast_triage_route (records : list FastTriageRouteRecord)
    (request : FastTriageRouteRequest) : FastTriageRouteSelection :=
  if negb (req_enabled request) then NotSelected RouteDisabled
  else match req_profile_id request, req_model_id request with
  | Some profile_id, Some model_id =>
      if is_empty (trim profile_id) || is_empty (trim model_id)
      then NotSelected TurnIdentityUnknown else
      let for_pair := List.filter (λ r, bool_decide (rec_profile_id r = profile_id) &&
                                        bool_decide (rec_model_id r = model_id)) records in
      if bool_decide (length for_pair = 0%nat) then NotSelected NoRecordForProfileModel else
      let for_contract := List.filter (λ r, bool_decide
        (rec_workflow_contract r = req_workflow_contract request)) for_pair in
      if bool_decide (length for_contract = 0%nat) then NotSelected WorkflowContractMismatch else
      let qualified := List.filter (λ r, bool_decide (rec_verdict r = Qualified)) for_contract in
      if bool_decide (length qualified = 0%nat) then NotSelected VerdictNotQualified else
      if existsb (λ r, negb (bool_decide (rec_contract_fingerprint r =
                                          req_contract_fingerprint request))) qualified
      then NotSelected ContractFingerprintStale
      else Selected {| sel_role := {| role_profile_id := profile_id; role_model_id := model_id |};
                       sel_workflow_contract := req_workflow_contract request;
                       sel_contract_fingerprint := req_contract_fingerprint request |}
  | _, _ => NotSelected TurnIdentityUnknown
  end.

(** ** Failure categories *)

Inductive FastTriageFailureCategory :=
| EmptyVisibleAnswer | MalformedTerminal | SchemaMismatch | DuplicateId | ForeignEvidenceId
| CrossCandidateEvidence | StaleEvidenceRevision | UngroundedClaim | RootUnsupported
| SymptomPromotedToCause | IndependentEvidencePromoted | ChronologyInverted | RoleCoverage
| ContradictoryRoles | CitationIncomplete | PacketIdentityChanged | HostPacketInvalid.
#[global] Instance FastTriageFailureCategory_eq_dec : EqDecision FastTriageFailureCategory.
Proof. solve_decision. Defined.

(** The derived [Ord]: the position of the variant. *)
Definition failure_rank (c : FastTriageFailureCategory) : Z :=
  match c with
  | EmptyVisibleAnswer => 0 | MalformedTerminal => 1 | SchemaMismatch => 2 | DuplicateId => 3
  | ForeignEvidenceId => 4 | CrossCandidateEvidence => 5 | StaleEvidenceRevision => 6
  | UngroundedClaim => 7 | RootUnsupported => 8 | SymptomPromotedToCause => 9
  | IndependentEvidencePromoted => 10 | ChronologyInverted => 11 | RoleCoverage => 12
  | ContradictoryRoles => 13 | CitationIncomplete => 14 | PacketIdentityChanged => 15
  | HostPacketInvalid => 16
  end.
#[global] Instance failure_order : KeyOrder FastTriageFailureCategory := rank_le failure_rank.
#[global] Instance failure_order_ok : KeyOrderOk FastTriageFailureCategory.
Proof. apply rank_order_ok. by intros [] []. Defined.

Definition claim_kind_rank (k : ClaimKind) : Z :=
  match k with
  | Observation => 0 | SymptomClaim => 1 | CausalCandidate => 2 | InitiatingCause => 3
  | CompetingExplanation => 4 | MissingEvidence => 5
  end.
#[global] Instance claim_kind_order : KeyOrder ClaimKind := rank_le claim_kind_rank.
#[global] Instance claim_kind_order_ok : KeyOrderOk ClaimKind.
Proof. apply rank_order_ok. by intros [] []. Defined.

Definition from_validation_error (error : ValidationError) : FastTriageFailureCategory :=
  match error with
  | VParse => MalformedTerminal
  | VSchema => SchemaMismatch
  | VDuplicateId => DuplicateId
  | VUnknownEvidence => ForeignEvidenceId
  | VWrongScope => CrossCandidateEvidence
  | VWrongRevision => StaleEvidenceRevision
  | VEmptyEvidence => UngroundedClaim
  | VRootRole => RootUnsupported
  | VRoleMismatch => SymptomPromotedToCause
  | VRoleCoverage => RoleCoverage
  | VEmptyLedger | VInvalidBinding | VDigestMismatch => HostPacketInvalid
  end.
Definition is_host_side (c : FastTriageFailureCategory) : bool :=
  match c with PacketIdentityChanged | HostPacketInvalid => true | _ => false end.

Inductive FastTriageValidation :=
| FastAccepted (envelope : AnswerEnvelopeV1)
| FastRejected (categories : list FastTriageFailureCategory).

(** ** Validation *)

Definition is_chain_kind (k : ClaimKind) : bool :=
  match k with SymptomClaim | CausalCandidate | InitiatingCause => true | _ => false end.
Definition is_causal_kind (k : ClaimKind) : bool :=
  match k with CausalCandidate | InitiatingCause => true | _ => false end.

(** What the main loop carries along. *)
Record Checks := {
  ck_categories : list FastTriageFailureCategory;
  ck_cited_kinds : list (string * list ClaimKind);
  ck_grounded : list (string * bool);
  ck_earliest : list (string * ClaimKind * Z);
}.

Definition flag (b : bool) (c : FastTriageFailureCategory) (s : list FastTriageFailureCategory) :
    list FastTriageFailureCategory := if b then set_insert c s else s.

Definition cite_step (packet : FastTriagePacketV1) (candidate : string) (kind : ClaimKind)
    (s : Checks) (evidence_id : string) : Checks :=
  match packet_get packet evidence_id with
  | None => s
  | Some row =>
      {| ck_categories :=
           flag (bool_decide (pk_scope row = ScopeIndependent) && is_chain_kind kind)
             IndependentEvidencePromoted
             (flag (bool_decide (pk_role row = Symptom) && is_causal_kind kind)
                SymptomPromotedToCause (ck_categories s));
         ck_cited_kinds :=
           bmap_upsert (pk_evidence_id row) (set_insert kind) [kind] (ck_cited_kinds s);
         ck_grounded := ck_grounded s;
         ck_earliest :=
           match pk_chronology_ordinal row with
           | Some ordinal =>
               bmap_upsert (candidate, kind) (λ current, Z.min current ordinal) ordinal
                 (ck_earliest s)
           | None => ck_earliest s
           end |}
  end.

(** The part of the loop body before the evidence ids. *)
Definition claim_head (candidate : string) (s : Checks) (claim : InvestigationClaimV1) : Checks :=
  {| ck_categories :=
       flag (bool_decide (claim_kind claim = InitiatingCause) &&
             bool_decide (claim_status claim = Withheld)) RootUnsupported (ck_categories s);
     ck_cited_kinds := ck_cited_kinds s;
     ck_grounded :=
       if negb (bool_decide (claim_evidence_ids claim = []))
       then bmap_insert candidate true (ck_grounded s) else ck_grounded s;
     ck_earliest := ck_earliest s |}.
Definition claim_step (packet : FastTriagePacketV1) (candidate : string) (s : Checks)
    (claim : InvestigationClaimV1) : Checks :=
  foldl (cite_step packet candidate (claim_kind claim)) (claim_head candidate s claim)
    (claim_evidence_ids claim).

Definition fast_candidate_step (packet : FastTriagePacketV1) (s : Checks)
    (candidate : InvestigationCandidateV1) : Checks :=
  foldl (claim_step packet (candidate_id candidate)) s (candidate_claims candidate).

Definition labelled_rows (role : EvidenceRole) (rows : list FastTriagePacketRow) :
    list (string * list string) :=
  foldl (λ m row,
    if bool_decide (pk_role row = role)
    then bmap_upsert (pk_candidate_id row) (set_insert (pk_evidence_id row)) [pk_evidence_id row] m
    else m) [] rows.

(** [cited_in] of the role coverage check. *)
Definition cited_in (envelope : AnswerEnvelopeV1) (cand : string) (kinds : ClaimKind → bool)
    (ids : list string) : bool :=
  is_some_and
    (List.find (λ c, bool_decide (candidate_id c = cand)) (ans_candidates (env_answer envelope)))
    (λ c, existsb (λ claim, kinds (claim_kind claim) &&
                            existsb (λ id, bool_decide (id ∈ ids)) (claim_evidence_ids claim))
            (candidate_claims c)).

Definition contradiction (kinds : list ClaimKind) : bool :=
  (existsb is_chain_kind kinds && bool_decide (CompetingExplanation ∈ kinds)) ||
  (bool_decide (InitiatingCause ∈ kinds) && bool_decide (SymptomClaim ∈ kinds)).
Definition inverted (earliest : list (string * ClaimKind * Z)) (cand : string) : bool :=
  match bmap_get (cand, InitiatingCause) earliest, bmap_get (cand, SymptomClaim) earliest with
  | Some cause, Some symptom => symptom <? cause
  | _, _ => false
  end.
Definition is_symptom_kind (k : ClaimKind) : bool := bool_decide (k = SymptomClaim).

Definition initial_checks (packet : FastTriagePacketV1) : Checks :=
  {| ck_categories := []; ck_cited_kinds := [];
     ck_grounded := inserts [] ((λ row, (pk_candidate_id row, false)) <$> pkt_rows packet);
     ck_earliest := [] |}.

Definition fast_categories (packet : FastTriagePacketV1) (envelope : AnswerEnvelopeV1) :
    list FastTriageFailureCategory :=
  let candidates := ans_candidates (env_answer envelope) in
  let s := foldl (fast_candidate_step packet) (initial_checks packet) candidates in
  let cs := foldl (λ cs kv, flag (contradiction kv.2) ContradictoryRoles cs)
    (ck_categories s) (ck_cited_kinds s) in
  let cs := foldl (λ cs c, flag (inverted (ck_earliest s) (candidate_id c)) ChronologyInverted cs)
    cs candidates in
  let cs := foldl (λ cs kv, flag (negb (cited_in envelope kv.1 is_causal_kind kv.2)) RoleCoverage cs)
    cs (labelled_rows Cause (pkt_rows packet)) in
  let cs := foldl (λ cs kv, flag (negb (cited_in envelope kv.1 is_symptom_kind kv.2)) RoleCoverage cs)
    cs (labelled_rows Symptom (pkt_rows packet)) in
  flag (existsb negb (ck_grounded s).*2) CitationIncomplete cs.

Section validate.
Context (from_str : string → option ModelInvestigationAnswerV1).

Definition validate_fast_answer (object : string) (packet : FastTriagePacketV1) :
    FastTriageValidation :=
  match validate_model_answer from_str object (pkt_ledger packet) with
  | Err error => FastRejected [from_validation_error error]
  | Ok envelope =>
      let categories := fast_categories packet envelope in
      if bool_decide (categories = []) then FastAccepted envelope else FastRejected categories
  end.
End validate.

(** ** What the categories mean *)

Section spec.
Context (packet : FastTriagePacketV1) (envelope : AnswerEnvelopeV1).

(** [claimed cand claim]: the answer makes [claim] for the candidate [cand]. *)
Definition claimed (cand : string) (claim : InvestigationClaimV1) : Prop :=
  ∃ c, c ∈ ans_candidates (env_answer envelope) ∧ candidate_id c = cand ∧ claim ∈ candidate_claims c.
(** [cites cand kind row]: a claim of that kind cites the row. *)
Definition cites (cand : string) (kind : ClaimKind) (row : FastTriagePacketRow) : Prop :=
  ∃ claim id, claimed cand claim ∧ claim_kind claim = kind ∧ id ∈ claim_evidence_ids claim ∧
    packet_get packet id = Some row.
Definition cites_at (cand : string) (kind : ClaimKind) (o : Z) : Prop :=
  ∃ row, cites cand kind row ∧ pk_chronology_ordinal row = Some o.

(** No claim of the candidate's first entry cites a row the host gave [role]. *)
Definition uncovered (role : EvidenceRole) (kinds : ClaimKind → bool) (cand : string) : Prop :=
  (∃ row, row ∈ pkt_rows packet ∧ pk_candidate_id row = cand ∧ pk_role row = role) ∧
  ∀ row, row ∈ pkt_rows packet → pk_candidate_id row = cand → pk_role row = role →
    cited_in envelope cand kinds [pk_evidence_id row] = false.

Definition violates (c : FastTriageFailureCategory) : Prop :=
  match c with
  | RootUnsupported =>
      ∃ cand claim, claimed cand claim ∧ claim_kind claim = InitiatingCause ∧
        claim_status claim = Withheld
  | SymptomPromotedToCause =>
      ∃ cand kind row, cites cand kind row ∧ pk_role row = Symptom ∧ is_causal_kind kind = true
  | IndependentEvidencePromoted =>
      ∃ cand kind row, cites cand kind row ∧ pk_scope row = ScopeIndependent ∧
        is_chain_kind kind = true
  | ContradictoryRoles =>
      ∃ cand1 kind1 row1 cand2 kind2 row2, cites cand1 kind1 row1 ∧ cites cand2 kind2 row2 ∧
        pk_evidence_id row1 = pk_evidence_id row2 ∧
        (is_chain_kind kind1 = true ∧ kind2 = CompetingExplanation ∨
         kind1 = InitiatingCause ∧ kind2 = SymptomClaim)
  | ChronologyInverted =>
      ∃ cand o, cites_at cand SymptomClaim o ∧ (∃ o', cites_at cand InitiatingCause o') ∧
        ∀ o', cites_at cand InitiatingCause o' → o < o'
  | RoleCoverage =>
      ∃ cand, uncovered Cause is_causal_kind cand ∨ uncovered Symptom is_symptom_kind cand
  | CitationIncomplete =>
      ∃ row, row ∈ pkt_rows packet ∧
        ∀ claim, claimed (pk_candidate_id row) claim → claim_evidence_ids claim = []
  | _ => False
  end.
End spec.

(** ** The main loop *)

Section loop.
Context (packet : FastTriagePacketV1) (envelope : AnswerEnvelopeV1).
Let candidates := ans_candidates (env_answer envelope).
Definition checked : Checks := foldl (fast_candidate_step packet) (initial_checks packet) candidates.

(** A fact the loop can only add, and what adds it. *)
Lemma checks_exists (P : Checks → Prop) (Qclaim : string → InvestigationClaimV1 → Prop)
    (Qcite : string → ClaimKind → string → Prop) s :
  (∀ cand s claim, P (claim_head cand s claim) ↔ P s ∨ Qclaim cand claim) →
  (∀ cand kind s id, P (cite_step packet cand kind s id) ↔ P s ∨ Qcite cand kind id) →
  P (foldl (fast_candidate_step packet) s candidates) ↔
    P s ∨ ∃ cand claim, claimed envelope cand claim ∧
      (Qclaim cand claim ∨ ∃ id, id ∈ claim_evidence_ids claim ∧ Qcite cand (claim_kind claim) id).
Proof.
  intros Hhead Hcite.
  rewrite (foldl_exists P (λ c, ∃ claim, claim ∈ candidate_claims c ∧
    (Qclaim (candidate_id c) claim ∨
     ∃ id, id ∈ claim_evidence_ids claim ∧ Qcite (candidate_id c) (claim_kind claim) id))).
  - unfold claimed. naive_solver.
  - intros s' c. unfold fast_candidate_step. apply foldl_exists. intros s'' claim. unfold claim_step.
    rewrite (foldl_exists P (Qcite (candidate_id c) (claim_kind claim))) by done.
    rewrite Hhead. tauto.
Qed.

(** A fact the loop can only take away. *)
Lemma checks_forall (P : Checks → Prop) (Qclaim : string → InvestigationClaimV1 → Prop) s :
  (∀ cand s claim, P (claim_head cand s claim) ↔ P s ∧ Qclaim cand claim) →
  (∀ cand kind s id, P (cite_step packet cand kind s id) ↔ P s) →
  P (foldl (fast_candidate_step packet) s candidates) ↔
    P s ∧ ∀ cand claim, claimed envelope cand claim → Qclaim cand claim.
Proof.
  intros Hhead Hcite.
  rewrite (foldl_forall P (λ c, ∀ claim, claim ∈ candidate_claims c → Qclaim (candidate_id c) claim)).
  - unfold claimed. naive_solver.
  - intros s' c. unfold fast_candidate_step. apply foldl_forall. intros s'' claim. unfold claim_step.
    rewrite (foldl_forall P (λ _, True)); [rewrite Hhead; tauto|]. intros. rewrite Hcite. tauto.
Qed.

Lemma elem_flag b c s x : x ∈ flag b c s ↔ x ∈ s ∨ b = true ∧ x = c.
Proof. unfold flag. destruct b; [rewrite set_insert_elem|]; naive_solver. Qed.

Lemma flag_sorted b c s : StronglySorted key_lt s → StronglySorted key_lt (flag b c s).
Proof. unfold flag. destruct b; [apply set_insert_sorted|done]. Qed.

Lemma checked_categories x :
  x ∈ ck_categories checked ↔
    (x = RootUnsupported ∧ violates packet envelope RootUnsupported) ∨
    (x = SymptomPromotedToCause ∧ violates packet envelope SymptomPromotedToCause) ∨
    (x = IndependentEvidencePromoted ∧ violates packet envelope IndependentEvidencePromoted).
Proof.
  unfold checked. rewrite (checks_exists (λ s, x ∈ ck_categories s)
    (λ cand claim, x = RootUnsupported ∧ claim_kind claim = InitiatingCause ∧
                   claim_status claim = Withheld)
    (λ cand kind id, ∃ row, packet_get packet id = Some row ∧
       (x = SymptomPromotedToCause ∧ pk_role row = Symptom ∧ is_causal_kind kind = true ∨
        x = IndependentEvidencePromoted ∧ pk_scope row = ScopeIndependent ∧ is_chain_kind kind = true))).
  - cbn. rewrite elem_of_nil. unfold cites. split.
    + intros [[]|(cand & claim & Hc & [(? & ? & ?)|(id & Hid & row & Hrow & [(? & ? & ?)|(? & ? & ?)])])].
      * left. eauto 10.
      * right; left. split; [done|]. exists cand, (claim_kind claim), row. eauto 10.
      * right; right. split; [done|]. exists cand, (claim_kind claim), row. eauto 10.
    + intros [(-> & cand & claim & ? & ? & ?)|[(-> & cand & kind & row & (claim & id & ? & <- & ? & ?) & ? & ?)|
        (-> & cand & kind & row & (claim & id & ? & <- & ? & ?) & ? & ?)]]; right; exists cand, claim;
        (split; [done|]); [by left|right; exists id; split; [done|]; exists row; eauto 10..].
  - intros cand s claim. cbn. rewrite elem_flag, andb_true_iff, !bool_decide_eq_true. tauto.
  - intros cand kind s id. unfold cite_step. destruct (packet_get packet id) as [row|]; [|naive_solver].
    cbn. rewrite !elem_flag, !andb_true_iff, !bool_decide_eq_true. naive_solver.
Qed.

Lemma checked_kinds k kind :
  (∃ ks, bmap_get k (ck_cited_kinds checked) = Some ks ∧ kind ∈ ks) ↔
  ∃ cand row, cites packet envelope cand kind row ∧ pk_evidence_id row = k.
Proof.
  unfold checked. rewrite (checks_exists
    (λ s, ∃ ks, bmap_get k (ck_cited_kinds s) = Some ks ∧ kind ∈ ks) (λ _ _, False)
    (λ cand kd id, ∃ row, packet_get packet id = Some row ∧ pk_evidence_id row = k ∧ kd = kind)).
  - cbn. unfold cites. split.
    + intros [(? & ? & ?)|(cand & claim & Hc & [[]|(id & Hid & row & Hrow & ? & ?)])]; [done|].
      exists cand, row. eauto 10.
    + intros (cand & row & (claim & id & ? & <- & ? & ?) & ?). right. exists cand, claim. eauto 10.
  - intros. cbn. tauto.
  - intros cand kd s id. unfold cite_step. destruct (packet_get packet id) as [row|]; cbn; [|naive_solver].
    rewrite bmap_get_upsert. case_bool_decide as Hk; [|naive_solver].
    destruct (bmap_get (pk_evidence_id row) (ck_cited_kinds s)) as [ks|] eqn:E; cbn.
    + setoid_rewrite (inj_iff Some). subst k. rewrite E. setoid_rewrite (inj_iff Some).
      split; [intros (? & <- & [->|?]%set_insert_elem); naive_solver|].
      intros [(? & <- & ?)|(? & [= <-] & _ & ->)]; eexists; (split; [done|]); apply set_insert_elem; auto.
    + subst k. rewrite E. split; [intros (? & [= <-] & ->%list_elem_of_singleton); naive_solver|].
      intros [(? & ? & ?)|(? & [= <-] & _ & ->)]; [done|]. eexists. split; [done|]. by left.
Qed.

Lemma checked_earliest cand kind v :
  (∃ m, bmap_get (cand, kind) (ck_earliest checked) = Some m ∧ m ≤ v) ↔
  ∃ o, cites_at packet envelope cand kind o ∧ o ≤ v.
Proof.
  unfold checked. rewrite (checks_exists
    (λ s, ∃ m, bmap_get (cand, kind) (ck_earliest s) = Some m ∧ m ≤ v) (λ _ _, False)
    (λ cd kd id, cd = cand ∧ kd = kind ∧ ∃ row o, packet_get packet id = Some row ∧
       pk_chronology_ordinal row = Some o ∧ o ≤ v)).
  - cbn. unfold cites_at, cites. split.
    + intros [(? & ? & ?)|(cd & claim & Hc & [[]|(id & Hid & -> & ? & row & o & ? & ? & ?)])]; [done|].
      exists o. split; [|done]. exists row. split; [|done]. exists claim, id. done.
    + intros (o & (row & (claim & id & ? & ? & ? & ?) & ?) & ?). right. exists cand, claim.
      split; [done|]. right. exists id. split; [done|]. eauto 10.
  - intros. cbn. tauto.
  - intros cd kd s id. unfold cite_step. destruct (packet_get packet id) as [row|]; cbn; [|naive_solver].
    destruct (pk_chronology_ordinal row) as [o|] eqn:Ho; cbn; [|naive_solver].
    rewrite bmap_get_upsert. case_bool_decide as Hk; [|naive_solver]. injection Hk as <- <-.
    destruct (bmap_get (cand, kind) (ck_earliest s)) as [m|] eqn:E; cbn.
    + split.
      * intros (? & [= <-] & Hle). destruct (decide (m ≤ v)); [by left; eauto|].
        right. split_and!; [done..|]. exists row, o. split_and!; [done..|lia].
      * intros [(? & [= <-] & ?)|(_ & _ & ? & ? & [= <-] & E' & ?)]; eexists; (split; [done|]); [lia|].
        rewrite Ho in E'. injection E' as <-. lia.
    + split.
      * intros (? & [= <-] & Hle). right. eauto 10.
      * intros [(? & ? & _)|(_ & _ & ? & ? & [= <-] & E' & ?)]; [done|].
        rewrite Ho in E'. injection E' as <-. eauto.
Qed.

Lemma inverted_spec cand :
  inverted (ck_earliest checked) cand = true ↔
    ∃ o, cites_at packet envelope cand SymptomClaim o ∧
      (∃ o', cites_at packet envelope cand InitiatingCause o') ∧
      ∀ o', cites_at packet envelope cand InitiatingCause o' → o < o'.
Proof.
  unfold inverted. pose proof (checked_earliest cand InitiatingCause) as Hc.
  pose proof (checked_earliest cand SymptomClaim) as Hs.
  destruct (bmap_get (cand, InitiatingCause) _) as [c|].
  - assert (∀ o', cites_at packet envelope cand InitiatingCause o' → c ≤ o') as Hmin.
    { intros o' Ho'. destruct (proj2 (Hc o')) as (? & [= <-] & ?); [exists o'; split; [done|lia]|done]. }
    destruct (proj1 (Hc c)) as (oc & Hoc & Hle); [exists c; split; [done|lia]|].
    destruct (bmap_get (cand, SymptomClaim) _) as [m|].
    + rewrite Z.ltb_lt. destruct (proj1 (Hs m)) as (os & Hos & Hsle); [exists m; split; [done|lia]|].
      split.
      * intros Hlt. exists os. split_and!; [done|eauto|]. intros o' ?%Hmin. lia.
      * intros (o & Ho & _ & Hall). apply Hall in Hoc.
        destruct (proj2 (Hs o)) as (? & [= <-] & ?); [exists o; split; [done|lia]|]. lia.
    + split; [done|]. intros (o & Ho & _). destruct (proj2 (Hs o)) as (? & ? & _); [|done].
      exists o. split; [done|lia].
  - split; [done|]. intros (_ & _ & (o' & Ho') & _). destruct (proj2 (Hc o')) as (? & ? & _); [|done].
    exists o'. split; [done|lia].
Qed.

Lemma initial_grounded k :
  bmap_get k (ck_grounded (initial_checks packet)) = Some false ↔
  ∃ row, row ∈ pkt_rows packet ∧ pk_candidate_id row = k.
Proof.
  cbn. induction (pkt_rows packet) as [|r rows IH] using rev_ind; cbn; [set_solver|].
  rewrite fmap_app. unfold inserts in *. rewrite foldl_app. cbn. rewrite bmap_get_insert.
  setoid_rewrite elem_of_app. setoid_rewrite list_elem_of_singleton.
  case_bool_decide; [naive_solver|]. rewrite IH. naive_solver.
Qed.

Lemma checked_grounded k :
  bmap_get k (ck_grounded checked) = Some false ↔
    (∃ row, row ∈ pkt_rows packet ∧ pk_candidate_id row = k) ∧
    ∀ claim, claimed envelope k claim → claim_evidence_ids claim = [].
Proof.
  unfold checked. rewrite (checks_forall (λ s, bmap_get k (ck_grounded s) = Some false)
    (λ cand claim, cand = k → claim_evidence_ids claim = [])).
  - rewrite initial_grounded. naive_solver.
  - intros cand s claim. cbn. case_bool_decide as He; cbn; [naive_solver|].
    rewrite bmap_get_insert. case_bool_decide; naive_solver.
  - intros cand kind s id. unfold cite_step. by destruct (packet_get packet id).
Qed.

(** The maps stay ordered, so their values are what can be looked up. *)
Lemma checked_ok : bmap_ok (ck_cited_kinds checked) ∧ bmap_ok (ck_grounded checked) ∧
  StronglySorted key_lt (ck_categories checked).
Proof.
  unfold checked. apply (foldl_inv (λ s, bmap_ok (ck_cited_kinds s) ∧ bmap_ok (ck_grounded s) ∧
    StronglySorted key_lt (ck_categories s))).
  2: { split_and!; [apply bmap_nil_ok|apply inserts_ok, bmap_nil_ok|constructor]. }
  intros s c Hs. unfold fast_candidate_step. apply foldl_inv; [|done]. clear s Hs.
  intros s claim (Hk & Hg & Hc). unfold claim_step. apply foldl_inv.
  - clear s Hk Hg Hc. intros s id (Hk & Hg & Hc). unfold cite_step.
    destruct (packet_get packet id); cbn; [|done].
    split_and!; [by apply bmap_upsert_ok|done|by repeat apply flag_sorted].
  - cbn. split_and!; [done| |by apply flag_sorted]. case_match; [by apply bmap_insert_ok|done].
Qed.

(** ** Role coverage *)

Lemma labelled_rows_spec role cand :
  let m := labelled_rows role (pkt_rows packet) in
  bmap_ok m ∧
  (∀ ids, bmap_get cand m = Some ids → ids ≠ []) ∧
  ∀ id, (∃ ids, bmap_get cand m = Some ids ∧ id ∈ ids) ↔
    ∃ row, row ∈ pkt_rows packet ∧ pk_candidate_id row = cand ∧ pk_role row = role ∧
      pk_evidence_id row = id.
Proof.
  cbn zeta. unfold labelled_rows.
  induction (pkt_rows packet) as [|r rows (Hok & Hne & IH)] using rev_ind; cbn [foldl].
  { split_and!; [apply bmap_nil_ok|done|]. cbn. set_solver. }
  rewrite foldl_snoc. setoid_rewrite exists_snoc. case_bool_decide as Hr.
  2: { split_and!; [done..|]. intros id. rewrite IH. tauto. }
  split_and!; [by apply bmap_upsert_ok|..].
  - intros ids. rewrite bmap_get_upsert. case_bool_decide; [|apply Hne]. intros [= <-].
    destruct (bmap_get (pk_candidate_id r) _) as [s|]; cbn; [|done]. intros E.
    apply (not_elem_of_nil (pk_evidence_id r)). rewrite <-E. apply set_insert_elem. by left.
  - intros id. rewrite bmap_get_upsert, <-IH. case_bool_decide as Hc; [subst cand|naive_solver].
    destruct (bmap_get (pk_candidate_id r) _) as [s|]; cbn; setoid_rewrite (inj_iff Some).
    + split; [intros (? & <- & [->|?]%set_insert_elem); eauto|].
      intros [(? & <- & ?)|(_ & _ & <-)]; eexists; (split; [done|]); apply set_insert_elem; auto.
    + split; [intros (? & <- & ->%list_elem_of_singleton); eauto|].
      intros [(? & ? & ?)|(_ & _ & <-)]; [done|]. eexists. split; [done|]. by left.
Qed.

Lemma cited_in_iff cand kinds ids :
  cited_in envelope cand kinds ids = true ↔
  ∃ id, id ∈ ids ∧ cited_in envelope cand kinds [id] = true.
Proof.
  unfold cited_in. destruct (List.find _ _) as [c|]; cbn [is_some_and]; [|naive_solver].
  setoid_rewrite existsb_elem_of. setoid_rewrite andb_true_iff. setoid_rewrite existsb_elem_of.
  setoid_rewrite bool_decide_eq_true. setoid_rewrite list_elem_of_singleton. split.
  - intros (claim & ? & ? & id & ? & ?). exists id. eauto 10.
  - intros (id & ? & claim & ? & ? & ? & ? & ->). eauto 10.
Qed.

Lemma uncovered_iff role kinds cand :
  uncovered packet envelope role kinds cand ↔
  ∃ ids, (cand, ids) ∈ labelled_rows role (pkt_rows packet) ∧
    negb (cited_in envelope cand kinds ids) = true.
Proof.
  destruct (labelled_rows_spec role cand) as (Hok & Hne & Hids). unfold uncovered.
  setoid_rewrite <-(bmap_get_elem _ _ _ Hok). setoid_rewrite negb_true_iff.
  setoid_rewrite <-not_true_iff_false. split.
  - intros [(row & Hrow & Hc & Hr) Hall].
    destruct (proj2 (Hids (pk_evidence_id row))) as (ids & Hget & _); [eauto|].
    exists ids. split; [done|]. rewrite cited_in_iff. intros (id & Hid & Hcited).
    destruct (proj1 (Hids id)) as (row' & ? & ? & ? & <-); [eauto|]. by apply (Hall row').
  - intros (ids & Hget & Hn). split.
    + destruct ids as [|id ids]; [by destruct (Hne _ Hget)|].
      destruct (proj1 (Hids id)) as (row & ? & ? & ? & _); [exists (id :: ids); split; [done|by left]|eauto].
    + intros row ? ? ? Hc. apply Hn, cited_in_iff. exists (pk_evidence_id row). split; [|done].
      destruct (proj2 (Hids (pk_evidence_id row))) as (ids' & Hget' & ?); [eauto|].
      rewrite Hget in Hget'. by injection Hget' as <-.
Qed.

(** ** All categories *)

Lemma elem_flags {A} (f : A → bool) c cs l x :
  x ∈ foldl (λ cs a, flag (f a) c cs) cs l ↔ x ∈ cs ∨ x = c ∧ ∃ a, a ∈ l ∧ f a = true.
Proof.
  rewrite (foldl_exists (λ cs, x ∈ cs) (λ a, f a = true ∧ x = c)); [naive_solver|].
  intros. apply elem_flag.
Qed.

Lemma flags_sorted {A} (f : A → bool) c cs l :
  StronglySorted key_lt cs → StronglySorted key_lt (foldl (λ cs a, flag (f a) c cs) cs l).
Proof. intros Hs. apply (foldl_inv (StronglySorted key_lt)); [|done]. intros. by apply flag_sorted. Qed.

Lemma contradiction_spec :
  (∃ kv, kv ∈ ck_cited_kinds checked ∧ contradiction kv.2 = true) ↔
  violates packet envelope ContradictoryRoles.
Proof.
  destruct checked_ok as (Hok & _). unfold contradiction. cbn [violates].
  setoid_rewrite orb_true_iff. setoid_rewrite andb_true_iff. setoid_rewrite existsb_elem_of.
  setoid_rewrite bool_decide_eq_true.
  assert (∀ k ks kind, (k, ks) ∈ ck_cited_kinds checked → kind ∈ ks →
    ∃ cand row, cites packet envelope cand kind row ∧ pk_evidence_id row = k) as Hfrom.
  { intros k ks kind Hin Hkind. apply checked_kinds. exists ks. split; [by apply bmap_get_elem|done]. }
  assert (∀ cand1 kind1 row1 cand2 kind2 row2, cites packet envelope cand1 kind1 row1 →
    cites packet envelope cand2 kind2 row2 → pk_evidence_id row1 = pk_evidence_id row2 →
    ∃ kv, kv ∈ ck_cited_kinds checked ∧ kind1 ∈ kv.2 ∧ kind2 ∈ kv.2) as Hto.
  { intros cand1 kind1 row1 cand2 kind2 row2 H1 H2 E.
    destruct (proj2 (checked_kinds (pk_evidence_id row1) kind1)) as (ks & Hks & ?); [eauto|].
    destruct (proj2 (checked_kinds (pk_evidence_id row1) kind2)) as (ks' & Hks' & ?); [eauto|].
    rewrite Hks in Hks'. injection Hks' as <-. exists (pk_evidence_id row1, ks).
    split; [by apply bmap_get_elem|done]. }
  split.
  - intros ([k ks] & Hin & [((kind & Hk & Hchain) & Hce)|(Hic & Hsy)]); cbn in *.
    + destruct (Hfrom _ _ _ Hin Hk) as (c1 & r1 & H1 & E1), (Hfrom _ _ _ Hin Hce) as (c2 & r2 & H2 & E2).
      exists c1, kind, r1, c2, CompetingExplanation, r2. split_and!; [done..|congruence|by left].
    + destruct (Hfrom _ _ _ Hin Hic) as (c1 & r1 & H1 & E1), (Hfrom _ _ _ Hin Hsy) as (c2 & r2 & H2 & E2).
      exists c1, InitiatingCause, r1, c2, SymptomClaim, r2. split_and!; [done..|congruence|by right].
  - intros (c1 & k1 & r1 & c2 & k2 & r2 & H1 & H2 & E & Hk).
    destruct (Hto _ _ _ _ _ _ H1 H2 E) as (kv & Hin & ? & ?). exists kv. split; [done|].
    destruct Hk as [[? ->]|[-> ->]]; [left|right]; eauto.
Qed.

Lemma fast_categories_spec x :
  x ∈ fast_categories packet envelope ↔ violates packet envelope x.
Proof.
  unfold fast_categories. fold candidates. fold checked. rewrite elem_flag, !elem_flags, checked_categories.
  rewrite contradiction_spec. destruct checked_ok as (_ & Hg & _).
  assert ((∃ a, a ∈ candidates ∧ inverted (ck_earliest checked) (candidate_id a) = true) ↔
    violates packet envelope ChronologyInverted) as Hinv.
  { setoid_rewrite inverted_spec. cbn [violates]. split; [naive_solver|].
    intros (cand & o & Ho & H). pose proof Ho as (row & (claim & id & (c & Hc & <- & _) & _) & _).
    exists c. split; [done|]. eauto. }
  assert (existsb negb (ck_grounded checked).*2 = true ↔ violates packet envelope CitationIncomplete) as Hcit.
  { rewrite existsb_elem_of. setoid_rewrite list_elem_of_fmap. cbn [violates]. split.
    - intros (b & ([k v] & -> & Hin) & Hb). destruct v; [done|].
      apply (bmap_get_elem _ _ _ Hg), checked_grounded in Hin as [(row & ? & <-) ?]. eauto.
    - intros (row & Hrow & Hcl). exists false. split; [|done]. exists (pk_candidate_id row, false).
      split; [done|]. apply (bmap_get_elem _ _ _ Hg), checked_grounded. eauto. }
  assert (∀ role kinds, (∃ a, a ∈ labelled_rows role (pkt_rows packet) ∧
      negb (cited_in envelope a.1 kinds a.2) = true) ↔ ∃ cand, uncovered packet envelope role kinds cand) as Hcov.
  { intros role kinds. setoid_rewrite uncovered_iff. split; [intros ([c i] & ?); eauto|naive_solver]. }
  rewrite Hinv, Hcit, !Hcov.
  assert (violates packet envelope RoleCoverage ↔
    (∃ cand, uncovered packet envelope Cause is_causal_kind cand) ∨
    (∃ cand, uncovered packet envelope Symptom is_symptom_kind cand)) as Hrc
    by (cbn [violates]; naive_solver).
  clear -Hrc. destruct x; try (rewrite Hrc); intuition (done || auto).
Qed.

Lemma fast_categories_sorted : StronglySorted key_lt (fast_categories packet envelope).
Proof.
  destruct checked_ok as (_ & _ & Hs). unfold fast_categories. fold candidates. fold checked.
  apply flag_sorted. by do 4 apply flags_sorted.
Qed.
End loop.

(** ** Claims *)


(** The records that speak for the turn: same profile, same model, same
    contract, a measured pass. *)
Definition speaks_for (request : FastTriageRouteRequest) (profile model : string)
    (r : FastTriageRouteRecord) : Prop :=
  rec_profile_id r = profile ∧ rec_model_id r = model ∧
  rec_workflow_contract r = req_workflow_contract request ∧ rec_verdict r = Qualified.

Lemma length_zero_elem {A} (l : list A) : length l ≠ 0%nat ↔ ∃ x, x ∈ l.
Proof.
  destruct l as [|a l]; cbn; [|split; [intros _; exists a; by left|done]].
  split; [done|]. by intros [x ?%not_elem_of_nil].
Qed.

(** The fast route is selected exactly on persisted evidence: the host enabled
    it, the turn has a profile and a model that are not blank, some record with
    exactly this profile, model and contract carries a measured pass, and every
    such record was measured against the running contract. One stale record is
    enough to refuse. *)
Theorem fast_route_selected_iff_exact_evidence records request route :
  select_fast_triage_route records request = Selected route ↔
  req_enabled request = true ∧ ∃ profile model,
    req_profile_id request = Some profile ∧ req_model_id request = Some model ∧
    trim profile ≠ "" ∧ trim model ≠ "" ∧
    route = {| sel_role := {| role_profile_id := profile; role_model_id := model |};
               sel_workflow_contract := req_workflow_contract request;
               sel_contract_fingerprint := req_contract_fingerprint request |} ∧
    (∃ r, r ∈ records ∧ speaks_for request profile model r) ∧
    (∀ r, r ∈ records → speaks_for request profile model r →
       rec_contract_fingerprint r = req_contract_fingerprint request).
Proof.
  unfold select_fast_triage_route. destruct (req_enabled request); cbn [negb]; [|naive_solver].
  destruct (req_profile_id request) as [profile|]; [|naive_solver].
  destruct (req_model_id request) as [model|]; [|naive_solver].
  set (pair := List.filter _ records). set (contract := List.filter _ pair).
  set (qualified := List.filter _ contract).
  assert (∀ r, r ∈ qualified ↔ r ∈ records ∧ speaks_for request profile model r) as Hq.
  { intros r. unfold qualified, contract, pair, speaks_for. rewrite !elem_of_filter_bool.
    rewrite andb_true_iff, !bool_decide_eq_true. tauto. }
  assert (∀ r, r ∈ qualified → r ∈ pair ∧ r ∈ contract) as Hsub.
  { intros r. unfold qualified, contract. rewrite !elem_of_filter_bool. tauto. }
  unfold is_empty.
  assert (∀ P, (∃ profile0 model0 : string, Some profile = Some profile0 ∧ Some model = Some model0 ∧
    P profile0 model0) ↔ P profile model) as Hone by naive_solver.
  setoid_rewrite Hone. clear Hone.
  setoid_rewrite <-Hq.
  assert ((∀ r, r ∈ records → speaks_for request profile model r →
       rec_contract_fingerprint r = req_contract_fingerprint request) ↔
    existsb (λ r, negb (bool_decide (rec_contract_fingerprint r = req_contract_fingerprint request)))
      qualified = false) as ->.
  { rewrite existsb_false_Forall, Forall_forall. split.
    - intros H r [? ?]%Hq. by rewrite bool_decide_eq_true_2 by by apply H.
    - intros H r ??. specialize (H r (proj2 (Hq r) ltac:(done))). cbn in H.
      by apply negb_false_iff, bool_decide_eq_true in H. }
  assert (∀ l : list FastTriageRouteRecord, (∀ r, r ∈ qualified → r ∈ l) →
    length l = 0%nat → ~ ∃ r, r ∈ qualified) as Hnone.
  { intros l Hl Hz [r Hr%Hl]. apply (proj2 (length_zero_elem l)); eauto. }
  destruct (bool_decide (trim profile = "")) eqn:Hp; cbn [orb]; [split_bool; naive_solver|].
  destruct (bool_decide (trim model = "")) eqn:Hm; [split_bool; naive_solver|].
  apply bool_decide_eq_false in Hp, Hm.
  case_bool_decide as H1; [apply Hnone in H1; [naive_solver|naive_solver]|].
  case_bool_decide as H2; [apply Hnone in H2; [naive_solver|naive_solver]|].
  case_bool_decide as H3; [apply Hnone in H3; [naive_solver|done]|].
  apply length_zero_elem in H3. destruct (existsb _ qualified); naive_solver.
Qed.

(** ** Concrete packets *)

Module ValidateDemo.
Export AnswerDemo.
Definition rows : list HostEvidenceEntry := [row "e1" "g" Cause; row "e2" "g" Symptom; row "e3" "g" Cause].
Definition bound : AnswerBindingV1 :=
  {| bind_session_id := "s"; bind_turn_id := "t"; bind_corpus_id := "c";
     bind_revision := {| event_revision := 1; template_analysis_revision := 2;
                         suppression_revision := 3 |};
     bind_ledger_digest := ledger_digest rows |}.
Definition two_causes : HostEvidenceLedger :=
  {| led_binding := bound; led_entries := (λ e, (ev_evidence_id e, e)) <$> rows |}.
Definition packet : FastTriagePacketV1 := from_ledger two_causes None true.
Lemma two_causes_built : HostEvidenceLedger_new bound rows = Ok two_causes.
Proof. vm_compute. reflexivity. Qed.
Lemma accepted :
  validate_fast_answer from_str "{}" packet = FastAccepted (answer_of two_causes proposal).
Proof. vm_compute. reflexivity. Qed.
End ValidateDemo.

(** Role coverage is per candidate and role, not per row: a proposal that never
    cites one of two rows the host labelled as causes is accepted, as long as the
    other one is cited, although the category is described as an omitted cause or
    symptom row. *)
Theorem role_coverage_misses_an_omitted_cause_row :
  ∃ (from_str : string → option ModelInvestigationAnswerV1) (sha : Sha2) ledger binding rows object env row,
    HostEvidenceLedger_new binding rows = Ok ledger ∧
    validate_fast_answer from_str object (from_ledger ledger None true) = FastAccepted env ∧
    row ∈ pkt_rows (from_ledger ledger None true) ∧ pk_role row = Cause ∧
    ∀ c claim, c ∈ ans_candidates (env_answer env) → claim ∈ candidate_claims c →
      pk_evidence_id row ∉ claim_evidence_ids claim.
Proof.
  exists AnswerDemo.from_str, AnswerDemo.sha2, ValidateDemo.two_causes, ValidateDemo.bound,
    ValidateDemo.rows, "{}", (answer_of ValidateDemo.two_causes AnswerDemo.proposal).
  eexists. split_and!; [exact ValidateDemo.two_causes_built|exact ValidateDemo.accepted|..].
  - change (pkt_rows _) with (pkt_rows ValidateDemo.packet). do 2 apply list_elem_of_further.
    apply list_elem_of_here.
  - reflexivity.
  - assert (Forall (λ c, Forall (λ claim, "e3" ∉ claim_evidence_ids claim) (candidate_claims c))
      (ans_candidates (env_answer (answer_of ValidateDemo.two_causes AnswerDemo.proposal)))) as H.
    { apply (bool_decide_unpack _). vm_compute. exact I. }
    intros c claim Hc Hcl. rewrite Forall_forall in H. specialize (H c Hc).
    rewrite Forall_forall in H. exact (H claim Hcl).
Qed.
