(* ===== verification/Display.v ===== *)
(** * Displaying untrusted text

    The presentation boundary of [crates/cd-core/src/investigation_answer.rs]
    ([literal_display_text], [literal_span]) and the Markdown projection
    [render_answer_markdown] built on it. A character is the list of its UTF-8
    bytes; the Unicode table behind [char::is_alphanumeric] is a parameter. *)
From Stdlib Require Import ZArith Lia Ascii String.
From stdpp Require Import base tactics option list list_numbers sets sorting strings.
From S2P Require Import Prelude RustStr BTree TriageSdk Answer.

Local Open Scope string_scope.
Local Open Scope list_scope.
Local Open Scope Z_scope.

(** ** Characters *)

Definition char := list ascii.
Definition ch (bs : list Z) : char := (λ b, ascii_of_N (Z.to_N b)) <$> bs.

Definition BIDI_FORMATTING_CONTROLS : list char :=
  [ch [0xD8; 0x9C];
   ch [0xE2; 0x80; 0x8E]; ch [0xE2; 0x80; 0x8F];
   ch [0xE2; 0x80; 0xAA]; ch [0xE2; 0x80; 0xAB]; ch [0xE2; 0x80; 0xAC]; ch [0xE2; 0x80; 0xAD];
   ch [0xE2; 0x80; 0xAE];
   ch [0xE2; 0x81; 0xA6]; ch [0xE2; 0x81; 0xA7]; ch [0xE2; 0x81; 0xA8]; ch [0xE2; 0x81; 0xA9]].
Definition is_bidi_formatting_control (c : char) : bool :=
  bool_decide (c ∈ BIDI_FORMATTING_CONTROLS).

(** [\n \r \t], U+000B, U+000C, U+0085, U+2028 and U+2029 *)
Definition LINE_BOUNDARIES : list char :=
  [ch [10]; ch [13]; ch [9]; ch [11]; ch [12]; ch [0xC2; 0x85]; ch [0xE2; 0x80; 0xA8];
   ch [0xE2; 0x80; 0xA9]].
Definition is_line_boundary (c : char) : bool := bool_decide (c ∈ LINE_BOUNDARIES).

(** [char::is_control]: U+0000..U+001F and U+007F..U+009F. *)
Definition is_control (c : char) : bool :=
  match c with
  | [a] => (bv a <? 32) || (bv a =? 0x7F)
  | [a; b] => (bv a =? 0xC2) && in_range 0x80 0x9F b
  | _ => false
  end.

Definition SPACE : char := ch [32].
Definition BACKTICK : char := ch [96].
Definition APOSTROPHE : char := ch [39].

(** ** One line of literal text *)

Definition separates (c : char) : bool := is_line_boundary c || bool_decide (c = SPACE).
Definition removed (c : char) : bool :=
  is_control c || bool_decide (c = ch [0x7F]) || is_bidi_formatting_control c.
Definition displayed (c : char) : char := if bool_decide (c = BACKTICK) then APOSTROPHE else c.

Definition display_step (st : list char * bool) (c : char) : list char * bool :=
  let '(out, pending_space) := st in
  if separates c then (out, negb (bool_decide (out = [])))
  else if removed c then (out, pending_space)
  else ((if pending_space : bool then out ++ [SPACE] else out) ++ [displayed c], false).
Definition display_chars (cs : list char) : list char := (foldl display_step ([], false) cs).1.
Definition literal_display_text (raw : string) : string :=
  of_bytes (concat (display_chars (chars_of (bytes raw)))).

Definition EMPTY_VALUE_PLACEHOLDER : string := "(empty)".
Definition literal_span (raw : string) : string :=
  let normalized := literal_display_text raw in
  if is_empty normalized then EMPTY_VALUE_PLACEHOLDER else "`" +:+ normalized +:+ "`".

(** ** Characters of a concatenation *)

(** A character as [chars_of] cuts it out of valid text. *)
Definition whole (c : char) : Prop :=
  match c with a :: r => cont a = false ∧ Forall (λ b, cont b = true) r | [] => False end.

Lemma chars_of_cont r : Forall (λ b, cont b = true) r → ∀ s, s ≠ [] →
  (∀ a t, s = a :: t → cont a = false) →
  ∀ a, chars_of (a :: r ++ s) = (a :: r) :: chars_of s.
Proof.
  induction 1 as [|b r Hb Hr IH]; intros s Hs Hfirst a.
  - cbn. destruct s as [|x s]; [done|]. specialize (Hfirst x s eq_refl).
    pose proof (chars_of_concat (x :: s)) as Hcc. destruct (chars_of (x :: s)) as [|[|y c] cs]; [done..|].
    cbn in Hcc. injection Hcc as -> _. by rewrite Hfirst.
  - change (chars_of (a :: (b :: r) ++ s)) with
      (match chars_of (b :: r ++ s) with
       | (b0 :: c) :: cs => if cont b0 then (a :: b0 :: c) :: cs else [a] :: (b0 :: c) :: cs
       | cs => [a] :: cs end).
    by rewrite (IH s Hs Hfirst b), Hb.
Qed.

Lemma chars_of_single r : Forall (λ b, cont b = true) r → ∀ a, chars_of (a :: r) = [a :: r].
Proof.
  induction 1 as [|b r Hb Hr IH]; intros a; [done|].
  change (chars_of (a :: b :: r)) with
    (match chars_of (b :: r) with
     | (b0 :: c) :: cs => if cont b0 then (a :: b0 :: c) :: cs else [a] :: (b0 :: c) :: cs
     | cs => [a] :: cs end).
  by rewrite IH, Hb.
Qed.

Lemma chars_of_whole cs : Forall whole cs → chars_of (concat cs) = cs.
Proof.
  induction 1 as [|c cs Hc Hcs IH]; [done|]. destruct c as [|a r]; [done|]. destruct Hc as [Ha Hr].
  change (concat ((a :: r) :: cs)) with (a :: r ++ concat cs).
  destruct Hcs as [|d cs Hd Hcs]; [cbn [concat]; by rewrite app_nil_r, chars_of_single|].
  destruct d as [|x d]; [done|]. destruct Hd as [Hx Hd].
  rewrite chars_of_cont; [by rewrite IH|done|done|]. by intros ?? [= <- _].
Qed.

Lemma whole_chars_of s : (∀ a t, s = a :: t → cont a = false) → Forall whole (chars_of s).
Proof.
  assert (∀ s, match chars_of s with
               | [] => s = []
               | c :: cs => (∃ a r, c = a :: r ∧ Forall (λ b, cont b = true) r ∧ head s = Some a) ∧
                            Forall whole cs
               end) as Hgen.
  { clear s. induction s as [|a s IH]; [done|]. cbn. destruct (chars_of s) as [|c cs].
    - subst. split; [exists a, []; done|done].
    - destruct IH as [(x & r & -> & Hr & Hx) Hcs]. destruct (cont x) eqn:Hc.
      + split; [|done]. exists a, (x :: r). split_and!; [done|by constructor|done].
      + split; [exists a, []; done|]. by constructor. }
  intros Hfirst. specialize (Hgen s). destruct (chars_of s) as [|c cs]; [constructor|].
  destruct Hgen as [(a & r & -> & Hr & Ha) Hcs]. constructor; [|done].
  destruct s as [|x s]; [done|]. injection Ha as ->. split; [by eapply Hfirst|done].
Qed.

Lemma utf8_first s a t : utf8_valid s = true → s = a :: t → cont a = false.
Proof.
  intros Hv ->. destruct (cont a) eqn:Hc; [|done]. exfalso. revert Hv. unfold cont, in_range in Hc.
  cbn. split_bool.
  rewrite (proj2 (Z.ltb_ge (bv a) 128)) by lia. destruct t as [|b t]; [done|].
  assert (in_range 0xC2 0xDF a = false) as -> by (unfold in_range; lia).
  destruct t as [|c t]; [done|].
  assert (in_range 0xE0 0xEF a = false) as -> by (unfold in_range; lia).
  destruct t as [|d t]; [done|].
  assert (utf8_4 a b = false) as -> by (unfold utf8_4, in_range, cont; lia). done.
Qed.

(** Only the first byte of a one-byte character is below 128. *)
Definition wide (c : char) : Prop :=
  match c with [] => False | [_] => True | a :: r => 128 ≤ bv a ∧ Forall (λ b, cont b = true) r end.

Lemma chars_of_group a r s t :
  t = r ++ s → Forall (λ b, cont b = true) r → utf8_valid s = true →
  chars_of (a :: t) = (a :: r) :: chars_of s.
Proof.
  intros -> Hr Hs. destruct s as [|x s]; [by rewrite app_nil_r, chars_of_single|].
  apply chars_of_cont; [done|done|]. intros y t Heq. by eapply utf8_first.
Qed.

Lemma utf8_chars_wide s : utf8_valid s = true → Forall wide (chars_of s).
Proof.
  revert s. fix IH 1. intros [|a r1]; [constructor|]. cbn [utf8_valid].
  destruct (bv a <? 0x80) eqn:Ha.
  { intros Hv. rewrite (chars_of_group a [] r1) by done. constructor; [done|]. by apply IH. }
  assert (128 ≤ bv a) as Hbv by lia.
  destruct r1 as [|b r2]; [done|]. destruct (in_range 0xC2 0xDF a).
  { intros [Hb Hv]%andb_true_iff. rewrite (chars_of_group a [b] r2) by (by repeat constructor).
    constructor; [by repeat constructor|]. by apply IH. }
  destruct r2 as [|c r3]; [done|]. destruct (in_range 0xE0 0xEF a).
  { intros [[Hb%utf8_3_cont Hc]%andb_true_iff Hv]%andb_true_iff.
    rewrite (chars_of_group a [b; c] r3) by (by repeat constructor).
    constructor; [by repeat constructor|]. by apply IH. }
  destruct r3 as [|d r4]; [done|].
  intros [[[Hb%utf8_4_cont Hc]%andb_true_iff Hd]%andb_true_iff Hv]%andb_true_iff.
  rewrite (chars_of_group a [b; c; d] r4) by (by repeat constructor).
  constructor; [by repeat constructor|]. by apply IH.
Qed.

(** ** What is displayed *)

Definition visible (c : char) : bool := negb (separates c) && negb (removed c).
(** A character the boundary lets through. *)
Definition displayable (c : char) : Prop :=
  is_line_boundary c = false ∧ is_control c = false ∧ is_bidi_formatting_control c = false ∧
  c ≠ BACKTICK.

Lemma displayed_visible c : visible c = true →
  visible (displayed c) = true ∧ displayed (displayed c) = displayed c ∧ displayable (displayed c) ∧
  displayed c ≠ SPACE.
Proof.
  unfold displayed. case_bool_decide as Hc.
  { intros _. split_and!; [done|done| |done]. split_and!; done. }
  unfold visible, separates, removed. rewrite (bool_decide_eq_false_2 _ Hc).
  rewrite andb_true_iff, !negb_true_iff, !orb_false_iff, !bool_decide_eq_false.
  intros ((? & ?) & ((? & ?) & ?)). by split_and!.
Qed.

Definition display_ok (st : list char * bool) : Prop :=
  (st.1 = [] → st.2 = false) ∧ foldl display_step ([], false) st.1 = (st.1, false) ∧
  Forall displayable st.1.

Lemma display_step_ok st c : display_ok st → display_ok (display_step st c).
Proof.
  destruct st as [out p]. intros (Hp & Hid & Hd). unfold display_step. cbn [fst snd] in *.
  destruct (separates c) eqn:Hs.
  { split_and!; cbn; [intros ->; done|done|done]. }
  destruct (removed c) eqn:Hr; [by split_and!|].
  assert (visible c = true) as Hv by (unfold visible; by rewrite Hs, Hr).
  destruct (displayed_visible c Hv) as (Hv' & Hdd & Hok & _).
  apply andb_true_iff in Hv' as [Hs' Hr']. apply negb_true_iff in Hs', Hr'.
  split_and!; cbn [fst snd].
  - intros E. by destruct (if p then _ else _).
  - destruct p.
    + rewrite !foldl_app, Hid. cbn [foldl display_step].
      assert (separates SPACE = true) as -> by done.
      rewrite bool_decide_eq_false_2 by (intros E; by specialize (Hp E)). cbn [negb].
      unfold display_step. by rewrite Hs', Hr', Hdd.
    + rewrite foldl_app, Hid. cbn [foldl display_step]. by rewrite Hs', Hr', Hdd.
  - apply Forall_app. split; [|by constructor]. destruct p; [|done].
    apply Forall_app. split; [done|]. by repeat constructor.
Qed.

Lemma display_chars_ok cs : display_ok (foldl display_step ([], false) cs).
Proof. apply (foldl_inv display_ok); [apply display_step_ok|by split_and!]. Qed.

Lemma display_chars_Forall (P : char → Prop) cs :
  P SPACE → P APOSTROPHE → Forall P cs → Forall P (display_chars cs).
Proof.
  intros Hsp Hap Hcs. unfold display_chars.
  assert (∀ st, Forall P st.1 → Forall P (foldl display_step st cs).1) as H; [|by apply H].
  induction Hcs as [|c cs Hc _ IH]; intros [out p] Hout; [done|]. cbn [foldl]. apply IH.
  unfold display_step. destruct (separates c); [done|]. destruct (removed c); [done|]. cbn [fst].
  apply Forall_app. split.
  - destruct p; [|done]. apply Forall_app. split; [done|]. by constructor.
  - constructor; [|constructor]. unfold displayed. by case_bool_decide.
Qed.

Lemma display_chars_whole cs : Forall whole cs → Forall whole (display_chars cs).
Proof. by apply display_chars_Forall. Qed.

Definition not_space (c : char) : bool := negb (bool_decide (c = SPACE)).

Lemma display_chars_words cs :
  List.filter not_space (display_chars cs) = displayed <$> List.filter visible cs.
Proof.
  unfold display_chars.
  assert (∀ st, List.filter not_space (foldl display_step st cs).1 =
    List.filter not_space st.1 ++ (displayed <$> List.filter visible cs)) as H.
  { induction cs as [|c cs IH]; intros [out p]; [by rewrite app_nil_r|]. cbn [foldl List.filter].
    rewrite IH. unfold display_step. destruct (separates c) eqn:Hs.
    { assert (visible c = false) as -> by (unfold visible; by rewrite Hs). done. }
    destruct (removed c) eqn:Hr.
    { assert (visible c = false) as -> by (unfold visible; by rewrite Hs, Hr). done. }
    assert (visible c = true) as Hv by (unfold visible; by rewrite Hs, Hr). rewrite Hv.
    destruct (displayed_visible c Hv) as (_ & _ & _ & Hns). cbn [fst fmap list_fmap].
    rewrite List.filter_app, <-(assoc_L (++)).
    assert (List.filter not_space (if p then out ++ [SPACE] else out) = List.filter not_space out) as ->.
    { destruct p; [|done]. rewrite List.filter_app. cbn. by rewrite app_nil_r. }
    f_equal. cbn [List.filter]. unfold not_space at 1. by rewrite bool_decide_eq_false_2. }
  by rewrite H.
Qed.

Lemma display_text_chars raw :
  utf8_valid (bytes raw) = true →
  chars_of (bytes (literal_display_text raw)) = display_chars (chars_of (bytes raw)).
Proof.
  intros Hv. unfold literal_display_text. rewrite bytes_of_bytes. apply chars_of_whole, display_chars_whole.
  apply whole_chars_of. intros a t. by apply utf8_first.
Qed.

(** Showing displayed text changes nothing. *)
Lemma display_text_stable raw :
  utf8_valid (bytes raw) = true →
  literal_display_text (literal_display_text raw) = literal_display_text raw.
Proof.
  intros Hv. destruct (display_chars_ok (chars_of (bytes raw))) as (_ & Hid & _).
  unfold literal_display_text at 1. rewrite display_text_chars by done.
  unfold display_chars at 1. fold (display_chars (chars_of (bytes raw))) in Hid. by rewrite Hid.
Qed.

(** No byte of displayed text is a control character. *)
Lemma display_text_printable raw :
  utf8_valid (bytes raw) = true → Forall (λ c, 32 ≤ bv c) (bytes (literal_display_text raw)).
Proof.
  intros Hv. unfold literal_display_text. rewrite bytes_of_bytes. apply Forall_concat.
  destruct (display_chars_ok (chars_of (bytes raw))) as (_ & _ & Hd).
  assert (Forall wide (display_chars (chars_of (bytes raw)))) as Hw
    by (by apply display_chars_Forall, utf8_chars_wide).
  change (Forall displayable (display_chars (chars_of (bytes raw)))) in Hd.
  eapply Forall_impl; [apply Forall_and; exact (conj Hd Hw)|]. clear.
  intros [|a [|b r]] [(_ & Hc & _) Hw]; [done| |].
  - constructor; [|done]. cbn in Hc. apply orb_false_iff in Hc as [Hc _]. lia.
  - destruct Hw as [Ha Hr]. constructor; [lia|]. eapply Forall_impl; [exact Hr|].
    unfold cont, in_range. intros d Hd. cbn in Hd. lia.
Qed.

Lemma literal_span_printable raw :
  utf8_valid (bytes raw) = true → Forall (λ c, 32 ≤ bv c) (bytes (literal_span raw)).
Proof.
  intros Hv. unfold literal_span. destruct (is_empty _); [by repeat constructor|].
  rewrite !bytes_app. repeat apply Forall_app_2; [by repeat constructor|by apply display_text_printable|].
  by repeat constructor.
Qed.

(** ** Claims *)

(** Untrusted text is displayed as one literal line: what is shown has no line,
    paragraph or column boundary, no control or bidirectional formatting character
    and no backtick, so it can neither begin a line nor close the code span around
    it; apart from spaces it shows exactly the other characters of the text, in
    order, a backtick as an apostrophe; and showing it again changes nothing. *)
Theorem displayed_text_is_one_literal_line raw :
  utf8_valid (bytes raw) = true →
  let t := literal_display_text raw in
  Forall displayable (chars_of (bytes t)) ∧
  List.filter not_space (chars_of (bytes t)) =
    displayed <$> List.filter visible (chars_of (bytes raw)) ∧
  literal_display_text t = t.
Proof.
  intros Hv. cbn zeta. rewrite !display_text_chars by done.
  destruct (display_chars_ok (chars_of (bytes raw))) as (_ & _ & Hd).
  split_and!; [done|apply display_chars_words|by apply display_text_stable].
Qed.

Lemma displayed_text_is_one_literal_line_witness :
  literal_display_text (of_bytes ["a"; "010"; "#"; "`"; "194"; "155"; "b"; " "]%char) = "a #'b" ∧
  Forall displayable (chars_of (bytes "a #'b")).
Proof.
  assert (literal_display_text (of_bytes ["a"; "010"; "#"; "`"; "194"; "155"; "b"; " "]%char) = "a #'b") as E
    by (vm_compute; reflexivity).
  split; [exact E|].
  pose proof (proj1 (displayed_text_is_one_literal_line
    (of_bytes ["a"; "010"; "#"; "`"; "194"; "155"; "b"; " "]%char) eq_refl)) as H.
  rewrite E in H. exact H.
Defined.

(** ** The Markdown projection *)

Definition claim_kind_label (kind : ClaimKind) : string :=
  match kind with
  | Observation => "Observations"
  | SymptomClaim => "Symptoms"
  | CausalCandidate => "Causal candidates"
  | InitiatingCause => "Initiating causes"
  | CompetingExplanation => "Competing explanations"
  | MissingEvidence => "Missing evidence"
  end.
Definition CLAIM_KIND_RENDER_ORDER : list ClaimKind :=
  [Observation; SymptomClaim; CausalCandidate; InitiatingCause; CompetingExplanation; MissingEvidence].
Definition claim_status_marker (status : ClaimStatus) : option string :=
  match status with
  | Supported => None
  | Unsupported => Some "**[unsupported]**"
  | Withheld => Some "**[withheld]**"
  end.
Definition NL : string := String LF "".

Section render.
Context (is_alphanumeric : char → bool).

(** [s.split(|c| !c.is_alphanumeric()).filter(|t| !t.is_empty())] *)
Fixpoint tokens_go (cur : list char) (cs : list char) : list (list char) :=
  match cs with
  | [] => match cur with [] => [] | _ => [rev cur] end
  | c :: cs =>
      if is_alphanumeric c then tokens_go (c :: cur) cs
      else match cur with [] => [] | _ => [rev cur] end ++ tokens_go [] cs
  end.
Definition tokens (s : string) : list (list char) :=
  tokens_go [] (chars_of (bytes (to_ascii_lowercase s))).
Definition excerpt_adds_information (content already_shown : string) : bool :=
  existsb (λ t, negb (bool_decide (t ∈ tokens already_shown))) (tokens content).

Definition Citations := list (string * CanonicalCitationV1).
(** The evidence ids of a claim that resolve, sorted and deduplicated. *)
Definition cited (citations : Citations) (claim : InvestigationClaimV1) : list string :=
  set_collect (List.filter (λ id, is_some (bmap_get id citations)) (claim_evidence_ids claim)).

Definition render_claim (citations : Citations) (claim : InvestigationClaimV1) : string :=
  "- " +:+
  match claim_status_marker (claim_status claim) with
  | Some marker => marker +:+ " "
  | None => ""
  end +:+
  literal_span (claim_text claim) +:+
  (if negb (bool_decide (cited citations claim = []))
   then " — cites " +:+ join ", " (literal_span <$> cited citations claim)
   else if negb (bool_decide (claim_evidence_ids claim = [])) then " — no host citation available"
   else "") +:+ NL.

Definition claim_leb (a b : InvestigationClaimV1) : bool := bool_decide (String.le (claim_id a) (claim_id b)).
Definition candidate_leb (a b : InvestigationCandidateV1) : bool :=
  bool_decide (String.le (candidate_id a) (candidate_id b)).

(** The output so far, and the evidence ids displayed in it. *)
Definition Rendering := (string * list string)%type.

Definition claims_of (candidate : InvestigationCandidateV1) (kind : ClaimKind) :
    list InvestigationClaimV1 :=
  sort_by claim_leb (List.filter (λ c, bool_decide (claim_kind c = kind)) (candidate_claims candidate)).

Definition render_claim_step (citations : Citations) (st : Rendering)
    (claim : InvestigationClaimV1) : Rendering :=
  (st.1 +:+ render_claim citations claim, foldl (λ s k, set_insert k s) st.2 (cited citations claim)).

Definition render_kind (citations : Citations) (candidate : InvestigationCandidateV1)
    (st : Rendering) (kind : ClaimKind) : Rendering :=
  let claims := claims_of candidate kind in
  if bool_decide (length claims = 0%nat) then st
  else foldl (render_claim_step citations)
         (st.1 +:+ NL +:+ "**" +:+ claim_kind_label kind +:+ "**" +:+ NL +:+ NL, st.2) claims.

Definition render_candidate (citations : Citations) (st : Rendering)
    (candidate : InvestigationCandidateV1) : Rendering :=
  let st := (st.1 +:+ NL +:+ "## Candidate " +:+ literal_span (candidate_id candidate) +:+ NL, st.2) in
  let st := foldl (render_kind citations candidate) st CLAIM_KIND_RENDER_ORDER in
  if forallb (λ kind, bool_decide (length (claims_of candidate kind) = 0%nat)) CLAIM_KIND_RENDER_ORDER
  then (st.1 +:+ NL +:+ "No claims were reported for this candidate." +:+ NL, st.2) else st.

Definition render_citation (binding : AnswerBindingV1) (citations : Citations) (out id : string) :
    string :=
  match bmap_get id citations with
  | None => out
  | Some citation =>
      let line := "- " +:+ literal_span (cite_evidence_id citation) +:+ " — " +:+
                  literal_span (cite_source_label citation) +:+ " · " +:+
                  literal_span (cite_locator citation) in
      let excerpt := literal_display_text (cite_content citation) in
      out +:+ line +:+
      (if negb (bool_decide (cite_corpus_id citation = bind_corpus_id binding)) ||
          negb (bool_decide (cite_revision citation = bind_revision binding))
       then " · outside this turn's evidence snapshot" else "") +:+
      (if negb (is_empty excerpt) && excerpt_adds_information excerpt line
       then NL +:+ "  - " +:+ literal_span excerpt else "") +:+ NL
  end.

Definition render_answer_markdown (envelope : AnswerEnvelopeV1) : string :=
  let answer := env_answer envelope in
  let binding := env_binding envelope in
  let citations := inserts [] ((λ c, (cite_evidence_id c, c)) <$> ans_canonical_citations answer) in
  let out :=
    "# Investigation answer" +:+ NL +:+ NL +:+ "- Root cause established: " +:+
    (if ans_root_cause_established answer then "yes" else "no") +:+ NL +:+
    "- Confidence: not rated by this contract" +:+ NL +:+
    "- Evidence snapshot: corpus " +:+ literal_span (bind_corpus_id binding) +:+ " · events " +:+
    decimal (event_revision (bind_revision binding)) +:+ " · template analysis " +:+
    decimal (template_analysis_revision (bind_revision binding)) +:+ " · suppression " +:+
    decimal (suppression_revision (bind_revision binding)) +:+ NL in
  let candidates := sort_by candidate_leb (ans_candidates answer) in
  let out := if bool_decide (length candidates = 0%nat)
             then out +:+ NL +:+ "No candidate was reported for this turn." +:+ NL else out in
  let '(out, displayed_evidence) := foldl (render_candidate citations) (out, []) candidates in
  if bool_decide (displayed_evidence = []) then out
  else foldl (render_citation binding citations) (out +:+ NL +:+ "## Evidence" +:+ NL +:+ NL)
         displayed_evidence.
End render.

(** ** Order of the input *)

(** The same claim, candidate or answer up to the order of lists. *)
Definition claim_eq (a b : InvestigationClaimV1) : Prop :=
  claim_id a = claim_id b ∧ claim_kind a = claim_kind b ∧ claim_text a = claim_text b ∧
  claim_status a = claim_status b ∧ claim_evidence_ids a ≡ₚ claim_evidence_ids b.
Definition reordered {A} (R : A → A → Prop) (l k : list A) : Prop := ∃ m, l ≡ₚ m ∧ Forall2 R m k.
Definition candidate_eq (a b : InvestigationCandidateV1) : Prop :=
  candidate_id a = candidate_id b ∧ NoDup (claim_id <$> candidate_claims a) ∧
  reordered claim_eq (candidate_claims a) (candidate_claims b).
Definition answer_eq (a b : InvestigationAnswerV1) : Prop :=
  ans_root_cause_established a = ans_root_cause_established b ∧
  ans_canonical_citations a ≡ₚ ans_canonical_citations b ∧
  NoDup (cite_evidence_id <$> ans_canonical_citations a) ∧
  NoDup (candidate_id <$> ans_candidates a) ∧
  reordered candidate_eq (ans_candidates a) (ans_candidates b).

(** Sorting by a unique text key forgets the order of the input. *)
Lemma reordered_sort {A} (key : A → string) (R : A → A → Prop) l k :
  let leb a b := bool_decide (String.le (key a) (key b)) in
  (∀ a b, R a b → key a = key b) → NoDup (key <$> l) → reordered R l k →
  Forall2 R (sort_by leb l) (sort_by leb k).
Proof.
  cbn zeta. intros Hkey Hnd (m & Hp & HR). rewrite (sort_by_perm_eq _) with (k := m); [|..|done].
  - apply sort_by_Forall2; [|done]. intros x y x' y' Hx%Hkey Hy%Hkey. by rewrite Hx, Hy.
  - intros x y. rewrite bool_decide_eq_false, bool_decide_eq_true. intros ?.
    by destruct (total String.le (key x) (key y)).
  - intros x y z. rewrite !bool_decide_eq_true. apply transitivity.
  - intros x y Hx Hy. rewrite !bool_decide_eq_true. intros ??.
    apply (NoDup_fmap_eq key l); [done..|]. by apply (anti_symm String.le).
Qed.

Section render_order.
Context (is_alphanumeric : char → bool) (citations : Citations).

Lemma render_claim_eq a b :
  claim_eq a b → cited citations a = cited citations b ∧ render_claim citations a = render_claim citations b.
Proof.
  intros (Hid & Hk & Ht & Hs & He). assert (cited citations a = cited citations b) as Hc.
  { unfold cited. apply set_eq_iff. intros x. by rewrite He. }
  split; [done|]. unfold render_claim. rewrite Hs, Ht, Hc.
  destruct (claim_evidence_ids a) as [|x l], (claim_evidence_ids b) as [|y k];
    [done|by apply Permutation_nil_l in He|by apply Permutation_nil_r in He|done].
Qed.

Lemma render_claims_eq st l k :
  Forall2 claim_eq l k → foldl (render_claim_step citations) st l = foldl (render_claim_step citations) st k.
Proof.
  intros H. revert st. induction H as [|a b l k Hab _ IH]; intros st; [done|]. cbn [foldl].
  unfold render_claim_step at 2 4. destruct (render_claim_eq a b Hab) as [-> ->]. apply IH.
Qed.

Lemma reordered_filter {A} (R : A → A → Prop) (p : A → bool) l k :
  (∀ a b, R a b → p a = p b) → reordered R l k → reordered R (List.filter p l) (List.filter p k).
Proof.
  intros Hp (m & Hperm & HR). exists (List.filter p m). split; [by rewrite Hperm|].
  clear Hperm. induction HR as [|a b m k Hab _ IH]; [constructor|]. cbn. rewrite (Hp a b Hab).
  destruct (p b); [by constructor|done].
Qed.

Lemma claims_of_eq a b kind : candidate_eq a b → Forall2 claim_eq (claims_of a kind) (claims_of b kind).
Proof.
  intros (_ & Hnd & Hc). unfold claims_of. apply (reordered_sort claim_id).
  - by intros ?? (? & _).
  - apply (sublist_NoDup _ (claim_id <$> candidate_claims a)); [done|].
    apply fmap_sublist. clear. induction (candidate_claims a) as [|x l IH]; cbn; [constructor|].
    case_match; [by apply sublist_skip|by apply sublist_cons].
  - apply reordered_filter; [|done]. intros ?? (_ & -> & _). done.
Qed.

Lemma render_candidate_eq st a b :
  candidate_eq a b → render_candidate citations st a = render_candidate citations st b.
Proof.
  intros Hab. assert (∀ kind, length (claims_of a kind) = length (claims_of b kind)) as Hlen.
  { intros kind. by eapply Forall2_length, claims_of_eq. }
  assert (∀ st kind, render_kind citations a st kind = render_kind citations b st kind) as Hkind.
  { intros st' kind. unfold render_kind. rewrite Hlen. case_bool_decide; [done|].
    by apply render_claims_eq, claims_of_eq. }
  unfold render_candidate. destruct Hab as (-> & _).
  assert (∀ kinds st, foldl (render_kind citations a) st kinds = foldl (render_kind citations b) st kinds) as ->.
  { induction kinds as [|kind kinds IH]; intros st'; [done|]. cbn [foldl]. by rewrite Hkind, IH. }
  cbn [forallb CLAIM_KIND_RENDER_ORDER]. by rewrite !Hlen.
Qed.
End render_order.

(** The projection of an answer depends on its content only: permuting
    candidates, the claims of a candidate, the evidence ids of a claim or the
    citations renders byte for byte the same Markdown, as long as ids are unique
    where the validator makes them unique. *)
Theorem rendered_answer_ignores_order is_alphanumeric envelope answer :
  answer_eq (env_answer envelope) answer →
  render_answer_markdown is_alphanumeric envelope =
  render_answer_markdown is_alphanumeric
    {| env_binding := env_binding envelope; env_evidence := env_evidence envelope;
       env_answer := answer; env_semantic_attempts := env_semantic_attempts envelope |}.
Proof.
  intros (Hroot & Hcit & Hndc & Hnd & Hcand). unfold render_answer_markdown. cbn [env_answer env_binding].
  assert (Forall2 candidate_eq (sort_by candidate_leb (ans_candidates (env_answer envelope)))
    (sort_by candidate_leb (ans_candidates answer))) as Hsorted.
  { apply (reordered_sort candidate_id); [by intros ?? (? & _)|done|done]. }
  rewrite (inserts_perm_eq _ ((λ c, (cite_evidence_id c, c)) <$> ans_canonical_citations answer));
    [|unfold keys; by rewrite <-list_fmap_compose|by rewrite Hcit].
  rewrite Hroot, (Forall2_length _ _ _ Hsorted).
  set (citations := inserts [] _). set (out := if bool_decide _ then _ else _).
  assert (∀ st, foldl (render_candidate citations) st (sort_by candidate_leb (ans_candidates (env_answer envelope))) =
    foldl (render_candidate citations) st (sort_by candidate_leb (ans_candidates answer))) as ->; [|done].
  induction Hsorted as [|a b l k Hab _ IH]; intros st; [done|]. cbn [foldl].
  by rewrite (render_candidate_eq citations st a b Hab).
Qed.

Module DisplayDemo.
Export AnswerDemo.
Definition envelope : AnswerEnvelopeV1 := answer_of ledger proposal.
Definition turned (c : InvestigationCandidateV1) : InvestigationCandidateV1 :=
  {| candidate_id := candidate_id c; candidate_claims := rev (candidate_claims c) |}.
Definition answer : InvestigationAnswerV1 :=
  {| ans_schema := ans_schema (env_answer envelope);
     ans_candidates := turned <$> ans_candidates (env_answer envelope);
     ans_canonical_citations := rev (ans_canonical_citations (env_answer envelope));
     ans_root_cause_established := ans_root_cause_established (env_answer envelope) |}.
Definition ascii_alphanumeric (c : char) : bool :=
  match c with [a] => is_ascii_alphanumeric a | _ => false end.

Lemma turned_eq c : NoDup (claim_id <$> candidate_claims c) → candidate_eq c (turned c).
Proof.
  intros Hnd. split_and!; [done|done|]. exists (rev (candidate_claims c)).
  split; [apply Permutation_rev|]. apply Forall_Forall2_diag, Forall_forall. intros x _. by split_and!.
Qed.
Lemma answer_turned : answer_eq (env_answer envelope) answer.
Proof.
  split_and!; [done|apply Permutation_rev|apply (bool_decide_unpack _); vm_compute; exact I
    |apply (bool_decide_unpack _); vm_compute; exact I|].
  exists (ans_candidates (env_answer envelope)). split; [done|].
  apply Forall2_fmap_r, Forall_Forall2_diag.
  assert (Forall (λ c, NoDup (claim_id <$> candidate_claims c)) (ans_candidates (env_answer envelope))) as H.
  { apply (bool_decide_unpack _). vm_compute. exact I. }
  eapply Forall_impl; [exact H|]. apply turned_eq.
Qed.
End DisplayDemo.

Lemma rendered_answer_ignores_order_witness :
  render_answer_markdown DisplayDemo.ascii_alphanumeric DisplayDemo.envelope =
  render_answer_markdown DisplayDemo.ascii_alphanumeric
    {| env_binding := env_binding DisplayDemo.envelope; env_evidence := env_evidence DisplayDemo.envelope;
       env_answer := DisplayDemo.answer; env_semantic_attempts := 0 |}.
Proof.
  exact (rendered_answer_ignores_order DisplayDemo.ascii_alphanumeric DisplayDemo.envelope
    DisplayDemo.answer DisplayDemo.answer_turned).
Defined.
