(* ===== verification/Context.v ===== *)
(** * Model context: messages and the budget they must fit

    The message type of [crates/cd-core/src/chat.rs] and the preparation of the
    history for a provider request in [crates/cd-core/src/sessions.rs]: the window
    that never separates a tool result from its call, the summary of what is older,
    and the truncation that forces the request under the budget. Budgets are
    compared with lengths in bytes, bodies are cut by characters. *)
From Stdlib Require Import ZArith Lia Ascii String.
From stdpp Require Import base tactics option list list_numbers sets strings.
From S2P Require Import Prelude RustStr Text Injection.

Local Open Scope string_scope.
Local Open Scope list_scope.
Local Open Scope Z_scope.

(** ** Messages *)

Inductive Role := RoleSystem | RoleUser | RoleAssistant | RoleTool.
#[export] Instance Role_eq_dec : EqDecision Role.
Proof. solve_decision. Defined.
Record ToolCallMsg := {
  tcm_id : string;
  tcm_kind : string;
  tcm_function_name : string;
  tcm_function_arguments : string;
}.
Record ChatMessage := {
  msg_role : Role;
  msg_content : string;
  msg_tool_call_id : option string;
  msg_tool_calls : option (list ToolCallMsg);
}.
Definition plain_message (role : Role) (content : string) : ChatMessage :=
  {| msg_role := role; msg_content := content; msg_tool_call_id := None; msg_tool_calls := None |}.
Definition with_content (c : string) (m : ChatMessage) : ChatMessage :=
  {| msg_role := msg_role m; msg_content := c;
     msg_tool_call_id := msg_tool_call_id m; msg_tool_calls := msg_tool_calls m |}.
Definition is_role (r : Role) (m : ChatMessage) : bool := bool_decide (msg_role m = r).
Definition calls_tools (m : ChatMessage) : bool :=
  is_role RoleAssistant m && match msg_tool_calls m with Some _ => true | None => false end.

(** [role] printed with [{:?}] *)
Definition role_debug (r : Role) : string :=
  match r with
  | RoleSystem => "System" | RoleUser => "User" | RoleAssistant => "Assistant" | RoleTool => "Tool"
  end.

Definition estimate_context_chars (messages : list ChatMessage) : Z :=
  foldr Z.add 0 ((λ m, str_len (msg_content m)) <$> messages).

(** ** The window and the summary

    Indexing past the end panics, which [None] stands for: only a window of no
    message does. *)

Fixpoint start_go (messages : list ChatMessage) (start : nat) : option nat :=
  match start with
  | O => Some O
  | S k => m ← messages !! start; if is_role RoleTool m then start_go messages k else Some start
  end.
Definition pairing_safe_start (messages : list ChatMessage) (keep : Z) : option nat :=
  if zlen messages <=? keep then Some O
  else start_go messages (length messages - Z.to_nat keep).

Definition COMPACT_SUMMARY_CHAR_BUDGET : Z := 8000.
Definition DEFAULT_CONTEXT_CHAR_BUDGET : Z := 120000.
Definition ELLIPSIS : string := of_bytes ["226"; "128"; "166"]%char.
Definition MODEL_CONTEXT_TRUNCATE_MARKER : string :=
  ELLIPSIS +:+ "[truncated for model context budget]".

Definition summary_line (n : Z) (m : ChatMessage) : string :=
  "- " +:+ role_debug (msg_role m) +:+ ": " +:+ take_chars n (msg_content m).
(** The lines of the summary, newest message first; [acc] holds those taken. *)
Fixpoint summary_go (budget used : Z) (acc : list string) (older_rev : list ChatMessage) : list string :=
  match older_rev with
  | [] => acc
  | m :: older_rev =>
      let line := summary_line 120 m in
      let add := char_len line + (if bool_decide (acc = []) then 0 else 1) in
      if budget <? used + add then acc else summary_go budget (used + add) (line :: acc) older_rev
  end.
Definition recompact_chat_history_budgeted (messages : list ChatMessage) (keep summary_budget : Z) :
    option (option string) :=
  if zlen messages <=? keep then Some None
  else
    start ← pairing_safe_start messages keep;
    if bool_decide (start = O) then Some None
    else
      let older := take start messages in
      match summary_go (Z.max summary_budget 64) 0 [] (rev older) with
      | [] => m ← last older; Some (Some (summary_line 80 m +:+ ELLIPSIS))
      | lines => Some (Some (join (String LF EmptyString) lines))
      end.
Definition recompact_chat_history (messages : list ChatMessage) (keep : Z) : option (option string) :=
  recompact_chat_history_budgeted messages keep COMPACT_SUMMARY_CHAR_BUDGET.

(** [messages[0]] is where the policy goes: before the summary, or alone. *)
Definition add_policy (policy : string) (out : list ChatMessage) : list ChatMessage :=
  match out with
  | m :: rest =>
      if is_role RoleSystem m
      then with_content (policy +:+ String LF (String LF EmptyString) +:+ msg_content m) m :: rest
      else plain_message RoleSystem policy :: out
  | [] => [plain_message RoleSystem policy]
  end.
Definition context_chat_messages (messages : list ChatMessage) (compact_summary : option string) (keep : Z) :
    option (list ChatMessage) :=
  if zlen messages <=? keep then Some messages
  else
    start ← pairing_safe_start messages keep;
    let tail := drop start messages in
    let has_system := existsb (is_role RoleSystem) tail in
    let out :=
      match compact_summary with
      | Some sum =>
          if is_empty sum then []
          else [plain_message RoleSystem ("[Compacted earlier conversation]" +:+ String LF EmptyString +:+ sum)]
      | None => []
      end in
    let out :=
      if has_system then out
      else match List.find (is_role RoleSystem) messages with
           | Some sys => add_policy (msg_content sys) out
           | None => out
           end in
    Some (out ++ tail).

(** ** Fitting *)

Definition MARKER_LEN : Z := str_len MODEL_CONTEXT_TRUNCATE_MARKER.

Definition truncate_message_for_model (m : ChatMessage) (max_chars : Z) : ChatMessage :=
  if max_chars =? 0 then with_content MODEL_CONTEXT_TRUNCATE_MARKER m
  else if char_len (msg_content m) <=? max_chars then m
  else
    let body_budget := Z.max 1 (Z.max 0 (max_chars - char_len MODEL_CONTEXT_TRUNCATE_MARKER)) in
    with_content (take_chars body_budget (msg_content m) +:+ MODEL_CONTEXT_TRUNCATE_MARKER) m.

Definition is_atomic_nonce_fenced_system_context (m : ChatMessage) : bool :=
  is_role RoleSystem m && has_complete_untrusted_data_envelope (msg_content m).

(** The first of the longest messages among those [ok] holds of, with its index;
    [i] is the index of the head. *)
Fixpoint longest (ok : nat → ChatMessage → bool) (i : nat) (best : option (nat * Z)) (ms : list ChatMessage) :
    option (nat * Z) :=
  match ms with
  | [] => best
  | m :: ms =>
      let len := str_len (msg_content m) in
      let best' :=
        if ok i m
        then match best with
             | None => Some (i, len)
             | Some (_, bl) => if bl <? len then Some (i, len) else best
             end
        else best in
      longest ok (S i) best' ms
  end.

(** Whole envelopes go first, the longest before the others. *)
Fixpoint omit_envelopes (fuel : nat) (budget : Z) (out : list ChatMessage) : list ChatMessage :=
  match fuel with
  | O => out
  | S fuel =>
      if estimate_context_chars out <=? budget then out
      else match longest (λ _, is_atomic_nonce_fenced_system_context) 0 None out with
           | Some (i, _) => omit_envelopes fuel budget (delete i out)
           | None => out
           end
  end.

(** The assistant message that called the tool whose result ends the context. *)
Fixpoint tool_parent (out : list ChatMessage) (j : nat) : option nat :=
  match j with
  | O => None
  | S j =>
      m ← out !! j;
      if calls_tools m then Some j else if is_role RoleTool m then tool_parent out j else None
  end.
Definition first_system (out : list ChatMessage) : option nat :=
  fst <$> list_find (λ m, is_role RoleSystem m = true) out.
Definition protected_indices (out : list ChatMessage) : list nat :=
  let newest :=
    match last out with
    | Some m =>
        let last := pred (length out) in
        last :: (if is_role RoleTool m then option_list (tool_parent out last) else [])
    | None => []
    end in
  List.filter (λ i, bool_decide (i ∈ option_list (first_system out) ++ newest)) (seq 0 (length out)).

Definition truncate_at (i : nat) (target : Z) (out : list ChatMessage) : list ChatMessage :=
  match out !! i with Some m => <[i := truncate_message_for_model m target]> out | None => out end.

(** What is left of a body of [len] bytes when [overflow] must go. *)
Definition cut_target (floor len overflow : Z) : Z := Z.max floor (Z.max 0 (len - (overflow + MARKER_LEN))).

Definition shrinkable (protected : list nat) (i : nat) (m : ChatMessage) : bool :=
  negb (bool_decide (i ∈ protected)) && (MARKER_LEN + 8 <? str_len (msg_content m)).
(** Pass 1: the longest unprotected body, up to 64 times. *)
Fixpoint shrink_tail (fuel : nat) (protected : list nat) (budget : Z) (out : list ChatMessage) :
    list ChatMessage :=
  match fuel with
  | O => out
  | S fuel =>
      if estimate_context_chars out <=? budget then out
      else match longest (shrinkable protected) 0 None out with
           | Some (i, len) =>
               shrink_tail fuel protected budget
                 (truncate_at i (cut_target 32 len (estimate_context_chars out - budget)) out)
           | None => out
           end
  end.

(** Pass 2: the protected bodies, newest first, the policy last. *)
Definition protected_order (protected : list nat) (out : list ChatMessage) : list nat :=
  let sys i := match out !! i with Some m => is_role RoleSystem m | None => false end in
  rev (List.filter (λ i, negb (sys i)) protected) ++ rev (List.filter sys protected).
Fixpoint shrink_protected (order : list nat) (budget : Z) (out : list ChatMessage) : list ChatMessage :=
  match order with
  | [] => out
  | i :: order =>
      if estimate_context_chars out <=? budget then out
      else
        let len := match out !! i with Some m => str_len (msg_content m) | None => 0 end in
        if len <=? MARKER_LEN + 4 then shrink_protected order budget out
        else shrink_protected order budget
               (truncate_at i (cut_target 16 len (estimate_context_chars out - budget)) out)
  end.

(** Pass 3: every body to its share. *)
Definition clamp_all (budget : Z) (out : list ChatMessage) : list ChatMessage :=
  if estimate_context_chars out <=? budget then out
  else
    let per := Z.max (MARKER_LEN + 1) (budget / Z.max 1 (zlen out)) in
    (λ m, if per <? str_len (msg_content m) then truncate_message_for_model m per else m) <$> out.

Record ContextBudgetError := { cbe_estimate : Z; cbe_budget : Z }.

Definition fit_model_context_to_budget (messages : list ChatMessage) (budget : Z) :
    result ContextBudgetError (list ChatMessage) :=
  let budget := Z.max budget 64 in
  let out := omit_envelopes (length messages) budget messages in
  if estimate_context_chars out <=? budget then Ok out
  else
    let protected := protected_indices out in
    let out := shrink_tail 64 protected budget out in
    let out := shrink_protected (protected_order protected out) budget out in
    let out := clamp_all budget out in
    let est := estimate_context_chars out in
    if budget <? est then Err {| cbe_estimate := est; cbe_budget := budget |} else Ok out.

(** ** Preparing a request *)

Record PreparedModelContext := {
  pmc_messages : list ChatMessage;
  pmc_keep : Z;
  pmc_compacted : bool;
  pmc_truncated : bool;
  pmc_retained_history_messages : Z;
  pmc_omitted_history_messages : Z;
  pmc_compact_summary_included : bool;
}.

(** The window with its summary. *)
Definition windowed (history : list ChatMessage) (keep : Z) : option (option string * list ChatMessage) :=
  summary ← recompact_chat_history history keep;
  ctx ← context_chat_messages history summary keep;
  Some (summary, ctx).
(** Halve the window while the context is over budget. *)
Fixpoint shrink_keep (fuel : nat) (history : list ChatMessage) (budget keep : Z) (compacted : bool)
    (w : option string * list ChatMessage) : option (Z * bool * (option string * list ChatMessage)) :=
  match fuel with
  | O => Some (keep, compacted, w)
  | S fuel =>
      if (budget <? estimate_context_chars w.2) && (2 <? keep)
      then
        let keep := Z.max (keep / 2) 2 in
        w ← windowed history keep;
        shrink_keep fuel history budget keep true w
      else Some (keep, compacted, w)
  end.

Definition retained_messages (history : list ChatMessage) (keep : Z) : option Z :=
  if zlen history <=? keep then Some (zlen history)
  else
    start ← pairing_safe_start history keep;
    let tail := drop start history in
    Some (zlen tail +
          (if negb (existsb (is_role RoleSystem) tail) && existsb (is_role RoleSystem) history then 1 else 0)).

Definition prepare_model_context (history : list ChatMessage) (initial_keep budget : Z) :
    option (result ContextBudgetError PreparedModelContext) :=
  let budget := Z.max budget 64 in
  let keep := Z.max initial_keep 1 in
  w ← windowed history keep;
  '(keep, compacted, (summary, ctx)) ← shrink_keep 64 history budget keep false w;
  match fit_model_context_to_budget ctx budget with
  | Err e => Some (Err e)
  | Ok fitted =>
      if budget <? estimate_context_chars fitted
      then Some (Err {| cbe_estimate := estimate_context_chars fitted; cbe_budget := budget |})
      else
        retained ← retained_messages history keep;
        Some (Ok {| pmc_messages := fitted; pmc_keep := keep; pmc_compacted := compacted;
                    pmc_truncated := estimate_context_chars fitted <? estimate_context_chars ctx;
                    pmc_retained_history_messages := retained;
                    pmc_omitted_history_messages := Z.max 0 (zlen history - retained);
                    pmc_compact_summary_included :=
                      match summary with Some s => negb (is_empty s) | None => false end |})
  end.

(** [enforce_hard_context_budget] of [agent.rs], which fits a context again after
    something was added to it. *)
Definition MIN_CONTEXT_CHAR_BUDGET : Z := 24000.
Inductive HardBudgetError := StillOver (est budget : Z) | FitFailed (e : ContextBudgetError).
Definition enforce_hard_context_budget (model_ctx : list ChatMessage) (budget : Z) :
    result HardBudgetError (list ChatMessage) :=
  let budget := Z.max budget MIN_CONTEXT_CHAR_BUDGET in
  match fit_model_context_to_budget model_ctx budget with
  | Ok fitted =>
      if budget <? estimate_context_chars fitted
      then Err (StillOver (estimate_context_chars fitted) budget) else Ok fitted
  | Err e => Err (FitFailed e)
  end.

(** ** Shapes: what truncation leaves alone *)

Definition shape (m : ChatMessage) : Role * option string * option (list ToolCallMsg) :=
  (msg_role m, msg_tool_call_id m, msg_tool_calls m).

(** Every tool result follows, through other results only, the assistant message
    that called the tools. [open] says whether a result may come next. *)
Fixpoint paired (open : bool) (ms : list ChatMessage) : bool :=
  match ms with
  | [] => true
  | m :: ms => if is_role RoleTool m then open && paired true ms else paired (calls_tools m) ms
  end.

Lemma paired_mono ms : paired false ms = true → paired true ms = true.
Proof. destruct ms as [|m ms]; [done|]. cbn. by destruct (is_role RoleTool m). Qed.

Lemma paired_shape o a b : shape <$> a = shape <$> b → paired o a = paired o b.
Proof.
  revert o b. induction a as [|m a IH]; intros o [|m' b] Heq; try done.
  unfold shape in Heq at 1 2. cbn in Heq. injection Heq as Hr Hi Hc Heq.
  cbn. unfold calls_tools, is_role. rewrite Hr, Hc. by rewrite !(IH _ b Heq).
Qed.

Lemma system_not_tool m : is_role RoleSystem m = true → is_role RoleTool m = false ∧ calls_tools m = false.
Proof. unfold calls_tools, is_role. intros H%bool_decide_eq_true. by rewrite H. Qed.

Lemma paired_delete o ms i m :
  ms !! i = Some m → is_role RoleSystem m = true → paired o ms = true → paired o (delete i ms) = true.
Proof.
  intros Hi [Ht Hc]%system_not_tool. revert o i Hi. induction ms as [|x ms IH]; intros o i Hi; [done|].
  destruct i as [|i]; cbn in Hi |- *.
  - injection Hi as ->. rewrite Ht, Hc. destruct o; [apply paired_mono|done].
  - destruct (is_role RoleTool x); [|by eauto]. intros [-> H]%andb_true_iff. cbn. eauto.
Qed.

Lemma paired_drop o ms i m :
  ms !! i = Some m → is_role RoleTool m = false → paired o ms = true → paired false (drop i ms) = true.
Proof.
  intros Hi Ht. revert o i Hi. induction ms as [|x ms IH]; intros o i Hi; [done|].
  destruct i as [|i]; cbn in Hi |- *.
  - injection Hi as ->. by rewrite Ht.
  - destruct (is_role RoleTool x); [|by eauto]. intros [_ H]%andb_true_iff. eauto.
Qed.

Lemma paired_systems pre ms :
  Forall (λ m, is_role RoleSystem m = true) pre → paired false (pre ++ ms) = paired false ms.
Proof.
  induction 1 as [|m pre [Ht Hc]%system_not_tool _ IH]; [done|]. cbn. by rewrite Ht, Hc.
Qed.

(** ** The window *)

Lemma start_go_Some ms n : (n < length ms)%nat → ∃ s, start_go ms n = Some s.
Proof.
  induction n as [|n IH]; intros Hn; [by exists O|]. cbn.
  destruct (lookup_lt_is_Some_2 ms (S n) Hn) as [m ->]. cbn. destruct (is_role RoleTool m); [|eauto].
  apply IH. lia.
Qed.
Lemma start_go_spec ms n s :
  start_go ms n = Some s → (s ≤ n)%nat ∧ (s = O ∨ ∃ m, ms !! s = Some m ∧ is_role RoleTool m = false).
Proof.
  revert s. induction n as [|n IH]; intros s; cbn; [intros [= <-]; split; [lia|by left]|].
  destruct (ms !! S n) as [m|] eqn:E; cbn; [|done]. destruct (is_role RoleTool m) eqn:Et.
  - intros Hs%IH. destruct Hs as [Hle Hs]. split; [lia|done].
  - intros [= <-]. split; [done|]. right. eauto.
Qed.

Lemma pairing_safe_start_Some ms keep : 1 ≤ keep → ∃ s, pairing_safe_start ms keep = Some s.
Proof.
  intros Hk. unfold pairing_safe_start. destruct (zlen ms <=? keep) eqn:E; [eauto|].
  apply start_go_Some. unfold zlen in E. lia.
Qed.
Lemma pairing_safe_start_spec ms keep s :
  pairing_safe_start ms keep = Some s → 1 ≤ keep → ms ≠ [] →
  (s < length ms)%nat ∧ (s = O ∨ ∃ m, ms !! s = Some m ∧ is_role RoleTool m = false).
Proof.
  unfold pairing_safe_start. intros Hs Hk Hne. destruct (zlen ms <=? keep) eqn:E.
  - injection Hs as <-. split; [destruct ms; cbn; [done|lia]|by left].
  - apply start_go_spec in Hs as [Hle Hs]. split; [|done]. unfold zlen in E. lia.
Qed.

Lemma beyond_keep (ms : list ChatMessage) keep : (zlen ms <=? keep) = false → 1 ≤ keep → ms ≠ [].
Proof. intros E%Z.leb_gt Hk ->. unfold zlen in E. cbn [length] in E. lia. Qed.

Lemma windowed_Some ms keep : 1 ≤ keep → ∃ w, windowed ms keep = Some w.
Proof.
  intros Hk. unfold windowed, recompact_chat_history, recompact_chat_history_budgeted, context_chat_messages.
  destruct (pairing_safe_start_Some ms keep Hk) as [s Hs].
  destruct (zlen ms <=? keep) eqn:E; [cbn; eauto|]. rewrite Hs. cbn [mbind option_bind].
  case_bool_decide as H0; [cbn; eauto|]. destruct (summary_go _ _ _ _) as [|l ls]; [|cbn; eauto].
  destruct (last (take s ms)) as [m|] eqn:El; [cbn; eauto|].
  apply last_None in El. apply (f_equal length) in El. rewrite length_take in El.
  apply pairing_safe_start_spec in Hs as [Hlt _]; [|done|by eapply beyond_keep]. cbn [length] in El. lia.
Qed.

(** A window: the whole history, or a tail of it that does not begin with a tool
    result, behind at most a system message. *)
Lemma windowed_spec ms keep summary ctx :
  windowed ms keep = Some (summary, ctx) → 1 ≤ keep →
  ∃ pre s, ctx = pre ++ drop s ms ∧ Forall (λ m, is_role RoleSystem m = true) pre ∧
    (s = O ∨ ∃ m, ms !! s = Some m ∧ is_role RoleTool m = false).
Proof.
  intros Hw Hk. unfold windowed in Hw. apply bind_Some in Hw as (sum & _ & Hw).
  apply bind_Some in Hw as (c & Hc & [= -> ->]). unfold context_chat_messages in Hc.
  destruct (zlen ms <=? keep) eqn:E.
  { injection Hc as <-. exists [], O. split_and!; [done|constructor|by left]. }
  apply bind_Some in Hc as (s & Hs & Hc). injection Hc as <-.
  apply pairing_safe_start_spec in Hs as [_ Hs]; [|done|by eapply beyond_keep].
  eexists _, s. split_and!; [reflexivity| |done].
  destruct (existsb _ (drop s ms)), (List.find (is_role RoleSystem) ms), summary as [sum|];
    try destruct (is_empty sum); repeat constructor.
Qed.

(** ** Fitting keeps shapes *)

Lemma truncate_shape m n : shape (truncate_message_for_model m n) = shape m.
Proof. unfold truncate_message_for_model. by destruct (n =? 0), (char_len (msg_content m) <=? n). Qed.
Lemma truncate_at_shape i n out : shape <$> truncate_at i n out = shape <$> out.
Proof.
  unfold truncate_at. destruct (out !! i) as [m|] eqn:E; [|done].
  rewrite list_fmap_insert, truncate_shape. apply list_insert_id. by rewrite list_lookup_fmap, E.
Qed.
Lemma shrink_tail_shape fuel p b out : shape <$> shrink_tail fuel p b out = shape <$> out.
Proof.
  revert out. induction fuel as [|fuel IH]; intros out; cbn; [done|]. destruct (_ <=? b); [done|].
  destruct (longest _ _ _ _) as [[i len]|]; [|done]. by rewrite IH, truncate_at_shape.
Qed.
Lemma shrink_protected_shape order b out : shape <$> shrink_protected order b out = shape <$> out.
Proof.
  revert out. induction order as [|i order IH]; intros out; cbn [shrink_protected]; [done|].
  destruct (_ <=? b); [done|]. destruct (_ <=? MARKER_LEN + 4); rewrite IH; [done|apply truncate_at_shape].
Qed.
Lemma clamp_all_shape b out : shape <$> clamp_all b out = shape <$> out.
Proof.
  unfold clamp_all. destruct (_ <=? b); [done|]. rewrite <-list_fmap_compose. apply list_fmap_ext.
  intros i m _. cbn. destruct (_ <? _); [apply truncate_shape|done].
Qed.

Lemma fit_Ok ms b out :
  fit_model_context_to_budget ms b = Ok out →
  estimate_context_chars out ≤ Z.max b 64 ∧
  shape <$> out = shape <$> omit_envelopes (length ms) (Z.max b 64) ms.
Proof.
  unfold fit_model_context_to_budget. set (B := Z.max b 64). set (o := omit_envelopes (length ms) B ms).
  destruct (estimate_context_chars o <=? B) eqn:E.
  { intros Ho. apply Ok_inj in Ho as <-. split; [by apply Z.leb_le|done]. }
  set (o3 := clamp_all _ _). destruct (B <? estimate_context_chars o3) eqn:E'; [done|].
  intros Ho. apply Ok_inj in Ho as <-. split; [by apply Z.ltb_ge|].
  unfold o3. by rewrite clamp_all_shape, shrink_protected_shape, shrink_tail_shape.
Qed.

Lemma longest_Some ok i best ms j n :
  longest ok i best ms = Some (j, n) →
  best = Some (j, n) ∨
  ∃ k m, j = (i + k)%nat ∧ ms !! k = Some m ∧ ok j m = true ∧ n = str_len (msg_content m).
Proof.
  revert i best. induction ms as [|m ms IH]; intros i best; cbn [longest]; [by left|].
  intros H. apply IH in H as [H|(k & m' & -> & Hk & Hok & Hn)].
  - destruct (ok i m) eqn:Eok; [|by left].
    assert (best = Some (j, n) ∨ Some (i, str_len (msg_content m)) = Some (j, n)) as [?|[= <- <-]].
    { destruct best as [[bi bl]|]; [destruct (bl <? _)|]; auto. }
    + by left.
    + right. exists O, m. by rewrite Nat.add_0_r.
  - right. exists (S k), m'. rewrite Nat.add_succ_r. done.
Qed.

(** What holds of a list and of every list with one of its envelopes left out
    holds of what the omission leaves. *)
Lemma omit_envelopes_ind (Q : list ChatMessage → Prop) fuel b ms :
  (∀ ms i m, Q ms → ms !! i = Some m → is_role RoleSystem m = true → Q (delete i ms)) →
  Q ms → Q (omit_envelopes fuel b ms).
Proof.
  intros Hdel. revert ms. induction fuel as [|fuel IH]; intros ms Hq; cbn; [done|].
  destruct (_ <=? b); [done|]. destruct (longest _ _ _ _) as [[i n]|] eqn:E; [|done].
  apply longest_Some in E as [?|(k & m & -> & Hk & Hok & _)]; [done|].
  apply IH. apply andb_true_iff in Hok as [Hsys _]. eauto.
Qed.

Lemma last_delete (ms : list ChatMessage) i m x :
  last ms = Some x → is_role RoleSystem x = false → ms !! i = Some m → is_role RoleSystem m = true →
  last (delete i ms) = Some x.
Proof.
  intros Hl Hx Hi Hm. rewrite last_lookup in *. pose proof (lookup_lt_Some _ _ _ Hi).
  assert (i ≠ pred (length ms)) by (intros ->; congruence).
  rewrite length_delete by eauto. rewrite list_lookup_delete_ge by lia.
  by replace (S (pred (length ms - 1))) with (pred (length ms)) by lia.
Qed.

(** ** Preparing keeps the history well formed *)

Lemma shrink_keep_spec fuel history b keep c w :
  1 ≤ keep → windowed history keep = Some w →
  ∃ keep' c' w', shrink_keep fuel history b keep c w = Some (keep', c', w') ∧
    1 ≤ keep' ∧ windowed history keep' = Some w' ∧
    (keep ≤ 2 ^ (Z.of_nat fuel + 1) → estimate_context_chars w'.2 ≤ b ∨ keep' ≤ 2).
Proof.
  revert keep c w. induction fuel as [|fuel IH]; intros keep c w Hk Hw; cbn [shrink_keep].
  { exists keep, c, w. split_and!; [done..|]. intros Hle. right. cbn in Hle. lia. }
  destruct ((b <? _) && (2 <? keep)) eqn:E.
  - assert (1 ≤ Z.max (keep / 2) 2) as Hk' by lia. destruct (windowed_Some history _ Hk') as [w' Hw'].
    rewrite Hw'. cbn [mbind option_bind].
    destruct (IH _ true w' Hk' Hw') as (k2 & c2 & w2 & -> & ? & ? & Hdone).
    exists k2, c2, w2. split_and!; [done..|]. intros Hle. apply Hdone.
    replace (Z.of_nat (S fuel) + 1) with (Z.of_nat fuel + 1 + 1) in Hle by lia.
    rewrite Z.pow_add_r, Z.pow_1_r in Hle by lia.
    pose proof (Z.pow_le_mono_r 2 1 (Z.of_nat fuel + 1)) as Hpow. rewrite Z.pow_1_r in Hpow.
    assert (keep / 2 ≤ 2 ^ (Z.of_nat fuel + 1)) by (apply Z.div_le_upper_bound; lia). lia.
  - exists keep, c, w. split_and!; [done..|]. intros _. apply andb_false_iff in E as [E|E]; [left|right]; lia.
Qed.

Lemma retained_messages_spec history keep :
  1 ≤ keep → ∃ n, retained_messages history keep = Some n ∧ 0 ≤ n ≤ zlen history.
Proof.
  intros Hk. unfold retained_messages. destruct (zlen history <=? keep) eqn:E.
  { exists (zlen history). pose proof (zlen_nonneg history). split; [done|lia]. }
  destruct (pairing_safe_start_Some history keep Hk) as [s Hs]. rewrite Hs. cbn [mbind option_bind].
  eexists. split; [reflexivity|]. unfold zlen. rewrite length_drop.
  apply pairing_safe_start_spec in Hs as [Hlt _]; [|done|by eapply beyond_keep].
  destruct (decide (s = O)) as [->|]; [rewrite drop_0; destruct (existsb _ history); cbn; lia|].
  destruct (_ && _); lia.
Qed.

Lemma prepared_spec history k b p :
  prepare_model_context history k b = Some (Ok p) →
  ∃ pre s kept, shape <$> pmc_messages p = shape <$> kept ∧
    kept = omit_envelopes (length (pre ++ drop s history)) (Z.max (Z.max b 64) 64) (pre ++ drop s history) ∧
    Forall (λ m, is_role RoleSystem m = true) pre ∧
    (s = O ∨ ∃ m, history !! s = Some m ∧ is_role RoleTool m = false) ∧
    estimate_context_chars (pmc_messages p) ≤ Z.max b 64 ∧
    pmc_retained_history_messages p + pmc_omitted_history_messages p = zlen history.
Proof.
  unfold prepare_model_context. intros (w & Hw & H)%bind_Some. assert (1 ≤ Z.max k 1) as Hk by lia.
  destruct (shrink_keep_spec 64 history (Z.max b 64) _ false w Hk Hw) as (keep & c & [sum ctx] & E & Hk' & Hw' & _).
  rewrite E in H. cbn [mbind option_bind] in H. apply windowed_spec in Hw' as (pre & s & -> & Hpre & Hs); [|done].
  destruct (fit_model_context_to_budget _ _) as [fitted|] eqn:Ef; [|done].
  apply fit_Ok in Ef as [Hfit Hshape]. destruct (_ <? estimate_context_chars fitted); [done|].
  destruct (retained_messages_spec history keep Hk') as (n & Hn & Hle). rewrite Hn in H. cbn [mbind option_bind] in H.
  apply (inj Some), Ok_inj in H as <-. cbn [pmc_messages pmc_retained_history_messages pmc_omitted_history_messages].
  exists pre, s. eexists. split_and!; [exact Hshape|reflexivity|done|done|lia|lia].
Qed.


Lemma prepare_returns history keep budget : is_Some (prepare_model_context history keep budget).
Proof.
  assert (1 ≤ Z.max keep 1) as Hk by lia. unfold prepare_model_context.
  destruct (windowed_Some history _ Hk) as [w Hw]. rewrite Hw. cbn [mbind option_bind].
  destruct (shrink_keep_spec 64 history (Z.max budget 64) _ false w Hk Hw) as (k & c & [sum ctx] & -> & Hk' & _).
  cbn [mbind option_bind]. destruct (fit_model_context_to_budget _ _); [|done].
  destruct (_ <? _); [done|]. destruct (retained_messages_spec history k Hk') as (n & -> & _). done.
Qed.

(** Preparing a request always comes back: the window is never empty, so no
    index is out of range, and halving it ends, under budget or at two messages. *)
Theorem preparation_returns history keep budget :
  0 ≤ keep ≤ u64_max →
  is_Some (prepare_model_context history keep budget) ∧
  ∀ w, windowed history (Z.max keep 1) = Some w →
  ∃ keep' c' w', shrink_keep 64 history budget (Z.max keep 1) false w = Some (keep', c', w') ∧
    (estimate_context_chars w'.2 ≤ budget ∨ keep' ≤ 2).
Proof.
  intros Hkeep. assert (1 ≤ Z.max keep 1) as Hk by lia.
  assert (Z.max keep 1 ≤ 2 ^ (Z.of_nat 64 + 1)) as Hbound.
  { unfold u64_max in Hkeep. change (2 ^ (Z.of_nat 64 + 1)) with 36893488147419103232. lia. }
  split; [apply prepare_returns|].
  intros w Hw. destruct (shrink_keep_spec 64 history budget _ false w Hk Hw) as (k & c & w' & -> & _ & _ & Hd).
  exists k, c, w'. auto.
Qed.

(** ** Fitting ASCII contexts *)

Lemma estimate_cons m out :
  estimate_context_chars (m :: out) = str_len (msg_content m) + estimate_context_chars out.
Proof. done. Qed.
Lemma estimate_insert i m m' out :
  out !! i = Some m →
  estimate_context_chars (<[i := m']> out) =
  estimate_context_chars out - str_len (msg_content m) + str_len (msg_content m').
Proof.
  revert i. induction out as [|x out IH]; intros [|i] Hi; try done.
  - injection Hi as ->. change (<[O := m']> (m :: out)) with (m' :: out). rewrite !estimate_cons. lia.
  - apply IH in Hi. change (<[S i := m']> (x :: out)) with (x :: <[i := m']> out). rewrite !estimate_cons. lia.
Qed.
Lemma estimate_bound n out :
  (∀ m, m ∈ out → str_len (msg_content m) ≤ n) → estimate_context_chars out ≤ n * zlen out.
Proof.
  intros H. induction out as [|m out IH]; [unfold zlen; cbn; lia|]. rewrite estimate_cons, zlen_cons.
  pose proof (H m ltac:(by left)). specialize (IH ltac:(intros; apply H; by right)). lia.
Qed.

Lemma truncate_ascii_len m t :
  ascii_text (msg_content m) → 0 < t → t < str_len (msg_content m) →
  str_len (msg_content (truncate_message_for_model m t)) = Z.max 1 (t - 37) + 39.
Proof.
  intros Ha Ht Hlt. unfold truncate_message_for_model. rewrite char_len_ascii by done.
  destruct (t =? 0) eqn:E; [lia|]. destruct (_ <=? t) eqn:E'; [lia|].
  change (char_len MODEL_CONTEXT_TRUNCATE_MARKER) with 37. cbn [with_content msg_content].
  unfold str_len, zlen in *. rewrite bytes_app, take_chars_ascii, length_app, length_take by done.
  change (length (bytes MODEL_CONTEXT_TRUNCATE_MARKER)) with 39%nat. lia.
Qed.

(** One cut of an ASCII body ends the overflow or leaves a stub of 40 bytes. *)
Lemma cut_suffices B floor i m out :
  out !! i = Some m → ascii_text (msg_content m) → 43 < str_len (msg_content m) → 0 < floor ≤ 32 →
  B < estimate_context_chars out →
  let out' := truncate_at i (cut_target floor (str_len (msg_content m)) (estimate_context_chars out - B)) out in
  estimate_context_chars out' ≤ B ∨ ∃ m', out' = <[i := m']> out ∧ str_len (msg_content m') = 40.
Proof.
  intros Hi Ha Hlen Hfloor HB. cbn zeta. unfold truncate_at. rewrite Hi. unfold cut_target.
  change MARKER_LEN with 39. set (t := Z.max _ _).
  pose proof (truncate_ascii_len m t Ha) as Ht. rewrite (estimate_insert i m) by done.
  destruct (decide (t ≤ 38)); [right; eexists; split; [done|]; rewrite Ht; lia|left; rewrite Ht; lia].
Qed.

Fixpoint count_ok (ok : nat → ChatMessage → bool) (i : nat) (ms : list ChatMessage) : nat :=
  match ms with
  | [] => O
  | m :: ms => ((if ok i m then 1 else 0) + count_ok ok (S i) ms)%nat
  end.
Lemma count_ok_length ok i ms : (count_ok ok i ms ≤ length ms)%nat.
Proof. revert i. induction ms as [|m ms IH]; intros i; cbn; [lia|]. specialize (IH (S i)). destruct (ok i m); lia. Qed.
Lemma count_ok_insert ok i ms k m m' :
  ms !! k = Some m → ok (i + k)%nat m = true → ok (i + k)%nat m' = false →
  count_ok ok i ms = S (count_ok ok i (<[k := m']> ms)).
Proof.
  revert i k. induction ms as [|x ms IH]; intros i [|k] Hk Ho Ho'; try done; cbn in Hk.
  - injection Hk as ->. rewrite Nat.add_0_r in Ho, Ho'. change (<[O := m']> (m :: ms)) with (m' :: ms).
    cbn [count_ok]. by rewrite Ho, Ho'.
  - rewrite Nat.add_succ_r in Ho, Ho'. change (<[S k := m']> (x :: ms)) with (x :: <[k := m']> ms).
    cbn [count_ok]. rewrite (IH (S i) k) by done. destruct (ok i x); lia.
Qed.
Lemma longest_None ok i ms k m :
  longest ok i None ms = None → ms !! k = Some m → ok (i + k)%nat m = false.
Proof.
  revert i k. assert (∀ ms i b, longest ok i (Some b) ms ≠ None) as Hsome.
  { clear ms. induction ms as [|x ms IH]; intros i [bi bl]; cbn; [done|]. destruct (ok i x), (bl <? str_len (msg_content x)); apply IH. }
  induction ms as [|x ms IH]; intros i [|k] Hl Hk; try done; cbn in Hl, Hk.
  - injection Hk as ->. rewrite Nat.add_0_r. by destruct (ok i m); [apply Hsome in Hl|].
  - destruct (ok i x); [by apply Hsome in Hl|]. rewrite Nat.add_succ_r. by apply (IH (S i)).
Qed.

Section fitting.
Context (B : Z) (p : list nat).

Lemma shrink_tail_done fuel out :
  (count_ok (shrinkable p) 0 out ≤ fuel)%nat →
  (∀ j m, out !! j = Some m → shrinkable p j m = true → ascii_text (msg_content m)) →
  let out' := shrink_tail fuel p B out in
  (∀ j, j ∈ p → out' !! j = out !! j) ∧
  (estimate_context_chars out' ≤ B ∨ ∀ j m, out' !! j = Some m → shrinkable p j m = false).
Proof.
  revert out. induction fuel as [|fuel IH]; intros out Hc Ha; cbn [shrink_tail].
  { split; [done|]. right. intros j m Hj. destruct (shrinkable p j m) eqn:E; [|done].
    assert (shrinkable p (0 + j) (with_content "" m) = false) as Hno.
    { unfold shrinkable. change MARKER_LEN with 39. cbn. apply andb_false_r. }
    pose proof (count_ok_insert _ 0 out j m _ Hj E Hno). lia. }
  destruct (estimate_context_chars out <=? B) eqn:EB; [split; [done|]; left; lia|].
  destruct (longest (shrinkable p) 0 None out) as [[i len]|] eqn:El.
  2: { split; [done|]. right. intros j m. by apply (longest_None _ 0). }
  apply longest_Some in El as [?|(k & m & -> & Hk & Hok & ->)]; [done|]. cbn [Nat.add].
  assert (Hlen := Hok). unfold shrinkable in Hlen. change MARKER_LEN with 39 in Hlen.
  apply andb_true_iff in Hlen as [Hnp Hlen]. apply negb_true_iff, bool_decide_eq_false in Hnp.
  pose proof (cut_suffices B 32 k m out Hk (Ha _ _ Hk Hok) ltac:(lia) ltac:(lia) ltac:(lia)) as Hcut.
  cbn zeta in Hcut. set (out1 := truncate_at k _ out) in *.
  assert (∀ j, j ≠ k → out1 !! j = out !! j) as Hother.
  { intros j Hj. unfold out1, truncate_at. rewrite Hk. by apply list_lookup_insert_ne. }
  assert (∀ j, j ∈ p → out1 !! j = out !! j) as Hprot by (intros j Hj; apply Hother; by intros ->).
  destruct Hcut as [Hdone|(m' & Hout1 & Hm')].
  - replace (shrink_tail fuel p B out1) with out1; [by split; [|left]|].
    destruct fuel; cbn [shrink_tail]; [done|]. by rewrite (proj2 (Z.leb_le _ _) Hdone).
  - assert (shrinkable p (0 + k) m' = false) as Hno.
    { unfold shrinkable. rewrite Hm'. apply andb_false_r. }
    destruct (IH out1) as [Hp Hrest].
    + rewrite Hout1. pose proof (count_ok_insert _ 0 out k m m' Hk Hok Hno). lia.
    + intros j x Hj Hx. destruct (decide (j = k)) as [->|Hne]; [|rewrite Hother in Hj by done; by eapply Ha].
      rewrite Hout1, list_lookup_insert_eq in Hj by (by eapply lookup_lt_Some). injection Hj as <-. cbn [Nat.add] in Hno. congruence.
    + split; [|done]. intros j Hj. by rewrite Hp, Hprot.
Qed.

Lemma shrink_protected_done order out :
  NoDup order → (∀ j m, j ∈ order → out !! j = Some m → ascii_text (msg_content m)) →
  let out' := shrink_protected order B out in
  (∀ j, j ∉ order → out' !! j = out !! j) ∧
  (estimate_context_chars out' ≤ B ∨
   ∀ j m, j ∈ order → out' !! j = Some m → str_len (msg_content m) ≤ 43).
Proof.
  intros Hnd. revert out. induction Hnd as [|i order Hi _ IH]; intros out Ha; cbn [shrink_protected].
  { split; [done|]. right. intros j m Hj. by apply elem_of_nil in Hj. }
  destruct (estimate_context_chars out <=? B) eqn:EB; [split; [done|]; left; lia|].
  set (len := match out !! i with Some m => _ | None => 0 end).
  change MARKER_LEN with 39. destruct (len <=? 39 + 4) eqn:El.
  - destruct (IH out) as [Ho Hr]; [intros j m Hj; apply Ha; by right|]. split.
    + intros j Hj. apply Ho. intros ?. apply Hj. by right.
    + destruct Hr as [?|Hr]; [by left|right]. intros j m Hj Hm. apply elem_of_cons in Hj as [->|Hj]; [|eauto].
      rewrite Ho in Hm by done. unfold len in El. rewrite Hm in El. lia.
  - destruct (out !! i) as [m|] eqn:Em; [|unfold len in El; lia]. unfold len in *.
    assert (ascii_text (msg_content m)) as Ham by (apply (Ha i); [by left|done]).
    pose proof (cut_suffices B 16 i m out Em Ham ltac:(lia) ltac:(lia) ltac:(lia)) as Hcut. cbn zeta in Hcut.
    set (out1 := truncate_at i _ out) in *.
    assert (∀ j, j ≠ i → out1 !! j = out !! j) as Hother.
    { intros j Hj. unfold out1, truncate_at. rewrite Em. by apply list_lookup_insert_ne. }
    destruct (IH out1) as [Ho Hr].
    { intros j x Hj Hx. rewrite Hother in Hx by (by intros ->). apply (Ha j); [by right|done]. }
    split; [intros j Hj; rewrite Ho, Hother; [done|..]; intros ?; subst; apply Hj; [by left|by right]|].
    destruct Hcut as [Hdone|(m' & Hout1 & Hm')].
    + left. destruct order; cbn [shrink_protected]; [done|]. by rewrite (proj2 (Z.leb_le _ _) Hdone).
    + destruct Hr as [?|Hr]; [by left|right]. intros j x Hj Hx. apply elem_of_cons in Hj as [->|Hj]; [|eauto].
      rewrite Ho, Hout1, list_lookup_insert_eq in Hx by (done || by eapply lookup_lt_Some).
      injection Hx as <-. lia.
Qed.
End fitting.

Lemma protected_order_spec p out : NoDup p → NoDup (protected_order p out) ∧ ∀ j, j ∈ protected_order p out ↔ j ∈ p.
Proof.
  intros Hp. unfold protected_order.
  set (sys := λ i, match out !! i with Some m => is_role RoleSystem m | None => false end). split.
  - apply NoDup_app. split_and!.
    + apply NoDup_ListNoDup, List.NoDup_rev, List.NoDup_filter, NoDup_ListNoDup, Hp.
    + intros j. rewrite !elem_of_rev, !elem_of_filter_bool. intros [_ H1] [_ H2]. cbn beta in H1. fold (sys j) in H1. by rewrite H2 in H1.
    + apply NoDup_ListNoDup, List.NoDup_rev, List.NoDup_filter, NoDup_ListNoDup, Hp.
  - intros j. rewrite elem_of_app, !elem_of_rev, !elem_of_filter_bool. cbn beta. fold (sys j).
    destruct (sys j); cbn; intuition discriminate.
Qed.

Lemma omit_envelopes_sub fuel b ms (Q : ChatMessage → Prop) :
  Forall Q ms → Forall Q (omit_envelopes fuel b ms) ∧ (length (omit_envelopes fuel b ms) ≤ length ms)%nat.
Proof.
  intros HQ. apply (omit_envelopes_ind (λ l, Forall Q l ∧ (length l ≤ length ms)%nat)); [|done].
  intros l i m [Hl Hlen] Hi _. rewrite length_delete by eauto. split; [|lia].
  rewrite delete_take_drop. apply Forall_app. split; [by apply Forall_take|by apply Forall_drop].
Qed.

(** Truncation is enough for ASCII: a context of at most 64 ASCII messages is
    always brought under a budget of 47 bytes a message or more, so the request is
    never refused. *)
Theorem ascii_context_is_fitted messages budget :
  (length messages ≤ 64)%nat → Forall (λ m, ascii_text (msg_content m)) messages →
  47 * zlen messages ≤ Z.max budget 64 →
  ∃ out, fit_model_context_to_budget messages budget = Ok out.
Proof.
  intros Hlen Ha Hb. unfold fit_model_context_to_budget. set (B := Z.max budget 64) in *.
  destruct (omit_envelopes_sub (length messages) B messages _ Ha) as [Ha' Hlen'].
  set (o := omit_envelopes _ _ _) in *. clearbody o. rewrite Forall_forall in Ha'.
  destruct (estimate_context_chars o <=? B) eqn:EB; [eauto|].
  set (p := protected_indices o). assert (NoDup p) as Hp.
  { apply NoDup_ListNoDup, List.NoDup_filter, NoDup_ListNoDup, NoDup_seq. }
  pose proof (count_ok_length (shrinkable p) 0 o) as Hcount.
  destruct (shrink_tail_done B p 64 o) as [Hp1 H1].
  { lia. }
  { intros j m Hj _. by eapply Ha', list_elem_of_lookup_2. }
  set (o1 := shrink_tail 64 p B o) in *. assert (length o1 = length o) as Hl1.
  { rewrite <-(length_fmap shape o1), <-(length_fmap shape o). unfold o1. by rewrite shrink_tail_shape. }
  clearbody o1. destruct (protected_order_spec p o1 Hp) as [Hnd Hin].
  destruct (shrink_protected_done B _ o1 Hnd) as [Hp2 H2].
  { intros j m Hj Hm. rewrite Hp1 in Hm by (by apply Hin). by eapply Ha', list_elem_of_lookup_2. }
  pose proof (shrink_protected_shape (protected_order p o1) B o1) as Hs2.
  set (o2 := shrink_protected _ B o1) in *. apply (f_equal length) in Hs2. rewrite !length_fmap in Hs2.
  assert (estimate_context_chars o2 ≤ B) as Hfit.
  { destruct H2 as [?|H2]; [done|]. destruct H1 as [H1|H1].
    { destruct (protected_order p o1) eqn:Eo; [done|]. unfold o2. cbn [shrink_protected].
      by rewrite (proj2 (Z.leb_le _ _) H1). }
    transitivity (47 * zlen o2); [|unfold zlen in *; lia]. apply estimate_bound.
    intros m [j Hj]%list_elem_of_lookup_1. destruct (decide (j ∈ p)) as [Hjp|Hjp].
    - apply Hin in Hjp. specialize (H2 j m Hjp Hj). lia.
    - rewrite Hp2 in Hj by (by rewrite Hin). specialize (H1 j m Hj). unfold shrinkable in H1.
      rewrite bool_decide_eq_false_2 in H1 by done. change MARKER_LEN with 39 in H1. cbn in H1. lia. }
  exists o2. unfold clamp_all. rewrite (proj2 (Z.leb_le _ _) Hfit).
  by rewrite (proj2 (Z.ltb_ge _ _) Hfit).
Qed.

(** ** What it does to other scripts *)

Fixpoint repeat_str (n : nat) (s : string) : string :=
  match n with O => EmptyString | S n => s +:+ repeat_str n s end.

(** A request that only truncation could save is refused when its text is not
    ASCII: lengths are measured in bytes and bodies are cut by characters, so a body
    that is too long in bytes counts as short enough and nothing is cut. *)
Theorem multibyte_context_is_refused :
  let text n := [plain_message RoleUser (repeat_str n (of_bytes ["195"; "169"]%char))] in
  (∀ m, m ∈ text 100%nat → char_len (msg_content m) = 100) ∧
  fit_model_context_to_budget (text 100%nat) 150 = Err {| cbe_estimate := 200; cbe_budget := 150 |}.
Proof.
  cbn zeta. split; [|vm_compute; reflexivity].
  intros m Hm%list_elem_of_singleton. subst m. vm_compute. reflexivity.
Qed.

(** ** Witnesses *)

Definition demo_history : list ChatMessage :=
  [plain_message RoleSystem "policy"; plain_message RoleUser (repeat_str 20 "question ");
   {| msg_role := RoleAssistant; msg_content := EmptyString; msg_tool_call_id := None;
      msg_tool_calls := Some [{| tcm_id := "1"; tcm_kind := "function"; tcm_function_name := "search";
                                 tcm_function_arguments := "{}" |}] |};
   {| msg_role := RoleTool; msg_content := repeat_str 40 "result "; msg_tool_call_id := Some "1";
      msg_tool_calls := None |}].


Lemma preparation_returns_witness : is_Some (prepare_model_context demo_history 6 100).
Proof. apply (preparation_returns demo_history 6 100). vm_compute. split; discriminate. Defined.

Lemma ascii_context_is_fitted_witness : ∃ out, fit_model_context_to_budget demo_history 200 = Ok out.
Proof.
  apply (ascii_context_is_fitted demo_history 200).
  - vm_compute. lia.
  - repeat constructor.
  - vm_compute. discriminate.
Defined.
