(* ===== verification/EvidencePack.v ===== *)
(** * Evidence packing and context telemetry

    [crates/cd-core/src/context_budgeting.rs]: the headroom every synthesis request
    keeps, the packer that chooses which lines of host evidence go into it, and the
    telemetry of the request; with the callers of [crates/cd-core/src/agent.rs],
    [CurrentTurnEvidence] and [linked_round_model_context]. Floating-point
    comparisons follow the specification of binary64 in the standard library. *)
From Stdlib Require Import ZArith Lia Ascii String SpecFloat.
From stdpp Require Import base tactics option list list_numbers sets sorting gmap strings.
From S2P Require Import Prelude RustStr Text Context.

Local Open Scope string_scope.
Local Open Scope list_scope.
Local Open Scope Z_scope.

Definition NL : string := String LF EmptyString.
Definition QUOTE : string := String "034" EmptyString.

(** ** Headroom *)

Definition SYNTHESIS_CONTEXT_HEADROOM_CHARS : Z := 12000.

Definition synthesis_packing_budget (hard_budget_chars : Z) : Z :=
  if hard_budget_chars =? 0 then 0
  else
    let proportional := hard_budget_chars / 10 in
    let reservation := Z.min SYNTHESIS_CONTEXT_HEADROOM_CHARS proportional in
    let reservation := Z.min reservation (hard_budget_chars / 2) in
    Z.max 0 (hard_budget_chars - reservation).

(** Binary64: 53 bits of precision, exponents below 1024. *)
Definition f64 := spec_float.
Definition f64_of_Z (z : Z) : f64 := binary_normalize 53 1024 z 0 false.
Definition f64_add : f64 → f64 → f64 := SFadd 53 1024.
Definition f64_div : f64 → f64 → f64 := SFdiv 53 1024.
Definition f64_EPSILON : f64 := S754_finite false 4503599627370496 (-104).
(** The double nearest to 0.08. *)
Definition SYNTHESIS_MIN_HEADROOM_RATIO : f64 := S754_finite false 5764607523034235 (-56).

Definition has_useful_context_headroom (used_chars hard_budget_chars : Z) : bool :=
  if (hard_budget_chars =? 0) || (hard_budget_chars <? used_chars) then false
  else
    let free := Z.max 0 (hard_budget_chars - used_chars) in
    let ratio := f64_div (f64_of_Z free) (f64_of_Z hard_budget_chars) in
    let min_abs := Z.min SYNTHESIS_CONTEXT_HEADROOM_CHARS (hard_budget_chars / 10) in
    (min_abs <=? free) || SFleb SYNTHESIS_MIN_HEADROOM_RATIO (f64_add ratio f64_EPSILON).

(** ** Identities of evidence lines *)

Definition line_has_citation_identity (line : string) : bool :=
  let lower := to_ascii_lowercase line in
  let has_seq := contains "seq=" lower || contains (QUOTE +:+ "seq" +:+ QUOTE +:+ ":") lower ||
                 contains ("seq" +:+ QUOTE +:+ ":") lower in
  let has_source := contains "source=" lower || contains ("source" +:+ QUOTE +:+ ":") lower ||
                    contains (QUOTE +:+ "source" +:+ QUOTE) lower in
  has_seq && has_source.

(** The bytes before the first white-space character or byte [stop] holds of. *)
Fixpoint take_until (stop : ascii → bool) (s : list ascii) : list ascii :=
  match s with
  | [] => []
  | a :: r1 =>
      if ws1 a || stop a then []
      else match r1 with
           | b :: r2 =>
               if ws2 a b then []
               else match r2 with
                    | c :: _ => if ws3 a b c then [] else a :: take_until stop r1
                    | [] => a :: take_until stop r1
                    end
           | [] => [a]
           end
  end.

Definition DQ : ascii := "034".
Definition SQ : ascii := "039".
(** [rest.find(q)] cut off: the bytes before the closing quote. *)
Definition quoted (q : ascii) (rest : list ascii) : option (list ascii) :=
  fst <$> split_once_bytes [q] rest.

Definition extract_field_value (line key : string) : option string :=
  let lower := bytes (to_ascii_lowercase line) in
  let key_l := to_ascii_lowercase key in
  let at_ k := (λ '(pre, _), (length pre + length (bytes k))%nat) <$> split_once_bytes (bytes k) lower in
  start ← match at_ (key_l +:+ "=") with
          | Some p => Some p
          | None => at_ (QUOTE +:+ key_l +:+ QUOTE +:+ ":")
          end;
  let after := trim_start_bytes (drop start (bytes line)) in
  value ← match after with
          | c :: rest =>
              if bool_decide (c = DQ) then quoted DQ rest
              else if bool_decide (c = SQ) then quoted SQ rest
              else Some (take_until (λ c, bool_decide (c ∈ [","; "}"]%char)) after)
          | [] => Some []
          end;
  if bool_decide (value = []) then None else Some (of_bytes value).

Definition unwrap_or_default (s : option string) : string := match s with Some s => s | None => EmptyString end.
Definition identity_key_from_line (line : string) : string :=
  let seq := unwrap_or_default (extract_field_value line "seq") in
  let source := unwrap_or_default (extract_field_value line "source") in
  match parse_u64 seq with
  | None => EmptyString
  | Some _ =>
      if is_empty source then EmptyString
      else "seq=" +:+ to_ascii_lowercase seq +:+ "|source=" +:+ to_ascii_lowercase source
  end.

Definition truncate_chars_at_boundary (s : string) (max_chars : Z) : string :=
  if max_chars =? 0 then EmptyString else take_chars max_chars s.

Definition truncate_preserving_identity_line (line : string) (max_chars : Z) : option string :=
  if max_chars <? 16 then None
  else if char_len line <=? max_chars then Some line
  else
    let head :=
      '(pre, _) ← split_once_bytes (bytes "source=") (bytes (to_ascii_lowercase line));
      let after := floor_char_boundary line (length pre + 7) in
      let rest := drop after (bytes line) in
      let token_end :=
        match rest with
        | c :: stripped =>
            if bool_decide (c = DQ)
            then match quoted DQ stripped with
                 | Some v => (after + 1 + length v + 1)%nat
                 | None => length (bytes line)
                 end
            else (after + length (take_until (λ _, false) rest))%nat
        | [] => length (bytes line)
        end in
      Some (of_bytes (take (floor_char_boundary line (Nat.min token_end (length (bytes line)))) (bytes line))) in
    let truncated := truncate_chars_at_boundary line max_chars in
    let by_bytes := truncate_bytes line (Z.to_nat (max_chars * 4)) in
    let fallback :=
      if line_has_citation_identity truncated then Some truncated
      else if line_has_citation_identity by_bytes then Some by_bytes else None in
    match head with
    | Some h => if (char_len h <=? max_chars) && line_has_citation_identity h then Some h else fallback
    | None => fallback
    end.

(** ** The units of evidence *)

Definition OMIT_FOOTER_RESERVE : Z := 240.
Definition MAX_SINGLE_RECORD_BODY_CHARS : Z := 1200.
Definition MAX_MANDATORY_IDENTITY_CHARS : Z := 480.

(** [n as i32] *)
Definition as_i32 (n : Z) : Z := (n + 2147483648) mod 4294967296 - 2147483648.

Record Unit_ := {
  u_block_idx : nat;
  u_line : string;
  u_is_identity : bool;
  u_identity_key : option string;
  u_score : Z;
}.

Definition trim_end (s : list ascii) : list ascii := rev (trim_end_rev (rev s)).

Definition line_score (n_blocks block_idx n_lines line_i : nat) (is_identity : bool) (chars : Z) : Z :=
  (if is_identity then 1000 - Z.min (as_i32 chars) 150 else 10 - Z.min (as_i32 (Z.of_nat block_idx)) 80) +
  (if bool_decide (line_i = O) then 80 else 0) +
  (if bool_decide (1 < n_lines)%nat && bool_decide (S line_i = n_lines) then 120 else 0) +
  (if bool_decide (1 < n_blocks)%nat && bool_decide (S block_idx = n_blocks) && is_identity then 200 else 0) +
  (if bool_decide (block_idx = O) && is_identity then 100 else 0).

Definition unit_of_line (n_blocks block_idx n_lines line_i : nat) (raw : list ascii) : list Unit_ :=
  let line := of_bytes (trim_end raw) in
  if is_empty line then []
  else
    let raw_key := identity_key_from_line line in
    let is_identity := line_has_citation_identity line && negb (is_empty raw_key) in
    [{| u_block_idx := block_idx; u_line := line; u_is_identity := is_identity;
        u_identity_key := if is_identity then Some raw_key else None;
        u_score := line_score n_blocks block_idx n_lines line_i is_identity (char_len line) |}].
Definition units_of_block (n_blocks block_idx : nat) (block : string) : list Unit_ :=
  let ls := lines (bytes block) in
  concat (imap (unit_of_line n_blocks block_idx (length ls)) ls).
Definition units_of (blocks : list string) : list Unit_ :=
  concat (imap (units_of_block (length blocks)) blocks).

Definition bump (i : nat) (units : list Unit_) : list Unit_ :=
  alter (λ u, {| u_block_idx := u_block_idx u; u_line := u_line u; u_is_identity := u_is_identity u;
                 u_identity_key := u_identity_key u; u_score := u_score u + 5000 |}) i units.
Definition identity_idxs (units : list Unit_) : list nat :=
  List.filter (λ i, match units !! i with Some u => u_is_identity u | None => false end) (seq 0 (length units)).
(** The first identity and, when there is another, the last. *)
Definition mandatory_idxs (units : list Unit_) : list nat :=
  let ids := identity_idxs units in
  match ids with
  | [] => []
  | first :: _ =>
      first :: (if bool_decide (1 < length ids)%nat then option_list (last ids) else [])
  end.

(** ** Mandatory lines *)

Record Mandatory := { m_idx : nat; m_line : string; m_cost : Z }.

Definition cap_mandatory (line : string) : string :=
  let by_chars := truncate_chars_at_boundary line MAX_MANDATORY_IDENTITY_CHARS in
  if line_has_citation_identity by_chars then by_chars
  else match truncate_preserving_identity_line line MAX_MANDATORY_IDENTITY_CHARS with
       | Some t => t
       | None => by_chars
       end.
Definition mandatory_step (units : list Unit_) (st : list Mandatory * list string) (idx : nat) :
    list Mandatory * list string :=
  let '(mandatory, keys) := st in
  match units !! idx with
  | None => st
  | Some u =>
      if existsb (λ m, bool_decide (m_idx m = idx)) mandatory then st
      else
        let dup := match u_identity_key u with Some k => bool_decide (k ∈ keys) | None => false end in
        let keys' := match u_identity_key u with Some k => if dup then keys else k :: keys | None => keys end in
        if dup then st
        else
          let capped := cap_mandatory (u_line u) in
          if negb (line_has_citation_identity capped) then (mandatory, keys')
          else (mandatory ++ [{| m_idx := idx; m_line := capped; m_cost := char_len capped + 1 |}], keys')
  end.
Definition reserved (mandatory : list Mandatory) : Z := foldr Z.add 0 (m_cost <$> mandatory).
(** Half the body at most: every mandatory line is cut to its share. *)
Definition rescale (body_budget : Z) (mandatory : list Mandatory) : list Mandatory :=
  if (body_budget / 2 <? reserved mandatory) && negb (bool_decide (mandatory = []))
  then
    let scale_budget := Z.max (body_budget / 2) 64 in
    let max_line := Z.max (scale_budget / Z.max (zlen mandatory) 1) 32 in
    (λ m, let line := match truncate_preserving_identity_line (m_line m) max_line with
                      | Some t => t
                      | None => truncate_chars_at_boundary (m_line m) max_line
                      end in
          {| m_idx := m_idx m; m_line := line; m_cost := char_len line + 1 |}) <$> mandatory
  else mandatory.
Definition mandatory_lines (body_budget : Z) (units : list Unit_) : list Mandatory :=
  rescale body_budget (foldl (mandatory_step units) ([], []) (mandatory_idxs units)).1.

(** ** Filling the rest *)

Record FillState := {
  f_selected : list (option string);
  f_used : Z;
  f_seen : list string;
  f_identity_included : Z;
  f_identity_omitted : Z;
  f_blocks_touched : list nat;
}.

Definition set_insert {A} `{EqDecision A} (x : A) (l : list A) : list A := if bool_decide (x ∈ l) then l else x :: l.

Definition place_mandatory (units : list Unit_) (st : FillState) (m : Mandatory) : FillState :=
  match units !! m_idx m with
  | None => st
  | Some u =>
      {| f_selected := <[m_idx m := Some (m_line m)]> (f_selected st);
         f_used := f_used st + m_cost m;
         f_seen := match u_identity_key u with Some k => set_insert k (f_seen st) | None => f_seen st end;
         f_identity_included := f_identity_included st + 1;
         f_identity_omitted := f_identity_omitted st;
         f_blocks_touched := set_insert (u_block_idx u) (f_blocks_touched st) |}
  end.

Definition omit_identity (u : Unit_) (st : FillState) : FillState :=
  if u_is_identity u
  then {| f_selected := f_selected st; f_used := f_used st; f_seen := f_seen st;
          f_identity_included := f_identity_included st; f_identity_omitted := f_identity_omitted st + 1;
          f_blocks_touched := f_blocks_touched st |}
  else st.
Definition see (key : string) (st : FillState) : FillState :=
  {| f_selected := f_selected st; f_used := f_used st; f_seen := key :: f_seen st;
     f_identity_included := f_identity_included st; f_identity_omitted := f_identity_omitted st;
     f_blocks_touched := f_blocks_touched st |}.

(** What of a line fits: [None] leaves it out. *)
Definition candidate (u : Unit_) (fill_budget fill_used : Z) : option string :=
  if fill_budget <? fill_used + char_len (u_line u) + 1 then
    let room := Z.max 0 (fill_budget - (fill_used + 1)) in
    if u_is_identity u then
      t ← truncate_preserving_identity_line (u_line u) room;
      if fill_budget <? fill_used + char_len t + 1 then None else Some t
    else if room <? 48 then None
    else
      let stub := truncate_chars_at_boundary (u_line u) (Z.min room MAX_SINGLE_RECORD_BODY_CHARS) in
      if char_len stub <? 24 then None else Some stub
  else Some (u_line u).

Definition fill_step (units : list Unit_) (body_budget reserved_chars : Z) (st : FillState) (idx : nat) : FillState :=
  match units !! idx with
  | None => st
  | Some u =>
      let dup := match u_identity_key u with Some k => bool_decide (k ∈ f_seen st) | None => false end in
      if dup then st
      else
        let st := match u_identity_key u with Some k => see k st | None => st end in
        let fill_budget := Z.max 0 (body_budget - reserved_chars) in
        let fill_used := Z.max 0 (f_used st - Z.min reserved_chars (f_used st)) in
        match candidate u fill_budget fill_used with
        | None => omit_identity u st
        | Some line =>
            if body_budget <? f_used st + char_len line + 1 then omit_identity u st
            else {| f_selected := <[idx := Some line]> (f_selected st);
                    f_used := f_used st + (char_len line + 1);
                    f_seen := f_seen st;
                    f_identity_included := f_identity_included st + (if u_is_identity u then 1 else 0);
                    f_identity_omitted := f_identity_omitted st;
                    f_blocks_touched := set_insert (u_block_idx u) (f_blocks_touched st) |}
        end
  end.

Definition score_at (units : list Unit_) (i : nat) : Z :=
  match units !! i with Some u => u_score u | None => 0 end.
(** Higher scores first, then the earlier line. *)
Definition before (units : list Unit_) (a b : nat) : Prop :=
  score_at units b < score_at units a ∨ (score_at units a = score_at units b ∧ (a ≤ b)%nat).
#[export] Instance before_dec units : RelDecision (before units).
Proof. unfold before. intros a b. apply _. Defined.

Definition fill_order (units : list Unit_) (mandatory : list Mandatory) : list nat :=
  merge_sort (before units)
    (List.filter (λ i, negb (bool_decide (i ∈ m_idx <$> mandatory))) (seq 0 (length units))).

Definition fill (units : list Unit_) (body_budget : Z) : FillState :=
  let mandatory := mandatory_lines body_budget units in
  let start := {| f_selected := replicate (length units) None; f_used := 0; f_seen := [];
                  f_identity_included := 0; f_identity_omitted := 0; f_blocks_touched := [] |} in
  foldl (fill_step units body_budget (reserved mandatory))
    (foldl (place_mandatory units) start mandatory) (fill_order units mandatory).

(** ** Packing *)

Record PackedLinkedEvidence := {
  pe_text : string;
  pe_included_blocks : Z;
  pe_omitted_blocks : Z;
  pe_included_chars : Z;
  pe_omitted_chars : Z;
  pe_identity_lines_included : Z;
  pe_identity_lines_omitted : Z;
}.

Definition total_chars (blocks : list string) : Z := foldr Z.add 0 (char_len <$> blocks).
Definition count_identity_lines (text : string) : Z :=
  zlen (List.filter (λ l, line_has_citation_identity (of_bytes l)) (lines (bytes text))).

Definition ALMOST : string := of_bytes ["226"; "137"; "136"]%char.
Definition omit_footer (omitted_blocks omitted_chars identity_omitted identity_included : Z) : string :=
  NL +:+ "[HOST EVIDENCE PACKED] omitted_blocks=" +:+ decimal omitted_blocks +:+ " omitted_chars" +:+ ALMOST +:+
  decimal omitted_chars +:+ " identity_lines_omitted=" +:+ decimal identity_omitted +:+
  " identity_lines_included=" +:+ decimal identity_included +:+
  ". Further deepening must stay bounded " +:+ of_bytes ["226"; "128"; "148"]%char +:+
  " do not re-request the full window.".

Definition body_budget_of (evidence_budget_chars : Z) : Z :=
  Z.max 0 (evidence_budget_chars - Z.min OMIT_FOOTER_RESERVE (evidence_budget_chars / 4)).
(** The units, the first and last identities ranked up. *)
Definition ranked_units (blocks : list string) : list Unit_ :=
  foldr bump (units_of blocks) (mandatory_idxs (units_of blocks)).

Definition pack_ranked (blocks : list string) (evidence_budget_chars : Z) : PackedLinkedEvidence :=
  let units := ranked_units blocks in
  let st := fill units (body_budget_of evidence_budget_chars) in
  let text := join NL (omap id (f_selected st)) in
  let included_chars := char_len text in
  let omitted_chars := Z.max 0 (total_chars blocks - included_chars) in
  let included_blocks := zlen (f_blocks_touched st) in
  let omitted_blocks := Z.max 0 (zlen blocks - included_blocks) in
  let total_identity := zlen (List.filter u_is_identity units) in
  let identity_included := f_identity_included st in
  let identity_omitted := Z.max (f_identity_omitted st) (Z.max 0 (total_identity - identity_included)) in
  let text :=
    if (0 <? omitted_blocks) || (0 <? omitted_chars) || (0 <? identity_omitted)
    then
      let footer := omit_footer omitted_blocks omitted_chars identity_omitted identity_included in
      let room := Z.max 0 (evidence_budget_chars - char_len text) in
      if 32 <? room then text +:+ truncate_chars_at_boundary footer room else text
    else text in
  let text := if evidence_budget_chars <? char_len text
              then truncate_chars_at_boundary text evidence_budget_chars else text in
  {| pe_text := text; pe_included_blocks := included_blocks; pe_omitted_blocks := omitted_blocks;
     pe_included_chars := included_chars; pe_omitted_chars := omitted_chars;
     pe_identity_lines_included := identity_included; pe_identity_lines_omitted := identity_omitted |}.

Definition pack_linked_evidence_blocks (blocks : list string) (evidence_budget_chars : Z) : PackedLinkedEvidence :=
  if bool_decide (blocks = []) || (evidence_budget_chars =? 0)
  then {| pe_text := EmptyString; pe_included_blocks := 0; pe_omitted_blocks := zlen blocks;
          pe_included_chars := 0; pe_omitted_chars := total_chars blocks;
          pe_identity_lines_included := 0; pe_identity_lines_omitted := 0 |}
  else if total_chars blocks <=? evidence_budget_chars
  then
    let text := join (NL +:+ NL) blocks in
    {| pe_text := text; pe_included_blocks := zlen blocks; pe_omitted_blocks := 0;
       pe_included_chars := total_chars blocks; pe_omitted_chars := 0;
       pe_identity_lines_included := count_identity_lines text; pe_identity_lines_omitted := 0 |}
  else pack_ranked blocks evidence_budget_chars.

(** ** Every packed line is evidence *)

#[local] Abbreviation prefix_str s t := (bytes s `prefix_of` bytes t).

Lemma truncate_chars_prefix s n : prefix_str (truncate_chars_at_boundary s n) s.
Proof. unfold truncate_chars_at_boundary. destruct (n =? 0); [apply prefix_nil|apply take_chars_prefix]. Qed.
Lemma truncate_chars_len s n : 0 ≤ n → char_len (truncate_chars_at_boundary s n) ≤ n.
Proof. unfold truncate_chars_at_boundary. destruct (n =? 0) eqn:E; [|apply take_chars_len]. intros. done. Qed.
Lemma take_prefix_str n s : prefix_str (of_bytes (take n (bytes s))) s.
Proof. rewrite bytes_of_bytes. apply prefix_take. Qed.

Lemma truncate_preserving_prefix line n t :
  truncate_preserving_identity_line line n = Some t → prefix_str t line.
Proof.
  unfold truncate_preserving_identity_line. destruct (n <? 16); [done|].
  destruct (_ <=? n); [intros [= <-]; done|].
  assert (∀ x : option string,
    (if line_has_citation_identity (truncate_chars_at_boundary line n)
     then Some (truncate_chars_at_boundary line n)
     else if line_has_citation_identity (truncate_bytes line (Z.to_nat (n * 4)))
          then Some (truncate_bytes line (Z.to_nat (n * 4))) else None) = Some t → prefix_str t line) as Hfall.
  { intros _. destruct (line_has_citation_identity (truncate_chars_at_boundary line n));
      [intros [= <-]; apply truncate_chars_prefix|].
    destruct (line_has_citation_identity _); [|done]. intros [= <-]. apply take_prefix_str. }
  destruct (split_once_bytes _ _) as [[pre post]|]; cbn [mbind option_bind]; [|by apply (Hfall None)].
  destruct (_ && _); [|by apply (Hfall None)]. intros Ht. apply (inj Some) in Ht as <-. apply take_prefix_str.
Qed.

Lemma cap_mandatory_prefix line : prefix_str (cap_mandatory line) line.
Proof.
  unfold cap_mandatory. destruct (line_has_citation_identity _); [apply truncate_chars_prefix|].
  destruct (truncate_preserving_identity_line _ _) eqn:E; [by eapply truncate_preserving_prefix|apply truncate_chars_prefix].
Qed.
Lemma candidate_prefix u b n l : candidate u b n = Some l → prefix_str l (u_line u).
Proof.
  unfold candidate. destruct (b <? _); [|intros [= <-]; done]. destruct (u_is_identity u).
  - intros (t & Ht & Hl)%bind_Some. destruct (b <? _); [done|]. injection Hl as <-.
    by eapply truncate_preserving_prefix.
  - destruct (_ <? 48); [done|]. destruct (_ <? 24); [done|]. intros Hl. apply (inj Some) in Hl as <-.
    apply truncate_chars_prefix.
Qed.

Lemma omap_fmap {A B C} (f : B → option C) (g : A → B) (l : list A) : omap f (g <$> l) = omap (λ x, f (g x)) l.
Proof. induction l as [|x l IH]; [done|]. cbn. by rewrite IH. Qed.

Section packing.
Context (units : list Unit_).

Definition key_at (i : nat) : option string := u ← units !! i; u_identity_key u.
Definition from_unit (i : nat) (line : string) : Prop := ∃ u, units !! i = Some u ∧ prefix_str line (u_line u).

(** Mandatory lines are cut from their units and have different identities. *)
Definition mandatory_ok (ms : list Mandatory) : Prop :=
  Forall (λ m, from_unit (m_idx m) (m_line m)) ms ∧ NoDup (omap (λ m, key_at (m_idx m)) ms).

Lemma mandatory_steps_ok idxs ms keys :
  mandatory_ok ms → (∀ k, k ∈ omap (λ m, key_at (m_idx m)) ms → k ∈ keys) →
  mandatory_ok (foldl (mandatory_step units) (ms, keys) idxs).1.
Proof.
  revert ms keys. induction idxs as [|i idxs IH]; intros ms keys Hok Hkeys; [done|]. cbn [foldl].
  unfold mandatory_step at 2. destruct (units !! i) as [u|] eqn:Eu; [|by apply IH].
  destruct (existsb _ ms); [by apply IH|].
  assert (key_at i = u_identity_key u) as Hkey by (unfold key_at; by rewrite Eu).
  destruct (match u_identity_key u with Some k => bool_decide (k ∈ keys) | None => false end) eqn:Edup;
    [by apply IH|]. set (keys' := match u_identity_key u with Some _ => _ | None => keys end).
  assert (∀ k, k ∈ keys → k ∈ keys') as Hsub by (unfold keys'; destruct (u_identity_key u); set_solver).
  destruct (line_has_citation_identity (cap_mandatory (u_line u))); cbn [negb]; apply IH; [| |done|naive_solver].
  - destruct Hok as [Hf Hnd]. split.
    + apply Forall_app. split; [done|]. repeat constructor. exists u. split; [done|apply cap_mandatory_prefix].
    + rewrite omap_app. cbn. rewrite Hkey. destruct (u_identity_key u) as [k|]; [|by rewrite app_nil_r].
      apply NoDup_app. split_and!; [done| |apply NoDup_singleton]. intros x Hx ->%list_elem_of_singleton.
      apply bool_decide_eq_false in Edup. auto.
  - intros k. rewrite omap_app. cbn. rewrite Hkey. unfold keys'. destruct (u_identity_key u) as [k'|];
      rewrite elem_of_app; set_solver.
Qed.

Lemma mandatory_lines_ok b : mandatory_ok (mandatory_lines b units).
Proof.
  unfold mandatory_lines. set (ms := (foldl _ _ _).1).
  assert (mandatory_ok ms) as [Hf Hnd].
  { apply mandatory_steps_ok; [split; constructor|]. intros k Hk. by apply elem_of_nil in Hk. }
  clearbody ms. unfold rescale. destruct (_ && _); [|done]. split.
  - apply Forall_fmap. eapply Forall_impl; [exact Hf|]. intros m (u & Hu & Hp). cbn. exists u. split; [done|].
    etransitivity; [|exact Hp]. cbn [m_line]. destruct (truncate_preserving_identity_line _ _) eqn:E;
      [by eapply truncate_preserving_prefix|apply truncate_chars_prefix].
  - by rewrite omap_fmap.
Qed.

(** The invariant of the filling: what is selected is cut from its unit, selected
    lines have different identities, all of them seen, and the touched blocks are
    those of units, without repetition. *)
Record fill_ok (n_blocks : nat) (st : FillState) : Prop := {
  fo_from i l : f_selected st !! i = Some (Some l) → from_unit i l;
  fo_seen i l k : f_selected st !! i = Some (Some l) → key_at i = Some k → k ∈ f_seen st;
  fo_keys i j l l' k : f_selected st !! i = Some (Some l) → f_selected st !! j = Some (Some l') →
                       key_at i = Some k → key_at j = Some k → i = j;
  fo_length : length (f_selected st) = length units;
  fo_touched : NoDup (f_blocks_touched st) ∧ ∀ b, b ∈ f_blocks_touched st → (b < n_blocks)%nat;
}.

Context (n : nat) (Hblocks : ∀ i u, units !! i = Some u → (u_block_idx u < n)%nat).

Lemma set_insert_spec {A} `{EqDecision A} (x y : A) l : y ∈ set_insert x l ↔ y = x ∨ y ∈ l.
Proof. unfold set_insert. case_bool_decide; set_solver. Qed.
Lemma set_insert_NoDup {A} `{EqDecision A} (x : A) l : NoDup l → NoDup (set_insert x l).
Proof. unfold set_insert. case_bool_decide; [done|]. by constructor. Qed.

(** Selecting one more line whose identity was not seen. *)
Lemma select_ok st i u l st' :
  fill_ok n st → units !! i = Some u → prefix_str l (u_line u) →
  (∀ k, u_identity_key u = Some k → k ∉ f_seen st) →
  f_selected st' = <[i := Some l]> (f_selected st) →
  (∀ k, k ∈ f_seen st' ↔ u_identity_key u = Some k ∨ k ∈ f_seen st) →
  f_blocks_touched st' = set_insert (u_block_idx u) (f_blocks_touched st) → fill_ok n st'.
Proof.
  intros [Hfrom Hseen Hkeys Hlen [Hnd Hb]] Hu Hp Hnew Hsel Hseen' Htouched.
  assert (key_at i = u_identity_key u) as Hkey by (unfold key_at; by rewrite Hu).
  assert (∀ j l', f_selected st' !! j = Some (Some l') →
            (j = i ∧ l' = l) ∨ (j ≠ i ∧ f_selected st !! j = Some (Some l'))) as Hcases.
  { intros j l'. rewrite Hsel. destruct (decide (j = i)) as [->|Hne].
    - intros Hj. left. split; [done|]. apply list_lookup_insert_Some in Hj as [(_ & [= ->] & _)|[? _]]; done.
    - rewrite list_lookup_insert_ne by done. auto. }
  split.
  - intros j l' [[-> ->]|[_ Hj]]%Hcases; [by exists u|eauto].
  - intros j l' k [[-> ->]|[_ Hj]]%Hcases Hk; apply Hseen'; [left; congruence|right; eauto].
  - intros j1 j2 l1 l2 k H1%Hcases H2%Hcases Hk1 Hk2.
    destruct H1 as [[-> ->]|[Hne1 H1]], H2 as [[-> ->]|[Hne2 H2]]; [done| | |by eapply Hkeys].
    + exfalso. eapply (Hnew k); [congruence|]. by eapply Hseen.
    + exfalso. eapply (Hnew k); [congruence|]. by eapply Hseen.
  - rewrite Hsel. by rewrite length_insert.
  - rewrite Htouched. split; [by apply set_insert_NoDup|]. intros b [->|?]%set_insert_spec; [by eapply Hblocks|auto].
Qed.

(** Looking at a line without selecting it. *)
Lemma skip_ok st st' :
  fill_ok n st → f_selected st' = f_selected st → f_blocks_touched st' = f_blocks_touched st →
  (∀ k, k ∈ f_seen st → k ∈ f_seen st') → fill_ok n st'.
Proof.
  intros [Hfrom Hseen Hkeys Hlen Hb] Hsel Ht Hs. split; rewrite ?Hsel, ?Ht; eauto.
Qed.

Lemma place_all_ok ms st :
  mandatory_ok ms → (∀ k, k ∈ omap (λ m, key_at (m_idx m)) ms → k ∉ f_seen st) →
  fill_ok n st → fill_ok n (foldl (place_mandatory units) st ms).
Proof.
  revert st. induction ms as [|m ms IH]; intros st [Hf Hnd] Hnew Hok; [done|]. cbn [foldl].
  apply Forall_cons in Hf as [(u & Hu & Hp) Hf]. cbn in Hnd, Hnew.
  assert (key_at (m_idx m) = u_identity_key u) as Hkey by (unfold key_at; by rewrite Hu).
  rewrite Hkey in Hnd, Hnew. unfold place_mandatory at 2. rewrite Hu.
  assert (mandatory_ok ms) as Hms.
  { split; [done|]. destruct (u_identity_key u); [by apply NoDup_cons in Hnd as [_ ?]|done]. }
  apply IH; [done| |].
  - intros k Hk. cbn [f_seen]. destruct (u_identity_key u) as [k'|]; [|auto].
    apply NoDup_cons in Hnd as [Hnot _]. rewrite set_insert_spec. intros [->|Hin]; [done|].
    by apply (Hnew k); [right|].
  - eapply (select_ok st (m_idx m) u (m_line m)); cbn [f_seen f_selected f_blocks_touched]; try done.
    + intros k Hk. rewrite Hk in Hnew. apply Hnew. by left.
    + intros k. destruct (u_identity_key u) as [k'|]; [rewrite set_insert_spec|]; naive_solver.
Qed.

Lemma fill_step_ok b r st i : fill_ok n st → fill_ok n (fill_step units b r st i).
Proof.
  intros Hok. unfold fill_step. destruct (units !! i) as [u|] eqn:Hu; [|done].
  destruct (match u_identity_key u with Some k => bool_decide (k ∈ f_seen st) | None => false end) eqn:Edup; [done|].
  set (st1 := match u_identity_key u with Some k => see k st | None => st end).
  assert (f_selected st1 = f_selected st ∧ f_blocks_touched st1 = f_blocks_touched st) as [Hsel Ht].
  { unfold st1. by destruct (u_identity_key u). }
  assert (∀ k, k ∈ f_seen st1 ↔ u_identity_key u = Some k ∨ k ∈ f_seen st) as Hseen.
  { intros k. unfold st1. destruct (u_identity_key u); cbn; [rewrite elem_of_cons|]; naive_solver. }
  assert (∀ st', f_selected st' = f_selected st1 → f_blocks_touched st' = f_blocks_touched st1 →
            f_seen st' = f_seen st1 → fill_ok n st') as Hskip.
  { intros st' H1 H2 H3. eapply skip_ok; [exact Hok|congruence|congruence|].
    intros k Hk. rewrite H3. apply Hseen. by right. }
  assert (fill_ok n (omit_identity u st1)) as Homit by (unfold omit_identity; destruct (u_is_identity u); by apply Hskip).
  clearbody st1. destruct (candidate u _ _) as [line|] eqn:Ec; [|done]. destruct (b <? _); [done|].
  eapply (select_ok st i u line); cbn [f_seen f_selected f_blocks_touched]; try done; [by eapply candidate_prefix| |congruence|congruence].
  intros k Hk. rewrite Hk in Edup. by apply bool_decide_eq_false in Edup.
Qed.

Lemma fill_all_ok b : fill_ok n (fill units b).
Proof.
  unfold fill. apply (foldl_inv (fill_ok n)); [intros st i Hst; by apply fill_step_ok|].
  apply place_all_ok; [apply mandatory_lines_ok|cbn; set_solver|].
  split; cbn; [|..|by rewrite length_replicate|split; [constructor|set_solver]].
  all: intros *; rewrite lookup_replicate; naive_solver.
Qed.
End packing.

(** *** From units to text *)

(** The selected units with their lines, in order. *)
Definition chosen (units : list Unit_) (sel : list (option string)) : list (Unit_ * string) :=
  omap (λ '(u, o), (λ l, (u, l)) <$> o) (zip units sel).

Lemma chosen_sublist units sel : (chosen units sel).*1 `sublist_of` units.
Proof.
  revert sel. induction units as [|u units IH]; intros [|[l|] sel]; unfold chosen; cbn; try apply sublist_nil_l.
  - apply sublist_skip, IH.
  - apply sublist_cons, IH.
Qed.
Lemma chosen_lines units sel : length sel = length units → (chosen units sel).*2 = omap id sel.
Proof.
  revert sel. induction units as [|u units IH]; intros [|[l|] sel] Hlen; try done; unfold chosen; cbn.
  - f_equal. apply IH. by injection Hlen.
  - apply IH. by injection Hlen.
Qed.
Lemma chosen_elem units sel u l :
  (u, l) ∈ chosen units sel → ∃ i, units !! i = Some u ∧ sel !! i = Some (Some l).
Proof.
  unfold chosen. intros ([u' o] & Hin & Ho)%list_elem_of_omap. destruct o as [l'|]; [|done].
  cbn in Ho. injection Ho as -> ->. apply list_elem_of_lookup_1 in Hin as [i Hi].
  apply lookup_zip_with_Some in Hi as (x & y & [= -> ->] & ? & ?). eauto.
Qed.
Lemma chosen_keys units sel :
  (∀ i j u u' l l' k, units !! i = Some u → units !! j = Some u' → sel !! i = Some (Some l) →
     sel !! j = Some (Some l') → u_identity_key u = Some k → u_identity_key u' = Some k → i = j) →
  NoDup (omap u_identity_key (chosen units sel).*1).
Proof.
  revert sel. induction units as [|u units IH]; intros [|o sel] Hinj; try by constructor.
  assert (NoDup (omap u_identity_key (chosen units sel).*1)) as Hrest.
  { apply IH. intros i j u1 u2 l l' k H1 H2 H3 H4 H5 H6.
    assert (S i = S j) as Hij by (by eapply (Hinj (S i) (S j))). by injection Hij. }
  destruct o as [l|]; [|exact Hrest]. unfold chosen. cbn. destruct (u_identity_key u) as [k|] eqn:Ek; [|exact Hrest].
  apply NoDup_cons. split; [|exact Hrest].
  intros (u' & Hu' & Hk')%list_elem_of_omap. apply list_elem_of_fmap in Hu' as ([u1 l1] & -> & Hin).
  apply chosen_elem in Hin as (i & Hi & Hsel). cbn in Hk'. by pose proof (Hinj O (S i) u u1 l l1 k eq_refl Hi eq_refl Hsel Ek Hk').
Qed.

Lemma bump_lookup i j units u :
  bump i units !! j = Some u →
  ∃ u0, units !! j = Some u0 ∧ u_line u = u_line u0 ∧ u_block_idx u = u_block_idx u0 ∧
        u_identity_key u = u_identity_key u0.
Proof.
  unfold bump. destruct (decide (i = j)) as [->|Hne].
  - rewrite list_lookup_alter_eq. intros (u0 & Hu0 & ->)%fmap_Some. by exists u0.
  - rewrite list_lookup_alter_ne by done. eauto.
Qed.
Lemma ranked_lookup blocks j u :
  ranked_units blocks !! j = Some u →
  ∃ u0, units_of blocks !! j = Some u0 ∧ u_line u = u_line u0 ∧ u_block_idx u = u_block_idx u0 ∧
        u_identity_key u = u_identity_key u0.
Proof.
  unfold ranked_units. generalize (mandatory_idxs (units_of blocks)) as ids. intros ids. revert u.
  induction ids as [|i ids IH]; intros u; cbn [foldr]; [eauto|].
  intros (u1 & Hu1 & -> & -> & ->)%bump_lookup. by apply IH.
Qed.

Lemma elem_of_concat_imap {A B} (f : nat → A → list B) l x :
  x ∈ concat (imap f l) → ∃ i a, l !! i = Some a ∧ x ∈ f i a.
Proof.
  rewrite list_elem_of_In, in_concat. intros (y & Hy%list_elem_of_In & Hx%list_elem_of_In).
  apply elem_of_lookup_imap_1 in Hy as (i & a & -> & Ha). eauto.
Qed.

(** A unit is a line of a block without its trailing white space. *)
Lemma units_of_elem blocks u :
  u ∈ units_of blocks →
  (u_block_idx u < length blocks)%nat ∧
  ∃ b raw, b ∈ blocks ∧ raw ∈ lines (bytes b) ∧ bytes (u_line u) `prefix_of` raw.
Proof.
  intros (i & b & Hb & Hu)%elem_of_concat_imap. unfold units_of_block in Hu.
  apply elem_of_concat_imap in Hu as (j & raw & Hraw & Hu). unfold unit_of_line in Hu.
  destruct (is_empty _); [by apply elem_of_nil in Hu|]. apply list_elem_of_singleton in Hu as ->. cbn. split.
  - by eapply lookup_lt_Some.
  - exists b, raw. split_and!; [by eapply list_elem_of_lookup_2..|]. rewrite bytes_of_bytes. apply trim_end_rev_prefix.
Qed.

Lemma fill_ranked_ok blocks b : fill_ok (ranked_units blocks) (length blocks) (fill (ranked_units blocks) b).
Proof.
  apply fill_all_ok. intros i u (u0 & Hu0 & _ & -> & _)%ranked_lookup.
  apply list_elem_of_lookup_2 in Hu0. by apply units_of_elem in Hu0 as [? _].
Qed.

Lemma prefix_str_app s t t' : prefix_str t t' → prefix_str (s +:+ t) (s +:+ t').
Proof. rewrite !bytes_app. apply prefix_app. Qed.

(** What a filled state selects: units in order, lines cut from them and so from the
    blocks, no identity twice. *)
Lemma selection_sound blocks st :
  let units := ranked_units blocks in
  let us := (chosen units (f_selected st)).*1 in
  let ls := omap id (f_selected st) in
  fill_ok units (length blocks) st →
  us `sublist_of` units ∧ Forall2 (λ l u, prefix_str l (u_line u)) ls us ∧ NoDup (omap u_identity_key us) ∧
  Forall (λ l, ∃ b raw, b ∈ blocks ∧ raw ∈ lines (bytes b) ∧ bytes l `prefix_of` raw) ls.
Proof.
  intros units us ls [Hfrom _ Hkeys Hlen _].
  assert ((chosen units (f_selected st)).*2 = ls) as Hls by (by apply chosen_lines).
  assert (Forall (λ ul : Unit_ * string, prefix_str ul.2 (u_line ul.1) ∧ ul.1 ∈ units) (chosen units (f_selected st))) as Hall.
  { apply Forall_forall. intros [u l] (i & Hu & Hs)%chosen_elem. cbn.
    destruct (Hfrom i l Hs) as (u' & Hu' & Hp). rewrite Hu in Hu'. injection Hu' as <-.
    split; [done|]. by eapply list_elem_of_lookup_2. }
  split_and!; [apply chosen_sublist|..].
  - rewrite <-Hls. unfold us. clear -Hall. induction Hall as [|[u l] c [Hp _] _ IH]; constructor; done.
  - apply chosen_keys. intros i j u u' l l' k Hu Hu' Hs Hs' Hk Hk'.
    eapply (Hkeys i j l l' k); try done; unfold key_at; [by rewrite Hu|by rewrite Hu'].
  - rewrite <-Hls. apply Forall_fmap. eapply Forall_impl; [exact Hall|]. intros [u l] [Hp Hin]. cbn in *.
    apply list_elem_of_lookup_1 in Hin as [i Hi]. apply ranked_lookup in Hi as (u0 & Hu0 & Hl & _).
    apply list_elem_of_lookup_2, units_of_elem in Hu0 as (_ & b & raw & Hb' & Hraw & Hpre).
    exists b, raw. split_and!; [done..|]. etransitivity; [exact Hp|]. by rewrite Hl.
Qed.

(** C23. Packing under pressure neither invents nor repeats evidence: when the blocks
    exceed the budget, the packed text is within it, is made (up to its end) of
    lines that are prefixes of lines of the blocks, in their order, no two with the
    same identity, and of the host's note on what was left out; and every block
    counts as included or omitted. *)
Theorem packed_lines_are_evidence blocks budget :
  0 < budget → budget < total_chars blocks →
  let p := pack_linked_evidence_blocks blocks budget in
  char_len (pe_text p) ≤ budget ∧
  pe_included_blocks p + pe_omitted_blocks p = zlen blocks ∧
  ∃ us ls footer,
    us `sublist_of` ranked_units blocks ∧ Forall2 (λ l u, bytes l `prefix_of` bytes (u_line u)) ls us ∧
    NoDup (omap u_identity_key us) ∧
    Forall (λ l, ∃ b raw, b ∈ blocks ∧ raw ∈ lines (bytes b) ∧ bytes l `prefix_of` raw) ls ∧
    bytes footer `prefix_of` bytes (omit_footer (pe_omitted_blocks p) (pe_omitted_chars p)
      (pe_identity_lines_omitted p) (pe_identity_lines_included p)) ∧
    bytes (pe_text p) `prefix_of` bytes (join NL ls +:+ footer).
Proof.
  intros Hb Htot. unfold pack_linked_evidence_blocks.
  rewrite bool_decide_eq_false_2 by (intros ->; cbn in Htot; lia).
  rewrite (proj2 (Z.eqb_neq budget 0)) by lia. cbn [orb].
  rewrite (proj2 (Z.leb_gt (total_chars blocks) budget)) by lia.
  unfold pack_ranked. set (units := ranked_units blocks). pose proof (fill_ranked_ok blocks (body_budget_of budget)) as Hok.
  fold units in Hok. set (st := fill units _) in *. clearbody st. destruct (fo_touched _ _ _ Hok) as [Hnd Hbl].
  cbn zeta. cbn [pe_text pe_included_blocks pe_omitted_blocks pe_omitted_chars pe_identity_lines_omitted
                 pe_identity_lines_included].
  set (footer_args := omit_footer _ _ _ _). set (lines_ := omap id (f_selected st)).
  set (noted := if (_ || _ || _) then _ else join NL lines_).
  assert (∃ footer, prefix_str footer footer_args ∧ noted = join NL lines_ +:+ footer) as (footer & Hfoot & Hnoted).
  { unfold noted. destruct (_ || _ || _); [destruct (32 <? _)|].
    - eexists. split; [apply truncate_chars_prefix|reflexivity].
    - exists EmptyString. split; [apply prefix_nil|by rewrite str_app_nil_r].
    - exists EmptyString. split; [apply prefix_nil|by rewrite str_app_nil_r]. }
  clearbody noted. split_and!.
  - destruct (budget <? char_len noted) eqn:E; [apply truncate_chars_len; lia|lia].
  - assert (length (f_blocks_touched st) ≤ length blocks)%nat; [|unfold zlen; lia].
    transitivity (length (seq 0 (length blocks))); [|by rewrite length_seq].
    apply submseteq_length, NoDup_submseteq; [done|].
    intros x Hx. apply elem_of_seq. apply Hbl in Hx. lia.
  - destruct (selection_sound blocks st Hok) as (H1 & H2 & H3 & H4).
    exists (chosen units (f_selected st)).*1, lines_, footer. split_and!; [done..|].
    destruct (budget <? char_len noted); [|by rewrite Hnoted].
    etransitivity; [apply truncate_chars_prefix|by rewrite Hnoted].
Qed.

Lemma join_cons sep s t l : join sep (s :: t :: l) = join sep ((s +:+ sep +:+ t) :: l).
Proof. done. Qed.
Lemma join_len sep l : char_len (join sep l) ≤ total_chars l + char_len sep * Z.max 0 (zlen l - 1).
Proof.
  destruct l as [|s l].
  { replace (Z.max 0 (zlen (@nil string) - 1)) with 0 by done. change (0 ≤ 0 + char_len sep * 0). lia. }
  revert s. induction l as [|t l IH]; intros s.
  - replace (Z.max 0 (zlen [s] - 1)) with 0 by done.
    change (char_len s ≤ char_len s + 0 + char_len sep * 0). lia.
  - rewrite join_cons. etransitivity; [apply IH|]. pose proof (char_len_app s (sep +:+ t)).
    pose proof (char_len_app sep t). unfold total_chars. cbn [fmap list_fmap foldr]. rewrite !zlen_cons.
    pose proof (zlen_nonneg l). rewrite !Z.max_r by lia. lia.
Qed.

(** When the blocks fit they are sent as they are, separators included: the
    text exceeds the evidence budget by at most two characters a block, and the
    separators are not in the reported number of characters. *)
Theorem complete_evidence_overhead blocks budget :
  blocks ≠ [] → 0 < budget → total_chars blocks ≤ budget →
  let p := pack_linked_evidence_blocks blocks budget in
  pe_text p = join (NL +:+ NL) blocks ∧ pe_omitted_chars p = 0 ∧ pe_included_chars p = total_chars blocks ∧
  char_len (pe_text p) ≤ budget + 2 * (zlen blocks - 1).
Proof.
  intros Hne Hb Hfit. unfold pack_linked_evidence_blocks. rewrite bool_decide_eq_false_2 by done.
  rewrite (proj2 (Z.eqb_neq budget 0)) by lia. cbn [orb]. rewrite (proj2 (Z.leb_le _ _) Hfit). cbn zeta.
  cbn [pe_text pe_omitted_chars pe_included_chars]. split_and!; [done..|].
  pose proof (join_len (NL +:+ NL) blocks) as H. change (char_len (NL +:+ NL)) with 2 in H.
  assert (0 < zlen blocks) by (destruct blocks; [done|unfold zlen; cbn; lia]). lia.
Qed.

(** The packer can exceed its budget, and can lose the citation it counts:
    three two-character blocks under a budget of six make a text of ten, and two
    long lines whose identities come last are reported as two identities kept and
    none omitted while one of them, or both, are cut away. *)
Theorem packer_overruns_and_miscounts :
  char_len (pe_text (pack_linked_evidence_blocks ["ab"; "cd"; "ef"] 6)) = 10 ∧
  (let line c s := "msg=" +:+ repeat_str 200 c +:+ s in
   let blocks := [line "x" " seq=1 source=a.log"; line "y" " seq=2 source=b.log"] in
   let p := pack_linked_evidence_blocks blocks 256 in
   pe_identity_lines_included p = 2 ∧ pe_identity_lines_omitted p = 0 ∧ count_identity_lines (pe_text p) = 0).
Proof. vm_compute. done. Qed.

(** ** Witnesses *)

Definition demo_blocks : list string :=
  ["seq=1 source=a.log " +:+ repeat_str 300 "x"; "seq=2 source=b.log y"; "seq=2 source=b.log again"].

Lemma packed_lines_are_evidence_witness :
  0 < 300 ∧ 300 < total_chars demo_blocks ∧
  char_len (pe_text (pack_linked_evidence_blocks demo_blocks 300)) ≤ 300.
Proof.
  assert (0 < 300) as H1 by done. assert (300 < total_chars demo_blocks) as H2 by (by vm_compute).
  split; [exact H1|]. split; [exact H2|]. apply (packed_lines_are_evidence demo_blocks 300 H1 H2).
Defined.

Lemma complete_evidence_overhead_witness :
  char_len (pe_text (pack_linked_evidence_blocks ["ab"; "cd"; "ef"] 6)) ≤ 6 + 2 * 2.
Proof.
  apply (complete_evidence_overhead ["ab"; "cd"; "ef"] 6); [discriminate|done|by vm_compute].
Defined.
