(* ===== verification/LinkedContext.v ===== *)
(** * Linked synthesis requests and per-model budgets

    What [crates/cd-core/src/agent.rs] does with host evidence in a linked turn: the
    buffer of the current turn ([CurrentTurnEvidence]), the request of a round
    ([linked_round_model_context]) and its telemetry
    ([crates/cd-core/src/context_budgeting.rs]); and the budgets
    [crates/cd-core/src/model_context.rs] declares or learns for a model. *)
From Stdlib Require Import ZArith Lia Ascii String.
From stdpp Require Import base tactics option list list_numbers sets gmap strings.
From S2P Require Import Prelude RustStr Text Context EvidencePack.

Local Open Scope string_scope.
Local Open Scope list_scope.
Local Open Scope Z_scope.

(** ** The evidence of the current turn *)

Definition CURRENT_TURN_EVIDENCE_BYTES : Z := 262144.
Record CurrentTurnEvidence := { cte_blocks : list string; cte_bytes : Z }.
Definition cte_empty : CurrentTurnEvidence := {| cte_blocks := []; cte_bytes := 0 |}.

Definition cte_push (block : string) (e : CurrentTurnEvidence) : CurrentTurnEvidence :=
  if is_empty block || (CURRENT_TURN_EVIDENCE_BYTES <=? cte_bytes e) then e
  else
    let separator := if bool_decide (cte_blocks e = []) then 0 else 2 in
    let available := Z.max 0 (Z.max 0 (CURRENT_TURN_EVIDENCE_BYTES - cte_bytes e) - separator) in
    if available =? 0 then e
    else
      let fin := floor_char_boundary block (Z.to_nat available) in
      if bool_decide (fin = O) then e
      else {| cte_blocks := cte_blocks e ++ [of_bytes (take fin (bytes block))];
              cte_bytes := cte_bytes e + (Z.of_nat fin + separator) |}.
Definition cte_render (e : CurrentTurnEvidence) : string := join (NL +:+ NL) (cte_blocks e).

(** ** Capacity and telemetry *)

Inductive ContextBudgetSource := SourceDefault | SourceDeclared | SourceLearned.
#[export] Instance ContextBudgetSource_eq_dec : EqDecision ContextBudgetSource.
Proof. solve_decision. Defined.
Inductive CapacitySourceLabel := CapDefault | CapConfigured | CapDeclared | CapLearned | CapUnknownConfigured.
Definition capacity_as_str (c : CapacitySourceLabel) : string :=
  match c with
  | CapDefault => "default" | CapConfigured => "configured" | CapDeclared => "declared"
  | CapLearned => "learned" | CapUnknownConfigured => "unknown_configured"
  end.
Definition from_budget_source (source : ContextBudgetSource) (capacity_unknown : bool) : CapacitySourceLabel :=
  if capacity_unknown then CapUnknownConfigured
  else match source with
       | SourceDefault => CapDefault | SourceDeclared => CapDeclared | SourceLearned => CapLearned
       end.
Definition linked_capacity_source (context_char_budget : Z) : CapacitySourceLabel :=
  if context_char_budget =? DEFAULT_CONTEXT_CHAR_BUDGET then from_budget_source SourceDefault true
  else CapConfigured.

Record ContextBudgetTelemetry := {
  t_model_round : Z;
  t_hard_budget_chars : Z;
  t_packing_budget_chars : Z;
  t_reserved_headroom_chars : Z;
  t_used_chars_estimate : Z;
  t_free_chars_estimate : Z;
  t_evidence_pre_pack_chars : Z;
  t_evidence_included_chars : Z;
  t_evidence_omitted_blocks : Z;
  t_evidence_omitted_chars : Z;
  t_evidence_identity_lines_included : Z;
  t_evidence_identity_lines_omitted : Z;
  t_history_retained_messages : Z;
  t_history_omitted_messages : Z;
  t_history_compacted : bool;
  t_provider_capacity_source : CapacitySourceLabel;
  t_useful_headroom : bool;
}.

Record TelemetryParts := {
  tp_model_round : Z;
  tp_hard_budget_chars : Z;
  tp_packing_budget_chars : Z;
  tp_used_chars_estimate : Z;
  tp_evidence_pre_pack_chars : Z;
  tp_packed : PackedLinkedEvidence;
  tp_history_retained_messages : Z;
  tp_history_omitted_messages : Z;
  tp_history_compacted : bool;
  tp_provider_capacity_source : CapacitySourceLabel;
}.

Definition telemetry_from_parts (p : TelemetryParts) : ContextBudgetTelemetry :=
  {| t_model_round := tp_model_round p;
     t_hard_budget_chars := tp_hard_budget_chars p;
     t_packing_budget_chars := tp_packing_budget_chars p;
     t_reserved_headroom_chars := Z.max 0 (tp_hard_budget_chars p - tp_packing_budget_chars p);
     t_used_chars_estimate := tp_used_chars_estimate p;
     t_free_chars_estimate := Z.max 0 (tp_hard_budget_chars p - tp_used_chars_estimate p);
     t_evidence_pre_pack_chars := tp_evidence_pre_pack_chars p;
     t_evidence_included_chars := pe_included_chars (tp_packed p);
     t_evidence_omitted_blocks := pe_omitted_blocks (tp_packed p);
     t_evidence_omitted_chars := pe_omitted_chars (tp_packed p);
     t_evidence_identity_lines_included := pe_identity_lines_included (tp_packed p);
     t_evidence_identity_lines_omitted := pe_identity_lines_omitted (tp_packed p);
     t_history_retained_messages := tp_history_retained_messages p;
     t_history_omitted_messages := tp_history_omitted_messages p;
     t_history_compacted := tp_history_compacted p;
     t_provider_capacity_source := tp_provider_capacity_source p;
     t_useful_headroom := has_useful_context_headroom (tp_used_chars_estimate p) (tp_hard_budget_chars p) |}.

Definition bool_str (b : bool) : string := if b then "true" else "false".
Definition trail_step (t : ContextBudgetTelemetry) : string :=
  "context_budget:round=" +:+ decimal (t_model_round t) +:+ ",used=" +:+ decimal (t_used_chars_estimate t) +:+
  ",budget=" +:+ decimal (t_hard_budget_chars t) +:+ ",hard=" +:+ decimal (t_hard_budget_chars t) +:+
  ",packing_budget=" +:+ decimal (t_packing_budget_chars t) +:+ ",packing=" +:+ decimal (t_packing_budget_chars t) +:+
  ",headroom=" +:+ decimal (t_free_chars_estimate t) +:+ ",reserved=" +:+ decimal (t_reserved_headroom_chars t) +:+
  ",evidence_pre_pack=" +:+ decimal (t_evidence_pre_pack_chars t) +:+
  ",evidence_included=" +:+ decimal (t_evidence_included_chars t) +:+
  ",evidence_omitted_blocks=" +:+ decimal (t_evidence_omitted_blocks t) +:+
  ",evidence_omitted_chars=" +:+ decimal (t_evidence_omitted_chars t) +:+
  ",evidence_identity_included=" +:+ decimal (t_evidence_identity_lines_included t) +:+
  ",evidence_identity_omitted=" +:+ decimal (t_evidence_identity_lines_omitted t) +:+
  ",history_retained=" +:+ decimal (t_history_retained_messages t) +:+
  ",history_omitted=" +:+ decimal (t_history_omitted_messages t) +:+
  ",history_compacted=" +:+ bool_str (t_history_compacted t) +:+
  ",capacity_source=" +:+ capacity_as_str (t_provider_capacity_source t) +:+
  ",useful_headroom=" +:+ bool_str (t_useful_headroom t).

(** ** How much of the history a request kept *)

Definition role_as_str (r : Role) : string :=
  match r with RoleSystem => "system" | RoleUser => "user" | RoleAssistant => "assistant" | RoleTool => "tool" end.
Definition bag_key (m : ChatMessage) : string * string := (role_as_str (msg_role m), msg_content m).
Definition bag_count (bag : gmap (string * string) nat) (k : string * string) : nat := default O (bag !! k).
Definition bag_add (k : string * string) (bag : gmap (string * string) nat) : gmap (string * string) nat :=
  <[k := S (bag_count bag k)]> bag.

(** The index of the last message the current request could be. *)
Fixpoint last_user_idx (text : string) (i : nat) (ms : list ChatMessage) : option nat :=
  match ms with
  | [] => None
  | m :: ms =>
      match last_user_idx text (S i) ms with
      | Some j => Some j
      | None => if is_role RoleUser m && bool_decide (msg_content m = text) then Some i else None
      end
  end.
Definition counted (skip : option nat) (i : nat) (m : ChatMessage) : bool :=
  negb (is_role RoleSystem m) && negb (bool_decide (Some i = skip)) &&
  negb (starts_with "HOST-RETURNED BOUNDED EVIDENCE" (msg_content m)).
Definition prepared_bag (prepared : list ChatMessage) (current_user_text : string) : gmap (string * string) nat :=
  let skip := last_user_idx current_user_text 0 prepared in
  foldl (λ bag m, bag_add (bag_key m) bag) ∅
    (concat (imap (λ i m, if counted skip i m then [m] else []) prepared)).
Fixpoint retain (bag : gmap (string * string) nat) (prior : list ChatMessage) : Z :=
  match prior with
  | [] => 0
  | m :: prior =>
      match bag !! bag_key m with
      | Some (S c) => 1 + retain (<[bag_key m := c]> bag) prior
      | _ => retain bag prior
      end
  end.
Definition count_prior_history_retention (prior_history prepared : list ChatMessage) (current_user_text : string) :
    Z * Z * bool :=
  let prior := List.filter (λ m, negb (is_role RoleSystem m)) prior_history in
  let retained := retain (prepared_bag prepared current_user_text) prior in
  let compacted :=
    existsb (λ m, contains "[earlier conversation compacted]" (msg_content m) ||
                  contains "compacted for model context" (msg_content m)) prepared in
  (retained, Z.max 0 (zlen prior - retained), compacted).

(** ** The request of a round *)

Definition linked_safe_prior_history (history : list ChatMessage) : list ChatMessage :=
  List.filter (λ m, negb (is_role RoleTool m) &&
                    negb (is_role RoleAssistant m &&
                          match msg_tool_calls m with Some (_ :: _) => true | _ => false end)) history.

Definition compact_correction_package (base_system user_text : string) (evidence_blocks : list string)
    (packing_budget_chars : Z) : string * string * PackedLinkedEvidence :=
  let correction_system :=
    base_system +:+ NL +:+
    "PRIOR DRAFT REJECTED: its citation syntax was missing, malformed, or did not match " +:+
    "the bounded evidence. Return only a concise corrected analysis. DO NOT emit seq=, " +:+
    "source=, template_id=, bracketed citations, or an evidence list; ContextDesk will " +:+
    "attach the exact host-verified event identities. Use only the compact evidence " +:+
    "package below " +:+ of_bytes ["226"; "128"; "148"]%char +:+ " do not assume omitted rows." in
  let overhead := char_len correction_system + char_len user_text + 512 in
  let evidence_budget := Z.max (Z.max 0 (packing_budget_chars - overhead)) 512 in
  let tight := Z.max (Z.min evidence_budget (packing_budget_chars / 3)) 400 in
  (correction_system, user_text, pack_linked_evidence_blocks evidence_blocks tight).

Record LinkedRoundContextArgs := {
  lr_prior_history : list ChatMessage;
  lr_system : string;
  lr_user_text : string;
  lr_evidence : CurrentTurnEvidence;
  lr_packing_budget : Z;
  lr_hard_budget : Z;
  lr_capacity_source : CapacitySourceLabel;
  lr_compact_correction : bool;
  lr_require_full_evidence : bool;
  lr_model_round : Z;
}.

(** The whole evidence, as it was returned. *)
Definition full_evidence (e : CurrentTurnEvidence) : PackedLinkedEvidence :=
  let text := cte_render e in
  {| pe_text := text; pe_included_blocks := zlen (cte_blocks e); pe_omitted_blocks := 0;
     pe_included_chars := char_len text; pe_omitted_chars := 0;
     pe_identity_lines_included :=
       zlen (List.filter (λ l, let lower := to_ascii_lowercase (of_bytes l) in
                               contains "seq=" lower && contains "source" lower) (lines (bytes text)));
     pe_identity_lines_omitted := 0 |}.

Definition prepare (ms : list ChatMessage) (budget : Z) : option (result ContextBudgetError PreparedModelContext) :=
  prepare_model_context ms (Z.max (zlen ms) 1) budget.

(** The evidence of the round: packed for a correction, whole, or packed into what
    the other messages leave. [None] is a panic. *)
Definition round_evidence (a : LinkedRoundContextArgs) (history : list ChatMessage) :
    option (result ContextBudgetError (string * string * PackedLinkedEvidence)) :=
  let budget := lr_packing_budget a in
  if lr_compact_correction a
  then Some (Ok (compact_correction_package (lr_system a) (lr_user_text a) (cte_blocks (lr_evidence a)) budget))
  else if lr_require_full_evidence a then Some (Ok (lr_system a, lr_user_text a, full_evidence (lr_evidence a)))
  else
    let probe := plain_message RoleSystem (lr_system a) :: history ++ [plain_message RoleUser (lr_user_text a)] in
    fitted ← prepare probe (Z.max (Z.max 0 (budget - 256)) 64);
    match fitted with
    | Err e => Some (Err e)
    | Ok fitted =>
        let overhead := estimate_context_chars (pmc_messages fitted) in
        let evidence_budget := Z.max (Z.max 0 (Z.max 0 (budget - overhead) - 128)) 256 in
        Some (Ok (lr_system a, lr_user_text a, pack_linked_evidence_blocks (cte_blocks (lr_evidence a)) evidence_budget))
    end.

Definition EVIDENCE_PREAMBLE : string :=
  "HOST-RETURNED BOUNDED EVIDENCE " +:+ of_bytes ["226"; "128"; "148"]%char +:+ " current turn only:" +:+ NL.

Definition linked_round_model_context (a : LinkedRoundContextArgs) :
    option (result ContextBudgetError (list ChatMessage * ContextBudgetTelemetry)) :=
  let history := List.filter (λ m, negb (is_role RoleSystem m)) (lr_prior_history a) in
  ev ← round_evidence a history;
  match ev with
  | Err e => Some (Err e)
  | Ok (system_final, user_final, packed) =>
      let safe :=
        plain_message RoleSystem system_final :: history ++ [plain_message RoleUser user_final] ++
        (if is_empty (pe_text packed) then []
         else [plain_message RoleUser (EVIDENCE_PREAMBLE +:+ pe_text packed)]) in
      prepared ← prepare safe (lr_packing_budget a);
      match prepared with
      | Err e => Some (Err e)
      | Ok prepared =>
          let '(retained, omitted, marker) :=
            count_prior_history_retention (lr_prior_history a) (pmc_messages prepared) (lr_user_text a) in
          Some (Ok (pmc_messages prepared,
            telemetry_from_parts
              {| tp_model_round := lr_model_round a; tp_hard_budget_chars := lr_hard_budget a;
                 tp_packing_budget_chars := lr_packing_budget a;
                 tp_used_chars_estimate := estimate_context_chars (pmc_messages prepared);
                 tp_evidence_pre_pack_chars := total_chars (cte_blocks (lr_evidence a));
                 tp_packed := packed;
                 tp_history_retained_messages := retained; tp_history_omitted_messages := omitted;
                 tp_history_compacted := pmc_compacted prepared || pmc_truncated prepared || marker;
                 tp_provider_capacity_source := lr_capacity_source a |}))
      end
  end.

(** ** Budgets per model *)

Definition MAX_CONTEXT_CHAR_BUDGET : Z := 480000.
Definition clamp_budget (n : Z) : Z := clamp MIN_CONTEXT_CHAR_BUDGET MAX_CONTEXT_CHAR_BUDGET n.
Definition tokens_to_char_budget (tokens : Z) : Z :=
  if tokens =? 0 then DEFAULT_CONTEXT_CHAR_BUDGET
  else
    let chars := saturating_mul u64_max tokens 7 / 2 in
    let with_headroom := saturating_mul u64_max chars 90 / 100 in
    clamp_budget with_headroom.

Record ModelContextBudgetEntry := {
  be_budget_chars : Z;
  be_source : ContextBudgetSource;
  be_updated_at : Z;
  be_last_error_note : option string;
}.
Definition now_entry (now budget_chars : Z) (source : ContextBudgetSource) (note : option string) :
    ModelContextBudgetEntry :=
  {| be_budget_chars := clamp_budget budget_chars; be_source := source; be_updated_at := now;
     be_last_error_note := note |}.
Abbreviation ModelContextBudgets := (gmap string ModelContextBudgetEntry).

(** [model_id.map(str::trim).filter(|s| !s.is_empty())] *)
Definition model_key (model_id : option string) : option string :=
  id ← model_id; if is_empty (trim id) then None else Some (trim id).
Definition resolve (b : ModelContextBudgets) (model_id : option string) : Z :=
  match model_key model_id with
  | None => DEFAULT_CONTEXT_CHAR_BUDGET
  | Some id => match b !! id with Some e => clamp_budget (be_budget_chars e) | None => DEFAULT_CONTEXT_CHAR_BUDGET end
  end.

Definition note_declared_tokens (now : Z) (model_id : string) (tokens : Z) (b : ModelContextBudgets) :
    ModelContextBudgets :=
  let id := trim model_id in
  if is_empty id || (tokens =? 0) then b
  else
    let declared := tokens_to_char_budget tokens in
    let entry := now_entry now declared SourceDeclared None in
    match b !! id with
    | Some e =>
        if bool_decide (be_source e = SourceLearned) && (be_budget_chars e <? declared) then b
        else if be_budget_chars e =? declared then b
        else <[id := entry]> b
    | None => <[id := entry]> b
    end.

Definition truncate_note (s : string) : string :=
  let t := trim s in if char_len t <=? 200 then t else take_chars 197 t +:+ ELLIPSIS.

Definition learn_from_context_error (now : Z) (model_id : option string) (chars_sent : Z) (error_note : string)
    (b : ModelContextBudgets) : ModelContextBudgets * option Z :=
  match model_key model_id with
  | None => (b, None)
  | Some id =>
      let target := clamp_budget (Z.max (saturating_mul usize_max chars_sent 80 / 100) MIN_CONTEXT_CHAR_BUDGET) in
      let current := resolve b (Some id) in
      let new_budget := Z.max (Z.min target (Z.max 0 (current - 1))) MIN_CONTEXT_CHAR_BUDGET in
      match b !! id with
      | Some e =>
          if current <=? new_budget
          then (<[id := {| be_budget_chars := be_budget_chars e; be_source := SourceLearned; be_updated_at := now;
                           be_last_error_note := Some (truncate_note error_note) |}]> b, Some current)
          else (<[id := now_entry now new_budget SourceLearned (Some (truncate_note error_note))]> b, Some new_budget)
      | None =>
          (<[id := now_entry now new_budget SourceLearned (Some (truncate_note error_note))]> b, Some new_budget)
      end
  end.

(** ** The buffer of the turn *)

Lemma join_snoc sep l s : join sep (l ++ [s]) = (if bool_decide (l = []) then s else join sep l +:+ sep +:+ s).
Proof. destruct l as [|x l]; [done|]. cbn. by rewrite foldl_snoc. Qed.

Lemma floor_char_boundary_le s n : (floor_char_boundary s n ≤ n)%nat ∧ (floor_char_boundary s n ≤ length (bytes s))%nat.
Proof.
  unfold floor_char_boundary. destruct (floor_go_spec (bytes s) (Nat.min n (length (bytes s)))) as (H & _). lia.
Qed.

Definition cte_ok (e : CurrentTurnEvidence) : Prop :=
  str_len (cte_render e) = cte_bytes e ∧ 0 ≤ cte_bytes e ≤ CURRENT_TURN_EVIDENCE_BYTES ∧
  Forall (λ b, utf8_valid (bytes b) = true) (cte_blocks e).

Lemma cte_push_ok block e : utf8_valid (bytes block) = true → cte_ok e → cte_ok (cte_push block e).
Proof.
  intros Hv (Hlen & Hcap & Hutf). unfold cte_push. destruct (_ || _) eqn:E; [done|].
  set (sep := if bool_decide _ then 0 else 2). set (available := Z.max 0 _).
  destruct (available =? 0) eqn:Ea; [done|]. case_bool_decide as H0; [done|].
  destruct (floor_char_boundary_le block (Z.to_nat available)) as [Hf1 Hf2].
  set (fin := floor_char_boundary block _) in *. apply orb_false_iff in E as [_ E]. apply Z.leb_gt in E.
  assert (0 ≤ sep) by (unfold sep; case_bool_decide; lia).
  split_and!; cbn [cte_bytes cte_blocks].
  - unfold cte_render in *. cbn [cte_blocks]. rewrite join_snoc. unfold sep in *. case_bool_decide as Hnil.
    + rewrite Hnil in Hlen. cbn in Hlen. unfold str_len, zlen. rewrite bytes_of_bytes, length_take.
      change (str_len "") with 0 in Hlen. lia.
    + unfold str_len, zlen in *. rewrite !bytes_app, !length_app, bytes_of_bytes, length_take.
      change (length (bytes (NL +:+ NL))) with 2%nat. change (length (bytes NL)) with 1%nat. lia.
  - lia.
  - unfold CURRENT_TURN_EVIDENCE_BYTES in *. lia.
  - apply Forall_app. split; [done|]. repeat constructor. rewrite bytes_of_bytes. apply take_cut_utf8; [done|].
    apply cut_boundary. unfold fin, floor_char_boundary.
    by destruct (floor_go_spec (bytes block) (Nat.min (Z.to_nat available) (length (bytes block)))) as (_ & ? & _).
Qed.

(** The evidence of a turn is bounded and accounted for: whatever tools return,
    the buffer holds at most 256 KiB of valid UTF-8, and its byte counter is the
    length of what it renders. *)
Theorem turn_evidence_is_bounded blocks :
  Forall (λ b, utf8_valid (bytes b) = true) blocks →
  let e := foldl (λ e b, cte_push b e) cte_empty blocks in
  str_len (cte_render e) = cte_bytes e ∧ cte_bytes e ≤ CURRENT_TURN_EVIDENCE_BYTES ∧
  Forall (λ b, utf8_valid (bytes b) = true) (cte_blocks e).
Proof.
  intros Hb. cbn zeta. assert (cte_ok (foldl (λ e b, cte_push b e) cte_empty blocks)) as (? & ? & ?).
  { assert (cte_ok cte_empty) as H0 by (by split_and!; cbn). revert H0. generalize cte_empty as e.
    induction Hb as [|b blocks Hv _ IH]; intros e He; [done|]. cbn. by apply IH, cte_push_ok. }
  split_and!; [done|lia|done].
Qed.

(** ** A request keeps its headroom *)

Lemma packing_budget_reserves hard used :
  0 < hard → used ≤ synthesis_packing_budget hard → has_useful_context_headroom used hard = true.
Proof.
  intros Hh Hu. unfold synthesis_packing_budget in Hu. rewrite (proj2 (Z.eqb_neq hard 0)) in Hu by lia.
  assert (0 ≤ hard / 10 ≤ hard / 2) as Hdiv.
  { split; [by apply Z.div_pos; lia|]. apply Z.div_le_compat_l; lia. }
  assert (hard / 2 ≤ hard) by (apply Z.div_le_upper_bound; lia).
  unfold has_useful_context_headroom, SYNTHESIS_CONTEXT_HEADROOM_CHARS in *.
  rewrite (proj2 (Z.eqb_neq hard 0)) by lia. rewrite (proj2 (Z.ltb_ge hard used)) by lia. cbn [orb].
  apply orb_true_iff. left. apply Z.leb_le. lia.
Qed.

Definition no_tools (ms : list ChatMessage) : Prop := Forall (λ m, is_role RoleTool m = false) ms.
Lemma no_tools_shape a b : shape <$> a = shape <$> b → no_tools a → no_tools b.
Proof.
  revert b. induction a as [|m a IH]; intros [|m' b] Hs Ha; try done.
  apply Forall_cons in Ha as [Hm Ha]. unfold shape in Hs at 1 2. cbn in Hs. injection Hs as Hr _ _ Hs.
  constructor; [|by apply IH]. unfold is_role in *. by rewrite <-Hr.
Qed.

Lemma prepared_no_tools ms keep budget p :
  no_tools ms → prepare_model_context ms keep budget = Some (Ok p) → no_tools (pmc_messages p).
Proof.
  intros Hms (pre & s & kept & Hshape & -> & Hpre & _)%prepared_spec.
  eapply no_tools_shape; [symmetry; exact Hshape|]. apply omit_envelopes_sub. apply Forall_app. split.
  - eapply Forall_impl; [exact Hpre|]. intros m Hm. by apply system_not_tool in Hm as [? _].
  - by apply Forall_drop.
Qed.

Lemma linked_safe_no_tools h : no_tools (linked_safe_prior_history h).
Proof.
  apply Forall_forall. intros m [_ Hm]%elem_of_filter_bool. apply andb_true_iff in Hm as [Hm _].
  by apply negb_true_iff in Hm.
Qed.
Lemma no_tools_filter p ms : no_tools ms → no_tools (List.filter p ms).
Proof.
  unfold no_tools. rewrite !Forall_forall. intros H m [Hm _]%elem_of_filter_bool. auto.
Qed.

Lemma linked_round_inv a ms t :
  linked_round_model_context a = Some (Ok (ms, t)) →
  ∃ system user ev p,
    prepare (plain_message RoleSystem system ::
             List.filter (λ m, negb (is_role RoleSystem m)) (lr_prior_history a) ++
             [plain_message RoleUser user] ++ ev) (lr_packing_budget a) = Some (Ok p) ∧
    no_tools ev ∧ ms = pmc_messages p ∧ t_used_chars_estimate t = estimate_context_chars ms ∧
    t_useful_headroom t = has_useful_context_headroom (estimate_context_chars ms) (lr_hard_budget a).
Proof.
  unfold linked_round_model_context. intros (ev & Hev & H)%bind_Some. destruct ev as [[[sys user] packed]|]; [|done].
  apply bind_Some in H as (prep & Hprep & H). destruct prep as [p|]; [|done].
  destruct (count_prior_history_retention _ _ _) as [[r o] c].
  apply (inj Some), Ok_inj, pair_equal_spec in H as [<- <-].
  exists sys, user, (if is_empty (pe_text packed) then []
                     else [plain_message RoleUser (EVIDENCE_PREAMBLE +:+ pe_text packed)]), p.
  split_and!; [exact Hprep| |done..]. destruct (is_empty _); repeat constructor.
Qed.

(** A linked synthesis request never fills the window: when it is packed to the
    packing budget of the hard budget, what is sent is within that budget, the
    telemetry truthfully reports useful headroom, and no tool call or tool result of
    an earlier turn is replayed. *)
Theorem linked_request_keeps_headroom a history ms t :
  71 ≤ lr_hard_budget a → lr_packing_budget a = synthesis_packing_budget (lr_hard_budget a) →
  lr_prior_history a = linked_safe_prior_history history →
  linked_round_model_context a = Some (Ok (ms, t)) →
  estimate_context_chars ms ≤ lr_packing_budget a ∧ t_useful_headroom t = true ∧
  t_used_chars_estimate t = estimate_context_chars ms ∧ Forall (λ m, is_role RoleTool m = false) ms.
Proof.
  intros Hh Hp Hprior (sys & user & ev & p & Hprep & Hev & -> & Hused & Hroom)%linked_round_inv.
  unfold prepare in Hprep. assert (64 ≤ lr_packing_budget a) as H64.
  { rewrite Hp. unfold synthesis_packing_budget, SYNTHESIS_CONTEXT_HEADROOM_CHARS.
    rewrite (proj2 (Z.eqb_neq _ 0)) by lia.
    assert (lr_hard_budget a / 10 * 10 ≤ lr_hard_budget a) by (rewrite Z.mul_comm; apply Z.mul_div_le; lia). lia. }
  pose proof Hprep as (? & ? & ? & _ & _ & _ & _ & Hfit & _)%prepared_spec. rewrite Z.max_l in Hfit by lia.
  split_and!; [done| |done|].
  - rewrite Hroom. apply packing_budget_reserves; [lia|]. by rewrite <-Hp.
  - eapply prepared_no_tools; [|exact Hprep]. constructor; [done|]. apply Forall_app. split.
    + rewrite Hprior. apply no_tools_filter, linked_safe_no_tools.
    + by constructor.
Qed.

(** ** Learned budgets *)

Lemma clamp_budget_range n : MIN_CONTEXT_CHAR_BUDGET ≤ clamp_budget n ≤ MAX_CONTEXT_CHAR_BUDGET.
Proof. by apply clamp_bounds. Qed.
Lemma resolve_range b m : MIN_CONTEXT_CHAR_BUDGET ≤ resolve b m ≤ MAX_CONTEXT_CHAR_BUDGET.
Proof.
  unfold resolve. destruct (model_key m) as [id|]; [|done]. destruct (b !! id); [apply clamp_budget_range|done].
Qed.
Lemma model_key_trim m id : model_key m = Some id → model_key (Some id) = Some id.
Proof.
  unfold model_key. destruct m as [m|]; cbn [mbind option_bind]; [|done].
  destruct (is_empty (trim m)) eqn:E; [done|]. intros [= <-]. by rewrite trim_idem, E.
Qed.
Lemma resolve_insert b m id e :
  model_key m = Some id → resolve (<[id := e]> b) m = clamp_budget (be_budget_chars e).
Proof. intros Hm. unfold resolve. by rewrite Hm, lookup_insert_eq. Qed.
Lemma resolve_other b m m' id id' e :
  model_key m = Some id → model_key m' = Some id' → id ≠ id' → resolve (<[id := e]> b) m' = resolve b m'.
Proof. intros Hm Hm' Hne. unfold resolve. by rewrite Hm', lookup_insert_ne. Qed.

(** A catalogue does not loosen what was learned. *)
Lemma declaration_keeps_learned now model tokens b e :
  b !! trim model = Some e → be_source e = SourceLearned →
  resolve (note_declared_tokens now model tokens b) (Some model) ≤ resolve b (Some model).
Proof.
  intros He Hs. unfold note_declared_tokens. destruct (_ || _) eqn:E; [done|].
  apply orb_false_iff in E as [E _]. assert (model_key (Some model) = Some (trim model)) as Hm.
  { unfold model_key. cbn [mbind option_bind]. by rewrite E. }
  assert (resolve b (Some model) = clamp_budget (be_budget_chars e)) as ->.
  { unfold resolve. by rewrite Hm, He. }
  rewrite He, Hs. rewrite bool_decide_eq_true_2 by done. cbn [andb].
  destruct (be_budget_chars e <? _) eqn:El; [unfold resolve; by rewrite Hm, He|].
  destruct (_ =? _) eqn:Eq; [unfold resolve; by rewrite Hm, He|].
  rewrite (resolve_insert _ _ _ _ Hm). cbn [now_entry be_budget_chars].
  assert (∀ x y, x ≤ y → clamp_budget x ≤ clamp_budget y) as Hmono.
  { intros x y Hxy. unfold clamp_budget, clamp, MIN_CONTEXT_CHAR_BUDGET, MAX_CONTEXT_CHAR_BUDGET. repeat case_match; lia. }
  etransitivity; [apply Hmono, Hmono|]; [apply Z.ltb_ge; exact El|].
  unfold clamp_budget, clamp, MIN_CONTEXT_CHAR_BUDGET, MAX_CONTEXT_CHAR_BUDGET. repeat case_match; lia.
Qed.

(** A context-length error only ever tightens a model's budget: the budget it
    reports is the one the next request will use, is at least the floor, is strictly
    smaller than before unless the floor was reached, no other model's budget
    changes, and what a catalogue declares for the model afterwards does not loosen
    it. *)
Theorem context_errors_tighten_the_budget now model sent note b b' r id :
  model_key model = Some id → 0 ≤ sent →
  learn_from_context_error now model sent note b = (b', r) →
  r = Some (resolve b' model) ∧ MIN_CONTEXT_CHAR_BUDGET ≤ resolve b' model ∧
  (resolve b' model < resolve b model ∨ resolve b' model = MIN_CONTEXT_CHAR_BUDGET) ∧
  resolve b' model ≤ resolve b model ∧
  (∀ other id', model_key other = Some id' → id' ≠ id → resolve b' other = resolve b other) ∧
  ∀ later tokens, resolve (note_declared_tokens later id tokens b') (Some id) ≤ resolve b' (Some id).
Proof.
  intros Hm Hs Hl. unfold learn_from_context_error in Hl. rewrite Hm in Hl.
  assert (resolve b (Some id) = resolve b model) as Hcur.
  { unfold resolve. by rewrite Hm, (model_key_trim _ _ Hm). }
  rewrite Hcur in Hl. pose proof (resolve_range b model) as [Hlo Hhi].
  set (target := clamp_budget _) in Hl. pose proof (clamp_budget_range (Z.max (saturating_mul usize_max sent 80 / 100)
    MIN_CONTEXT_CHAR_BUDGET)) as [Ht _]. fold target in Ht. clearbody target.
  set (nb := Z.max _ MIN_CONTEXT_CHAR_BUDGET) in Hl.
  assert (MIN_CONTEXT_CHAR_BUDGET ≤ nb ≤ MAX_CONTEXT_CHAR_BUDGET) as Hnb by (unfold nb, MIN_CONTEXT_CHAR_BUDGET in *; lia).
  assert (clamp_budget (clamp_budget nb) = nb) as Hc.
  { unfold clamp_budget. by rewrite (clamp_id _ _ nb), clamp_id. }
  assert (∀ e other id', model_key other = Some id' → id' ≠ id →
    resolve (<[id := e]> b) other = resolve b other) as Hother.
  { intros e other id' Ho Hne. by eapply resolve_other. }
  assert (trim id = id) as Htrim.
  { pose proof (model_key_trim _ _ Hm) as Hid. unfold model_key in Hid. cbn [mbind option_bind] in Hid.
    destruct (is_empty (trim id)); [done|]. by injection Hid. }
  assert (∀ e, be_source e = SourceLearned → ∀ later tokens,
    resolve (note_declared_tokens later id tokens (<[id := e]> b)) (Some id) ≤ resolve (<[id := e]> b) (Some id)) as Hdecl.
  { intros e He later tokens. apply (declaration_keeps_learned _ _ _ _ e); [|done].
    by rewrite Htrim, lookup_insert_eq. }
  destruct (b !! id) as [e|] eqn:Eb; [destruct (resolve b model <=? nb) eqn:Ele|]; injection Hl as <- <-.
  - assert (resolve b model = clamp_budget (be_budget_chars e)) as He by (unfold resolve; by rewrite Hm, Eb).
    rewrite (resolve_insert _ _ _ _ Hm). cbn [be_budget_chars]. rewrite <-He.
    split_and!; [done|lia| |lia|exact (Hother _)|by apply Hdecl].
    right. unfold nb, MIN_CONTEXT_CHAR_BUDGET in *. lia.
  - rewrite (resolve_insert _ _ _ _ Hm). cbn [now_entry be_budget_chars]. rewrite Hc.
    split_and!; [done|lia|lia|lia|exact (Hother _)|by apply Hdecl].
  - assert (resolve b model = DEFAULT_CONTEXT_CHAR_BUDGET) as Hd by (unfold resolve; by rewrite Hm, Eb).
    rewrite (resolve_insert _ _ _ _ Hm). cbn [now_entry be_budget_chars]. rewrite Hc.
    unfold DEFAULT_CONTEXT_CHAR_BUDGET in Hd. split_and!; [done|lia| | |exact (Hother _)|by apply Hdecl];
      unfold nb, MIN_CONTEXT_CHAR_BUDGET in *; lia.
Qed.

(** ** Witnesses *)

Lemma turn_evidence_is_bounded_witness :
  str_len (cte_render (foldl (λ e b, cte_push b e) cte_empty ["seq=1 source=a"; "seq=2 source=b"])) = 30.
Proof.
  rewrite (proj1 (turn_evidence_is_bounded ["seq=1 source=a"; "seq=2 source=b"] ltac:(by repeat constructor))).
  vm_compute. reflexivity.
Defined.

Definition demo_round : LinkedRoundContextArgs :=
  {| lr_prior_history := linked_safe_prior_history demo_history; lr_system := "policy"; lr_user_text := "why?";
     lr_evidence := cte_push (repeat_str 40 "seq=1 source=a.log ") cte_empty;
     lr_packing_budget := synthesis_packing_budget 600; lr_hard_budget := 600;
     lr_capacity_source := CapConfigured; lr_compact_correction := false; lr_require_full_evidence := false;
     lr_model_round := 0 |}.
Lemma linked_request_keeps_headroom_witness :
  ∃ ms t, linked_round_model_context demo_round = Some (Ok (ms, t)) ∧ t_useful_headroom t = true ∧
          estimate_context_chars ms ≤ 540.
Proof.
  assert (∃ ms t, linked_round_model_context demo_round = Some (Ok (ms, t))) as (ms & t & H).
  { vm_compute. eauto. }
  exists ms, t. split; [exact H|].
  destruct (linked_request_keeps_headroom demo_round demo_history ms t) as (H1 & H2 & _);
    [by vm_compute|reflexivity|reflexivity|exact H|].
  split; [exact H2|]. etransitivity; [exact H1|]. by vm_compute.
Defined.

Lemma context_errors_tighten_the_budget_witness :
  resolve (learn_from_context_error 7 (Some " m ") 100000 "too long" ∅).1 (Some "m") = 80000.
Proof.
  destruct (context_errors_tighten_the_budget 7 (Some " m ") 100000 "too long" ∅ _ _ "m" eq_refl
              ltac:(by vm_compute) (surjective_pairing _)) as (Hr & _).
  vm_compute. reflexivity.
Defined.
