(* ===== verification/Grounding.v ===== *)
(** * Citations of linked answers

    The gate between a model's answer about linked logs and the user
    ([cd-core/src/agent.rs]): which event identities the answer cites
    ([linked_marker_values], [linked_source_values]), whether the host supplied
    them ([linked_answer_citation_status]), what the host appends
    ([attach_host_evidence_appendix]) and removes
    ([strip_model_authored_log_citations]), and how a round ends
    ([linked_finish], [budget_finish]). The identities are those of
    [log_analysis/search.rs]. JSON strings are printed and read by [serde_json],
    the class [JsonStrings]. *)
From Stdlib Require Import ZArith Lia Ascii String.
From stdpp Require Import base tactics option list list_numbers sorting gmap strings.
From S2P Require Import Prelude RustStr Text BTree TurnBudget.

Local Open Scope string_scope.
Local Open Scope list_scope.
Local Open Scope Z_scope.

(** ** Data *)

Record SearchEvidenceIdentity := {
  si_seq : Z;
  si_source : string;
  si_citation_source : option string;
  si_template_id : Z;
}.
#[global] Instance identity_eq_dec : EqDecision SearchEvidenceIdentity.
Proof. solve_decision. Defined.

Inductive LinkedAnswerCitationStatus := CitValid | CitMissing | CitInvalid.
#[global] Instance status_eq_dec : EqDecision LinkedAnswerCitationStatus.
Proof. solve_decision. Defined.

(** [serde_json::to_string(&String)], and the first value of
    [Deserializer::from_str(s).into_iter::<String>()] with its [byte_offset]. *)
Class JsonStrings := {
  json_quote : string → option string;
  json_next : list ascii → option (string * nat);
}.

Definition DQ : ascii := "034"%char.
Class JsonStringsLaws `{JsonStrings} := json_quote_roundtrip : ∀ s, ∃ body,
  json_quote s = Some (of_bytes (DQ :: body ++ [DQ])) ∧
  ∀ rest, json_next ((DQ :: body ++ [DQ]) ++ rest) = Some (s, length (DQ :: body ++ [DQ])).

(** ** Identities of a turn *)

(** The set is the list of its members in iteration order. *)
Definition CURRENT_TURN_IDENTITY_CAP : Z := 512.
Definition hash_insert (x : SearchEvidenceIdentity) (s : list SearchEvidenceIdentity) :
    list SearchEvidenceIdentity :=
  if bool_decide (x ∈ s) then s else x :: s.
Fixpoint extend_linked_log_identities (identities incoming : list SearchEvidenceIdentity) :
    list SearchEvidenceIdentity :=
  match incoming with
  | [] => identities
  | i :: incoming =>
      if CURRENT_TURN_IDENTITY_CAP <=? zlen identities then identities
      else extend_linked_log_identities (hash_insert i identities) incoming
  end.

(** ** Reading citations *)

Definition lower (s : list ascii) : list ascii := byte_lower <$> s.

(** [s.get(i..)] *)
Definition get_from (s : list ascii) (i : nat) : option (list ascii) :=
  if is_char_boundary s i then Some (drop i s) else None.

(** [s.trim_end_matches(['.', ',', ':'])] *)
Fixpoint drop_while {A} (p : A → bool) (s : list A) : list A :=
  match s with
  | [] => []
  | c :: r => if p c then drop_while p r else s
  end.
Definition closing_punct (c : ascii) : bool := bool_decide (c ∈ bytes ".,:").
Definition trim_punct (s : list ascii) : list ascii := rev (drop_while closing_punct (rev s)).

Definition marker_char (c : ascii) : bool :=
  is_ascii_alphanumeric c || bool_decide (c ∈ bytes "-_./:@").
Definition marker_value (suffix : list ascii) : string :=
  of_bytes (trim_punct (take_while marker_char (bytes (take_chars 160 (of_bytes suffix))))).
Definition nonempty (v : string) : list string := if is_empty v then [] else [v].

Fixpoint marker_go (fuel : nat) (marker remaining : list ascii) : list string :=
  match fuel with
  | O => []
  | S fuel =>
      match split_once_bytes marker remaining with
      | None => []
      | Some (before, _) =>
          match get_from remaining (length before + length marker) with
          | None => []
          | Some suffix => nonempty (marker_value suffix) ++ marker_go fuel marker suffix
          end
      end
  end.
Definition linked_marker_values (text marker : string) : list string :=
  let lower := lower (bytes text) in marker_go (S (length lower)) (bytes marker) lower.

(** [char::is_whitespace] on the bytes of a character. *)
Definition char_ws (c : list ascii) : bool :=
  match c with
  | [a] => ws1 a
  | [a; b] => ws2 a b
  | [a; b; d] => ws3 a b d
  | _ => false
  end.
Fixpoint take_while_l {A} (p : A → bool) (l : list A) : list A :=
  match l with
  | [] => []
  | x :: l => if p x then x :: take_while_l p l else []
  end.
Definition source_char (c : list ascii) : bool :=
  negb (char_ws c) && negb (bool_decide (c ∈ (λ a, [a]) <$> bytes ",)];")).

Section sources.
Context `{JsonStrings}.

(** The value after [source=] and the number of bytes it takes. *)
Definition source_value (suffix : list ascii) : option (string * nat) :=
  match suffix with
  | c :: _ =>
      if bool_decide (c = DQ) then
        '(value, consumed) ← json_next suffix;
        if is_empty value || (4096 <? str_len value) then None else Some (value, consumed)
      else
        let value := trim_punct (concat (take_while_l source_char (take 512 (chars_of suffix)))) in
        if bool_decide (value = []) then None else Some (of_bytes value, length value)
  | [] => None
  end.

Definition SOURCE : list ascii := bytes "source=".
Fixpoint source_go (fuel : nat) (text lower : list ascii) (offset : nat) : option (list string) :=
  match fuel with
  | O => None
  | S fuel =>
      rest ← get_from lower offset;
      match split_once_bytes SOURCE rest with
      | None => Some []
      | Some (before, _) =>
          let value_start := (offset + length before + length SOURCE)%nat in
          suffix ← get_from text value_start;
          '(value, consumed) ← source_value suffix;
          values ← source_go fuel text lower (value_start + consumed);
          Some (value :: values)
      end
  end.
Definition linked_source_values (text : string) : option (list string) :=
  source_go (S (length (bytes text))) (bytes text) (lower (bytes text)) 0.

(** ** Checking them *)

(** One cited tuple, [None] when a number does not parse. *)
Definition cited_tuple (templates : list string) (index : nat) (cite : string * string) :
    option (Z * string * option Z) :=
  sequence ← parse_u64 cite.1;
  template_id ← match templates !! index with
                | Some template => t ← parse_u64 template; Some (Some t)
                | None => Some None
                end;
  Some (sequence, cite.2, template_id).
Fixpoint cited_tuples (templates : list string) (index : nat) (cites : list (string * string)) :
    option (list (Z * string * option Z)) :=
  match cites with
  | [] => Some []
  | cite :: cites =>
      t ← cited_tuple templates index cite;
      ts ← cited_tuples templates (S index) cites;
      Some (t :: ts)
  end.

Definition identity_matches (cited : Z * string * option Z) (evidence : SearchEvidenceIdentity) : bool :=
  let '(sequence, source, template_id) := cited in
  (si_seq evidence =? sequence) &&
  (eq_ignore_ascii_case (si_source evidence) source ||
   is_some_and (si_citation_source evidence) (λ citation, eq_ignore_ascii_case citation source)) &&
  match template_id with Some t => si_template_id evidence =? t | None => true end.

Definition linked_templates (text : string) : list string :=
  linked_marker_values text "template_id=" ++ linked_marker_values text "template id=".

Definition linked_answer_references_available_event_identities (text : string)
    (available_evidence : list SearchEvidenceIdentity) : bool :=
  let sequences := linked_marker_values text "seq=" in
  match linked_source_values text with
  | None => false
  | Some sources =>
      let templates := linked_templates text in
      if negb (bool_decide (length sequences = length sources)) || bool_decide (sequences = []) then false
      else if negb (bool_decide (templates = [])) && negb (bool_decide (length templates = length sequences))
      then false
      else match cited_tuples templates 0 (zip sequences sources) with
           | None => false
           | Some cited =>
               negb (bool_decide (cited = [])) &&
               forallb (λ c, existsb (identity_matches c) available_evidence) cited
           end
  end.

Definition contains_any (needles : list string) (lower : list ascii) : bool :=
  existsb (λ n, contains_bytes (bytes n) lower) needles.

Definition ZERO_PHRASES : list string :=
  ["0 unsuppressed events"; "zero unsuppressed events"; "no unsuppressed events";
   "0 analyzed events"; "zero analyzed events"; "no analyzed events"].
Definition linked_answer_truthfully_reports_no_events (text : string) : bool :=
  let normalized := lower (bytes text) in
  contains_any ZERO_PHRASES normalized && negb (contains_bytes (bytes "seq=") normalized) &&
  negb (contains_bytes SOURCE normalized).

Definition WRAPPER_MARKERS : list string :=
  ["untrusted_data"; "end_untrusted"; "nonce-bound"; "untrusted external data"; "source wrapper"].
Definition linked_answer_mistakes_wrapper_for_evidence (text : string) : bool :=
  contains_any WRAPPER_MARKERS (lower (bytes text)).

Definition linked_answer_citation_status (text : string) (available_evidence : list SearchEvidenceIdentity)
    (allow_empty_evidence : bool) : LinkedAnswerCitationStatus :=
  if linked_answer_mistakes_wrapper_for_evidence text then CitInvalid
  else if allow_empty_evidence then
    if linked_answer_truthfully_reports_no_events text then CitValid else CitInvalid
  else if linked_answer_references_available_event_identities text available_evidence then CitValid
  else if contains_any ["seq="; "source="; "template_id="] (lower (bytes text))
  then CitInvalid else CitMissing.

Definition linked_grounded_answer_is_valid (text : string) (available_evidence : list SearchEvidenceIdentity)
    (allow_empty_evidence : bool) : bool :=
  bool_decide (linked_answer_citation_status text available_evidence allow_empty_evidence = CitValid).

(** ** What the host adds and removes *)

Definition trim_end (s : list ascii) : list ascii := rev (trim_end_rev (rev s)).

Definition identity_key (i : SearchEvidenceIdentity) : Z * string * Z :=
  (si_seq i, si_source i, si_template_id i).
Definition identity_leb (a b : SearchEvidenceIdentity) : bool :=
  bool_decide (key_le (identity_key a) (identity_key b)).

Definition LF_STR : string := String LF EmptyString.
Definition QUOTED_UNKNOWN : string := of_bytes (DQ :: bytes "unknown" ++ [DQ]).
Definition APPENDIX_HEADING : string :=
  LF_STR +:+ LF_STR +:+ "### Evidence supplied by ContextDesk" +:+ LF_STR +:+ LF_STR +:+
  "_Host-attached event identities; the model's interpretation above is not independently verified._" +:+ LF_STR.
Definition appendix_item (item : SearchEvidenceIdentity) : string :=
  LF_STR +:+ "- `seq=" +:+ decimal (si_seq item) +:+
  " source=" +:+ default QUOTED_UNKNOWN (json_quote (si_source item)) +:+
  " template_id=" +:+ decimal (si_template_id item) +:+ "`".
Definition attach_host_evidence_appendix (text : string) (available_evidence : list SearchEvidenceIdentity) :
    string :=
  of_bytes (trim_end (bytes text)) +:+ APPENDIX_HEADING +:+
  of_bytes (concat ((λ i, bytes (appendix_item i)) <$> sort_by identity_leb available_evidence)) +:+ LF_STR.
End sources.

(** [lower.find(marker)] *)
Definition find_bytes (needle hay : list ascii) : option nat :=
  (λ lt, length lt.1) <$> split_once_bytes needle hay.
Definition CITATION_MARKERS : list string := ["seq="; "source="; "template_id="; "template id="].
Definition citation_cut (line : list ascii) : nat :=
  match omap (λ marker, find_bytes (bytes marker) (lower line)) CITATION_MARKERS with
  | [] => length line
  | p :: ps => foldl Nat.min p ps
  end.
Definition closing_char (c : list ascii) : bool :=
  char_ws c || bool_decide (c ∈ chars_of (bytes "`[](){}<>⟦⟧:-•")).
Definition stripped_line (line : list ascii) : list ascii :=
  let cut := citation_cut line in
  let prefix := if is_char_boundary line cut then take cut line else line in
  concat (rev (drop_while closing_char (rev (chars_of prefix)))).
Definition strip_model_authored_log_citations (text : string) : string :=
  let kept := List.filter (λ l, negb (bool_decide (trim_bytes l = []))) (stripped_line <$> lines (bytes text)) in
  trim (join LF_STR (of_bytes <$> kept)).

(** ** How a linked round ends *)

Section finish.
Context `{JsonStrings}.

Inductive LinkedFinish :=
| FinRetry (trail : string)
| FinDeliver (text : string)
| FinAttached (text : string)
| FinWithheld.

(** A round whose required evidence is complete. *)
Definition linked_finish (final_content : string) (identities : list SearchEvidenceIdentity)
    (allow_empty_evidence invalid_synthesis_retry : bool) (round max_rounds : Z) : LinkedFinish :=
  let citation_status := linked_answer_citation_status final_content identities allow_empty_evidence in
  let invalid_grounding := negb (bool_decide (citation_status = CitValid)) in
  if invalid_grounding && negb invalid_synthesis_retry && (round + 1 <? max_rounds) then
    FinRetry (if linked_answer_mistakes_wrapper_for_evidence final_content
              then "linked_wrapper_metadata_answer_rejected" else "linked_uncited_answer_rejected")
  else if invalid_grounding then
    if bool_decide (citation_status = CitMissing) && negb (bool_decide (identities = []))
    then FinAttached (attach_host_evidence_appendix final_content identities)
    else FinWithheld
  else FinDeliver final_content.

Definition BUDGET_EXHAUSTED : string :=
  "I gathered sources but hit the tool-round limit before finishing. Try a more specific question, or ask me to continue from the results above.".
Definition blank_text (s : string) : bool := is_empty (trim s).

(** The synthesis after the last round of a linked turn. *)
Definition budget_finish (completion withheld : string) (identities : list SearchEvidenceIdentity)
    (allow_empty_evidence : bool) (successful_log_tools : Z) (broad_triage_complete : bool) : LinkedFinish :=
  let content := if blank_text completion && blank_text withheld then BUDGET_EXHAUSTED
                 else if blank_text completion then withheld else completion in
  let citation_status := linked_answer_citation_status content identities allow_empty_evidence in
  let invalid_grounding := (0 <? successful_log_tools) && negb (bool_decide (citation_status = CitValid)) in
  let no_log_evidence := successful_log_tools =? 0 in
  let incomplete_broad_triage := negb broad_triage_complete in
  if invalid_grounding && bool_decide (citation_status = CitMissing) && negb (bool_decide (identities = [])) &&
     negb no_log_evidence && negb incomplete_broad_triage
  then FinAttached (attach_host_evidence_appendix content identities)
  else if invalid_grounding || no_log_evidence || incomplete_broad_triage then FinWithheld
  else FinDeliver content.

(** A synthesis retried from a checkpoint. *)
Definition retry_finish (completion withheld : string) (identities : list SearchEvidenceIdentity)
    (allow_empty_evidence : bool) : LinkedFinish :=
  let content := if blank_text completion then withheld else completion in
  if blank_text content || negb (linked_grounded_answer_is_valid content identities allow_empty_evidence)
  then FinWithheld else FinDeliver content.

(** The draft of a candidate whose assessment is kept; [classification] is its
    label. *)
Definition MULTI_STAGE_CANDIDATE_DRAFT_CHAR_CAP : Z := 2000.
Definition candidate_draft (group_id classification analysis : string) (evidence : list SearchEvidenceIdentity) :
    string :=
  take_chars MULTI_STAGE_CANDIDATE_DRAFT_CHAR_CAP (attach_host_evidence_appendix
    ("group_id: " +:+ group_id +:+ LF_STR +:+ "candidate_stage_classification: " +:+ classification +:+ LF_STR +:+
     strip_model_authored_log_citations analysis) evidence).
End finish.

(** ** Occurrences *)

Definition free (m s : list ascii) : Prop := contains_bytes m s = false.

Lemma free_spec m s : free m s ↔ ∀ l r, s ≠ l ++ m ++ r.
Proof.
  unfold free. rewrite <-not_true_iff_false, contains_bytes_spec. split; [intros H l r ->; apply H; eauto|].
  intros H (l & r & ->). by apply (H l r).
Qed.
Lemma free_part m s l r : free m (l ++ s ++ r) → free m s.
Proof. rewrite !free_spec. intros H a b ->. apply (H (l ++ a) (b ++ r)). by rewrite <-!(assoc_L (++)). Qed.
Lemma free_prefix m s t : s `prefix_of` t → free m t → free m s.
Proof. intros [k ->]. apply (free_part m s [] k). Qed.
(** A byte outside the marker separates. *)
Lemma free_join m c x y : c ∉ m → free m x → free m y → free m (x ++ c :: y).
Proof.
  rewrite !free_spec. intros Hc Hx Hy l r [(b & _ & ->)|(a & _ & ->)]%occurs_beside; [by apply (Hx l b)| |done].
  by apply (Hy a r).
Qed.
(** Without one of the bytes of the marker there is no occurrence. *)
Lemma free_missing m c s : c ∈ m → c ∉ s → free m s.
Proof. intros Hm Hs. apply free_spec. intros l r ->. apply Hs. rewrite !elem_of_app. auto. Qed.

Lemma lower_app s t : lower (s ++ t) = lower s ++ lower t.
Proof. apply fmap_app. Qed.

Lemma split_once_bytes_free m s : free m s → split_once_bytes m s = None.
Proof.
  intros H. destruct (split_once_bytes m s) as [[l t]|] eqn:E; [|done].
  apply split_once_bytes_Some in E as [-> _]. rewrite free_spec in H. by destruct (H l t).
Qed.
Lemma split_once_bytes_head m s : split_once_bytes m (m ++ s) = Some ([], s).
Proof.
  destruct (m ++ s) as [|a l] eqn:E; cbn; rewrite bool_decide_eq_true_2 by (rewrite <-?E; by eexists);
    (rewrite <-E, drop_app_length; done).
Qed.
(** A marker-free chunk up to a separator is skipped. *)
Lemma split_once_bytes_skip m c x y :
  c ∉ m → m ≠ [] → free m x → split_once_bytes m (x ++ c :: y) =
    (λ lt, (x ++ c :: lt.1, lt.2)) <$> split_once_bytes m y.
Proof.
  intros Hc Hm. induction x as [|a x IH]; intros Hx.
  - cbn. rewrite bool_decide_eq_false_2; [by destruct (split_once_bytes m y) as [[]|]|].
    intros [k Hk]. destruct m as [|d m]; [done|]. cbn in Hk. injection Hk as -> _. apply Hc. by left.
  - cbn. rewrite bool_decide_eq_false_2.
    + rewrite IH; [by destruct (split_once_bytes m y) as [[]|]|]. apply (free_part m x [a] []). by rewrite app_nil_r.
    + intros [k Hk]. pose proof (occurs_beside c m (a :: x) y [] k Hc Hk) as [(b & _ & Hb)|(b & Hb & _)].
      * rewrite free_spec in Hx. by apply (Hx [] b).
      * done.
Qed.

Lemma split_once_bytes_first m s l t : m ≠ [] → split_once_bytes m s = Some (l, t) → s = l ++ m ++ t ∧ free m l.
Proof.
  intros Hm [-> Hfirst]%split_once_bytes_Some. split; [done|]. rewrite free_spec. intros a b ->.
  apply (Hfirst Hm a); [by apply prefix_app_r| |].
  - intros Ha. apply (f_equal length) in Ha. rewrite !length_app in Ha. destruct m; [done|]. cbn in Ha. lia.
  - exists (b ++ m ++ t). by rewrite <-!(assoc_L (++)).
Qed.

(** ** Stripping *)

Lemma lines_part s l : l ∈ lines s → ∃ a b, s = a ++ l ++ b.
Proof.
  unfold lines. assert (∀ cur, l ∈ lines_go cur s → ∃ a b, rev cur ++ s = a ++ l ++ b) as H; [|apply (H [])].
  induction s as [|c s IH]; intros cur; cbn.
  - rewrite app_nil_r. destruct cur as [|d cur]; [by intros ?%elem_of_nil|].
    intros ->%list_elem_of_singleton. exists [], []. by rewrite app_nil_r.
  - case_bool_decide as Hc; [|intros H; specialize (IH (c :: cur) H); cbn in IH; by rewrite <-(assoc_L (++)) in IH].
    rewrite elem_of_cons. intros [->|(a & b & Hs)%IH].
    + destruct cur as [|d cur]; cbn; [by exists [], (c :: s)|]. case_bool_decide; [|by exists [], (c :: s)].
      exists [], (d :: c :: s). cbn. by rewrite <-(assoc_L (++)).
    + cbn in Hs. exists (rev cur ++ c :: a), b. rewrite Hs. by rewrite <-(assoc_L (++)).
Qed.

Lemma drop_while_suffix {A} (p : A → bool) l : ∃ k, l = k ++ drop_while p l.
Proof.
  induction l as [|x l [k Hk]]; cbn; [by exists []|]. destruct (p x); [|by exists []].
  exists (x :: k). cbn. by rewrite <-Hk.
Qed.
Lemma trim_end_chars_prefix p s : concat (rev (drop_while p (rev (chars_of s)))) `prefix_of` s.
Proof.
  rewrite <-(chars_of_concat s) at 2. destruct (drop_while_suffix p (rev (chars_of s))) as [k Hk].
  apply (f_equal (@rev _)) in Hk. rewrite rev_involutive, rev_app_distr in Hk. rewrite Hk at 2.
  rewrite concat_app. by apply prefix_app_r.
Qed.

Lemma lower_ascii c : cont c = true → byte_lower c = c.
Proof. unfold cont, byte_lower, in_range. intros H. destruct ((65 <=? bv c) && _) eqn:E; [|done].
  apply andb_true_iff in H, E. lia.
Qed.
Lemma lower_boundary s l m t c : lower s = l ++ (c :: m) ++ t → cont c = false → is_char_boundary s (length l) = true.
Proof.
  intros Hs Hc. assert (lower s !! length l = Some c) as Hl by (rewrite Hs; apply list_lookup_middle; done).
  unfold lower in Hl. rewrite list_lookup_fmap in Hl. unfold is_char_boundary.
  destruct (s !! length l) as [d|]; [|done]. injection Hl as Hd. rewrite orb_true_iff. right.
  destruct (cont d) eqn:E; [|done]. rewrite (lower_ascii d E) in Hd. congruence.
Qed.

Definition marker_ok (m : list ascii) : bool :=
  match m with c :: _ => negb (cont c) && negb (bool_decide (LF ∈ m)) | [] => false end.
Lemma citation_markers_ok marker : marker ∈ CITATION_MARKERS → marker_ok (bytes marker) = true.
Proof. revert marker. apply Forall_forall. repeat constructor. Qed.

Lemma foldl_min p ps : (foldl Nat.min p ps ∈ p :: ps) ∧ ∀ q, q ∈ p :: ps → (foldl Nat.min p ps ≤ q)%nat.
Proof.
  revert p. induction ps as [|x ps IH]; intros p; cbn.
  { split; [by left|]. by intros q ->%list_elem_of_singleton. }
  destruct (IH (p `min` x)%nat) as [Hin Hle]. split.
  - apply elem_of_cons in Hin as [->|Hin]; [|by do 2 right].
    destruct (Nat.min_dec p x) as [->| ->]; [by left|by right; left].
  - pose proof (Hle _ (list_elem_of_here _ _)). intros q [->|[->|Hq]%elem_of_cons]%elem_of_cons; [lia..|].
    apply Hle. by right.
Qed.

Lemma citation_cut_spec line :
  is_char_boundary line (citation_cut line) = true ∧
  ∀ marker, marker ∈ CITATION_MARKERS → free (bytes marker) (lower (take (citation_cut line) line)).
Proof.
  assert (∀ marker p, marker ∈ CITATION_MARKERS → find_bytes (bytes marker) (lower line) = Some p →
          is_char_boundary line p = true ∧ free (bytes marker) (take p (lower line))) as Hfound.
  { unfold find_bytes. intros marker p Hm. pose proof (citation_markers_ok marker Hm) as Hok.
    destruct (split_once_bytes _ _) as [[l t]|] eqn:E; [|done]. intros [= <-]. cbn [fst].
    destruct (bytes marker) as [|c m]; [done|]. apply split_once_bytes_first in E as [E Hfree]; [|done]. split.
    - eapply lower_boundary; [done|]. cbn in Hok. apply andb_true_iff in Hok as [Hok _]. by apply negb_true_iff.
    - by rewrite E, take_app_length. }
  assert (∀ marker, marker ∈ CITATION_MARKERS → find_bytes (bytes marker) (lower line) = None →
          free (bytes marker) (lower line)) as Hnone.
  { unfold find_bytes. intros marker _. destruct (split_once_bytes _ _) eqn:E; [done|]. intros _.
    by apply split_once_bytes_None. }
  unfold citation_cut. set (found := omap _ _).
  assert (∀ p, p ∈ found → ∃ marker, marker ∈ CITATION_MARKERS ∧ find_bytes (bytes marker) (lower line) = Some p) as Hin.
  { intros p. unfold found. rewrite list_elem_of_omap. intros (? & ? & ?). eauto. }
  assert (∀ marker p, marker ∈ CITATION_MARKERS → find_bytes (bytes marker) (lower line) = Some p → p ∈ found) as Hall.
  { intros marker p Hm Hp. unfold found. rewrite list_elem_of_omap. eauto. }
  clearbody found. unfold lower at 1. setoid_rewrite fmap_take. fold (lower line). split.
  - destruct found as [|p ps].
    + unfold is_char_boundary. rewrite (bool_decide_eq_true_2 (length line = length line)) by done. by rewrite orb_true_r.
    + destruct (Hin _ (proj1 (foldl_min p ps))) as (marker & Hm & Hp). by eapply Hfound.
  - intros marker Hm. destruct (find_bytes (bytes marker) (lower line)) as [q|] eqn:E.
    + destruct (Hfound marker q Hm E) as [_ Hf]. eapply free_prefix; [|exact Hf].
      pose proof (Hall _ _ Hm E) as Hq. destruct found as [|p ps]; [by apply elem_of_nil in Hq|].
      rewrite <-(Nat.min_l _ _ (proj2 (foldl_min p ps) q Hq)), <-take_take. apply prefix_take.
    + eapply free_prefix; [|by apply Hnone]. apply prefix_take.
Qed.

Lemma stripped_line_prefix line : stripped_line line `prefix_of` take (citation_cut line) line.
Proof.
  unfold stripped_line. rewrite (proj1 (citation_cut_spec line)). apply trim_end_chars_prefix.
Qed.
Lemma lower_prefix s t : s `prefix_of` t → lower s `prefix_of` lower t.
Proof. intros [k ->]. rewrite lower_app. by apply prefix_app_r. Qed.

Lemma join_free m l :
  LF ∉ m → m ≠ [] → Forall (λ s, free m (lower (bytes s))) l → free m (lower (bytes (join LF_STR l))).
Proof.
  intros Hm Hne Hl. destruct Hl as [|s l Hs Hl]; [by destruct m|]. cbn. revert s Hs.
  induction Hl as [|t l Ht _ IH]; intros s Hs; [done|]. cbn. apply IH.
  rewrite !bytes_app, !lower_app. change (lower (bytes LF_STR)) with [LF]. by apply free_join.
Qed.

(** What is left of a text has a marker only if the rest of a line has it. *)
Lemma strip_free m text :
  LF ∉ m → m ≠ [] → (∀ line, line ∈ lines (bytes text) → free m (lower (stripped_line line))) →
  free m (lower (bytes (strip_model_authored_log_citations text))).
Proof.
  intros Hm Hne Hlines. unfold strip_model_authored_log_citations. set (kept := List.filter _ _).
  destruct (trim_split (join LF_STR (of_bytes <$> kept))) as (l & r & Heq & _).
  assert (free m (lower (bytes (join LF_STR (of_bytes <$> kept))))) as Hf.
  { apply join_free; [done..|]. apply Forall_fmap, Forall_forall. intros x Hx. cbn. rewrite bytes_of_bytes.
    unfold kept in Hx. apply elem_of_filter_bool in Hx as [Hx _].
    apply list_elem_of_fmap in Hx as (line & -> & Hline). by apply Hlines. }
  rewrite Heq, !bytes_app, !lower_app in Hf. by apply free_part in Hf.
Qed.

(** Nothing a model writes in correction mode reads as a citation: after
    stripping, none of the four markers is left in any spelling of its case, so
    every identity in the answer is one the host appended. *)
Theorem stripped_text_cites_nothing text marker :
  marker ∈ CITATION_MARKERS →
  contains marker (to_ascii_lowercase (strip_model_authored_log_citations text)) = false.
Proof.
  intros Hm. unfold contains, to_ascii_lowercase. rewrite bytes_of_bytes.
  pose proof (citation_markers_ok marker Hm) as Hok. apply strip_free.
  - destruct (bytes marker) as [|c m]; [done|]. unfold marker_ok in Hok. by split_bool.
  - by intros Hnil; rewrite Hnil in Hok.
  - intros line _. eapply free_prefix; [apply lower_prefix, stripped_line_prefix|]. by apply citation_cut_spec.
Qed.

(** ** Order of the appendix *)

Definition key_leb (a b : Z * string * Z) : bool := bool_decide (key_le a b).

(** The printed part of the sorted identities is that of any other order. *)
Lemma sorted_keys_perm ev ev' :
  ev ≡ₚ ev' → identity_key <$> sort_by identity_leb ev = identity_key <$> sort_by identity_leb ev'.
Proof.
  intros Hp. rewrite !(sort_by_fmap identity_leb key_leb) by done. apply sort_by_perm_eq.
  - intros x y Hxy%bool_decide_eq_false. apply bool_decide_eq_true. by destruct (total key_le x y).
  - intros x y z. unfold key_leb. rewrite !bool_decide_eq_true. apply (transitivity (R := key_le)).
  - intros x y _ _. unfold key_leb. rewrite !bool_decide_eq_true. apply (anti_symm key_le).
  - by rewrite Hp.
Qed.

(** The appendix is a function of the set of identities: in whatever order the
    hash set yields them, the same text is appended. *)
Theorem appendix_ignores_iteration_order `{JsonStrings} text ev ev' :
  ev ≡ₚ ev' → attach_host_evidence_appendix text ev = attach_host_evidence_appendix text ev'.
Proof.
  intros Hp. unfold attach_host_evidence_appendix. do 5 f_equal.
  set (item := λ k : Z * string * Z, bytes (appendix_item
    {| si_seq := k.1.1; si_source := k.1.2; si_citation_source := None; si_template_id := k.2 |})).
  pose proof (sorted_keys_perm ev ev' Hp) as Hs. apply (f_equal (fmap item)) in Hs.
  rewrite <-!list_fmap_compose in Hs. exact Hs.
Qed.

(** ** Reading back what the host wrote *)

Lemma get_from_app pre c r : cont c = false → get_from (pre ++ c :: r) (length pre) = Some (c :: r).
Proof.
  intros Hc. unfold get_from, is_char_boundary. rewrite list_lookup_middle by done. rewrite Hc, orb_true_r.
  by rewrite drop_app_length.
Qed.

Lemma is_ascii_digit_ascii c : is_ascii_digit c = true → is_ascii c = true.
Proof. unfold is_ascii_digit, in_range, is_ascii. intros [? ?]%andb_true_iff. lia. Qed.
Lemma digit_not c d : is_ascii_digit c = true → is_ascii_digit d = false → c ≠ d.
Proof. congruence. Qed.

(** A number ends at the first byte that cannot be part of a value. *)
Lemma chars_of_ascii_app l c r :
  Forall (λ c, is_ascii c = true) l → is_ascii c = true → chars_of (l ++ c :: r) = ((λ c, [c]) <$> l) ++ chars_of (c :: r).
Proof.
  intros Hl Hc. induction Hl as [|d l Hd Hl IH]; [done|]. cbn [app chars_of fmap list_fmap]. rewrite IH.
  destruct Hl as [|e l He _]; cbn [fmap list_fmap app].
  - cbn. apply is_ascii_cont in Hc. destruct (chars_of r) as [|[|b g] gs]; cbn; try by rewrite Hc.
    destruct (cont b); by rewrite Hc.
  - by rewrite (is_ascii_cont e He).
Qed.

Lemma trim_punct_digits d : Forall (λ c, is_ascii_digit c = true) d → trim_punct d = d.
Proof.
  intros Hd. unfold trim_punct. rewrite <-(rev_involutive d) at 2. f_equal. apply Forall_rev in Hd.
  destruct Hd as [|c l Hc _]; [done|]. cbn. destruct (closing_punct c) eqn:E; [|done].
  unfold closing_punct in E. apply bool_decide_eq_true in E.
  repeat (apply elem_of_cons in E as [->|E]; [done|]). by apply elem_of_nil in E.
Qed.

Lemma marker_value_digits d c r :
  Forall (λ c, is_ascii_digit c = true) d → (length d ≤ 160)%nat → is_ascii c = true → marker_char c = false →
  marker_value (d ++ c :: r) = of_bytes d.
Proof.
  intros Hd Hlen Hc Hm. assert (Forall (λ c, is_ascii c = true) d) as Ha.
  { eapply Forall_impl; [exact Hd|]. apply is_ascii_digit_ascii. }
  assert (Forall (λ c, marker_char c = true) d) as Hmd.
  { eapply Forall_impl; [exact Hd|]. intros x Hx. unfold marker_char, is_ascii_alphanumeric. unfold is_ascii_digit in Hx.
    by rewrite Hx. }
  pose proof (take_chars_prefix 160 (of_bytes (d ++ c :: r))) as Hpre.
  unfold marker_value, take_chars in *. rewrite !bytes_of_bytes, take_z_take, chars_of_ascii_app in * by done.
  rewrite take_app_ge in * by (rewrite length_fmap; lia). rewrite concat_app in *.
  assert (∀ l : list ascii, concat ((λ c, [c]) <$> l) = l) as Hcat by (intros l; induction l; cbn; congruence).
  rewrite Hcat in *. apply prefix_app_inv in Hpre. set (z := concat (take _ _)) in *. clearbody z.
  f_equal. rewrite <-(trim_punct_digits d Hd) at 2. f_equal. destruct z as [|b z].
  - rewrite app_nil_r. clear -Hmd. induction Hmd as [|x l Hx _ IH]; [done|]. cbn. by rewrite Hx, IH.
  - apply prefix_cons_inv_1 in Hpre as ->. by apply take_while_app.
Qed.

Lemma decimal_length n : (length (decimal_bytes n) ≤ 20)%nat.
Proof.
  unfold decimal_bytes. generalize 20%nat. intros fuel. revert n. induction fuel as [|fuel IH]; intros n; [done|]. cbn.
  destruct (n <? 10); [cbn; lia|]. rewrite length_app. specialize (IH (n / 10)). cbn. lia.
Qed.
Lemma parse_decimal n : 0 ≤ n ≤ u64_max → parse_u64 (decimal n) = Some n.
Proof.
  intros Hn. destruct (decimal_bytes_spec n Hn) as (Hp & Hd & Hne). unfold parse_u64, decimal. rewrite bytes_of_bytes.
  destruct (decimal_bytes n) as [|c ds] eqn:E; [done|]. pose proof (Forall_inv Hd) as Hc. cbn in Hc.
  rewrite (bool_decide_eq_false_2 (c = "+"%char)) by (by intros ->). rewrite bool_decide_eq_false_2 by done.
  cbn [orb]. rewrite (proj2 (forallb_Forall _ _) Hd). done.
Qed.

(** A text without one of the bytes of a marker, numbers aside. *)
Definition lacks (m alphabet : list ascii) : bool :=
  existsb (λ c, negb (bool_decide (c ∈ alphabet)) && negb (is_ascii_digit c)) m.
Definition over (alphabet : list ascii) (s : list ascii) : Prop :=
  Forall (λ c, c ∈ alphabet ∨ is_ascii_digit c = true) s.
Lemma free_over m alphabet s : lacks m alphabet = true → over alphabet s → free m s.
Proof.
  unfold lacks. rewrite existsb_exists. intros (c & Hc%list_elem_of_In & Hno) Hs. split_bool.
  apply (free_missing m c); [done|]. intros Hin. unfold over in Hs. rewrite Forall_forall in Hs.
  destruct (Hs c Hin); [done|congruence].
Qed.
Lemma over_const al (s : list ascii) : forallb (λ c, bool_decide (c ∈ al)) s = true → over al s.
Proof.
  intros H%forallb_Forall. eapply Forall_impl; [exact H|]. cbn. intros c Hc%bool_decide_eq_true. by left.
Qed.
Lemma over_digits al d : Forall (λ c, is_ascii_digit c = true) d → over al d.
Proof. intros H. eapply Forall_impl; [exact H|]. auto. Qed.

(** A number as it is printed, and a byte that ends it. *)
Definition number (d : list ascii) : Prop :=
  Forall (λ c, is_ascii_digit c = true) d ∧ d ≠ [] ∧ (length d ≤ 160)%nat.
Definition ends_value (c : ascii) : Prop := is_ascii c = true ∧ marker_char c = false.
Lemma decimal_number n : 0 ≤ n ≤ u64_max → number (decimal_bytes n).
Proof.
  intros Hn. destruct (decimal_bytes_spec n Hn) as (_ & ? & ?). pose proof (decimal_length n). split_and!; [done..|lia].
Qed.

(** Appended texts, associated to the right. *)
Ltac app_norm := repeat (progress (rewrite <-?app_assoc; cbn [app])); done.

Section scan.
Context (m : list ascii) (Hne : m ≠ []) (HLF : LF ∉ m).

Lemma marker_go_chunk fuel x c d c2 r :
  c ∉ m → free m x → number d → ends_value c2 →
  marker_go (S fuel) m (x ++ c :: m ++ d ++ c2 :: r) = of_bytes d :: marker_go fuel m (d ++ c2 :: r).
Proof.
  intros Hc Hx (Hd & Hdne & Hlen) [Ha Hm]. cbn [marker_go].
  rewrite split_once_bytes_skip, split_once_bytes_head by done. cbn [fmap option_fmap option_map fst snd].
  destruct d as [|d0 d]; [done|].
  replace (x ++ c :: m ++ (d0 :: d) ++ c2 :: r) with ((x ++ c :: m) ++ d0 :: d ++ c2 :: r)
    by (by rewrite <-(assoc_L (++))).
  replace (length (x ++ [c]) + length m)%nat with (length (x ++ c :: m)) by (rewrite !length_app; cbn; lia).
  rewrite get_from_app by (apply Forall_inv in Hd; by apply is_ascii_cont, is_ascii_digit_ascii).
  change (d0 :: d ++ c2 :: r) with ((d0 :: d) ++ c2 :: r). rewrite marker_value_digits by done.
  unfold nonempty, is_empty. by rewrite bool_decide_eq_false_2.
Qed.

Lemma marker_go_items {A} (P D Y : A → list ascii) c c2 is_ x fuel :
  c ∉ m → ends_value c2 →
  Forall (λ i, free m (P i) ∧ free m (D i ++ c2 :: Y i) ∧ number (D i)) is_ →
  free m x → (length is_ < fuel)%nat →
  marker_go fuel m (x ++ concat ((λ i, LF :: P i ++ c :: m ++ D i ++ c2 :: Y i) <$> is_) ++ [LF]) =
  (λ i, of_bytes (D i)) <$> is_.
Proof.
  intros Hc Hc2 Hall. revert x fuel. induction Hall as [|i is_ (HP & HD & Hn) _ IH]; intros x fuel Hx Hfuel.
  - destruct fuel as [|fuel]; [done|]. cbn [fmap list_fmap concat app marker_go].
    rewrite split_once_bytes_free; [done|]. apply free_join; [done..|]. by destruct m.
  - destruct fuel as [|fuel]; [cbn in Hfuel; lia|]. cbn [fmap list_fmap concat]. set (k := concat _) in *.
    set (rest := k ++ [LF]).
    replace (x ++ ((LF :: P i ++ c :: m ++ D i ++ c2 :: Y i) ++ k) ++ [LF])
      with ((x ++ LF :: P i) ++ c :: m ++ D i ++ c2 :: (Y i ++ rest)) by (unfold rest; app_norm).
    rewrite marker_go_chunk by (try done; by apply free_join). f_equal.
    replace (D i ++ c2 :: Y i ++ rest) with ((D i ++ c2 :: Y i) ++ rest) by (by rewrite <-(assoc_L (++))).
    apply IH; [done|cbn in Hfuel; lia].
Qed.

(** The fuel of [linked_marker_values] is enough. *)
Lemma items_length {A} (f : A → list ascii) (l : list A) :
  (length l ≤ length (concat ((λ i, LF :: f i) <$> l)))%nat.
Proof. induction l as [|i l IH]; cbn; [done|]. rewrite length_app. lia. Qed.
End scan.

Lemma boundary_app pre c r : cont c = false → is_char_boundary (pre ++ c :: r) (length pre) = true.
Proof. intros Hc. unfold is_char_boundary. rewrite list_lookup_middle by done. by rewrite Hc, orb_true_r. Qed.
Lemma get_from_boundary s i : is_char_boundary s i = true → get_from s i = Some (drop i s).
Proof. intros Hb. unfold get_from. by rewrite Hb. Qed.
Lemma lower_length s : length (lower s) = length s.
Proof. apply length_fmap. Qed.

Section sources.
Context `{JsonStrings}.

Definition SP : ascii := " "%char.
(** A printed source that is read back. *)
Definition readable (s : string) (q : list ascii) : Prop :=
  is_empty s = false ∧ str_len s ≤ 4096 ∧ (∃ q', q = DQ :: q') ∧
  ∀ rest, json_next (q ++ rest) = Some (s, length q).

Lemma source_go_step fuel pre x s q y rest :
  free SOURCE (lower x) → readable s q → is_char_boundary (lower (pre ++ x ++ SP :: SOURCE ++ q ++ y ++ rest)) (length pre) = true →
  let text := pre ++ x ++ SP :: SOURCE ++ q ++ y ++ rest in
  source_go (S fuel) text (lower text) (length pre) =
    (values ← source_go fuel text (lower text) (length (pre ++ x ++ SP :: SOURCE ++ q)); Some (s :: values)).
Proof.
  intros Hx (Hs & Hlen & [q' Hq] & Hj) Hb text. fold text in Hb. cbn [source_go]. rewrite (get_from_boundary _ _ Hb).
  cbn [mbind option_bind]. assert (drop (length pre) (lower text) = lower x ++ SP :: SOURCE ++ lower (q ++ y ++ rest)) as ->.
  { unfold text. by rewrite (lower_app pre), (lower_app x), <-(lower_length pre), drop_app_length. }
  rewrite split_once_bytes_skip, split_once_bytes_head by (try done; not_in).
  cbn [fmap option_fmap option_map fst snd].
  replace (length pre + length (lower x ++ [SP]) + length SOURCE)%nat with (length (pre ++ x ++ SP :: SOURCE)).
  2:{ rewrite !length_app, lower_length. cbn [length]. lia. }
  assert (get_from text (length (pre ++ x ++ SP :: SOURCE)) = Some (q ++ y ++ rest)) as ->.
  { unfold text. rewrite Hq. replace (pre ++ x ++ SP :: SOURCE ++ (DQ :: q') ++ y ++ rest)
      with ((pre ++ x ++ SP :: SOURCE) ++ DQ :: q' ++ y ++ rest) by app_norm. by rewrite get_from_app. }
  cbn [mbind option_bind]. assert (source_value (q ++ y ++ rest) = Some (s, length q)) as ->.
  { unfold source_value. rewrite Hj. rewrite Hq. cbn [app]. rewrite bool_decide_eq_true_2 by done.
    cbn [mbind option_bind]. rewrite Hs. cbn [orb]. by rewrite (proj2 (Z.ltb_ge _ _) Hlen). }
  cbn [mbind option_bind]. do 2 f_equal. rewrite !length_app. cbn [length]. rewrite length_app. lia.
Qed.

Lemma source_go_items {A} (P Q Y : A → list ascii) (src : A → string) is_ : ∀ pre x fuel,
  Forall (λ i, free SOURCE (lower (P i)) ∧ readable (src i) (Q i) ∧ free SOURCE (lower (SP :: Y i))) is_ →
  free SOURCE (lower x) →
  let text := pre ++ x ++ concat ((λ i, LF :: P i ++ SP :: SOURCE ++ Q i ++ SP :: Y i) <$> is_) ++ [LF] in
  is_char_boundary (lower text) (length pre) = true → (length is_ < fuel)%nat →
  source_go fuel text (lower text) (length pre) = Some (src <$> is_).
Proof.
  induction is_ as [|i is_ IH]; intros pre x fuel Hall Hx text Hb Hfuel; (destruct fuel as [|fuel]; [cbn in Hfuel; lia|]).
  - cbn [source_go]. rewrite (get_from_boundary _ _ Hb). cbn [mbind option_bind].
    assert (drop (length pre) (lower text) = lower x ++ [LF]) as ->.
    { unfold text. rewrite lower_app. rewrite <-(lower_length pre), drop_app_length. cbn [concat fmap list_fmap app].
      by rewrite lower_app. }
    rewrite split_once_bytes_free; [done|]. apply free_join; [not_in|done|done].
  - apply Forall_cons in Hall as [(HP & HQ & HY) Hall]. cbn [fmap list_fmap concat] in text.
    set (k := concat _) in *. set (rest := k ++ [LF]).
    assert (text = pre ++ (x ++ LF :: P i) ++ SP :: SOURCE ++ Q i ++ (SP :: Y i) ++ rest) as Ht
      by (unfold text, rest; app_norm).
    assert (text = (pre ++ (x ++ LF :: P i) ++ SP :: SOURCE ++ Q i) ++ (SP :: Y i) ++ k ++ [LF]) as Ht'
      by (unfold text; app_norm).
    clearbody text. pose proof (source_go_step fuel pre (x ++ LF :: P i) (src i) (Q i) (SP :: Y i) rest) as Hstep.
    cbn zeta in Hstep. rewrite <-Ht in Hstep. rewrite Hstep; [|..|done|done].
    2:{ rewrite lower_app. apply free_join; [not_in|done..]. }
    rewrite Ht'. rewrite IH; [done|done|done| |cbn in Hfuel; lia].
    set (pre' := pre ++ _). rewrite lower_app, <-(lower_length pre'). by apply (boundary_app _ SP).
Qed.
End sources.

(** ** The appendix as the gate reads it *)

Lemma lower_digits d : Forall (λ c, is_ascii_digit c = true) d → lower d = d.
Proof.
  intros Hd. induction Hd as [|c d Hc _ IH]; [done|]. change (byte_lower c :: lower d = c :: d). rewrite IH. f_equal. unfold byte_lower.
  unfold is_ascii_digit, in_range in *. destruct ((65 <=? bv c) && _) eqn:E; [|done].
  apply andb_true_iff in Hc, E. lia.
Qed.
Lemma lower_cons c s : lower (c :: s) = byte_lower c :: lower s.
Proof. done. Qed.
Lemma lower_concat ls : lower (concat ls) = concat (lower <$> ls).
Proof. induction ls as [|l ls IH]; [done|]. cbn [concat]. by rewrite lower_app, IH. Qed.

Section appendix.
Context `{JsonStringsLaws}.

Definition seq_digits (e : SearchEvidenceIdentity) : list ascii := decimal_bytes (si_seq e).
Definition template_digits (e : SearchEvidenceIdentity) : list ascii := decimal_bytes (si_template_id e).
Definition quoted (e : SearchEvidenceIdentity) : list ascii :=
  bytes (default QUOTED_UNKNOWN (json_quote (si_source e))).

(** An identity whose printed source reads as nothing but a source. *)
Definition citable (e : SearchEvidenceIdentity) : Prop :=
  0 ≤ si_seq e ≤ u64_max ∧ 0 ≤ si_template_id e ≤ u64_max ∧ is_empty (si_source e) = false ∧
  str_len (si_source e) ≤ 4096 ∧ contains_any (CITATION_MARKERS ++ WRAPPER_MARKERS) (lower (quoted e)) = false.

Lemma citable_quoted e :
  citable e → readable (si_source e) (quoted e) ∧
  ∃ body, quoted e = DQ :: body ++ [DQ] ∧
    ∀ m, m ∈ CITATION_MARKERS ++ WRAPPER_MARKERS → free (bytes m) (lower body).
Proof.
  intros (_ & _ & Hs & Hlen & Hfree). destruct (json_quote_roundtrip (si_source e)) as (body & Hq & Hnext).
  assert (quoted e = DQ :: body ++ [DQ]) as Hqe by (unfold quoted; rewrite Hq; apply bytes_of_bytes).
  rewrite Hqe in *. split.
  - split_and!; [done..|by eexists|done].
  - exists body. split; [done|]. intros m Hm. unfold contains_any in Hfree. apply existsb_false_Forall in Hfree.
    rewrite Forall_forall in Hfree. specialize (Hfree m Hm). cbn in Hfree.
    apply (free_part _ _ [DQ] [DQ]). rewrite lower_app in Hfree. done.
Qed.

Definition item_tail (e : SearchEvidenceIdentity) : list ascii :=
  bytes "template_id=" ++ template_digits e ++ bytes "`".
Lemma appendix_item_bytes e :
  bytes (appendix_item e) =
  LF :: (bytes "- `seq=" ++ seq_digits e) ++ SP :: SOURCE ++ quoted e ++ SP :: item_tail e.
Proof.
  unfold appendix_item, item_tail, seq_digits, template_digits, quoted, decimal. rewrite !bytes_app, !bytes_of_bytes.
  change (bytes " source=") with (SP :: SOURCE). change (bytes " template_id=") with (SP :: bytes "template_id=").
  change (bytes LF_STR) with [LF]. app_norm.
Qed.

Lemma lower_item e :
  citable e → lower (bytes (appendix_item e)) =
  LF :: (bytes "- `seq=" ++ seq_digits e) ++ SP :: SOURCE ++ lower (quoted e) ++ SP :: item_tail e.
Proof.
  intros (Hs & Ht & _). rewrite appendix_item_bytes. pose proof (decimal_number _ Hs) as [Hsd _].
  pose proof (decimal_number _ Ht) as [Htd _]. unfold item_tail, seq_digits, template_digits.
  repeat (rewrite lower_app || rewrite lower_cons). by rewrite !(lower_digits (decimal_bytes _)) by done.
Qed.

Definition heading (text : string) : list ascii := trim_end (bytes text) ++ bytes APPENDIX_HEADING.
Lemma attach_bytes text ev :
  bytes (attach_host_evidence_appendix text ev) =
  heading text ++ concat ((λ e, LF :: (bytes "- `seq=" ++ seq_digits e) ++ SP :: SOURCE ++ quoted e ++ SP :: item_tail e)
                            <$> sort_by identity_leb ev) ++ [LF].
Proof.
  unfold attach_host_evidence_appendix, heading. rewrite !bytes_app, !bytes_of_bytes. rewrite <-app_assoc. do 3 f_equal.
  apply (f_equal (@concat _)). apply list_fmap_ext. intros _ e _. apply appendix_item_bytes.
Qed.
Lemma lower_attach text ev :
  Forall citable ev →
  lower (bytes (attach_host_evidence_appendix text ev)) =
  lower (heading text) ++
  concat ((λ e, LF :: (bytes "- `seq=" ++ seq_digits e) ++ SP :: SOURCE ++ lower (quoted e) ++ SP :: item_tail e)
            <$> sort_by identity_leb ev) ++ [LF].
Proof.
  intros Hc. unfold attach_host_evidence_appendix, heading. rewrite !bytes_app, !bytes_of_bytes. rewrite !lower_app, <-app_assoc.
  do 3 f_equal. rewrite lower_concat, <-list_fmap_compose. apply (f_equal (@concat _)), list_fmap_ext.
  intros i e He. apply lower_item. rewrite Forall_forall in Hc. apply Hc. rewrite <-(sort_by_perm identity_leb).
  by eapply list_elem_of_lookup_2.
Qed.

Definition MARKERS : list string := CITATION_MARKERS ++ WRAPPER_MARKERS.
Lemma markers_plain m : m ∈ MARKERS → (DQ ∉ bytes m) ∧ (LF ∉ bytes m) ∧ bytes m ≠ [].
Proof.
  revert m. apply Forall_forall. unfold MARKERS, CITATION_MARKERS, WRAPPER_MARKERS. cbn [app].
  repeat (constructor; [split_and!; [not_in|not_in|done]|]). constructor.
Qed.

Lemma quoted_free m e x y :
  m ∈ MARKERS → citable e → free (bytes m) x → free (bytes m) y → free (bytes m) (x ++ lower (quoted e) ++ y).
Proof.
  intros Hm (_ & body & -> & Hbody)%citable_quoted Hx Hy. pose proof (markers_plain m Hm) as (Hdq & _ & _).
  rewrite lower_cons, lower_app, lower_cons. change (byte_lower DQ) with DQ. cbn [app]. rewrite <-app_assoc. cbn [app].
  apply free_join; [done..|]. apply free_join; [done|by apply Hbody|done].
Qed.

(** The fixed parts of an item. *)
Definition item_head (e : SearchEvidenceIdentity) : list ascii := bytes "- `seq=" ++ seq_digits e ++ SP :: SOURCE.
Lemma seq_digits_ok e : citable e → number (seq_digits e).
Proof. intros (? & _). by apply decimal_number. Qed.
Lemma template_digits_ok e : citable e → number (template_digits e).
Proof. intros (_ & ? & _). by apply decimal_number. Qed.

Definition HEAD_BYTES : list ascii := bytes "- `seq= source=".
Definition TAIL_BYTES : list ascii := bytes "template_id=`".
Lemma item_head_over e : citable e → over HEAD_BYTES (item_head e).
Proof.
  intros [Hd _]%seq_digits_ok. unfold item_head. apply Forall_app. split; [by apply over_const|].
  apply Forall_app. split; [by apply over_digits|by apply over_const].
Qed.
Lemma item_tail_over e : citable e → over TAIL_BYTES (item_tail e).
Proof.
  intros [Hd _]%template_digits_ok. unfold item_tail. apply Forall_app. split; [by apply over_const|].
  apply Forall_app. split; [by apply over_digits|by apply over_const].
Qed.
Lemma spaced_tail_over e : citable e → over (SP :: TAIL_BYTES) (SP :: item_tail e).
Proof.
  intros He. constructor; [by left; left|]. eapply Forall_impl; [by apply item_tail_over|]. cbn.
  intros c [?|?]; [left; by right|by right].
Qed.
(** The one marker whose bytes all occur in the tail is cut by the underscore. *)
Lemma item_tail_free m e :
  m ∈ "template id=" :: WRAPPER_MARKERS → citable e → free (bytes m) (SP :: item_tail e).
Proof.
  intros Hm He. pose proof (template_digits_ok e He) as [Hd _]. apply elem_of_cons in Hm as [->|Hm].
  - unfold item_tail. change (bytes "template_id=") with (bytes "template" ++ "_"%char :: bytes "id=").
    change (free (bytes "template id=") ((SP :: bytes "template") ++ "_"%char :: (bytes "id=" ++ template_digits e ++ bytes "`"))).
    apply free_join; [not_in|done|]. apply (free_over _ (bytes "id=`")); [done|]. apply Forall_app.
    split; [by apply over_const|]. apply Forall_app. split; [by apply over_digits|by apply over_const].
  - apply (free_over _ (SP :: TAIL_BYTES)).
    + revert m Hm. apply Forall_forall. repeat constructor.
    + by apply spaced_tail_over.
Qed.

(** Apart from its citations the appendix reads as nothing. *)
Lemma attach_free m text ev :
  m ∈ "template id=" :: WRAPPER_MARKERS → Forall citable ev → free (bytes m) (lower (heading text)) →
  free (bytes m) (lower (bytes (attach_host_evidence_appendix text ev))).
Proof.
  intros Hm Hc Hh. rewrite lower_attach by done.
  assert (m ∈ MARKERS) as HM by (by unfold MARKERS, CITATION_MARKERS; do 3 right).
  pose proof (markers_plain m HM) as (_ & HLF & Hne).
  assert (Forall citable (sort_by identity_leb ev)) as Hcs by (by rewrite sort_by_perm).
  revert Hh. generalize (lower (heading text)). induction Hcs as [|e es He _ IH]; intros x Hx.
  - cbn. apply free_join; [done..|]. by destruct (bytes m).
  - cbn [fmap list_fmap concat]. set (k := concat _) in *.
    replace (x ++ ((LF :: (bytes "- `seq=" ++ seq_digits e) ++ SP :: SOURCE ++ lower (quoted e) ++ SP :: item_tail e) ++ k) ++ [LF])
      with ((x ++ LF :: item_head e ++ lower (quoted e) ++ SP :: item_tail e) ++ k ++ [LF]) by (unfold item_head; app_norm).
    apply IH, free_join; [done..|]. apply quoted_free; [done..| |by apply item_tail_free].
    apply (free_over _ HEAD_BYTES); [|by apply item_head_over].
    clear -Hm. revert m Hm. apply Forall_forall. repeat constructor.
Qed.

Lemma sorted_citable ev : Forall citable ev → Forall citable (sort_by identity_leb ev).
Proof. by rewrite sort_by_perm. Qed.
Lemma attach_fuel text ev : (length (sort_by identity_leb ev) < S (length (bytes (attach_host_evidence_appendix text ev))))%nat.
Proof.
  rewrite attach_bytes, !length_app. pose proof (items_length (λ e, (bytes "- `seq=" ++ seq_digits e) ++
    SP :: SOURCE ++ quoted e ++ SP :: item_tail e) (sort_by identity_leb ev)) as Hl. cbn beta in Hl. cbn [length]. lia.
Qed.

Lemma attach_sequences text ev :
  Forall citable ev → free (bytes "seq=") (lower (heading text)) →
  linked_marker_values (attach_host_evidence_appendix text ev) "seq=" =
  (λ e, decimal (si_seq e)) <$> sort_by identity_leb ev.
Proof.
  intros Hc Hh. unfold linked_marker_values. cbn zeta. rewrite lower_length. pose proof (attach_fuel text ev) as Hfuel.
  set (fuel := S _) in *. clearbody fuel. rewrite lower_attach by done.
  rewrite (list_fmap_ext _ (λ e, LF :: bytes "- " ++ "`"%char :: bytes "seq=" ++ seq_digits e ++ SP ::
    (SOURCE ++ lower (quoted e) ++ SP :: item_tail e))) by (intros ? e _; app_norm).
  apply marker_go_items; [done|not_in|not_in|done| |done|done].
  eapply Forall_impl; [by apply sorted_citable|]. intros e He. cbn beta. split_and!; [done| |by apply seq_digits_ok].
  replace (seq_digits e ++ SP :: SOURCE ++ lower (quoted e) ++ SP :: item_tail e)
    with ((seq_digits e ++ SP :: SOURCE) ++ lower (quoted e) ++ SP :: item_tail e) by app_norm.
  apply quoted_free; [by left|done| |].
  - apply (free_over _ (SP :: SOURCE)); [done|]. apply Forall_app. destruct (seq_digits_ok e He) as [? _].
    split; [by apply over_digits|by apply over_const].
  - apply (free_over _ (SP :: TAIL_BYTES)); [done|by apply spaced_tail_over].
Qed.

Lemma attach_templates text ev :
  Forall citable ev → (∀ m, m ∈ CITATION_MARKERS → free (bytes m) (lower (heading text))) →
  linked_templates (attach_host_evidence_appendix text ev) =
  (λ e, decimal (si_template_id e)) <$> sort_by identity_leb ev.
Proof.
  intros Hc Hh. unfold linked_templates, linked_marker_values. cbn zeta.
  assert (free (bytes "template id=") (lower (bytes (attach_host_evidence_appendix text ev)))) as Hfree.
  { apply attach_free; [by left|done|]. apply Hh. by do 3 right; left. }
  set (fuel := S _) in *. cbn [marker_go]. assert ((length (sort_by identity_leb ev) < fuel)%nat) as Hfuel
    by (unfold fuel; rewrite lower_length; apply attach_fuel).
  assert (marker_go fuel (bytes "template id=") (lower (bytes (attach_host_evidence_appendix text ev))) = []) as ->.
  { destruct fuel; [done|]. cbn [marker_go]. by rewrite split_once_bytes_free. }
  clearbody fuel. rewrite app_nil_r, lower_attach by done.
  rewrite (list_fmap_ext _ (λ e, LF :: (item_head e ++ lower (quoted e)) ++ SP :: bytes "template_id=" ++
    template_digits e ++ "`"%char :: [])) by (intros ? e _; unfold item_head, item_tail; app_norm).
  apply (marker_go_items (bytes "template_id=") ltac:(done) ltac:(not_in) (λ e, item_head e ++ lower (quoted e)) template_digits (λ _, []));
    [not_in|done| |by apply Hh; do 2 right; left|done].
  eapply Forall_impl; [by apply sorted_citable|]. intros e He. cbn beta. split_and!.
  - rewrite <-(app_nil_r (lower _)). apply quoted_free; [by do 2 right; left|done| |done].
    apply (free_over _ HEAD_BYTES); [done|by apply item_head_over].
  - apply (free_over _ (bytes "`")); [done|]. apply Forall_app. destruct (template_digits_ok e He) as [? _].
    split; [by apply over_digits|by apply over_const].
  - by apply template_digits_ok.
Qed.

Lemma attach_sources text ev :
  Forall citable ev → free SOURCE (lower (heading text)) →
  linked_source_values (attach_host_evidence_appendix text ev) = Some (si_source <$> sort_by identity_leb ev).
Proof.
  intros Hc Hh. unfold linked_source_values. pose proof (attach_fuel text ev) as Hfuel. set (fuel := S _) in *.
  clearbody fuel. rewrite attach_bytes. apply (source_go_items (λ e, bytes "- `seq=" ++ seq_digits e) quoted item_tail si_source
    (sort_by identity_leb ev) [] (heading text)); [|exact Hh|by unfold is_char_boundary; rewrite bool_decide_eq_true_2|done].
  eapply Forall_impl; [by apply sorted_citable|]. intros e He. split_and!.
  - rewrite lower_app, (lower_digits (seq_digits e)) by (by apply seq_digits_ok). apply (free_over _ (bytes "- `seq=")); [done|].
    apply Forall_app. split; [by apply over_const|apply over_digits; by apply seq_digits_ok].
  - by apply citable_quoted.
  - unfold item_tail. rewrite lower_cons, !lower_app, (lower_digits (template_digits e)) by (by apply template_digits_ok).
    apply (free_over _ (SP :: TAIL_BYTES)); [done|by apply spaced_tail_over].
Qed.

Lemma cited_tuples_all (es : list SearchEvidenceIdentity) templates index :
  Forall citable es →
  (∀ i e, es !! i = Some e → templates !! (index + i)%nat = Some (decimal (si_template_id e))) →
  cited_tuples templates index (zip ((λ e, decimal (si_seq e)) <$> es) (si_source <$> es)) =
  Some ((λ e, (si_seq e, si_source e, Some (si_template_id e))) <$> es).
Proof.
  intros Hc. revert index. induction Hc as [|e es (Hs & Ht & _) _ IH]; intros index Htpl; [done|].
  cbn [fmap list_fmap zip zip_with cited_tuples]. unfold cited_tuple. cbn [fst snd]. rewrite parse_decimal by done.
  cbn [mbind option_bind]. pose proof (Htpl O e eq_refl) as H1. rewrite Nat.add_0_r in H1. rewrite H1, parse_decimal by done.
  cbn [mbind option_bind]. rewrite IH; [done|]. intros i e' Hi. specialize (Htpl (S i) e' Hi).
  by rewrite Nat.add_succ_r in Htpl.
Qed.

Lemma heading_free m text :
  m ∈ MARKERS → free (bytes m) (lower (bytes text)) → free (bytes m) (lower (heading text)).
Proof.
  intros Hm Hfree. pose proof (markers_plain m Hm) as (_ & HLF & _). unfold heading, trim_end. rewrite lower_app.
  change (lower (bytes APPENDIX_HEADING)) with (LF :: drop 1 (lower (bytes APPENDIX_HEADING))).
  apply free_join; [done| |].
  - eapply free_prefix; [apply lower_prefix, trim_end_rev_prefix|done].
  - clear -Hm. revert m Hm. apply Forall_forall. repeat (constructor; [vm_compute; reflexivity|]). constructor.
Qed.

(** An answer without markers of its own, with the appendix, is grounded. *)
Lemma attach_valid text ev :
  ev ≠ [] → Forall citable ev → (∀ m, m ∈ MARKERS → free (bytes m) (lower (bytes text))) →
  linked_answer_citation_status (attach_host_evidence_appendix text ev) ev false = CitValid.
Proof.
  intros Hne Hc Hfree. assert (∀ m, m ∈ MARKERS → free (bytes m) (lower (heading text))) as Hh
    by (intros m Hm; by apply heading_free, Hfree).
  assert (linked_answer_mistakes_wrapper_for_evidence (attach_host_evidence_appendix text ev) = false) as Hw.
  { unfold linked_answer_mistakes_wrapper_for_evidence, contains_any. apply existsb_false_Forall, Forall_forall.
    intros m Hm. apply attach_free; [by right|done|]. apply Hh. apply elem_of_app. by right. }
  unfold linked_answer_citation_status. rewrite Hw.
  assert (∀ m, m ∈ CITATION_MARKERS → free (bytes m) (lower (heading text))) as Hcit
    by (intros m Hm; apply Hh, elem_of_app; by left).
  unfold linked_answer_references_available_event_identities.
  rewrite attach_sources by (done || (apply Hcit; by right; left)).
  rewrite attach_sequences by (done || (apply Hcit; by left)). rewrite attach_templates by done.
  set (es := sort_by identity_leb ev). assert (es ≠ []) as Hes.
  { intros Hnil. pose proof (sort_by_perm identity_leb ev) as Hp. fold es in Hp. rewrite Hnil in Hp.
    by apply Permutation_nil_l in Hp. }
  rewrite !length_fmap, !bool_decide_eq_true_2 by done. cbn [negb andb orb]. rewrite !andb_false_r.
  rewrite (bool_decide_eq_false_2 (_ <$> es = [])) by (by destruct es).
  rewrite cited_tuples_all; [|by apply sorted_citable|].
  2:{ intros i e Hi. rewrite Nat.add_0_l, list_lookup_fmap. by rewrite Hi. }
  rewrite (bool_decide_eq_false_2 (_ <$> es = [])) by (by destruct es). cbn [negb andb].
  assert (forallb (λ c, existsb (identity_matches c) ev)
    ((λ e, (si_seq e, si_source e, Some (si_template_id e))) <$> es) = true) as ->; [|done].
  apply forallb_Forall, Forall_fmap, Forall_forall. intros e He. cbn. apply existsb_elem_of. exists e. split.
  - unfold es in He. by rewrite sort_by_perm in He.
  - unfold identity_matches, eq_ignore_ascii_case. rewrite !Z.eqb_refl. by rewrite bool_decide_eq_true_2.
Qed.
End appendix.

(** ** What the host delivers *)

Lemma wrapper_free text m :
  linked_answer_mistakes_wrapper_for_evidence text = false → m ∈ WRAPPER_MARKERS → free (bytes m) (lower (bytes text)).
Proof.
  unfold linked_answer_mistakes_wrapper_for_evidence, contains_any. intros H%existsb_false_Forall Hm.
  rewrite Forall_forall in H. by apply H.
Qed.


(** ** What a cited identity is *)

Lemma lower_high c : is_ascii c = false → byte_lower c = c.
Proof. unfold is_ascii, byte_lower, in_range. intros H%Z.ltb_ge. destruct ((65 <=? bv c) && _) eqn:E; [|done]. lia. Qed.
Lemma lower_low c : is_ascii c = true → is_ascii (byte_lower c) = true.
Proof.
  unfold is_ascii, byte_lower, in_range, bv. intros H%Z.ltb_lt. apply Z.ltb_lt. destruct (_ && _) eqn:E; [|done].
  apply andb_true_iff in E as [??]. rewrite N_ascii_embedding by lia. lia.
Qed.
Lemma cont_not_ascii c : cont c = true → is_ascii c = false.
Proof. unfold cont, is_ascii, in_range. intros [??]%andb_true_iff. lia. Qed.

Lemma lower_utf8 s : utf8_valid s = true → utf8_valid (lower s) = true.
Proof.
  induction s as [s IH] using (induction_ltof1 _ (@length ascii)); unfold ltof in IH.
  destruct s as [|a r1]; [done|]. rewrite lower_cons. cbn [utf8_valid]. destruct (bv a <? 0x80) eqn:Ea.
  { intros Hv. pose proof (lower_low a Ea) as Hl. unfold is_ascii in Hl. rewrite Hl. apply IH; [cbn; lia|done]. }
  rewrite (lower_high a Ea), Ea. destruct r1 as [|b r2]; [done|]. rewrite lower_cons.
  assert (∀ x, cont x = true → byte_lower x = x) as Hc by (intros x Hx; by apply lower_high, cont_not_ascii).
  destruct (in_range 0xC2 0xDF a).
  { intros [Hb Hv]%andb_true_iff. rewrite (Hc b Hb), Hb. cbn. apply IH; [cbn; lia|done]. }
  destruct r2 as [|c r3]; [done|]. rewrite lower_cons. destruct (in_range 0xE0 0xEF a).
  { intros [[Hb Hcc]%andb_true_iff Hv]%andb_true_iff. rewrite (Hc b (utf8_3_cont _ _ Hb)), (Hc c Hcc), Hb, Hcc.
    cbn. apply IH; [cbn; lia|done]. }
  destruct r3 as [|d r4]; [done|]. rewrite lower_cons.
  intros [[[Hb Hcc]%andb_true_iff Hd]%andb_true_iff Hv]%andb_true_iff.
  rewrite (Hc b (utf8_4_cont _ _ Hb)), (Hc c Hcc), (Hc d Hd), Hb, Hcc, Hd. cbn. apply IH; [cbn; lia|done].
Qed.

Lemma utf8_not_cont c r : utf8_valid (c :: r) = true → cont c = false.
Proof.
  intros Hv. destruct (cont c) eqn:E; [|done]. exfalso. unfold cont, in_range in E. apply andb_true_iff in E as [??].
  revert Hv. cbn [utf8_valid]. unfold in_range, utf8_4. rewrite (proj2 (Z.ltb_ge (bv c) 0x80)) by lia.
  rewrite (proj2 (Z.leb_gt 0xC2 (bv c))), (proj2 (Z.leb_gt 0xE0 (bv c))) by lia. cbn [andb].
  unfold in_range. rewrite (proj2 (Z.eqb_neq (bv c) 0xF0)), (proj2 (Z.eqb_neq (bv c) 0xF4)), (proj2 (Z.leb_gt 0xF1 (bv c))) by lia.
  cbn [andb orb]. destruct r as [|? [|? [|? ?]]]; done.
Qed.

(** Occurrences of a marker whose first byte does not come again do not overlap. *)
Lemma no_overlap (c : ascii) m k x y :
  c ∉ m → k ++ (c :: m) ++ x = (c :: m) ++ y → k = [] ∨ ∃ k', k = (c :: m) ++ k' ∧ y = k' ++ (c :: m) ++ x.
Proof.
  intros Hc Heq. apply app_eq_inv in Heq as [(k' & -> & Hm)|(k' & Hk & Hy)]; [by eauto|].
  destruct k as [|k0 k]; [by left|]. destruct k' as [|c' k'].
  - rewrite app_nil_r in Hk. right. exists []. by rewrite app_nil_r, <-Hk.
  - exfalso. injection Hk as -> ->. injection Hy as <- _. apply Hc, elem_of_app. right. by left.
Qed.

(** The scan misses no occurrence with a value. *)
Lemma marker_go_complete c m' fuel s a b :
  let m := c :: m' ++ ["="%char] in
  c ∉ m' ++ ["="%char] → utf8_valid s = true → (length s < fuel)%nat →
  s = a ++ m ++ b → is_empty (marker_value b) = false → marker_value b ∈ marker_go fuel m s.
Proof.
  intros m Hc. revert s a. induction fuel as [|fuel IH]; intros s a Hv Hfuel Hs Hne; [lia|]. cbn [marker_go].
  destruct (split_once_bytes m s) as [[l t]|] eqn:E.
  2:{ apply split_once_bytes_None in E. pose proof (proj1 (free_spec m s) E a b) as Hno. done. }
  apply split_once_bytes_first in E as [E Hfree]; [|done].
  assert (utf8_valid t = true) as Ht.
  { rewrite E in Hv. unfold m in Hv. apply (utf8_split_ascii (l ++ c :: m') "="%char t eq_refl).
    etrans; [|exact Hv]. f_equal. app_norm. }
  assert (get_from s (length l + length m) = Some t) as ->.
  { rewrite E. unfold get_from. rewrite (app_assoc l m t), <-length_app, drop_app_length. destruct t as [|t0 t].
    - rewrite app_nil_r. unfold is_char_boundary. rewrite (bool_decide_eq_true_2 (length _ = length _)) by done.
      by rewrite orb_true_r.
    - by rewrite boundary_app by (by eapply utf8_not_cont). }
  rewrite E in Hs. apply app_eq_inv in Hs as [(k & -> & Hk)|(k & -> & Hk)].
  - destruct (no_overlap c (m' ++ ["="%char]) k t b Hc) as [->|(k' & -> & _)]; [exact (eq_sym Hk)| |].
    + apply (inj (app m)) in Hk as ->. apply elem_of_app. left. unfold nonempty. rewrite Hne. by left.
    + rewrite free_spec in Hfree. by destruct (Hfree a k').
  - destruct (no_overlap c (m' ++ ["="%char]) k b t Hc) as [->|(k' & -> & ->)]; [exact (eq_sym Hk)| |].
    + apply (inj (app m)) in Hk as ->. apply elem_of_app. left. unfold nonempty. rewrite Hne. by left.
    + apply elem_of_app. right. apply (IH _ k'); [done| |done|done]. rewrite E, !length_app in Hfuel.
      rewrite !length_app. cbn in Hfuel |- *. lia.
Qed.

Lemma cited_tuples_inv templates index cites cited :
  cited_tuples templates index cites = Some cited →
  Forall2 (λ cite c, parse_u64 cite.1 = Some c.1.1 ∧ cite.2 = c.1.2) cites cited.
Proof.
  revert index cited. induction cites as [|cite cites IH]; intros index cited; cbn [cited_tuples]; [intros [= <-]; constructor|].
  destruct (cited_tuple templates index cite) as [t|] eqn:Et; [|done]. cbn [mbind option_bind].
  destruct (cited_tuples templates (S index) cites) as [ts|] eqn:Ets; [|done]. intros [= <-].
  constructor; [|by eapply IH]. unfold cited_tuple in Et. destruct (parse_u64 cite.1) as [n|]; [|done].
  cbn [mbind option_bind] in Et. destruct (match templates !! index with Some _ => _ | None => _ end); [|done].
  by injection Et as <-.
Qed.

Definition names_source (e : SearchEvidenceIdentity) (s : string) : Prop :=
  eq_ignore_ascii_case (si_source e) s = true ∨
  ∃ c, si_citation_source e = Some c ∧ eq_ignore_ascii_case c s = true.

Lemma references_inv `{JsonStrings} text ev :
  linked_answer_references_available_event_identities text ev = true →
  ∃ sources, linked_source_values text = Some sources ∧ sources ≠ [] ∧
    Forall2 (λ v s, ∃ e, e ∈ ev ∧ parse_u64 v = Some (si_seq e) ∧ names_source e s)
      (linked_marker_values text "seq=") sources.
Proof.
  unfold linked_answer_references_available_event_identities. set (seqs := linked_marker_values text "seq=").
  destruct (linked_source_values text) as [sources|]; [|done].
  destruct (negb (bool_decide (length seqs = _)) || _) eqn:Elen; [done|]. destruct (negb _ && negb _); [done|].
  destruct (cited_tuples _ _ _) as [cited|] eqn:Ec; [|done]. intros [_ Hall]%andb_true_iff. split_bool.
  exists sources. split_and!; [done|by destruct sources, seqs|].
  apply cited_tuples_inv in Ec. apply forallb_Forall in Hall.
  assert (length seqs = length sources) as Hlen by done. clear -Ec Hall Hlen. revert sources cited Ec Hall Hlen.
  induction seqs as [|v seqs IH]; intros [|s sources] cited Ec Hall Hlen; try done. cbn in Ec.
  apply Forall2_cons_inv_l in Ec as ([[n src] tpl] & cited' & [Hn Hs] & Ec & ->). cbn in Hn, Hs. subst src.
  apply Forall_cons in Hall as [He Hall]. constructor; [|by eapply IH; [..|injection Hlen]].
  apply existsb_elem_of in He as (e & He & Hm). unfold identity_matches in Hm. split_bool. exists e. split_and!; [done| |].
  - by replace (si_seq e) with n by lia.
  - match goal with Ho : _ || _ = true |- _ => apply orb_true_iff in Ho as [?|Hc]; [by left|right] end.
    apply is_some_and_true in Hc as (c & ? & ?). eauto.
Qed.


(** Every linked answer that leaves a round is grounded: what is delivered as the
    model wrote it passes the gate, what is delivered with the host's appendix passes
    it then (unless the text already spells a template id the second way), a retry is
    asked for once and only while rounds are left, and the rest is withheld. *)
Theorem linked_round_ends_grounded `{JsonStringsLaws} content ev allow retried round max_rounds :
  Forall citable ev → contains_any ["template id="] (lower (bytes content)) = false →
  match linked_finish content ev allow retried round max_rounds with
  | FinDeliver t => t = content ∧ linked_grounded_answer_is_valid t ev allow = true
  | FinAttached t => allow = false ∧ linked_grounded_answer_is_valid t ev false = true ∧
      (retried = true ∨ max_rounds ≤ round + 1)
  | FinRetry _ => retried = false ∧ round + 1 < max_rounds ∧ linked_grounded_answer_is_valid content ev allow = false
  | FinWithheld => linked_grounded_answer_is_valid content ev allow = false
  end.
Proof.
  intros Hc Htpl. unfold linked_finish, linked_grounded_answer_is_valid.
  destruct (linked_answer_citation_status content ev allow) eqn:Est; cbn [negb].
  - rewrite (bool_decide_eq_true_2 (CitValid = CitValid)) by done. cbn [negb andb]. split; [done|].
    by rewrite bool_decide_eq_true_2.
  - rewrite !(bool_decide_eq_false_2 (CitMissing = CitValid)) by done. cbn [negb andb].
    destruct (negb retried && (round + 1 <? max_rounds)) eqn:Er; [split_bool; done|].
    rewrite (bool_decide_eq_true_2 (CitMissing = CitMissing)) by done. cbn [andb].
    destruct (bool_decide (ev = [])) eqn:Ene; cbn [negb]; [done|]. apply bool_decide_eq_false in Ene.
    unfold linked_answer_citation_status in Est.
    destruct (linked_answer_mistakes_wrapper_for_evidence content) eqn:Ew; [done|].
    destruct allow; [by destruct (linked_answer_truthfully_reports_no_events content)|].
    destruct (linked_answer_references_available_event_identities content ev); [done|].
    destruct (contains_any ["seq="; "source="; "template_id="] (lower (bytes content))) eqn:Ecit; [done|]. split_and!; [done| |].
    + rewrite attach_valid; [done..|]. intros m [Hm|Hm]%elem_of_app; [|by apply wrapper_free].
      unfold contains_any in Ecit, Htpl. apply existsb_false_Forall in Ecit, Htpl.
      assert (Forall (λ n, contains_bytes (bytes n) (lower (bytes content)) = false) CITATION_MARKERS) as Hall
        by (apply (Forall_app _ ["seq="; "source="; "template_id="]); done).
      rewrite Forall_forall in Hall. by apply Hall.
    + apply andb_false_iff in Er as [Er%negb_false_iff|Er]; [by left|right]. apply Z.ltb_ge in Er. lia.
  - rewrite !(bool_decide_eq_false_2 (CitInvalid = CitValid)) by done. cbn [negb andb].
    destruct (negb retried && (round + 1 <? max_rounds)) eqn:Er; [split_bool; done|].
    by rewrite (bool_decide_eq_false_2 (CitInvalid = CitMissing)) by done.
Qed.

(** The identities of a turn are bounded: whatever searches return, at most 512
    are kept, none twice, none is dropped once it is kept, and only identities that
    were returned are. *)
Theorem turn_identities_are_bounded identities incoming :
  NoDup identities → zlen identities ≤ CURRENT_TURN_IDENTITY_CAP →
  let kept := extend_linked_log_identities identities incoming in
  NoDup kept ∧ zlen kept ≤ CURRENT_TURN_IDENTITY_CAP ∧ (∀ e, e ∈ identities → e ∈ kept) ∧
  (∀ e, e ∈ kept → e ∈ identities ∨ e ∈ incoming) ∧
  (zlen kept < CURRENT_TURN_IDENTITY_CAP → ∀ e, e ∈ incoming → e ∈ kept).
Proof.
  revert identities. induction incoming as [|i incoming IH]; intros identities Hnd Hcap; cbn -[CURRENT_TURN_IDENTITY_CAP].
  { split_and!; [done..|auto|]. by intros _ e ?%elem_of_nil. }
  destruct (Z.leb_spec CURRENT_TURN_IDENTITY_CAP (zlen identities)).
  { split_and!; [done..|auto|lia]. }
  assert (NoDup (hash_insert i identities) ∧ zlen (hash_insert i identities) ≤ CURRENT_TURN_IDENTITY_CAP ∧
          ∀ e, e ∈ hash_insert i identities ↔ e = i ∨ e ∈ identities) as (Hnd' & Hcap' & Hin).
  { unfold hash_insert. case_bool_decide as Hi; [split_and!; [done|lia|]; naive_solver|].
    split_and!; [by constructor|rewrite zlen_cons; lia|]. intros e. apply elem_of_cons. }
  destruct (IH _ Hnd' Hcap') as (H1 & H2 & H3 & H4 & H5). split_and!; [done..| | |].
  - intros e He. apply H3, Hin. by right.
  - intros e [[->|He]%Hin|He]%H4; [right; by left|by left|right; by right].
  - intros Hlt e [->|He]%elem_of_cons; [apply H3, Hin; by left|by apply H5].
Qed.

(** ** Where the gate falls short *)

Definition worker : SearchEvidenceIdentity :=
  {| si_seq := 101; si_source := "worker.log"; si_citation_source := None; si_template_id := 7 |}.
Definition gateway : SearchEvidenceIdentity :=
  {| si_seq := 11; si_source := "gw.log"; si_citation_source := None; si_template_id := 9 |}.

(** The gate misreads two ways of writing a citation. A sequence number in
    quotes has no value for the scan and is not checked, so an answer that also cites
    an event the host never supplied is accepted. And template ids in the two
    accepted spellings are matched by spelling first and position second, so an
    answer that mixes them is rejected when it is right and accepted when it gives
    each event the template of the other. *)
Theorem citation_gate_misreads `{JsonStrings} :
  linked_answer_citation_status
    ("Root cause at seq=101 source=worker.log, then seq=" +:+ of_bytes (DQ :: bytes "999" ++ [DQ])) [worker] false = CitValid ∧
  linked_answer_citation_status
    "seq=101 source=worker.log template id=7; seq=11 source=gw.log template_id=9" [worker; gateway] false = CitInvalid ∧
  linked_answer_citation_status
    "seq=101 source=worker.log template id=9; seq=11 source=gw.log template_id=7" [worker; gateway] false = CitValid.
Proof. split_and!; vm_compute; reflexivity. Qed.

(** ** Witnesses *)

(** JSON strings with the two escapes that matter. *)
Definition BSL : ascii := "\"%char.
Definition esc (c : ascii) : list ascii := if bool_decide (c ∈ [DQ; BSL]) then [BSL; c] else [c].
Fixpoint unesc (s acc : list ascii) (n : nat) : option (list ascii * nat) :=
  match s with
  | [] => None
  | c :: r =>
      if bool_decide (c = DQ) then Some (rev acc, S n)
      else if bool_decide (c = BSL) then match r with d :: r => unesc r (d :: acc) (S (S n)) | [] => None end
      else unesc r (c :: acc) (S n)
  end.
#[local] Instance demo_json : JsonStrings := {|
  json_quote s := Some (of_bytes (DQ :: concat (esc <$> bytes s) ++ [DQ]));
  json_next s := match s with
                 | c :: r => if bool_decide (c = DQ) then (λ v, (of_bytes v.1, v.2)) <$> unesc r [] 1 else None
                 | [] => None
                 end;
|}.
Lemma unesc_esc s rest acc n :
  unesc (concat (esc <$> s) ++ DQ :: rest) acc n = Some (rev acc ++ s, (n + length (concat (esc <$> s)) + 1)%nat).
Proof.
  revert acc n. induction s as [|c s IH]; intros acc n.
  { cbn. rewrite app_nil_r. apply f_equal, f_equal2; [done|lia]. }
  cbn [fmap list_fmap concat]. rewrite <-app_assoc. destruct (decide (c ∈ [DQ; BSL])) as [Hc|Hc].
  - assert (esc c = [BSL; c]) as -> by (unfold esc; by rewrite bool_decide_eq_true_2).
    cbn [app unesc]. rewrite bool_decide_eq_false_2, bool_decide_eq_true_2 by done. rewrite IH. cbn [rev length app].
    apply f_equal, f_equal2; [app_norm|lia].
  - assert (esc c = [c]) as -> by (unfold esc; by rewrite bool_decide_eq_false_2).
    cbn [app unesc]. rewrite !bool_decide_eq_false_2 by (intros ->; apply Hc; set_solver). rewrite IH. cbn [rev length app].
    apply f_equal, f_equal2; [app_norm|lia].
Qed.
#[local] Instance demo_json_laws : JsonStringsLaws.
Proof.
  intros s. exists (concat (esc <$> bytes s)). split; [done|]. intros rest. unfold json_next, demo_json. cbn [app].
  rewrite bool_decide_eq_true_2 by done. rewrite <-app_assoc. cbn [app]. rewrite unesc_esc.
  cbn [fmap option_fmap option_map fst snd rev app]. rewrite of_bytes_bytes. apply f_equal, f_equal2; [done|].
  cbn [length]. rewrite length_app. cbn [length]. lia.
Qed.
Lemma demo_citable : Forall citable [worker; gateway].
Proof. repeat constructor; done. Qed.

Lemma stripped_text_cites_nothing_witness :
  contains "seq=" (to_ascii_lowercase (strip_model_authored_log_citations "Pool exhausted [SEQ=101 source=a]")) = false ∧
  strip_model_authored_log_citations "Pool exhausted [SEQ=101 source=a]" = "Pool exhausted".
Proof. split; [apply stripped_text_cites_nothing; by left|vm_compute; reflexivity]. Defined.

Lemma appendix_ignores_iteration_order_witness :
  attach_host_evidence_appendix "Done" [worker; gateway] = attach_host_evidence_appendix "Done" [gateway; worker].
Proof. apply appendix_ignores_iteration_order. constructor. Defined.



Lemma linked_round_ends_grounded_witness :
  linked_finish "The pool shrank." [worker] false true 1 8 = FinAttached (attach_host_evidence_appendix "The pool shrank." [worker]) ∧
  linked_grounded_answer_is_valid (attach_host_evidence_appendix "The pool shrank." [worker]) [worker] false = true.
Proof.
  split; [vm_compute; reflexivity|].
  exact (proj1 (proj2 (linked_round_ends_grounded "The pool shrank." [worker] false true 1 8
    (proj2 (Forall_singleton _ _) (Forall_inv demo_citable)) eq_refl))).
Defined.

Lemma turn_identities_are_bounded_witness :
  zlen (extend_linked_log_identities [] [worker; gateway; worker]) ≤ CURRENT_TURN_IDENTITY_CAP ∧
  extend_linked_log_identities [] [worker; gateway; worker] = [gateway; worker].
Proof.
  split; [|vm_compute; reflexivity].
  refine (proj1 (proj2 (turn_identities_are_bounded [] [worker; gateway; worker] _ _))); [constructor|done].
Defined.
