(* ===== verification/RequiredReads.v ===== *)
(** * Sources a linked question requires

    Which sources a question about linked logs asks for, which of them the offered
    tools cannot read, and which reads are still missing before an answer may be
    given ([cd-core/src/agent.rs], from [linked_broad_log_triage_requested] to
    [missing_linked_required_sources]). A tool specification is its name. *)
From Stdlib Require Import ZArith Lia Ascii String.
From stdpp Require Import base tactics option list list_numbers gmap strings.
From S2P Require Import Prelude RustStr.

Local Open Scope string_scope.
Local Open Scope list_scope.
Local Open Scope Z_scope.

(** ** Names *)

Definition SEARCH_LOGS : string := "search_logs".
Definition CLUSTER_PROBLEMS : string := "cluster_problems".
Definition TIMELINE : string := "timeline".
Definition SEARCH_KB : string := "search_kb".
Definition RECALL_MEMORY : string := "recall_memory".
Definition WEB_SEARCH : string := "web_search".

(** ** Broad questions *)

(** [user_text.chars().map(..)]: ASCII letters and digits in lower case, a space for
    every other character. *)
Definition plain_char (ch : list ascii) : ascii :=
  match ch with
  | [c] => if is_ascii_alphanumeric c then byte_lower c else " "%char
  | _ => " "%char
  end.
Definition normalized (user_text : string) : string :=
  join " " (split_whitespace (of_bytes (plain_char <$> chars_of (bytes user_text)))).

Definition any_in (needles : list string) (s : string) : bool := existsb (λ n, contains n s) needles.
Definition one_of_words (words : list string) (w : string) : bool := bool_decide (w ∈ words).

Definition FOCUSED_CUES : list string :=
  [" trace "; " trace id "; " trace_id "; " event id "; " event_id "; " request id "; " request_id ";
   " sequence "; " seq "; " error code "; " error_code "].
Definition FOCUSED_RAW : list string := ["source="; "service="; "host="; ".log"; ".jsonl"].
Definition has_digit (w : string) : bool := existsb is_ascii_digit (bytes w).
Definition has_focused_cue (user_text : string) : bool :=
  let normalized := normalized user_text in
  any_in FOCUSED_CUES (" " +:+ normalized +:+ " ") ||
  any_in FOCUSED_RAW (to_ascii_lowercase user_text) ||
  existsb has_digit (split_whitespace normalized).

Definition broad_scope_noun : string → bool :=
  one_of_words ["corpus"; "dataset"; "logs"; "sources"; "services"; "everything"].
Fixpoint windows2 (l : list string) : list (string * string) :=
  match l with
  | a :: r => match r with b :: _ => (a, b) :: windows2 r | [] => [] end
  | [] => []
  end.
Definition broad_pair (w : string * string) : bool :=
  (one_of_words ["whole"; "entire"; "all"; "every"; "cross"; "multiple"; "this"; "that"] w.1 && broad_scope_noun w.2) ||
  bool_decide (w = ("corpus", "wide")).
Fixpoint across_scope (tokens : list string) : bool :=
  match tokens with
  | [] => false
  | t :: rest => (bool_decide (t = "across") && existsb broad_scope_noun (take 4 rest)) || across_scope rest
  end.
Definition explicit_broad_scope (tokens : list string) : bool :=
  existsb (one_of_words ["broad"; "overall"; "everything"; "comprehensive"]) tokens ||
  existsb broad_pair (windows2 tokens) || across_scope tokens.
Definition causal_intent (tokens : list string) : bool :=
  existsb (one_of_words ["cause"; "caused"; "causing"; "explain"; "explains"; "explained"; "why"; "led"; "root"]) tokens.

Definition BROAD_ACTIONS : list string :=
  [" triage "; " analyze "; " analyse "; " review "; " inspect "; " summarize "; " summarise "; " overview ";
   " what "; " find "; " identify "; " tell "; " show "].
Definition PROBLEM_CUES : list string :=
  [" problem"; " issue"; " wrong "; " error"; " failure"; " warn"; " anomal"; " root cause"; " stand out";
   " interesting"; " concern"; " unhealthy"].
Definition LOG_SCOPES : list string := [" log "; " logs "; " corpus "; " these "; " everything "; " overall "].

Definition linked_broad_log_triage_requested (user_text : string) : bool :=
  if has_focused_cue user_text then false
  else
    let normalized := normalized user_text in
    let padded := " " +:+ normalized +:+ " " in
    let tokens := split_whitespace normalized in
    if causal_intent tokens then true
    else
      any_in BROAD_ACTIONS padded && (explicit_broad_scope tokens || any_in LOG_SCOPES padded) &&
      (any_in PROBLEM_CUES padded || contains " triage " padded).

(** ** Requested sources *)

Definition linked_workspace_search_requested (user_text : string) : bool :=
  any_in ["runbook"; "workspace"; "markdown"; "readme"; "knowledge base"; "documentation"; " docs"; "file evidence"]
    (to_ascii_lowercase user_text).

Record LinkedSourceRequests := {
  req_memory : bool; req_database : bool; req_connector : bool; req_confluence : bool; req_web : bool;
}.
Definition linked_broader_source_requests (user_text : string) : LinkedSourceRequests :=
  let lower := to_ascii_lowercase user_text in
  {| req_memory := any_in ["durable memory"; "memory note"; "remembered context"] lower;
     req_database := any_in ["incident database"; "database connector"; "query the database"; " sqlite"; " postgres"; " sql "] lower;
     req_connector := contains "connector" lower && negb (contains "database connector" lower);
     req_confluence := contains "confluence" lower;
     req_web := any_in ["web search"; "internet"] lower |}.

Definition named (n : string) : string → bool := λ name, bool_decide (name = n).
Definition is_sql (name : string) : bool := starts_with "sql_query__" name.
Definition is_confluence (name : string) : bool := starts_with "confluence_" name.
Definition is_connector (name : string) : bool :=
  starts_with "mcp__" name || is_sql name || starts_with "http_request__" name || is_confluence name.

Definition linked_workspace_evidence_required (user_text : string) (specs : list string) : bool :=
  linked_workspace_search_requested user_text && existsb (named SEARCH_KB) specs.

(** [if requested && !specs.iter().any(..) { unavailable.push(label) }] *)
Definition unavailable_if (requested : bool) (p : string → bool) (label : string) (specs : list string) : list string :=
  if requested && negb (existsb p specs) then [label] else [].
Definition linked_unavailable_requested_sources (user_text : string) (specs : list string) : list string :=
  let requested := linked_broader_source_requests user_text in
  unavailable_if (linked_workspace_search_requested user_text) (named SEARCH_KB) "workspace files/runbooks" specs ++
  unavailable_if (req_memory requested) (named RECALL_MEMORY) "durable memory" specs ++
  unavailable_if (req_database requested) is_sql "database connectors" specs ++
  unavailable_if (req_connector requested) is_connector "configured connectors" specs ++
  unavailable_if (req_confluence requested) is_confluence "Confluence" specs ++
  unavailable_if (req_web requested) (named WEB_SEARCH) "web research" specs.

Record LinkedRequiredRead := { rr_label : string; rr_tool_names : list string }.
Definition succeeded (successful_tools : gset string) (r : LinkedRequiredRead) : bool :=
  existsb (λ tool, bool_decide (tool ∈ successful_tools)) (rr_tool_names r).
Definition matching_tool_names (specs : list string) (predicate : string → bool) : list string :=
  List.filter predicate specs.
Definition required_if (requested : bool) (p : string → bool) (label : string) (specs : list string) :
    list LinkedRequiredRead :=
  if requested then [{| rr_label := label; rr_tool_names := matching_tool_names specs p |}] else [].

Definition linked_required_reads (user_text : string) (specs : list string) : list LinkedRequiredRead :=
  let requested := linked_broader_source_requests user_text in
  required_if true (named SEARCH_LOGS) "linked logs" specs ++
  required_if (linked_broad_log_triage_requested user_text) (named CLUSTER_PROBLEMS) "problem clusters" specs ++
  required_if (linked_broad_log_triage_requested user_text) (named TIMELINE) "timeline" specs ++
  required_if (linked_workspace_search_requested user_text) (named SEARCH_KB) "workspace files/runbooks" specs ++
  required_if (req_memory requested) (named RECALL_MEMORY) "durable memory" specs ++
  required_if (req_database requested) is_sql "database connectors" specs ++
  required_if (req_connector requested) is_connector "configured connectors" specs ++
  required_if (req_confluence requested) is_confluence "Confluence" specs ++
  required_if (req_web requested) (named WEB_SEARCH) "web research" specs.

(** ** What is missing *)

Definition missing_linked_required_sources (required_reads : list LinkedRequiredRead) (successful_tools : gset string)
    (unavailable_sources : list string) : list string :=
  (rr_label <$> List.filter (λ r, negb (succeeded successful_tools r)) required_reads) ++ unavailable_sources.

Definition missing_required_read (required_reads : list LinkedRequiredRead) (successful_tools : gset string) :
    option LinkedRequiredRead :=
  List.find (λ r, negb (succeeded successful_tools r)) required_reads.
Definition missing_required_tool (required_reads : list LinkedRequiredRead) (successful_tools : gset string) :
    option string :=
  r ← missing_required_read required_reads successful_tools; head (rr_tool_names r).
Definition linked_required_evidence_satisfied (linked_turn : bool) (required_reads : list LinkedRequiredRead)
    (successful_tools : gset string) (unavailable_sources : list string) : bool :=
  negb linked_turn ||
  (negb (is_some (missing_required_read required_reads successful_tools)) && bool_decide (unavailable_sources = [])).

(** ** The contract

    One row for each source: whether the question asks for it, which tools read it,
    and how it is called. *)
Definition SourceRow := (bool * (string → bool) * string)%type.
Definition source_table (user_text : string) : list SourceRow :=
  let requested := linked_broader_source_requests user_text in
  let broad := linked_broad_log_triage_requested user_text in
  [(true, named SEARCH_LOGS, "linked logs"); (broad, named CLUSTER_PROBLEMS, "problem clusters");
   (broad, named TIMELINE, "timeline");
   (linked_workspace_search_requested user_text, named SEARCH_KB, "workspace files/runbooks");
   (req_memory requested, named RECALL_MEMORY, "durable memory"); (req_database requested, is_sql, "database connectors");
   (req_connector requested, is_connector, "configured connectors"); (req_confluence requested, is_confluence, "Confluence");
   (req_web requested, named WEB_SEARCH, "web research")].
(** A tool that reads the source was offered and succeeded. *)
Definition was_read (specs : list string) (successful : gset string) (p : string → bool) : Prop :=
  ∃ tool, tool ∈ specs ∧ p tool = true ∧ tool ∈ successful.

Definition required_row (specs : list string) (row : SourceRow) : list LinkedRequiredRead :=
  required_if row.1.1 row.1.2 row.2 specs.
Lemma required_reads_rows user_text specs :
  linked_required_reads user_text specs = source_table user_text ≫= required_row specs.
Proof. unfold source_table. cbn [mbind list_bind app]. by rewrite app_nil_r. Qed.

Lemma succeeded_spec specs successful p label :
  succeeded successful {| rr_label := label; rr_tool_names := matching_tool_names specs p |} = true ↔
  was_read specs successful p.
Proof.
  unfold succeeded, matching_tool_names. cbn [rr_tool_names]. rewrite existsb_elem_of. split.
  - intros (tool & [Hin Hp]%elem_of_filter_bool & Hs%bool_decide_eq_true). by exists tool.
  - intros (tool & Hin & Hp & Hs). exists tool. split; [by apply elem_of_filter_bool|by apply bool_decide_eq_true].
Qed.

Lemma required_read_elem user_text specs r :
  r ∈ linked_required_reads user_text specs ↔
  ∃ p label, (true, p, label) ∈ source_table user_text ∧
    r = {| rr_label := label; rr_tool_names := matching_tool_names specs p |}.
Proof.
  rewrite required_reads_rows, list_elem_of_bind. split.
  - intros ([[b p] label] & Hr & Hrow). unfold required_row, required_if in Hr. cbn in Hr. destruct b.
    + apply list_elem_of_singleton in Hr as ->. eauto.
    + by apply elem_of_nil in Hr.
  - intros (p & label & Hrow & ->). exists (true, p, label). split; [|done]. by apply list_elem_of_singleton.
Qed.

(** A source that no offered tool reads is a row that was not read. *)
Lemma unavailable_if_elem requested p l specs label :
  label ∈ unavailable_if requested p l specs →
  requested = true ∧ label = l ∧ ∀ successful, ¬ was_read specs successful p.
Proof.
  unfold unavailable_if. destruct requested; [|by intros ?%elem_of_nil]. destruct (existsb p specs) eqn:E; [by intros ?%elem_of_nil|].
  intros ->%list_elem_of_singleton. split_and!; [done..|]. intros successful (tool & Ht & Hp & _).
  apply existsb_false_Forall in E. rewrite Forall_forall in E. specialize (E tool Ht). cbn in E. congruence.
Qed.
Lemma unavailable_elem user_text specs label :
  label ∈ linked_unavailable_requested_sources user_text specs →
  ∃ p, (true, p, label) ∈ source_table user_text ∧ ∀ successful, ¬ was_read specs successful p.
Proof.
  unfold linked_unavailable_requested_sources, source_table. rewrite !elem_of_app.
  intros [H|[H|[H|[H|[H|H]]]]]; apply unavailable_if_elem in H as (Hr & -> & Hno); rewrite Hr;
    (eexists; split; [|exact Hno]); set_solver.
Qed.

Lemma find_filter_nil {A} (p : A → bool) l : is_some (List.find p l) = negb (bool_decide (List.filter p l = [])).
Proof.
  induction l as [|x l IH]; [done|]. cbn. destruct (p x); [|exact IH]. by rewrite bool_decide_eq_false_2.
Qed.
Lemma satisfied_no_missing required successful unavailable :
  linked_required_evidence_satisfied true required successful unavailable =
  bool_decide (missing_linked_required_sources required successful unavailable = []).
Proof.
  unfold linked_required_evidence_satisfied, missing_required_read, missing_linked_required_sources. cbn [negb orb].
  rewrite find_filter_nil, negb_involutive. apply eq_true_iff_eq. rewrite andb_true_iff, !bool_decide_eq_true.
  rewrite app_nil. destruct (List.filter _ _); naive_solver.
Qed.


(** A question that asks for a source no tool can read never gets a grounded
    answer, whatever is read: the source is required as well as unavailable. It is
    also reported twice. *)
Theorem unavailable_source_strands_the_turn user_text specs label successful :
  label ∈ linked_unavailable_requested_sources user_text specs →
  linked_required_evidence_satisfied true (linked_required_reads user_text specs) successful
    (linked_unavailable_requested_sources user_text specs) = false ∧
  label ∈ rr_label <$> List.filter (λ r, negb (succeeded successful r)) (linked_required_reads user_text specs).
Proof.
  intros Hun. pose proof (unavailable_elem _ _ _ Hun) as (p & Hrow & Hno). split.
  - rewrite satisfied_no_missing. apply bool_decide_eq_false. unfold missing_linked_required_sources.
    intros [_ Hnil]%app_nil. rewrite Hnil in Hun. by apply elem_of_nil in Hun.
  - apply list_elem_of_fmap. exists {| rr_label := label; rr_tool_names := matching_tool_names specs p |}. split; [done|].
    apply elem_of_filter_bool. split; [apply required_read_elem; eauto|].
    apply negb_true_iff, not_true_iff_false. by rewrite succeeded_spec.
Qed.

(** ** Witnesses *)

Lemma unavailable_source_strands_the_turn_witness :
  let q := "Compare these logs with durable memory" in let specs := [SEARCH_LOGS] in
  linked_required_evidence_satisfied true (linked_required_reads q specs) {[SEARCH_LOGS]}
    (linked_unavailable_requested_sources q specs) = false ∧
  missing_linked_required_sources (linked_required_reads q specs) {[SEARCH_LOGS]}
    (linked_unavailable_requested_sources q specs) = ["durable memory"; "durable memory"].
Proof.
  cbn zeta. split; [|vm_compute; reflexivity].
  refine (proj1 (unavailable_source_strands_the_turn _ _ "durable memory" _ _)).
  refine (bool_decide_eq_true_1 _ _). vm_compute. reflexivity.
Defined.

Lemma broad_question_example :
  linked_broad_log_triage_requested "What problems are in these logs?" = true ∧
  linked_broad_log_triage_requested "Why did checkout fail?" = true ∧
  linked_broad_log_triage_requested "Why did job 7 fail?" = false.
Proof. vm_compute. done. Qed.
