(* ===== verification/Review.v ===== *)
(** * Stage contracts of the multi-model investigation

    What a model may propose in the investigation and review stages and what the
    host makes of it ([cd-core/src/multi_model/contracts.rs]): candidate findings,
    review reports, the set of known claims ([pipeline.rs]) and the Markdown
    projection of a report. JSON decoding is a parameter. *)
From Stdlib Require Import ZArith Lia Ascii String.
From stdpp Require Import base tactics option list list_numbers sets sorting strings.
From S2P Require Import Prelude RustStr Crypto BTree TriageSdk Answer Display.

Local Open Scope string_scope.
Local Open Scope list_scope.
Local Open Scope Z_scope.

(** ** Data *)

Inductive InvestigationRole := Investigator | Reviewer | CausalSynthesizer | Synthesizer.
Definition role_as_str (r : InvestigationRole) : string :=
  match r with
  | Investigator => "investigator" | Reviewer => "reviewer"
  | CausalSynthesizer => "causal_synthesizer" | Synthesizer => "synthesizer"
  end.
Record RoleBinding := {
  rb_role : InvestigationRole; rb_profile_id : string; rb_model : string; rb_semantic_attempts : Z;
}.

Definition CANDIDATE_FINDING_SCHEMA_V1 : string := "contextdesk.multi_model.candidate_finding.v1".
Definition REVIEW_SCHEMA_V1 : string := "contextdesk.multi_model.review.v1".

Record ModelCandidateFindingV1 := {
  mf_schema : string; mf_candidate_id : string;
  mf_observations : list ModelClaimV1; mf_symptoms : list ModelClaimV1;
  mf_causal_candidates : list ModelClaimV1; mf_missing_evidence : list ModelClaimV1;
}.
Record CandidateFindingV1 := {
  fd_candidate_id : string; fd_claims : list InvestigationClaimV1;
  fd_citations : list CanonicalCitationV1; fd_role_binding : RoleBinding;
}.
Record ModelGapV1 := {
  mg_gap_id : string; mg_candidate_id : string; mg_text : string; mg_related_evidence_ids : list string;
}.
(** A contradiction has the same fields before and after validation. *)
Record ReviewContradiction := {
  rc_contradiction_id : string; rc_candidate_a : string; rc_claim_a_id : string;
  rc_candidate_b : string; rc_claim_b_id : string; rc_text : string; rc_evidence_ids : list string;
}.
Definition ModelContradictionV1 := ReviewContradiction.
Record ModelReviewReportV1 := {
  mr_schema : string; mr_evidence_gaps : list ModelGapV1; mr_contradictions : list ModelContradictionV1;
}.
Record ReviewGap := {
  gap_id : string; gap_candidate_id : string; gap_text : string; gap_evidence_ids : list string;
}.
Record ReviewReportV1 := {
  rp_gaps : list ReviewGap; rp_contradictions : list ReviewContradiction; rp_role_binding : RoleBinding;
}.

(** [BTreeSet<(String, String)>] *)
Definition KnownClaims := list (string * string).
Definition known_claims (findings : list CandidateFindingV1) : KnownClaims :=
  set_collect (findings ≫= λ f, (λ c, (fd_candidate_id f, claim_id c)) <$> fd_claims f).

(** ** Inert identifiers *)

Definition smuggles (c : char) : bool := is_control c || is_line_boundary c || is_bidi_formatting_control c.
Definition is_inert_id (id : string) : bool := negb (is_empty id) && negb (existsb smuggles (chars_of (bytes id))).

(** ** Cited evidence *)

(** The loop over the evidence ids of a claim, a gap or a contradiction. *)
Fixpoint check_cited (ledger : HostEvidenceLedger) (in_scope : string → bool) (seen ids : list string) :
    result ValidationError unit :=
  match ids with
  | [] => Ok tt
  | id :: rest =>
      if bool_decide (id ∈ seen) then Err VDuplicateId else
      match ledger_get ledger id with
      | None => Err VUnknownEvidence
      | Some entry =>
          if negb (in_scope (ev_candidate_id entry)) then Err VWrongScope
          else if negb (bool_decide (ev_corpus_id entry = bind_corpus_id (led_binding ledger))) ||
                  negb (bool_decide (ev_revision entry = bind_revision (led_binding ledger)))
          then Err VWrongRevision
          else check_cited ledger in_scope (id :: seen) rest
      end
  end.

(** ** Findings *)

Definition finding_sections (p : ModelCandidateFindingV1) : list (ClaimKind * ModelClaimV1) :=
  ((Observation,.) <$> mf_observations p) ++ ((SymptomClaim,.) <$> mf_symptoms p) ++
  ((CausalCandidate,.) <$> mf_causal_candidates p) ++ ((MissingEvidence,.) <$> mf_missing_evidence p).

Definition finding_claim (cand : string) (kc : ClaimKind * ModelClaimV1) : InvestigationClaimV1 :=
  {| claim_id := mc_claim_id kc.2; claim_kind := kc.1; claim_text := mc_text kc.2; claim_candidate_id := cand;
     claim_evidence_ids := mc_evidence_ids kc.2; claim_status := Supported |}.

Definition Citations := list (string * CanonicalCitationV1).
Fixpoint check_finding_claims (ledger : HostEvidenceLedger) (cand : string) (ids : list string)
    (citations : Citations) (claims : list (ClaimKind * ModelClaimV1)) :
    result ValidationError (list InvestigationClaimV1 * Citations) :=
  match claims with
  | [] => Ok ([], citations)
  | (kind, claim) :: rest =>
      if negb (is_inert_id (mc_claim_id claim)) then Err VSchema
      else if is_empty (mc_claim_id claim) || bool_decide (mc_claim_id claim ∈ ids) then Err VDuplicateId
      else if bool_decide (mc_evidence_ids claim = []) && negb (bool_decide (kind = MissingEvidence))
      then Err VEmptyEvidence
      else
        check_cited ledger (λ c, bool_decide (c = cand)) [] (mc_evidence_ids claim) ≫= λ _,
        check_finding_claims ledger cand (mc_claim_id claim :: ids)
          (foldl (cite_id ledger) citations (mc_evidence_ids claim)) rest ≫= λ '(done, citations),
        Ok (finding_claim cand (kind, claim) :: done, citations)
  end.

Section decode.
Context (finding_from_str : string → option ModelCandidateFindingV1)
        (review_from_str : string → option ModelReviewReportV1).

Definition validate_candidate_finding (raw : string) (ledger : HostEvidenceLedger) (cand : string)
    (role_binding : RoleBinding) : result ValidationError CandidateFindingV1 :=
  ok_or (finding_from_str raw) VParse ≫= λ proposal,
  reject_if (negb (bool_decide (mf_schema proposal = CANDIDATE_FINDING_SCHEMA_V1))) VSchema ≫= λ _,
  reject_if (negb (bool_decide (mf_candidate_id proposal = cand))) VWrongScope ≫= λ _,
  check_finding_claims ledger cand [] [] (finding_sections proposal) ≫= λ '(claims, citations),
  Ok {| fd_candidate_id := cand; fd_claims := claims; fd_citations := citations.*2;
        fd_role_binding := role_binding |}.

(** ** Reviews *)

Definition review_gap (g : ModelGapV1) : ReviewGap :=
  {| gap_id := mg_gap_id g; gap_candidate_id := mg_candidate_id g; gap_text := mg_text g;
     gap_evidence_ids := mg_related_evidence_ids g |}.

Fixpoint check_gaps (ledger : HostEvidenceLedger) (ids : list string) (gaps : list ModelGapV1) :
    result ValidationError (list string) :=
  match gaps with
  | [] => Ok ids
  | gap :: rest =>
      if negb (is_inert_id (mg_gap_id gap)) then Err VSchema
      else if is_empty (mg_gap_id gap) || bool_decide (mg_gap_id gap ∈ ids) then Err VDuplicateId
      else if negb (bool_decide (mg_candidate_id gap ∈ ledger_candidate_ids ledger)) then Err VWrongScope
      else check_cited ledger (λ c, bool_decide (c = mg_candidate_id gap)) [] (mg_related_evidence_ids gap) ≫= λ _,
           check_gaps ledger (mg_gap_id gap :: ids) rest
  end.

Definition in_either (c : ReviewContradiction) (cand : string) : bool :=
  bool_decide (cand = rc_candidate_a c) || bool_decide (cand = rc_candidate_b c).
Fixpoint check_contradictions (ledger : HostEvidenceLedger) (known : KnownClaims) (ids : list string)
    (cs : list ModelContradictionV1) : result ValidationError unit :=
  match cs with
  | [] => Ok tt
  | c :: rest =>
      if negb (is_inert_id (rc_contradiction_id c)) then Err VSchema
      else if is_empty (rc_contradiction_id c) || bool_decide (rc_contradiction_id c ∈ ids) then Err VDuplicateId
      else if bool_decide (rc_candidate_a c = rc_candidate_b c) ||
              negb (bool_decide (rc_candidate_a c ∈ ledger_candidate_ids ledger)) ||
              negb (bool_decide (rc_candidate_b c ∈ ledger_candidate_ids ledger)) then Err VWrongScope
      else if negb (bool_decide ((rc_candidate_a c, rc_claim_a_id c) ∈ known)) then Err VWrongScope
      else if negb (bool_decide ((rc_candidate_b c, rc_claim_b_id c) ∈ known)) then Err VWrongScope
      else check_cited ledger (in_either c) [] (rc_evidence_ids c) ≫= λ _,
           check_contradictions ledger known (rc_contradiction_id c :: ids) rest
  end.

Definition validate_review_report (raw : string) (ledger : HostEvidenceLedger) (known : KnownClaims)
    (role_binding : RoleBinding) : result ValidationError ReviewReportV1 :=
  ok_or (review_from_str raw) VParse ≫= λ proposal,
  reject_if (negb (bool_decide (mr_schema proposal = REVIEW_SCHEMA_V1))) VSchema ≫= λ _,
  check_gaps ledger [] (mr_evidence_gaps proposal) ≫= λ ids,
  check_contradictions ledger known ids (mr_contradictions proposal) ≫= λ _,
  Ok {| rp_gaps := review_gap <$> mr_evidence_gaps proposal; rp_contradictions := mr_contradictions proposal;
        rp_role_binding := role_binding |}.
End decode.

(** ** Projection *)

Definition NL : string := String LF EmptyString.
(** [ev.sort_unstable(); ev.dedup()] and the list of spans. *)
Definition cited_list (lead : string) (ids : list string) : string :=
  let ev := set_collect ids in
  if bool_decide (ev = []) then EmptyString else lead +:+ join ", " (literal_span <$> ev).
Definition render_gap (gap : ReviewGap) : string :=
  "- " +:+ literal_span (gap_id gap) +:+ " (candidate " +:+ literal_span (gap_candidate_id gap) +:+ "): " +:+
  literal_span (gap_text gap) +:+ cited_list " — relates " (gap_evidence_ids gap) +:+ NL.
Definition render_contradiction (c : ReviewContradiction) : string :=
  "- " +:+ literal_span (rc_contradiction_id c) +:+ ": candidate " +:+ literal_span (rc_candidate_a c) +:+ " claim " +:+
  literal_span (rc_claim_a_id c) +:+ " vs candidate " +:+ literal_span (rc_candidate_b c) +:+ " claim " +:+
  literal_span (rc_claim_b_id c) +:+ " — " +:+ literal_span (rc_text c) +:+
  cited_list " — cites " (rc_evidence_ids c) +:+ NL.
Definition gap_leb (a b : ReviewGap) : bool := bool_decide (key_le (gap_id a) (gap_id b)).
Definition contradiction_leb (a b : ReviewContradiction) : bool :=
  bool_decide (key_le (rc_contradiction_id a) (rc_contradiction_id b)).
Definition concat_str (l : list string) : string := foldr (λ a b, a +:+ b) EmptyString l.

Definition render_review_markdown (report : ReviewReportV1) : string :=
  "## Review" +:+ NL +:+ NL +:+
  "- Reviewer: role " +:+ role_as_str (rb_role (rp_role_binding report)) +:+ " · profile " +:+
  literal_span (rb_profile_id (rp_role_binding report)) +:+ " · model " +:+
  literal_span (rb_model (rp_role_binding report)) +:+ NL +:+
  NL +:+ "**Evidence gaps**" +:+ NL +:+ NL +:+
  (let gaps := sort_by gap_leb (rp_gaps report) in
   if bool_decide (rp_gaps report = []) then "- none reported" +:+ NL else concat_str (render_gap <$> gaps)) +:+
  NL +:+ "**Contradictions**" +:+ NL +:+ NL +:+
  (let cs := sort_by contradiction_leb (rp_contradictions report) in
   if bool_decide (rp_contradictions report = []) then "- none reported" +:+ NL
   else concat_str (render_contradiction <$> cs)).

(** ** What is accepted *)

Definition row_ok (ledger : HostEvidenceLedger) (in_scope : string → bool) (id : string) : Prop :=
  ∃ e, ledger_get ledger id = Some e ∧ in_scope (ev_candidate_id e) = true ∧
    ev_corpus_id e = bind_corpus_id (led_binding ledger) ∧ ev_revision e = bind_revision (led_binding ledger).
Definition cites_ok (ledger : HostEvidenceLedger) (in_scope : string → bool) (ids : list string) : Prop :=
  NoDup ids ∧ Forall (row_ok ledger in_scope) ids.

Lemma check_cited_Ok ledger in_scope seen ids :
  check_cited ledger in_scope seen ids = Ok tt ↔ cites_ok ledger in_scope ids ∧ ∀ id, id ∈ ids → id ∉ seen.
Proof.
  unfold cites_ok. revert seen. induction ids as [|id ids IH]; intros seen; cbn.
  { split; [intros _; split; [split; constructor|]; by intros id ?%elem_of_nil|done]. }
  rewrite NoDup_cons, Forall_cons. unfold row_ok at 1. destruct (decide (id ∈ seen)) as [Hin|Hin].
  { rewrite bool_decide_eq_true_2 by done. split; [done|]. intros (_ & Hn). exfalso. by apply (Hn id); [left|]. }
  rewrite bool_decide_eq_false_2 by done.
  destruct (ledger_get ledger id) as [e|]; [|split; [done|by intros ([_ [(? & ? & _) _]] & _)]].
  destruct (in_scope (ev_candidate_id e)) eqn:Hs; cbn [negb].
  2:{ split; [done|]. intros ([_ [(e' & [= <-] & ? & _) _]] & _). congruence. }
  destruct (_ || _) eqn:Hb.
  { split; [done|]. intros ([_ [(e' & [= <-] & _ & ? & ?) _]] & _). exfalso.
    apply orb_true_iff in Hb as [Hb|Hb]; split_bool; done. }
  split_bool. rewrite IH. clear IH. set_solver.
Qed.

Definition finding_claim_ok (ledger : HostEvidenceLedger) (cand : string) (kc : ClaimKind * ModelClaimV1) : Prop :=
  is_inert_id (mc_claim_id kc.2) = true ∧ (mc_evidence_ids kc.2 = [] → kc.1 = MissingEvidence) ∧
  cites_ok ledger (λ c, bool_decide (c = cand)) (mc_evidence_ids kc.2).
Definition finding_ok (ledger : HostEvidenceLedger) (cand : string) (p : ModelCandidateFindingV1) : Prop :=
  mf_schema p = CANDIDATE_FINDING_SCHEMA_V1 ∧ mf_candidate_id p = cand ∧
  NoDup (mc_claim_id <$> (finding_sections p).*2) ∧ Forall (finding_claim_ok ledger cand) (finding_sections p).
Definition finding_of (ledger : HostEvidenceLedger) (cand : string) (rb : RoleBinding) (p : ModelCandidateFindingV1) :
    CandidateFindingV1 :=
  {| fd_candidate_id := cand; fd_claims := finding_claim cand <$> finding_sections p;
     fd_citations := citation_of <$> List.filter
       (λ e, bool_decide (ev_evidence_id e ∈ ((finding_sections p).*2 ≫= mc_evidence_ids))) (ledger_rows ledger);
     fd_role_binding := rb |}.

Lemma inert_not_empty id : is_inert_id id = true → is_empty id = false.
Proof. unfold is_inert_id. intros H. by split_bool. Qed.

Lemma check_finding_claims_Ok ledger cand ids cits claims done cits' :
  check_finding_claims ledger cand ids cits claims = Ok (done, cits') ↔
    Forall (finding_claim_ok ledger cand) claims ∧ NoDup (mc_claim_id <$> claims.*2) ∧
    (∀ x, x ∈ mc_claim_id <$> claims.*2 → x ∉ ids) ∧ done = finding_claim cand <$> claims ∧
    cits' = foldl (cite_id ledger) cits (claims.*2 ≫= mc_evidence_ids).
Proof.
  revert ids cits done cits'. induction claims as [|[kind claim] claims IH]; intros ids cits done cits'; cbn.
  { split; [intros [= <- <-]; split_and!; [constructor..|set_solver|done|done]|by intros (_ & _ & _ & -> & ->)]. }
  rewrite Forall_cons, NoDup_cons. unfold finding_claim_ok at 1. cbn [fst snd].
  destruct (is_inert_id (mc_claim_id claim)) eqn:Hi; cbn [negb]; [|naive_solver].
  rewrite (inert_not_empty _ Hi). cbn [orb]. destruct (decide (mc_claim_id claim ∈ ids)) as [Hin|Hin].
  { rewrite bool_decide_eq_true_2 by done. split; [done|]. intros (_ & _ & Hf & _). exfalso. by apply (Hf (mc_claim_id claim)); [left|]. }
  rewrite bool_decide_eq_false_2 by done. destruct (bool_decide (mc_evidence_ids claim = []) && _) eqn:Hev.
  { split; [done|]. split_bool. naive_solver. }
  assert (mc_evidence_ids claim = [] → kind = MissingEvidence) as Hev'.
  { intros E. rewrite E in Hev. cbn in Hev. by split_bool. }
  rewrite bind_Ok. setoid_rewrite bind_Ok. split.
  - intros ([] & [Hc _]%check_cited_Ok & [done1 c1] & Hrest & [= <- <-]).
    apply IH in Hrest as (H1 & H2 & H3 & -> & ->). split_and!; try done; [set_solver..|by rewrite foldl_app].
  - intros ([(_ & _ & Hc) Hcl] & [Hni Hnd'] & Hfresh & -> & ->). exists tt.
    split; [apply check_cited_Ok; split; [done|set_solver]|]. eexists (_, _). split; [|reflexivity].
    apply IH. split_and!; [done|done| |done|by rewrite foldl_app]. intros x Hx. specialize (Hfresh x). set_solver.
Qed.

(** A candidate finding is accepted exactly when it stays in its scope: it names
    its own candidate, its claims have distinct inert ids, cite at least one row
    (unless they report missing evidence), each once, and only rows of the ledger
    that belong to this candidate and the bound snapshot. The finding the host keeps
    then cites exactly the rows the claims cite, in ledger order, and establishes
    nothing. *)
Theorem finding_accepted_iff_in_scope `{Sha2} from_str binding evidence ledger raw cand rb finding :
  HostEvidenceLedger_new binding evidence = Ok ledger →
  validate_candidate_finding from_str raw ledger cand rb = Ok finding ↔
    ∃ p, from_str raw = Some p ∧ finding_ok ledger cand p ∧ finding = finding_of ledger cand rb p.
Proof.
  intros (Hok & _)%ledger_new_Ok. unfold validate_candidate_finding, finding_ok, finding_of. split.
  - intros (p & Hp%ok_or_Ok & Hv)%bind_Ok. apply bind_Ok in Hv as ([] & Hs%reject_if_Ok & Hv).
    apply bind_Ok in Hv as ([] & Hcand%reject_if_Ok & Hv). apply bind_Ok in Hv as ([claims cits] & Hc & [= <-]). split_bool.
    apply check_finding_claims_Ok in Hc as (H1 & H2 & _ & -> & ->).
    exists p. split_and!; [done..|]. by rewrite citations_are_cited_rows.
  - intros (p & Hp & (Hs & Hc & Hnd & Hall) & ->). rewrite Hp. cbn [ok_or]. cbn. rewrite Hs, Hc.
    rewrite !bool_decide_eq_true_2 by done. cbn.
    assert (check_finding_claims ledger cand [] [] (finding_sections p) =
            Ok (finding_claim cand <$> finding_sections p,
                foldl (cite_id ledger) [] ((finding_sections p).*2 ≫= mc_evidence_ids))) as ->.
    { apply check_finding_claims_Ok. split_and!; [done|done| |done|done]. intros x _. apply not_elem_of_nil. }
    cbn. by rewrite citations_are_cited_rows.
Qed.

Definition gap_ok (ledger : HostEvidenceLedger) (g : ModelGapV1) : Prop :=
  is_inert_id (mg_gap_id g) = true ∧ mg_candidate_id g ∈ ledger_candidate_ids ledger ∧
  cites_ok ledger (λ c, bool_decide (c = mg_candidate_id g)) (mg_related_evidence_ids g).
Definition contradiction_ok (ledger : HostEvidenceLedger) (known : KnownClaims) (c : ReviewContradiction) : Prop :=
  is_inert_id (rc_contradiction_id c) = true ∧ rc_candidate_a c ≠ rc_candidate_b c ∧
  rc_candidate_a c ∈ ledger_candidate_ids ledger ∧ rc_candidate_b c ∈ ledger_candidate_ids ledger ∧
  (rc_candidate_a c, rc_claim_a_id c) ∈ known ∧ (rc_candidate_b c, rc_claim_b_id c) ∈ known ∧
  cites_ok ledger (in_either c) (rc_evidence_ids c).
Definition review_ok (ledger : HostEvidenceLedger) (known : KnownClaims) (p : ModelReviewReportV1) : Prop :=
  mr_schema p = REVIEW_SCHEMA_V1 ∧
  NoDup ((mg_gap_id <$> mr_evidence_gaps p) ++ (rc_contradiction_id <$> mr_contradictions p)) ∧
  Forall (gap_ok ledger) (mr_evidence_gaps p) ∧ Forall (contradiction_ok ledger known) (mr_contradictions p).

Lemma check_gaps_Ok ledger ids gaps ids' :
  check_gaps ledger ids gaps = Ok ids' ↔
    Forall (gap_ok ledger) gaps ∧ NoDup (mg_gap_id <$> gaps) ∧ (∀ x, x ∈ mg_gap_id <$> gaps → x ∉ ids) ∧
    ids' = rev (mg_gap_id <$> gaps) ++ ids.
Proof.
  revert ids ids'. induction gaps as [|g gaps IH]; intros ids ids'; cbn.
  { split; [intros [= <-]; split_and!; [constructor..| |done]; by intros x ?%elem_of_nil|by intros (_ & _ & _ & ->)]. }
  rewrite Forall_cons, NoDup_cons. unfold gap_ok at 1.
  destruct (is_inert_id (mg_gap_id g)) eqn:Hi; cbn [negb]; [|split; [done|by intros [[[? _] _] _]]].
  rewrite (inert_not_empty _ Hi). cbn [orb]. destruct (decide (mg_gap_id g ∈ ids)) as [Hin|Hin].
  { rewrite bool_decide_eq_true_2 by done. split; [done|]. intros (_ & _ & Hf & _). exfalso. by apply (Hf (mg_gap_id g)); [left|]. }
  rewrite bool_decide_eq_false_2 by done. destruct (decide (mg_candidate_id g ∈ ledger_candidate_ids ledger)) as [Hc|Hc].
  2:{ rewrite bool_decide_eq_false_2 by done. split; [done|by intros [[[_ [? _]] _] _]]. }
  rewrite bool_decide_eq_true_2 by done. cbn [negb]. rewrite bind_Ok. split.
  - intros ([] & [Hcc _]%check_cited_Ok & (H1 & H2 & H3 & ->)%IH). split_and!; try done; [set_solver..|].
    by rewrite <-(assoc_L (++)).
  - intros ([(_ & _ & Hcc) Hgs] & [Hni Hnd] & Hf & ->). exists tt.
    split; [apply check_cited_Ok; split; [done|]; intros ? _; apply not_elem_of_nil|].
    apply IH. split_and!; [done|done| |by rewrite <-(assoc_L (++))]. intros x Hx. specialize (Hf x). set_solver.
Qed.

Lemma check_contradictions_Ok ledger known ids cs :
  check_contradictions ledger known ids cs = Ok tt ↔
    Forall (contradiction_ok ledger known) cs ∧ NoDup (rc_contradiction_id <$> cs) ∧
    (∀ x, x ∈ rc_contradiction_id <$> cs → x ∉ ids).
Proof.
  revert ids. induction cs as [|c cs IH]; intros ids; cbn.
  { split; [intros _; split_and!; [constructor..|]; by intros x ?%elem_of_nil|done]. }
  rewrite Forall_cons, NoDup_cons. unfold contradiction_ok at 1.
  destruct (is_inert_id (rc_contradiction_id c)) eqn:Hi; cbn [negb]; [|split; [done|by intros [[[? _] _] _]]].
  rewrite (inert_not_empty _ Hi). cbn [orb]. destruct (decide (rc_contradiction_id c ∈ ids)) as [Hin|Hin].
  { rewrite bool_decide_eq_true_2 by done. split; [done|]. intros (_ & _ & Hf). exfalso. by apply (Hf (rc_contradiction_id c)); [left|]. }
  rewrite bool_decide_eq_false_2 by done.
  destruct (bool_decide (rc_candidate_a c = _) || _ || _) eqn:Hs.
  { split; [done|]. intros [[(_ & Hne & Ha & Hb & _) _] _]. exfalso.
    rewrite (bool_decide_eq_false_2 (rc_candidate_a c = _)), !bool_decide_eq_true_2 in Hs by done. done. }
  split_bool.
  destruct (bool_decide ((rc_candidate_a c, _) ∈ known)) eqn:Hka; cbn [negb]; split_bool; [|split; [done|by intros [[(_ & _ & _ & _ & ? & _) _] _]]].
  destruct (bool_decide ((rc_candidate_b c, _) ∈ known)) eqn:Hkb; cbn [negb]; split_bool; [|split; [done|by intros [[(_ & _ & _ & _ & _ & ? & _) _] _]]].
  rewrite bind_Ok. split.
  - intros ([] & [Hcc _]%check_cited_Ok & (HA & HB & HD)%IH). split_and!; try done; set_solver.
  - intros ([(_ & _ & _ & _ & _ & _ & Hcc) Hcs] & [Hni Hnd] & Hf). exists tt.
    split; [apply check_cited_Ok; split; [done|]; intros ? _; apply not_elem_of_nil|].
    apply IH. split_and!; [done|done|]. intros x Hx. specialize (Hf x). set_solver.
Qed.

(** A review is accepted exactly when it introduces nothing: its gaps and
    contradictions have distinct inert ids, a gap stays with one candidate of the
    ledger and its rows, and a contradiction names claims that stage two validated, of
    two different candidates, and rows of one of the two. *)
Theorem review_accepted_iff_grounded from_str raw ledger known rb report :
  validate_review_report from_str raw ledger known rb = Ok report ↔
    ∃ p, from_str raw = Some p ∧ review_ok ledger known p ∧
      report = {| rp_gaps := review_gap <$> mr_evidence_gaps p; rp_contradictions := mr_contradictions p;
                  rp_role_binding := rb |}.
Proof.
  unfold validate_review_report, review_ok. split.
  - intros (p & Hp%ok_or_Ok & Hv)%bind_Ok. apply bind_Ok in Hv as ([] & Hs%reject_if_Ok & Hv).
    apply bind_Ok in Hv as (ids & Hg & Hv). apply bind_Ok in Hv as ([] & Hc & [= <-]). split_bool.
    apply check_gaps_Ok in Hg as (H1 & H2 & _ & ->). apply check_contradictions_Ok in Hc as (H3 & H4 & H5).
    exists p. split_and!; try done. apply NoDup_app. split_and!; [done| |done]. intros x Hx Hx'.
    apply (H5 x Hx'). rewrite app_nil_r. by apply elem_of_rev.
  - intros (p & Hp & (Hs & Hnd & Hg & Hc) & ->). rewrite Hp. cbn. rewrite Hs, bool_decide_eq_true_2 by done. cbn.
    apply NoDup_app in Hnd as (Hng & Hdis & Hnc).
    rewrite (proj2 (check_gaps_Ok ledger [] (mr_evidence_gaps p) (rev (mg_gap_id <$> mr_evidence_gaps p) ++ []))); [|split_and!; [done|done| |reflexivity]; intros x _; apply not_elem_of_nil].
    cbn. rewrite (proj2 (check_contradictions_Ok ledger known (rev (mg_gap_id <$> mr_evidence_gaps p) ++ []) (mr_contradictions p))); [done|].
    split_and!; [done..|]. intros x Hx. rewrite app_nil_r, elem_of_rev. intros Hx'. by apply (Hdis x).
Qed.

(** The order in which a report lists its items does not show. *)
Lemma sort_by_id_perm {A} (id : A → string) (l k : list A) :
  NoDup (id <$> l) → l ≡ₚ k →
  sort_by (λ a b, bool_decide (key_le (id a) (id b))) l = sort_by (λ a b, bool_decide (key_le (id a) (id b))) k.
Proof.
  intros Hnd Hp. apply sort_by_perm_eq; [..|done].
  - intros x y Hxy%bool_decide_eq_false. apply bool_decide_eq_true. by destruct (total key_le (id x) (id y)).
  - intros x y z. rewrite !bool_decide_eq_true. apply (transitivity (R := key_le)).
  - intros x y Hx Hy. rewrite !bool_decide_eq_true. intros H1 H2.
    apply (NoDup_fmap_eq id l); [done..|]. by apply (anti_symm key_le).
Qed.

(** The projection of a review shows its content only: however the model ordered
    its gaps and contradictions, the same Markdown is rendered. *)
Theorem rendered_review_ignores_order r r' :
  NoDup (gap_id <$> rp_gaps r) → NoDup (rc_contradiction_id <$> rp_contradictions r) →
  rp_gaps r ≡ₚ rp_gaps r' → rp_contradictions r ≡ₚ rp_contradictions r' → rp_role_binding r = rp_role_binding r' →
  render_review_markdown r = render_review_markdown r'.
Proof.
  intros Hg Hc Hpg Hpc Hrb. unfold render_review_markdown. cbn zeta. unfold gap_leb, contradiction_leb.
  rewrite (sort_by_id_perm gap_id _ _ Hg Hpg), (sort_by_id_perm rc_contradiction_id _ _ Hc Hpc), Hrb.
  rewrite (bool_decide_ext (rp_gaps r = []) (rp_gaps r' = [])), (bool_decide_ext (rp_contradictions r = []) (rp_contradictions r' = [])); [done|..].
  - split; intros E; rewrite E in Hpc; [by apply Permutation_nil_l in Hpc|by apply Permutation_nil_r in Hpc].
  - split; intros E; rewrite E in Hpg; [by apply Permutation_nil_l in Hpg|by apply Permutation_nil_r in Hpg].
Qed.

(** Findings of different candidates never share a claim, so the pairs are unique. *)
Lemma finding_pairs_unique ledger cand rb p :
  finding_ok ledger cand p → NoDup ((λ c, (claim_candidate_id c, claim_id c)) <$> fd_claims (finding_of ledger cand rb p)).
Proof.
  intros (_ & _ & Hnd & _). cbn [finding_of fd_claims]. apply (NoDup_fmap_1 snd). rewrite <-!list_fmap_compose.
  by rewrite <-list_fmap_compose in Hnd.
Qed.

(** ** Witnesses *)

Module ReviewDemo.
Import AnswerDemo.
Definition rb : RoleBinding := {| rb_role := Investigator; rb_profile_id := "p"; rb_model := "m"; rb_semantic_attempts := 0 |}.
Definition model_finding : ModelCandidateFindingV1 :=
  {| mf_schema := CANDIDATE_FINDING_SCHEMA_V1; mf_candidate_id := "g"; mf_observations := [];
     mf_symptoms := [claim "k1" ["e2"]]; mf_causal_candidates := [claim "k2" ["e1"]];
     mf_missing_evidence := [claim "k3" []] |}.
Definition finding_str (raw : string) : option ModelCandidateFindingV1 :=
  if bool_decide (raw = "{}") then Some model_finding else None.
Lemma finding_accepted :
  validate_candidate_finding finding_str "{}" ledger "g" rb = Ok (finding_of ledger "g" rb model_finding).
Proof. vm_compute. reflexivity. Qed.

Definition gap (id : string) : ReviewGap :=
  {| gap_id := id; gap_candidate_id := "g"; gap_text := "no metrics"; gap_evidence_ids := ["e2"; "e1"] |}.
Definition report (gaps : list ReviewGap) : ReviewReportV1 :=
  {| rp_gaps := gaps; rp_contradictions := []; rp_role_binding := rb |}.
End ReviewDemo.

Lemma finding_accepted_iff_in_scope_witness :
  finding_ok AnswerDemo.ledger "g" ReviewDemo.model_finding.
Proof.
  destruct (proj1 (finding_accepted_iff_in_scope ReviewDemo.finding_str AnswerDemo.binding AnswerDemo.evidence
    AnswerDemo.ledger "{}" "g" ReviewDemo.rb _ AnswerDemo.ledger_built) ReviewDemo.finding_accepted) as (p & Hp & Hok & _).
  change (Some ReviewDemo.model_finding = Some p) in Hp. injection Hp as ->. exact Hok.
Defined.

Lemma rendered_review_ignores_order_witness :
  render_review_markdown (ReviewDemo.report [ReviewDemo.gap "a"; ReviewDemo.gap "b"]) =
  render_review_markdown (ReviewDemo.report [ReviewDemo.gap "b"; ReviewDemo.gap "a"]).
Proof.
  apply rendered_review_ignores_order; [..|done|done]; cbn.
  - apply NoDup_ListNoDup. repeat constructor; cbn; intuition discriminate.
  - constructor.
  - constructor.
Defined.
