(* ===== verification/Causal.v ===== *)
(** * Causal topology and synthesis

    Which evidence may be called a trigger, a symptom, a recovery or a decoy is
    decided by the host ([derive_host_causal_topology] of
    [cd-core/src/multi_model/causal_topology.rs]); a model may only fill the slots of
    that topology ([validate_causal_synthesis] of [causal_synthesis.rs]);
    [causal_topology] of [pipeline.rs] builds the input from a packet, findings and a
    review. Parsing a proposal is a parameter that returns the error text. *)
From Stdlib Require Import ZArith Lia Ascii String.
From stdpp Require Import base tactics option list list_numbers sets sorting strings.
From S2P Require Import Prelude RustStr Crypto BTree TriageSdk Answer Display Neighborhood FastPacket Review.

Local Open Scope string_scope.
Local Open Scope list_scope.
Local Open Scope Z_scope.

(** ** Data *)

Definition CAUSAL_SYNTHESIS_SCHEMA_V1 : string := "contextdesk.multi_model.causal_synthesis.v1".

Inductive CausalRelationKind :=
| InitiatingTrigger | PropagatedSymptom | UnrelatedCompeting | Recovery | Disconfirmation.
#[global] Instance CausalRelationKind_eq_dec : EqDecision CausalRelationKind.
Proof. solve_decision. Defined.
Definition kind_rank (k : CausalRelationKind) : Z :=
  match k with
  | InitiatingTrigger => 0 | PropagatedSymptom => 1 | UnrelatedCompeting => 2 | Recovery => 3 | Disconfirmation => 4
  end.
#[global] Instance kind_order : KeyOrder CausalRelationKind := rank_le kind_rank.
#[global] Instance kind_order_ok : KeyOrderOk CausalRelationKind.
Proof. apply rank_order_ok. by intros [] []. Defined.

Inductive CausalSynthesisError :=
| CeParse | CeSchema | CeUnknownField | CeDuplicateId | CeForeignIdentity | CeUnknownClaim | CeWrongScope
| CeCrossCorpus | CeWrongRevision | CeFalseUnion | CeDecoyPromotion | CeRecoveryAsCause | CeMissingTrigger
| CeMissingSymptom | CeMissingDisproof | CeEmptyEvidence | CeUnsafeIdentity | CeInvalidBinding | CeEmptyTopology
| CeTopologyViolation.

Record HostCausalIdentityV1 := {
  hi_candidate_id : string; hi_claim_id : string; hi_evidence_id : string;
  hi_corpus_id : string; hi_revision : LogSnapshotRevisionV1;
}.
(** A slot is compared as the tuple of its fields. *)
Definition HostCausalSlotV1 := (CausalRelationKind * string * string)%type.
Definition slot_kind (s : HostCausalSlotV1) : CausalRelationKind := s.1.1.
Record HostCausalClassesV1 := {
  cl_recovery : list string; cl_unrelated : list string; cl_decoy : list string;
}.
Record HostCausalTopologyV1 := {
  tp_corpus_id : string; tp_revision : LogSnapshotRevisionV1;
  tp_identities : list (string * HostCausalIdentityV1);
  tp_admitted_candidates : list string; tp_admitted_claims : list (string * string);
  tp_allowed_slots : list HostCausalSlotV1; tp_required_kinds : list CausalRelationKind;
  tp_classes : HostCausalClassesV1;
}.

Record ModelCausalRelationV1 := {
  ml_kind : CausalRelationKind; ml_candidate_id : string; ml_claim_id : string;
  ml_evidence_ids : list string; ml_note : string;
}.
Record ModelCausalSynthesisV1 := { ms_schema : string; ms_relations : list ModelCausalRelationV1 }.
(** A validated relation keeps the fields of the proposal; its note is display only. *)
Definition CausalRelationV1 := ModelCausalRelationV1.
Record CausalSynthesisV1 := {
  cs_schema : string; cs_corpus_id : string; cs_revision : LogSnapshotRevisionV1; cs_relations : list CausalRelationV1;
}.

(** ** Building a topology *)

Fixpoint admit_identities (identities : list HostCausalIdentityV1) (m : list (string * HostCausalIdentityV1))
    (candidates : list string) (claims : list (string * string)) :
    result CausalSynthesisError (list (string * HostCausalIdentityV1) * list string * list (string * string)) :=
  match identities with
  | [] => Ok (m, candidates, claims)
  | i :: rest =>
      if negb (is_inert_id (hi_candidate_id i)) || negb (is_inert_id (hi_claim_id i)) ||
         negb (is_inert_id (hi_evidence_id i)) then Err CeUnsafeIdentity
      else if is_some (bmap_get (hi_evidence_id i) m) then Err CeDuplicateId
      else admit_identities rest (bmap_insert (hi_evidence_id i) i m)
             (set_insert (hi_candidate_id i) candidates) (set_insert (hi_candidate_id i, hi_claim_id i) claims)
  end.

Fixpoint admit_slots (claims : list (string * string)) (allowed slots : list HostCausalSlotV1) :
    result CausalSynthesisError (list HostCausalSlotV1) :=
  match allowed with
  | [] => Ok slots
  | (kind, cand, claim) :: rest =>
      if negb (is_inert_id cand) || negb (is_inert_id claim) then Err CeUnsafeIdentity
      else if negb (bool_decide ((cand, claim) ∈ claims)) then Err CeUnknownClaim
      else if bool_decide ((kind, cand, claim) ∈ slots) then Err CeDuplicateId
      else admit_slots claims rest (set_insert (kind, cand, claim) slots)
  end.

Definition HostCausalTopologyV1_try_new (corpus_id : string) (revision : LogSnapshotRevisionV1)
    (identities : list HostCausalIdentityV1) (allowed_slots : list HostCausalSlotV1)
    (required_kinds : list CausalRelationKind) (classes : HostCausalClassesV1) :
    result CausalSynthesisError HostCausalTopologyV1 :=
  reject_if (is_empty (trim corpus_id)) CeInvalidBinding ≫= λ _,
  reject_if (bool_decide (identities = []) || bool_decide (allowed_slots = []) || bool_decide (required_kinds = []))
    CeEmptyTopology ≫= λ _,
  admit_identities identities [] [] [] ≫= λ '(m, candidates, claims),
  admit_slots claims allowed_slots [] ≫= λ slots,
  Ok {| tp_corpus_id := corpus_id; tp_revision := revision; tp_identities := m; tp_admitted_candidates := candidates;
        tp_admitted_claims := claims; tp_allowed_slots := slots; tp_required_kinds := set_collect required_kinds;
        tp_classes := classes |}.

(** ** Validating a proposal *)

Section synthesis.
Context (from_str : string → result string ModelCausalSynthesisV1).

Definition parse_proposal (raw : string) : result CausalSynthesisError ModelCausalSynthesisV1 :=
  match from_str raw with
  | Ok proposal => Ok proposal
  | Err msg => if contains "unknown field" msg then Err CeUnknownField else Err CeParse
  end.

Fixpoint check_relation_ids (t : HostCausalTopologyV1) (rel : ModelCausalRelationV1) (seen ids : list string) :
    result CausalSynthesisError unit :=
  match ids with
  | [] => Ok tt
  | id :: rest =>
      if negb (is_inert_id id) then Err CeUnsafeIdentity
      else if bool_decide (id ∈ seen) then Err CeDuplicateId else
      match bmap_get id (tp_identities t) with
      | None => Err CeForeignIdentity
      | Some i =>
          if negb (bool_decide (hi_candidate_id i = ml_candidate_id rel)) then Err CeWrongScope
          else if negb (bool_decide (hi_claim_id i = ml_claim_id rel)) then Err CeUnknownClaim
          else if negb (bool_decide (hi_corpus_id i = tp_corpus_id t)) then Err CeCrossCorpus
          else if negb (bool_decide (hi_revision i = tp_revision t)) then Err CeWrongRevision
          else if bool_decide (id ∈ cl_recovery (tp_classes t)) && bool_decide (ml_kind rel = InitiatingTrigger)
          then Err CeRecoveryAsCause
          else if (bool_decide (id ∈ cl_unrelated (tp_classes t)) || bool_decide (id ∈ cl_decoy (tp_classes t))) &&
                  negb (bool_decide (ml_kind rel = UnrelatedCompeting)) then Err CeDecoyPromotion
          else check_relation_ids t rel (id :: seen) rest
      end
  end.

Definition rel_slot (rel : ModelCausalRelationV1) : HostCausalSlotV1 := (ml_kind rel, ml_candidate_id rel, ml_claim_id rel).
Definition rel_pair (rel : ModelCausalRelationV1) : string * string := (ml_candidate_id rel, ml_claim_id rel).
Fixpoint check_relations (t : HostCausalTopologyV1) (seen_slots : list HostCausalSlotV1)
    (seen_claim_pairs : list (string * string)) (rels : list ModelCausalRelationV1) : result CausalSynthesisError unit :=
  match rels with
  | [] => Ok tt
  | rel :: rest =>
      if negb (is_inert_id (ml_candidate_id rel)) || negb (is_inert_id (ml_claim_id rel)) then Err CeUnsafeIdentity
      else if negb (bool_decide (ml_candidate_id rel ∈ tp_admitted_candidates t)) then Err CeFalseUnion
      else if negb (bool_decide (rel_pair rel ∈ tp_admitted_claims t)) then Err CeUnknownClaim
      else if negb (bool_decide (rel_slot rel ∈ tp_allowed_slots t)) then Err CeTopologyViolation
      else if bool_decide (rel_slot rel ∈ seen_slots) then Err CeDuplicateId
      else if bool_decide (rel_pair rel ∈ seen_claim_pairs) then Err CeDuplicateId
      else if bool_decide (ml_evidence_ids rel = []) then Err CeEmptyEvidence
      else check_relation_ids t rel [] (ml_evidence_ids rel) ≫= λ _,
           check_relations t (rel_slot rel :: seen_slots) (rel_pair rel :: seen_claim_pairs) rest
  end.

Definition required_present (t : HostCausalTopologyV1) (kind : CausalRelationKind) (rels : list ModelCausalRelationV1)
    (e : CausalSynthesisError) : result CausalSynthesisError unit :=
  reject_if (bool_decide (kind ∈ tp_required_kinds t) && negb (bool_decide (kind ∈ ml_kind <$> rels))) e.

Definition validate_causal_synthesis (raw : string) (t : HostCausalTopologyV1) :
    result CausalSynthesisError CausalSynthesisV1 :=
  parse_proposal raw ≫= λ proposal,
  reject_if (negb (bool_decide (ms_schema proposal = CAUSAL_SYNTHESIS_SCHEMA_V1))) CeSchema ≫= λ _,
  reject_if (bool_decide (ms_relations proposal = [])) CeEmptyEvidence ≫= λ _,
  check_relations t [] [] (ms_relations proposal) ≫= λ _,
  required_present t InitiatingTrigger (ms_relations proposal) CeMissingTrigger ≫= λ _,
  required_present t PropagatedSymptom (ms_relations proposal) CeMissingSymptom ≫= λ _,
  required_present t Disconfirmation (ms_relations proposal) CeMissingDisproof ≫= λ _,
  Ok {| cs_schema := CAUSAL_SYNTHESIS_SCHEMA_V1; cs_corpus_id := tp_corpus_id t; cs_revision := tp_revision t;
        cs_relations := ms_relations proposal |}.
End synthesis.

(** ** Deriving the topology *)

Inductive CausalTopologyDeriveError :=
| DeWrongRevision | DeInvalidBinding | DeInsufficientHostProof | DeContestedReview | DeUnsafeIdentity | DeDuplicateId.

Record HostEvidenceClassV1 := {
  hc_evidence_id : string; hc_scope : FastTriageEvidenceScope; hc_category : FastTriageEvidenceCategory;
  hc_chronology_ordinal : option Z; hc_frequency : option Z;
}.
Record HostCausalTopologyInput := {
  ti_binding : AnswerBindingV1; ti_ledger : HostEvidenceLedger; ti_findings : list CandidateFindingV1;
  ti_known_claims : KnownClaims; ti_contradictions : list ReviewContradiction;
  ti_recovery_evidence_ids : list string; ti_classifications : list HostEvidenceClassV1;
}.
Record ClaimAssignment := { as_kind : CausalRelationKind; as_evidence_ids : list string; as_decoy : bool }.
Definition Assignments := list ((string * string) * ClaimAssignment).

Fixpoint index_classifications (classifications : list HostEvidenceClassV1) (m : list (string * HostEvidenceClassV1)) :
    result CausalTopologyDeriveError (list (string * HostEvidenceClassV1)) :=
  match classifications with
  | [] => Ok m
  | c :: rest => if is_some (bmap_get (hc_evidence_id c) m) then Err DeDuplicateId
                 else index_classifications rest (bmap_insert (hc_evidence_id c) c m)
  end.
Definition class_of (class_by_id : list (string * HostEvidenceClassV1)) (id : string) : HostEvidenceClassV1 :=
  match bmap_get id class_by_id with
  | Some c => c
  | None => {| hc_evidence_id := id; hc_scope := ScopeCandidate; hc_category := IndependentNoise;
               hc_chronology_ordinal := None; hc_frequency := None |}
  end.
Definition is_independent_or_noise (c : HostEvidenceClassV1) : bool :=
  bool_decide (hc_scope c = ScopeIndependent) || bool_decide (hc_category c = IndependentNoise).
Definition is_positional_chronology (c : HostEvidenceClassV1) : bool :=
  bool_decide (hc_category c = PrecedingSameSource) || bool_decide (hc_category c = FollowingSameSource).

Definition all_finding_claims (findings : list CandidateFindingV1) : list InvestigationClaimV1 := findings ≫= fd_claims.
Definition claim_pair (c : InvestigationClaimV1) : string * string := (claim_candidate_id c, claim_id c).
Definition ensure_unique_claim_pairs (findings : list CandidateFindingV1) : result CausalTopologyDeriveError unit :=
  reject_if (negb (all_unique (λ _, true) (claim_pair <$> all_finding_claims findings))) DeDuplicateId.
Definition find_claim (findings : list CandidateFindingV1) (cand claim : string) : option InvestigationClaimV1 :=
  List.find (λ c, bool_decide (claim_pair c = (cand, claim))) (all_finding_claims findings).

Definition bound_to (binding : AnswerBindingV1) (e : HostEvidenceEntry) : bool :=
  bool_decide (ev_corpus_id e = bind_corpus_id binding) && bool_decide (ev_revision e = bind_revision binding).
Definition validated_entry (ledger : HostEvidenceLedger) (binding : AnswerBindingV1) (claim : InvestigationClaimV1)
    (id : string) : option HostEvidenceEntry :=
  e ← ledger_get ledger id;
  if negb (bool_decide (ev_candidate_id e = claim_candidate_id claim)) then None
  else if negb (bound_to binding e) then None else Some e.

(** Where the loop over the evidence of a claim puts an entry. *)
Inductive Bucket := BIndependent | BRecovery | BSymptom | BTrigger | BUnrelated.
#[global] Instance Bucket_eq_dec : EqDecision Bucket.
Proof. solve_decision. Defined.
Definition bucket_of (claim : InvestigationClaimV1) (e : HostEvidenceEntry) (class : HostEvidenceClassV1)
    (recovery_evidence_ids : list string) : option Bucket :=
  let competing := bool_decide (claim_kind claim = CompetingExplanation) in
  if is_independent_or_noise class then Some BIndependent
  else if bool_decide (ev_evidence_id e ∈ recovery_evidence_ids) then Some BRecovery
  else if bool_decide (claim_kind claim = SymptomClaim) && bool_decide (hc_scope class = ScopeCandidate) then Some BSymptom
  else if is_positional_chronology class || bool_decide (hc_category class = Propagation)
  then (if competing then Some BUnrelated else None)
  else if bool_decide (hc_scope class = ScopeCandidate) && negb (bool_decide (claim_kind claim = SymptomClaim)) &&
          (bool_decide (claim_kind claim = CausalCandidate) || bool_decide (ev_role e = Cause)) then Some BTrigger
  else if competing then Some BUnrelated else None.

Section assign.
Context (ledger : HostEvidenceLedger) (binding : AnswerBindingV1) (known : KnownClaims)
        (recovery : list string) (class_by_id : list (string * HostEvidenceClassV1)).

(** The entries of a claim that are valid, with their buckets, in citation order. *)
Definition bucketed (claim : InvestigationClaimV1) (id : string) : option (string * option Bucket) :=
  e ← validated_entry ledger binding claim id;
  if negb (is_inert_id (ev_evidence_id e)) then None
  else Some (ev_evidence_id e, bucket_of claim e (class_of class_by_id id) recovery).
Definition in_bucket (b : Bucket) (rows : list (string * option Bucket)) : list string :=
  (List.filter (λ r, bool_decide (r.2 = Some b)) rows).*1.

Definition assign_claim (finding : CandidateFindingV1) (claim : InvestigationClaimV1) : option ClaimAssignment :=
  if negb (bool_decide (fd_candidate_id finding = claim_candidate_id claim)) then None
  else if negb (bool_decide (claim_pair claim ∈ known)) then None
  else if negb (bool_decide (claim_status claim = Supported)) then None
  else if negb (is_inert_id (claim_candidate_id claim)) || negb (is_inert_id (claim_id claim)) then None
  else
    let rows := omap (bucketed claim) (claim_evidence_ids claim) in
    let independent := in_bucket BIndependent rows in
    let all_valid := rows.*1 in
    let poison_independent := existsb (λ r, bool_decide (r.2 = Some BIndependent)) rows in
    if poison_independent then
      Some {| as_kind := UnrelatedCompeting; as_decoy := true;
              as_evidence_ids := if bool_decide (independent = []) then all_valid else independent |}
    else if negb (bool_decide (in_bucket BRecovery rows = [])) then
      Some {| as_kind := Recovery; as_decoy := false; as_evidence_ids := in_bucket BRecovery rows |}
    else if negb (bool_decide (in_bucket BSymptom rows = [])) then
      Some {| as_kind := PropagatedSymptom; as_decoy := false; as_evidence_ids := in_bucket BSymptom rows |}
    else if negb (bool_decide (in_bucket BTrigger rows = [])) then
      Some {| as_kind := InitiatingTrigger; as_decoy := false; as_evidence_ids := in_bucket BTrigger rows |}
    else if negb (bool_decide (in_bucket BUnrelated rows = [])) then
      Some {| as_kind := UnrelatedCompeting; as_decoy := false; as_evidence_ids := in_bucket BUnrelated rows |}
    else None.

Definition assign_step (finding : CandidateFindingV1) (m : Assignments) (claim : InvestigationClaimV1) : Assignments :=
  match assign_claim finding claim with Some a => bmap_insert (claim_pair claim) a m | None => m end.
Definition assign_all (findings : list CandidateFindingV1) : Assignments :=
  foldl (λ m f, foldl (assign_step f) m (fd_claims f)) [] findings.
End assign.

Definition identity_matches_assignment (a : ClaimAssignment) (claim : InvestigationClaimV1) (e : HostEvidenceEntry) : bool :=
  if as_decoy a then true
  else match as_kind a with
       | Recovery => true
       | PropagatedSymptom => bool_decide (claim_kind claim = SymptomClaim)
       | InitiatingTrigger => bool_decide (claim_kind claim = CausalCandidate) || bool_decide (ev_role e = Cause)
       | UnrelatedCompeting => true
       | Disconfirmation => false
       end.
Definition classify_evidence (a : ClaimAssignment) (id : string) (c : HostCausalClassesV1) : HostCausalClassesV1 :=
  match as_kind a with
  | Recovery => {| cl_recovery := set_insert id (cl_recovery c); cl_unrelated := cl_unrelated c; cl_decoy := cl_decoy c |}
  | UnrelatedCompeting =>
      {| cl_recovery := cl_recovery c; cl_unrelated := set_insert id (cl_unrelated c);
         cl_decoy := if as_decoy a then set_insert id (cl_decoy c) else cl_decoy c |}
  | _ => c
  end.

Record Emitted := {
  em_identities : list (string * HostCausalIdentityV1); em_slots : list HostCausalSlotV1; em_classes : HostCausalClassesV1;
}.
Definition host_identity (pr : string * string) (id : string) (e : HostEvidenceEntry) : HostCausalIdentityV1 :=
  {| hi_candidate_id := pr.1; hi_claim_id := pr.2; hi_evidence_id := id; hi_corpus_id := ev_corpus_id e;
     hi_revision := ev_revision e |}.
Definition same_claim (pr : string * string) (i : HostCausalIdentityV1) : bool :=
  bool_decide ((hi_candidate_id i, hi_claim_id i) = pr).

(** The loop over the evidence of one assignment, and whether any was admitted. *)
Fixpoint emit_ids (ledger : HostEvidenceLedger) (pr : string * string) (a : ClaimAssignment) (claim : InvestigationClaimV1)
    (ids : list string) (admitted : bool) (st : Emitted) : result CausalTopologyDeriveError (bool * Emitted) :=
  match ids with
  | [] => Ok (admitted, st)
  | id :: rest =>
      match ledger_get ledger id with
      | None => emit_ids ledger pr a claim rest admitted st
      | Some e =>
          if negb (identity_matches_assignment a claim e) then emit_ids ledger pr a claim rest admitted st
          else match bmap_get id (em_identities st) with
               | Some existing =>
                   if negb (same_claim pr existing) then Err DeDuplicateId
                   else emit_ids ledger pr a claim rest true st
               | None =>
                   emit_ids ledger pr a claim rest true
                     {| em_identities := bmap_insert id (host_identity pr id e) (em_identities st);
                        em_slots := em_slots st; em_classes := classify_evidence a id (em_classes st) |}
               end
      end
  end.
Definition add_slot (kind : CausalRelationKind) (pr : string * string) (st : Emitted) : Emitted :=
  {| em_identities := em_identities st; em_slots := set_insert (kind, pr.1, pr.2) (em_slots st);
     em_classes := em_classes st |}.
Fixpoint emit_assignments (ledger : HostEvidenceLedger) (findings : list CandidateFindingV1)
    (include : ClaimAssignment → bool) (assignments : Assignments) (st : Emitted) : result CausalTopologyDeriveError Emitted :=
  match assignments with
  | [] => Ok st
  | (pr, a) :: rest =>
      if negb (include a) then emit_assignments ledger findings include rest st
      else match find_claim findings pr.1 pr.2 with
           | None => emit_assignments ledger findings include rest st
           | Some claim =>
               emit_ids ledger pr a claim (as_evidence_ids a) false st ≫= λ '(admitted, st),
               emit_assignments ledger findings include rest (if admitted : bool then add_slot (as_kind a) pr st else st)
           end
  end.

(** ** Contradictions *)

Definition disconfirmation_evidence (c : ReviewContradiction) (pr : string * string) (findings : list CandidateFindingV1)
    (ledger : HostEvidenceLedger) (binding : AnswerBindingV1) : list string :=
  match find_claim findings pr.1 pr.2 with
  | None => []
  | Some claim =>
      List.filter (λ id, bool_decide (id ∈ claim_evidence_ids claim) &&
        is_some_and (ledger_get ledger id) (λ e, bool_decide (ev_candidate_id e = pr.1) && bound_to binding e))
        (rc_evidence_ids c)
  end.
Fixpoint admit_disconfirming (ledger : HostEvidenceLedger) (binding : AnswerBindingV1) (pr : string * string)
    (ids : list string) (admitted : bool) (m : list (string * HostCausalIdentityV1)) :
    result CausalTopologyDeriveError (bool * list (string * HostCausalIdentityV1)) :=
  match ids with
  | [] => Ok (admitted, m)
  | id :: rest =>
      match bmap_get id m with
      | Some existing => if same_claim pr existing then admit_disconfirming ledger binding pr rest true m else Err DeDuplicateId
      | None =>
          match ledger_get ledger id with
          | None => admit_disconfirming ledger binding pr rest admitted m
          | Some e =>
              if negb (bool_decide (ev_candidate_id e = pr.1)) || negb (bound_to binding e)
              then admit_disconfirming ledger binding pr rest admitted m
              else if negb (is_inert_id id) || negb (is_inert_id pr.1) || negb (is_inert_id pr.2) then Err DeUnsafeIdentity
              else admit_disconfirming ledger binding pr rest true (bmap_insert id (host_identity pr id e) m)
          end
      end
  end.
Definition admit_pair (i : HostCausalTopologyInput) (c : ReviewContradiction) (pr : string * string) (st : Emitted) :
    result CausalTopologyDeriveError Emitted :=
  admit_disconfirming (ti_ledger i) (ti_binding i) pr
    (disconfirmation_evidence c pr (ti_findings i) (ti_ledger i) (ti_binding i)) false (em_identities st) ≫= λ '(admitted, m),
  let st := {| em_identities := m; em_slots := em_slots st; em_classes := em_classes st |} in
  Ok (if admitted : bool then add_slot Disconfirmation pr st else st).
Fixpoint admit_disconfirmation (i : HostCausalTopologyInput) (cs : list ReviewContradiction) (st : Emitted) :
    result CausalTopologyDeriveError Emitted :=
  match cs with
  | [] => Ok st
  | c :: rest =>
      let pair_a := (rc_candidate_a c, rc_claim_a_id c) in
      let pair_b := (rc_candidate_b c, rc_claim_b_id c) in
      if bool_decide (pair_a.1 = pair_b.1) then admit_disconfirmation i rest st
      else if negb (bool_decide (pair_a ∈ ti_known_claims i)) || negb (bool_decide (pair_b ∈ ti_known_claims i))
      then admit_disconfirmation i rest st
      else admit_pair i c pair_a st ≫= λ st, admit_pair i c pair_b st ≫= λ st, admit_disconfirmation i rest st
  end.

(** ** The whole derivation *)

Definition map_try_new (e : CausalSynthesisError) : CausalTopologyDeriveError :=
  match e with
  | CeEmptyTopology | CeUnknownClaim => DeInsufficientHostProof
  | CeInvalidBinding => DeInvalidBinding
  | CeUnsafeIdentity => DeUnsafeIdentity
  | CeDuplicateId => DeDuplicateId
  | CeWrongRevision | CeCrossCorpus => DeWrongRevision
  | _ => DeInsufficientHostProof
  end.
Definition has_slot (kind : CausalRelationKind) (slots : list HostCausalSlotV1) : bool :=
  existsb (λ s, bool_decide (slot_kind s = kind)) slots.
Definition no_classes : HostCausalClassesV1 := {| cl_recovery := []; cl_unrelated := []; cl_decoy := [] |}.
Definition is_recovery (a : ClaimAssignment) : bool := bool_decide (as_kind a = Recovery) && negb (as_decoy a).
Definition is_other (a : ClaimAssignment) : bool := negb (as_decoy a) && negb (bool_decide (as_kind a = Recovery)).

Definition derive_host_causal_topology (i : HostCausalTopologyInput) : result CausalTopologyDeriveError HostCausalTopologyV1 :=
  let binding := ti_binding i in
  let lb := led_binding (ti_ledger i) in
  reject_if (negb (bool_decide (bind_corpus_id binding = bind_corpus_id lb)) ||
             negb (bool_decide (bind_revision binding = bind_revision lb))) DeWrongRevision ≫= λ _,
  reject_if (negb (bool_decide (bind_session_id binding = bind_session_id lb)) ||
             negb (bool_decide (bind_turn_id binding = bind_turn_id lb)) ||
             negb (bool_decide (bind_ledger_digest binding = bind_ledger_digest lb))) DeInvalidBinding ≫= λ _,
  index_classifications (ti_classifications i) [] ≫= λ class_by_id,
  ensure_unique_claim_pairs (ti_findings i) ≫= λ _,
  let assignments := assign_all (ti_ledger i) binding (ti_known_claims i) (ti_recovery_evidence_ids i) class_by_id (ti_findings i) in
  emit_assignments (ti_ledger i) (ti_findings i) as_decoy assignments
    {| em_identities := []; em_slots := []; em_classes := no_classes |} ≫= λ st,
  emit_assignments (ti_ledger i) (ti_findings i) is_recovery assignments st ≫= λ st,
  emit_assignments (ti_ledger i) (ti_findings i) is_other assignments st ≫= λ st,
  admit_disconfirmation i (ti_contradictions i) st ≫= λ st,
  reject_if (negb (has_slot InitiatingTrigger (em_slots st)) || negb (has_slot PropagatedSymptom (em_slots st)))
    DeInsufficientHostProof ≫= λ _,
  map_err map_try_new (HostCausalTopologyV1_try_new (bind_corpus_id binding) (bind_revision binding)
    (em_identities st).*2 (em_slots st) (set_collect (slot_kind <$> em_slots st)) (em_classes st)).

(** ** The topology of a run *)

Definition same_metadata (p e : HostEvidenceEntry) : bool :=
  bool_decide (ev_candidate_id p = ev_candidate_id e) && bool_decide (ev_source_label p = ev_source_label e) &&
  bool_decide (ev_locator p = ev_locator e) && bool_decide (ev_corpus_id p = ev_corpus_id e) &&
  bool_decide (ev_revision p = ev_revision e) && bool_decide (ev_role p = ev_role e).
Definition packet_covers (packet : FastTriagePacketV1) (ledger : HostEvidenceLedger) : bool :=
  forallb (λ e, is_some_and (ledger_get (pkt_ledger packet) (ev_evidence_id e)) (λ p, same_metadata p e)) (ledger_rows ledger).
Definition row_class (r : FastTriagePacketRow) : HostEvidenceClassV1 :=
  {| hc_evidence_id := pk_evidence_id r; hc_scope := pk_scope r; hc_category := pk_context_category r;
     hc_chronology_ordinal := pk_chronology_ordinal r; hc_frequency := None |}.
Definition causal_topology (packet : FastTriagePacketV1) (ledger : HostEvidenceLedger) (findings : list CandidateFindingV1)
    (review : option ReviewReportV1) : result CausalTopologyDeriveError HostCausalTopologyV1 :=
  let pb := led_binding (pkt_ledger packet) in
  let lb := led_binding ledger in
  let contradictions := match review with Some r => rp_contradictions r | None => [] end in
  reject_if (negb (bool_decide (bind_corpus_id pb = bind_corpus_id lb)) ||
             negb (bool_decide (bind_revision pb = bind_revision lb))) DeWrongRevision ≫= λ _,
  reject_if (negb (bool_decide (bind_session_id pb = bind_session_id lb)) ||
             negb (bool_decide (bind_turn_id pb = bind_turn_id lb))) DeInvalidBinding ≫= λ _,
  reject_if (negb (packet_covers packet ledger)) DeInvalidBinding ≫= λ _,
  reject_if (negb (bool_decide (contradictions = []))) DeContestedReview ≫= λ _,
  derive_host_causal_topology
    {| ti_binding := lb; ti_ledger := ledger; ti_findings := findings; ti_known_claims := known_claims findings;
       ti_contradictions := contradictions; ti_recovery_evidence_ids := [];
       ti_classifications := row_class <$> List.filter (λ r, is_some (ledger_get ledger (pk_evidence_id r))) (pkt_rows packet) |}.

(** ** What an accepted proposal cites *)

Definition cites_identity (t : HostCausalTopologyV1) (rel : ModelCausalRelationV1) (id : string) : Prop :=
  ∃ i, bmap_get id (tp_identities t) = Some i ∧ (hi_candidate_id i, hi_claim_id i) = rel_pair rel ∧
    hi_corpus_id i = tp_corpus_id t ∧ hi_revision i = tp_revision t ∧
    (ml_kind rel = InitiatingTrigger → id ∉ cl_recovery (tp_classes t)) ∧
    (ml_kind rel ≠ UnrelatedCompeting → (id ∉ cl_unrelated (tp_classes t)) ∧ (id ∉ cl_decoy (tp_classes t))).

Lemma check_relation_ids_Ok t rel seen ids :
  check_relation_ids t rel seen ids = Ok tt → Forall (cites_identity t rel) ids ∧ NoDup ids ∧ ∀ id, id ∈ ids → id ∉ seen.
Proof.
  revert seen. induction ids as [|id ids IH]; intros seen; cbn.
  { intros _. split_and!; [constructor..|]. by intros id ?%elem_of_nil. }
  destruct (is_inert_id id); [|done]. cbn [negb]. destruct (bool_decide (id ∈ seen)) eqn:Hs; [done|].
  destruct (bmap_get id (tp_identities t)) as [i|] eqn:Hi; [|done].
  destruct (bool_decide (hi_candidate_id i = _)) eqn:Hc; [|done]. destruct (bool_decide (hi_claim_id i = _)) eqn:Hl; [|done].
  destruct (bool_decide (hi_corpus_id i = _)) eqn:Hco; [|done]. destruct (bool_decide (hi_revision i = _)) eqn:Hr; [|done].
  cbn [negb]. destruct (bool_decide (id ∈ cl_recovery _) && _) eqn:Hrec; [done|].
  destruct ((_ || _) && _) eqn:Hdec; [done|]. intros (Hall & Hnd & Hfresh)%IH. split_bool.
  split_and!; [constructor; [|done]|constructor; [|done]|].
  - exists i. split_and!; [done|unfold rel_pair; congruence|done|done| |].
    + intros Hk Hin. by rewrite Hk, !bool_decide_eq_true_2 in Hrec.
    + intros Hk. rewrite (bool_decide_eq_false_2 (ml_kind rel = _) Hk) in Hdec. cbn [negb] in Hdec.
      rewrite andb_true_r in Hdec. by split_bool.
  - intros Hin. apply (Hfresh id Hin). by left.
  - set_solver.
Qed.

Definition relation_ok (t : HostCausalTopologyV1) (rel : ModelCausalRelationV1) : Prop :=
  rel_slot rel ∈ tp_allowed_slots t ∧ ml_evidence_ids rel ≠ [] ∧ NoDup (ml_evidence_ids rel) ∧
  Forall (cites_identity t rel) (ml_evidence_ids rel).
Lemma check_relations_Ok t slots pairs rels :
  check_relations t slots pairs rels = Ok tt →
  Forall (relation_ok t) rels ∧ NoDup (rel_pair <$> rels) ∧ ∀ p, p ∈ rel_pair <$> rels → p ∉ pairs.
Proof.
  revert slots pairs. induction rels as [|rel rels IH]; intros slots pairs; cbn.
  { intros _. split_and!; [constructor..|]. by intros p ?%elem_of_nil. }
  destruct (_ || _); [done|]. destruct (bool_decide (ml_candidate_id rel ∈ _)); [|done].
  destruct (bool_decide (rel_pair rel ∈ tp_admitted_claims t)); [|done].
  destruct (bool_decide (rel_slot rel ∈ tp_allowed_slots t)) eqn:Hs; [|done]. cbn [negb].
  destruct (bool_decide (rel_slot rel ∈ slots)); [done|]. destruct (bool_decide (rel_pair rel ∈ pairs)) eqn:Hp; [done|].
  destruct (bool_decide (ml_evidence_ids rel = [])) eqn:He; [done|].
  intros ([] & (Hids & Hnd & _)%check_relation_ids_Ok & (Hall & Hnd' & Hfresh)%IH)%bind_Ok. split_bool.
  split_and!; [constructor; [|done]; by split_and!|constructor; [|done]|].
  - intros Hin. apply (Hfresh _ Hin). by left.
  - set_solver.
Qed.

Lemma validate_causal_inv from_str raw t v :
  validate_causal_synthesis from_str raw t = Ok v →
  Forall (relation_ok t) (cs_relations v) ∧ NoDup (rel_pair <$> cs_relations v) ∧
  cs_corpus_id v = tp_corpus_id t ∧ cs_revision v = tp_revision t ∧
  ∀ k, k ∈ [InitiatingTrigger; PropagatedSymptom; Disconfirmation] → k ∈ tp_required_kinds t → k ∈ ml_kind <$> cs_relations v.
Proof.
  unfold validate_causal_synthesis, required_present. intros Hv. inv_result.
  match goal with H : check_relations _ _ _ _ = _ |- _ => apply check_relations_Ok in H as (Hall & Hnd & _) end. cbn.
  split_and!; [done..|]. intros k Hk Hreq.
  assert (bool_decide (k ∈ tp_required_kinds t) && negb (bool_decide (k ∈ ml_kind <$> ms_relations a)) = false) as Hf.
  { repeat (apply elem_of_cons in Hk as [->|Hk]; [done|]). by apply elem_of_nil in Hk. }
  rewrite bool_decide_eq_true_2 in Hf by done. cbn [andb] in Hf. by split_bool.
Qed.

(** ** What a topology is made of *)

Lemma admit_identities_Ok ids m cands claims m' cands' claims' :
  bmap_ok m → (∀ id i, bmap_get id m = Some i → hi_evidence_id i = id) →
  admit_identities ids m cands claims = Ok (m', cands', claims') →
  ∀ id i, bmap_get id m' = Some i → hi_evidence_id i = id ∧ (i ∈ ids ∨ bmap_get id m = Some i).
Proof.
  revert m cands claims. induction ids as [|x ids IH]; intros m cands claims Hok Hid; cbn.
  { intros [= <- <- <-] id i Hi. auto. }
  destruct (_ || _); [done|]. destruct (is_some _); [done|]. intros Hrest id i Hi.
  assert (∀ id i, bmap_get id (bmap_insert (hi_evidence_id x) x m) = Some i → hi_evidence_id i = id) as Hid'.
  { intros id' i'. rewrite bmap_get_insert. case_bool_decide as E; [intros [= <-]; by subst|apply Hid]. }
  destruct (IH _ _ _ (bmap_insert_ok _ _ _ Hok) Hid' Hrest id i Hi) as [Hev Hsrc].
  split; [done|]. destruct Hsrc as [Hin|Hget]; [left; by right|]. rewrite bmap_get_insert in Hget.
  case_bool_decide; [injection Hget as <-; left; by left|by right].
Qed.

Lemma admit_slots_Ok claims allowed slots slots' :
  admit_slots claims allowed slots = Ok slots' → ∀ s, s ∈ slots' → s ∈ allowed ∨ s ∈ slots.
Proof.
  revert slots. induction allowed as [|[[k c] l] allowed IH]; intros slots; cbn; [intros [= <-]; auto|].
  destruct (_ || _); [done|]. destruct (bool_decide ((c, l) ∈ claims)); [|done]. cbn [negb].
  destruct (bool_decide (_ ∈ slots)); [done|]. intros Hrest s [Hs|[->|Hs]%set_insert_elem]%(IH _ Hrest); [left; by right|left; by left|by right].
Qed.

Lemma try_new_Ok corpus rev ids slots kinds classes t :
  HostCausalTopologyV1_try_new corpus rev ids slots kinds classes = Ok t →
  tp_corpus_id t = corpus ∧ tp_revision t = rev ∧ tp_classes t = classes ∧ (∀ k, k ∈ kinds → k ∈ tp_required_kinds t) ∧
  (∀ s, s ∈ tp_allowed_slots t → s ∈ slots) ∧
  ∀ id i, bmap_get id (tp_identities t) = Some i → hi_evidence_id i = id ∧ i ∈ ids.
Proof.
  unfold HostCausalTopologyV1_try_new. intros Hv. apply bind_Ok in Hv as ([] & _ & Hv). apply bind_Ok in Hv as ([] & _ & Hv).
  apply bind_Ok in Hv as ([[m cands] claims] & Hids & Hv). apply bind_Ok in Hv as (sl & Hsl & [= <-]). cbn. split_and!; [done..| | |].
  - intros k Hk. by apply set_collect_spec.
  - intros s Hs. destruct (admit_slots_Ok _ _ _ _ Hsl s Hs) as [?|?%elem_of_nil]; done.
  - intros id i Hi. destruct (admit_identities_Ok ids [] [] [] m cands claims bmap_nil_ok ltac:(done) Hids id i Hi) as [? [?|?]]; done.
Qed.

(** ** What the host emits *)

Section emit.
Context (ledger : HostEvidenceLedger) (findings : list CandidateFindingV1) (A : Assignments).

(** Every identity and every slot comes from the one assignment of its claim. *)
Definition emitted_ok (st : Emitted) : Prop :=
  bmap_ok (em_identities st) ∧
  (∀ id i, bmap_get id (em_identities st) = Some i → hi_evidence_id i = id ∧
     ∃ a e, ((hi_candidate_id i, hi_claim_id i), a) ∈ A ∧ id ∈ as_evidence_ids a ∧ ledger_get ledger id = Some e ∧
       hi_corpus_id i = ev_corpus_id e ∧ hi_revision i = ev_revision e) ∧
  ∀ k c l, (k, c, l) ∈ em_slots st → ∃ a, ((c, l), a) ∈ A ∧ as_kind a = k.

Lemma emit_ids_ok pr a claim ids admitted st b st' :
  (pr, a) ∈ A → ids ⊆ as_evidence_ids a → emitted_ok st →
  emit_ids ledger pr a claim ids admitted st = Ok (b, st') → emitted_ok st'.
Proof.
  intros Ha. revert admitted st. induction ids as [|id ids IH]; intros admitted st Hsub Hst; cbn; [by intros [= _ <-]|].
  assert (ids ⊆ as_evidence_ids a) as Hsub' by set_solver.
  destruct (ledger_get ledger id) as [e|] eqn:He; [|by apply IH]. destruct (identity_matches_assignment a claim e); cbn [negb]; [|by apply IH].
  destruct (bmap_get id (em_identities st)) as [existing|] eqn:Hget.
  { destruct (same_claim pr existing); [by apply IH|done]. }
  apply IH; [done|]. destruct Hst as (Hok & Hids & Hslots). split_and!; cbn; [by apply bmap_insert_ok| |done].
  intros id' i. rewrite bmap_get_insert. case_bool_decide as E; [|apply Hids]. intros [= <-]. subst id'. cbn. split; [done|].
  exists a, e. destruct pr. cbn. set_solver.
Qed.

Lemma add_slot_ok pr a st : (pr, a) ∈ A → emitted_ok st → emitted_ok (add_slot (as_kind a) pr st).
Proof.
  intros Ha (Hok & Hids & Hslots). split_and!; cbn; [done..|]. intros k c l [[= -> -> ->]|Hin]%set_insert_elem; [|by apply Hslots].
  exists a. by destruct pr.
Qed.

Lemma emit_assignments_ok include l st st' :
  l ⊆ A → emitted_ok st → emit_assignments ledger findings include l st = Ok st' → emitted_ok st'.
Proof.
  revert st. induction l as [|[pr a] l IH]; intros st Hsub Hst; cbn; [by intros [= <-]|].
  assert ((pr, a) ∈ A) as Ha by set_solver. assert (l ⊆ A) as Hsub' by set_solver.
  destruct (include a); cbn [negb]; [|by apply IH]. destruct (find_claim findings pr.1 pr.2) as [claim|]; [|by apply IH].
  intros ([b st1] & He & Hrest)%bind_Ok. eapply IH; [done| |exact Hrest].
  assert (emitted_ok st1) as H1 by (eapply emit_ids_ok; done). destruct b; [by apply add_slot_ok|done].
Qed.
End emit.

(** *** Assignments *)

Section assigned.
Context (ledger : HostEvidenceLedger) (binding : AnswerBindingV1) (known : KnownClaims)
        (recovery : list string) (class_by_id : list (string * HostEvidenceClassV1)).

Definition assigned_by (findings : list CandidateFindingV1) (pr : string * string) (a : ClaimAssignment) : Prop :=
  ∃ f claim, f ∈ findings ∧ claim ∈ fd_claims f ∧ claim_pair claim = pr ∧
    assign_claim ledger binding known recovery class_by_id f claim = Some a.

Lemma assign_all_ok findings :
  let m := assign_all ledger binding known recovery class_by_id findings in
  bmap_ok m ∧ ∀ pr a, (pr, a) ∈ m → assigned_by findings pr a.
Proof.
  cbn zeta. unfold assign_all.
  assert (∀ fs m, fs ⊆ findings → (bmap_ok m ∧ ∀ pr a, bmap_get pr m = Some a → assigned_by findings pr a) →
    let m' := foldl (λ m f, foldl (assign_step ledger binding known recovery class_by_id f) m (fd_claims f)) m fs in
    bmap_ok m' ∧ ∀ pr a, bmap_get pr m' = Some a → assigned_by findings pr a) as Hgen.
  { induction fs as [|f fs IH]; intros m Hsub Hm; [done|]. cbn. apply IH; [set_solver|].
    assert (f ∈ findings) as Hf by set_solver. assert (∀ c, c ∈ fd_claims f → c ∈ fd_claims f) as Hcl by done. revert Hcl.
    generalize (fd_claims f) at 1 3 4 as cs. intros cs. revert m Hm. induction cs as [|c cs IHc]; intros m Hm Hcl; [done|]. cbn.
    apply IHc; [|set_solver]. unfold assign_step. destruct (assign_claim _ _ _ _ _ f c) as [a|] eqn:Ha; [|done].
    destruct Hm as [Hok Hget]. split; [by apply bmap_insert_ok|]. intros pr a'. rewrite bmap_get_insert.
    case_bool_decide; [intros [= <-]; subst pr; exists f, c; set_solver|apply Hget]. }
  destruct (Hgen findings [] (reflexivity _)) as [Hok Hall]; [split; [apply bmap_nil_ok|done]|].
  split; [done|]. intros pr a Hin. apply Hall. by apply bmap_get_elem.
Qed.

(** The rows of a bucket, and the assignment of each kind. *)
Lemma in_bucket_elem claim b ids id :
  id ∈ in_bucket b (omap (bucketed ledger binding recovery class_by_id claim) ids) →
  ∃ id0 e, id0 ∈ ids ∧ validated_entry ledger binding claim id0 = Some e ∧ id = ev_evidence_id e ∧
    bucket_of claim e (class_of class_by_id id0) recovery = Some b.
Proof.
  unfold in_bucket. intros ([id' b'] & -> & [Hin Hb]%elem_of_filter_bool)%list_elem_of_fmap. cbn in Hb. split_bool. subst b'.
  apply list_elem_of_omap in Hin as (id0 & Hid0 & Hbk). unfold bucketed in Hbk.
  destruct (validated_entry ledger binding claim id0) as [e|] eqn:He; [|done]. cbn in Hbk.
  destruct (is_inert_id (ev_evidence_id e)); [|done]. cbn in Hbk. injection Hbk as <- Hb. eauto 10.
Qed.

Lemma assign_claim_kind f claim a id :
  assign_claim ledger binding known recovery class_by_id f claim = Some a → as_kind a ∈ [InitiatingTrigger; PropagatedSymptom] →
  id ∈ as_evidence_ids a →
  claim_status claim = Supported ∧ claim_pair claim ∈ known ∧
  ∃ id0 e, id0 ∈ claim_evidence_ids claim ∧ validated_entry ledger binding claim id0 = Some e ∧ id = ev_evidence_id e ∧
    bucket_of claim e (class_of class_by_id id0) recovery =
      Some (if bool_decide (as_kind a = InitiatingTrigger) then BTrigger else BSymptom).
Proof.
  unfold assign_claim. set (rows := omap _ _). intros Ha Hk Hid.
  destruct (bool_decide (fd_candidate_id f = _)); [|done]. destruct (bool_decide (claim_pair claim ∈ known)) eqn:Hkn; [|done].
  destruct (bool_decide (claim_status claim = Supported)) eqn:Hst; [|done]. split_bool. cbn [negb] in Ha.
  destruct (_ || _) in Ha; [done|]. split_and!; [done..|].
  assert (∀ b, as_evidence_ids a = in_bucket b rows → id ∈ in_bucket b rows) as Hsub by (intros b <-; done).
  repeat match type of Ha with (if ?b then _ else _) = _ => destruct b; cbn [negb] in Ha end; try done;
    injection Ha as <-; cbn in Hk; try (exfalso; set_solver);
    (apply in_bucket_elem, Hsub; reflexivity).
Qed.
End assigned.

Lemma index_classifications_get cs m m' id c :
  index_classifications cs m = Ok m' → bmap_get id m' = Some c →
  (c ∈ cs ∧ hc_evidence_id c = id) ∨ bmap_get id m = Some c.
Proof.
  revert m. induction cs as [|x cs IH]; intros m; cbn; [intros [= <-]; auto|]. destruct (is_some _); [done|].
  intros Hi Hc. destruct (IH _ Hi Hc) as [[??]|Hget]; [left; split; [by right|done]|]. rewrite bmap_get_insert in Hget.
  case_bool_decide; [injection Hget as <-; left; split; [by left|done]|by right].
Qed.

(** A topology without contradictions: each citable identity of a trigger or symptom
    slot fell into the bucket of that kind. *)
Definition host_proof (i : HostCausalTopologyInput) (class_by_id : list (string * HostEvidenceClassV1))
    (kind : CausalRelationKind) (pr : string * string) (id : string) (claim : InvestigationClaimV1) (e : HostEvidenceEntry) : Prop :=
  claim ∈ all_finding_claims (ti_findings i) ∧ claim_pair claim = pr ∧ claim_status claim = Supported ∧
  id ∈ claim_evidence_ids claim ∧ validated_entry (ti_ledger i) (ti_binding i) claim id = Some e ∧
  bucket_of claim e (class_of class_by_id id) (ti_recovery_evidence_ids i) =
    Some (if bool_decide (kind = InitiatingTrigger) then BTrigger else BSymptom).

Lemma derive_inv i t :
  ti_contradictions i = [] → ledger_ok (ti_ledger i) → derive_host_causal_topology i = Ok t →
  InitiatingTrigger ∈ tp_required_kinds t ∧ PropagatedSymptom ∈ tp_required_kinds t ∧
  ∃ class_by_id, index_classifications (ti_classifications i) [] = Ok class_by_id ∧
  ∀ kind c l id hi, kind ∈ [InitiatingTrigger; PropagatedSymptom] → (kind, c, l) ∈ tp_allowed_slots t →
    bmap_get id (tp_identities t) = Some hi → (hi_candidate_id hi, hi_claim_id hi) = (c, l) →
    ∃ claim e, host_proof i class_by_id kind (c, l) id claim e.
Proof.
  intros Hno Hled Hd. unfold derive_host_causal_topology in Hd. rewrite Hno in Hd. cbn [admit_disconfirmation] in Hd.
  apply bind_Ok in Hd as ([] & _ & Hd). apply bind_Ok in Hd as ([] & _ & Hd). apply bind_Ok in Hd as (cls & Hcls & Hd).
  apply bind_Ok in Hd as ([] & _ & Hd). set (A := assign_all _ _ _ _ _ _) in Hd.
  apply bind_Ok in Hd as (s1 & H1 & Hd). apply bind_Ok in Hd as (s2 & H2 & Hd). apply bind_Ok in Hd as (s3 & H3 & Hd).
  apply bind_Ok in Hd as (s4 & [= <-] & Hd). apply bind_Ok in Hd as ([] & Hslots%reject_if_Ok & Hd). apply map_err_Ok in Hd.
  destruct (try_new_Ok _ _ _ _ _ _ _ Hd) as (_ & _ & _ & Hreq & Hsl & Hid).
  assert (emitted_ok (ti_ledger i) A s3) as (Hok & Hids & Hss).
  { eapply emit_assignments_ok; [reflexivity| |exact H3]. eapply emit_assignments_ok; [reflexivity| |exact H2].
    eapply emit_assignments_ok; [reflexivity| |exact H1]. split_and!; cbn; [apply bmap_nil_ok|done|]. by intros k c l ?%elem_of_nil. }
  destruct (assign_all_ok (ti_ledger i) (ti_binding i) (ti_known_claims i) (ti_recovery_evidence_ids i) cls (ti_findings i))
    as [HA Hassigned]. fold A in HA, Hassigned.
  assert (∀ k, has_slot k (em_slots s3) = true → k ∈ tp_required_kinds t) as Hkinds.
  { intros k (s & Hs & Hk)%existsb_elem_of. split_bool. apply Hreq, set_collect_spec. apply list_elem_of_fmap. by exists s. }
  split_bool. split_and!; [by apply Hkinds..|]. exists cls. split; [done|].
  intros kind c l id hi Hk Hslot Hget [= <- <-].
  destruct (Hid id hi Hget) as [Hev Hin]. apply list_elem_of_fmap in Hin as ([id' hi'] & -> & Hin). cbn in *.
  apply bmap_get_elem in Hin; [|done]. destruct (Hids _ _ Hin) as [Hev' (a & e & Ha & Hida & He & _)]. subst id'. subst id.
  destruct (Hss _ _ _ (Hsl _ Hslot)) as (a' & Ha' & <-).
  assert (a' = a) as -> by (apply bmap_get_elem in Ha, Ha'; [congruence|done..]).
  destruct (Hassigned _ _ Ha) as (f & claim & Hf & Hcl & Hpair & Has).
  destruct (assign_claim_kind _ _ _ _ _ f claim a _ Has Hk Hida) as (Hst & _ & id0 & e0 & Hid0 & Hval & Hee & Hb).
  assert (id0 = hi_evidence_id hi') as ->.
  { unfold validated_entry in Hval. destruct (ledger_get (ti_ledger i) id0) as [e1|] eqn:E1; [|done]. cbn in Hval.
    destruct (negb _); [done|]. destruct (negb _); [done|]. injection Hval as ->. by apply ledger_get_row in E1 as [_ <-]. }
  exists claim, e0. split_and!; try done. apply list_elem_of_bind. eauto.
Qed.

(** The structural class of a row that is called a trigger or a symptom. *)
Lemma bucket_class claim e class recovery kind :
  bucket_of claim e class recovery = Some (if bool_decide (kind = InitiatingTrigger) then BTrigger else BSymptom) →
  kind ∈ [InitiatingTrigger; PropagatedSymptom] →
  hc_scope class = ScopeCandidate ∧ hc_category class ≠ IndependentNoise ∧ (ev_evidence_id e ∉ recovery) ∧
  (kind = InitiatingTrigger →
     (hc_category class ∉ [PrecedingSameSource; FollowingSameSource; Propagation]) ∧ claim_kind claim ≠ SymptomClaim ∧
     (claim_kind claim = CausalCandidate ∨ ev_role e = Cause)) ∧
  (kind = PropagatedSymptom → claim_kind claim = SymptomClaim).
Proof.
  unfold bucket_of. intros Hb Hk. destruct (is_independent_or_noise class) eqn:Ein; [by destruct (bool_decide (kind = _))|].
  unfold is_independent_or_noise in Ein. destruct (bool_decide (ev_evidence_id e ∈ recovery)) eqn:Erec; [by destruct (bool_decide (kind = _))|].
  split_bool. assert (hc_scope class = ScopeCandidate) as Hsc by (by destruct (hc_scope class)).
  rewrite (bool_decide_eq_true_2 _ Hsc), andb_true_r in Hb. split_and!; [done..| |].
  - intros ->. rewrite (bool_decide_eq_true_2 (InitiatingTrigger = _)) in Hb by done.
    destruct (bool_decide (claim_kind claim = SymptomClaim)) eqn:Es; [done|].
    destruct (is_positional_chronology class || _) eqn:Ep;
      [by destruct (bool_decide (claim_kind claim = CompetingExplanation))|]. unfold is_positional_chronology in Ep.
    destruct (bool_decide (claim_kind claim = CausalCandidate) || bool_decide (ev_role e = Cause)) eqn:Ec;
      [|by destruct (bool_decide (claim_kind claim = CompetingExplanation))].
    split_bool. split_and!; [set_solver|done|]. apply orb_true_iff in Ec as [Ec|Ec]; split_bool; auto.
  - intros ->. rewrite (bool_decide_eq_false_2 (PropagatedSymptom = _)) in Hb by done.
    destruct (bool_decide (claim_kind claim = SymptomClaim)) eqn:Es; [by split_bool|].
    repeat (match type of Hb with (if ?b then _ else _) = _ => destruct b end); done.
Qed.

(** C21. What is accepted as an initiating trigger or a propagated symptom was proven
    by the host, not by the model: the cited row is in the ledger, belongs to the
    relation's candidate, is cited by a supported claim of an accepted finding, and the
    packet places it in the candidate's own neighborhood; independent rows and noise
    never serve. A trigger is moreover no positional or downstream row and no symptom
    claim; and every accepted value has both a trigger and a symptom, each claim used
    once. *)
Theorem accepted_trigger_is_host_proven `{Sha2} from_str binding evidence packet ledger findings review raw t v :
  HostEvidenceLedger_new binding evidence = Ok ledger → causal_topology packet ledger findings review = Ok t →
  validate_causal_synthesis from_str raw t = Ok v →
  InitiatingTrigger ∈ ml_kind <$> cs_relations v ∧ PropagatedSymptom ∈ ml_kind <$> cs_relations v ∧
  NoDup (rel_pair <$> cs_relations v) ∧
  ∀ rel id, rel ∈ cs_relations v → ml_kind rel ∈ [InitiatingTrigger; PropagatedSymptom] → id ∈ ml_evidence_ids rel →
  ∃ e claim row, e ∈ evidence ∧ ev_evidence_id e = id ∧ ev_candidate_id e = ml_candidate_id rel ∧
    claim ∈ all_finding_claims findings ∧ claim_pair claim = rel_pair rel ∧ claim_status claim = Supported ∧
    id ∈ claim_evidence_ids claim ∧ row ∈ pkt_rows packet ∧ pk_evidence_id row = id ∧ pk_scope row = ScopeCandidate ∧
    pk_context_category row ≠ IndependentNoise ∧
    (ml_kind rel = InitiatingTrigger →
       (pk_context_category row ∉ [PrecedingSameSource; FollowingSameSource; Propagation]) ∧ claim_kind claim ≠ SymptomClaim ∧
       (claim_kind claim = CausalCandidate ∨ ev_role e = Cause)) ∧
    (ml_kind rel = PropagatedSymptom → claim_kind claim = SymptomClaim).
Proof.
  intros (Hok & _ & Hperm & _)%ledger_new_Ok Ht (Hall & Hnd & _ & _ & Hreq)%validate_causal_inv.
  unfold causal_topology in Ht. apply bind_Ok in Ht as ([] & _ & Ht). apply bind_Ok in Ht as ([] & _ & Ht).
  apply bind_Ok in Ht as ([] & _ & Ht). apply bind_Ok in Ht as ([] & Hno%reject_if_Ok & Ht). split_bool.
  apply derive_inv in Ht as (Htr & Hsy & cls & Hcls & Hproof); [|done|done]. cbn [ti_classifications] in Hcls.
  split_and!; [apply Hreq; [by left|done]|apply Hreq; [by right; left|done]|done|].
  intros rel id Hrel Hk Hid. rewrite Forall_forall in Hall. destruct (Hall rel Hrel) as (Hslot & _ & _ & Hcites).
  rewrite Forall_forall in Hcites. destruct (Hcites id Hid) as (hi & Hget & Hpair & _).
  destruct (Hproof _ _ _ id hi Hk Hslot Hget Hpair) as (claim & e & Hcl & Hcp & Hst & Hidc & Hval & Hb).
  cbn [ti_findings ti_ledger ti_binding ti_recovery_evidence_ids] in *. fold (rel_pair rel) in Hcp.
  unfold validated_entry in Hval. destruct (ledger_get ledger id) as [e1|] eqn:E1; [|done]. cbn in Hval.
  destruct (bool_decide (ev_candidate_id e1 = _)) eqn:Ecand; [|done]. cbn in Hval. destruct (negb _); [done|]. injection Hval as ->.
  apply ledger_get_row in E1 as [Hrow Hidrow]; [|done]. split_bool.
  destruct (bucket_class _ _ _ _ _ Hb Hk) as (Hsc & Hnoise & _ & Htrig & Hsym).
  unfold class_of in *. destruct (bmap_get id cls) as [c|] eqn:Ec; [|done].
  destruct (index_classifications_get _ _ _ _ _ Hcls Ec) as [[Hin Hcid]|?]; [|done].
  apply list_elem_of_fmap in Hin as (row & -> & [Hin _]%elem_of_filter_bool). cbn in *.
  exists e, claim, row. split_and!; try done; [by rewrite <-Hperm|].
  rewrite Ecand. unfold rel_pair, claim_pair in Hcp. congruence.
Qed.

(** ** Contradictions as disproof

    The derivation also accepts contradictions, which [causal_topology] never passes. *)

Module CausalDemo.
Import AnswerDemo.
Definition rows : list HostEvidenceEntry :=
  [row "e1" "g" Neutral; row "e2" "g" Neutral; row "e3" "h" Symptom; row "e4" "h" Neutral].
Definition binding : AnswerBindingV1 :=
  {| bind_session_id := "s"; bind_turn_id := "t"; bind_corpus_id := "c";
     bind_revision := {| event_revision := 1; template_analysis_revision := 2; suppression_revision := 3 |};
     bind_ledger_digest := ledger_digest rows |}.
Definition ledger : HostEvidenceLedger :=
  {| led_binding := binding; led_entries := (λ e, (ev_evidence_id e, e)) <$> rows |}.
Lemma causal_ledger_built : HostEvidenceLedger_new binding rows = Ok ledger.
Proof. vm_compute. reflexivity. Qed.

Definition supported (id : string) (kind : ClaimKind) (cand : string) (ids : list string) : InvestigationClaimV1 :=
  {| claim_id := id; claim_kind := kind; claim_text := "text"; claim_candidate_id := cand; claim_evidence_ids := ids;
     claim_status := Supported |}.
Definition finding (cand : string) (claims : list InvestigationClaimV1) : CandidateFindingV1 :=
  {| fd_candidate_id := cand; fd_claims := claims; fd_citations := []; fd_role_binding := ReviewDemo.rb |}.
Definition findings : list CandidateFindingV1 :=
  [finding "g" [supported "k1" CausalCandidate "g" ["e1"; "e2"]];
   finding "h" [supported "k2" SymptomClaim "h" ["e3"]; supported "k3" Observation "h" ["e4"]]].

Definition packet_row (id cand : string) (c : FastTriageEvidenceCategory) : FastTriagePacketRow :=
  {| pk_evidence_id := id; pk_candidate_id := cand; pk_role := Neutral; pk_scope := ScopeCandidate;
     pk_chronology_ordinal := None; pk_context_category := c |}.
Definition packet : FastTriagePacketV1 :=
  {| pkt_ledger := ledger; pkt_rows := [packet_row "e1" "g" Focus; packet_row "e2" "g" PrecedingSameSource;
                                        packet_row "e3" "h" TraceLinked; packet_row "e4" "h" Focus];
     pkt_independent_candidate_id := None; pkt_timeline_complete := true; pkt_clock := OrderOnly;
     pkt_neighborhood := empty_neighborhood; pkt_packet_id := "p" |}.

(** A review that reports a contradiction between two claims, citing some rows. *)
Definition contested (claim_b : string) (ids : list string) : HostCausalTopologyInput :=
  {| ti_binding := binding; ti_ledger := ledger; ti_findings := findings; ti_known_claims := known_claims findings;
     ti_contradictions := [{| rc_contradiction_id := "x"; rc_candidate_a := "g"; rc_claim_a_id := "k1"; rc_candidate_b := "h";
                              rc_claim_b_id := claim_b; rc_text := "text"; rc_evidence_ids := ids |}];
     ti_recovery_evidence_ids := []; ti_classifications := row_class <$> pkt_rows packet |}.
Definition relation (kind : CausalRelationKind) (cand claim : string) (ids : list string) : ModelCausalRelationV1 :=
  {| ml_kind := kind; ml_candidate_id := cand; ml_claim_id := claim; ml_evidence_ids := ids; ml_note := EmptyString |}.
Definition says (rels : list ModelCausalRelationV1) (_ : string) : result string ModelCausalSynthesisV1 :=
  Ok {| ms_schema := CAUSAL_SYNTHESIS_SCHEMA_V1; ms_relations := rels |}.
Definition honest : list ModelCausalRelationV1 :=
  [relation InitiatingTrigger "g" "k1" ["e1"]; relation PropagatedSymptom "h" "k2" ["e3"]].
Definition promoted : list ModelCausalRelationV1 :=
  [relation InitiatingTrigger "g" "k1" ["e2"]; relation PropagatedSymptom "h" "k2" ["e3"];
   relation Disconfirmation "h" "k3" ["e4"]].
Definition run (packet_input : result CausalTopologyDeriveError HostCausalTopologyV1) (rels : list ModelCausalRelationV1) : bool :=
  match packet_input with Ok t => is_ok (validate_causal_synthesis (says rels) EmptyString t) | Err _ => false end.
End CausalDemo.

(** A contradiction admits as a trigger a row that never establishes one. The row
    precedes the focus in its source, so the derivation leaves it out; when a
    contradiction cites it, it becomes an identity of the claim, and the claim's
    trigger slot accepts it. Without the contradiction the same proposal is refused. *)
Theorem contested_row_becomes_a_trigger :
  CausalDemo.run (derive_host_causal_topology (CausalDemo.contested "k3" ["e2"; "e4"])) CausalDemo.promoted = true ∧
  (∃ row, row ∈ pkt_rows CausalDemo.packet ∧ pk_evidence_id row = "e2" ∧ pk_context_category row = PrecedingSameSource) ∧
  CausalDemo.run (causal_topology CausalDemo.packet CausalDemo.ledger CausalDemo.findings None)
    [CausalDemo.relation InitiatingTrigger "g" "k1" ["e2"]; CausalDemo.relation PropagatedSymptom "h" "k2" ["e3"]] = false.
Proof.
  split_and!; [vm_compute; reflexivity| |vm_compute; reflexivity].
  exists (CausalDemo.packet_row "e2" "g" PrecedingSameSource). split_and!; [by right; left|done|done].
Qed.

Lemma slots_force_claim t kind pr rel :
  (∀ s, s ∈ tp_allowed_slots t → slot_kind s = kind → (s.1.2, s.2) = pr) →
  rel_slot rel ∈ tp_allowed_slots t → ml_kind rel = kind → rel_pair rel = pr.
Proof. intros Hall Hs Hk. exact (Hall (rel_slot rel) Hs Hk). Qed.

(** A topology can be unsatisfiable: when the disproof can only come from the claim
    that must also be the trigger, every proposal is refused, because a claim is used
    once and both kinds are required. A contradiction that cites rows of one side only
    makes such a topology. *)
Theorem contradiction_can_make_every_answer_fail from_str raw t :
  derive_host_causal_topology (CausalDemo.contested "k2" ["e2"]) = Ok t → is_ok (validate_causal_synthesis from_str raw t) = false.
Proof.
  intros Ht. vm_compute in Ht. injection Ht as <-. destruct (is_ok _) eqn:E; [|done]. exfalso.
  apply is_ok_spec in E as [v (Hall & Hnd & _ & _ & Hreq)%validate_causal_inv]. rewrite Forall_forall in Hall.
  assert (∀ k, k ∈ [InitiatingTrigger; Disconfirmation] →
    ∃ rel, rel ∈ cs_relations v ∧ ml_kind rel = k ∧ rel_pair rel = ("g", "k1")) as Hrel.
  { intros k Hk. assert (k = InitiatingTrigger ∨ k = Disconfirmation) as Hk' by (clear -Hk; set_solver).
    assert (k ∈ ml_kind <$> cs_relations v) as (rel & -> & Hin)%list_elem_of_fmap.
    { apply Hreq; clear -Hk'; cbn; destruct Hk' as [-> | ->]; [by left|by right; right; left|by left|by right; right; left]. }
    exists rel. split_and!; [done..|]. destruct (Hall rel Hin) as [Hs _]. eapply slots_force_claim; [|exact Hs|done].
    clear -Hk'. cbn. intros s Hs' Hks. repeat (apply elem_of_cons in Hs' as [->|Hs']; [done || (cbn in Hks; destruct Hk'; congruence)|]).
    by apply elem_of_nil in Hs'. }
  destruct (Hrel InitiatingTrigger) as (r1 & H1 & K1 & P1); [by left|]. destruct (Hrel Disconfirmation) as (r2 & H2 & K2 & P2); [by right; left|].
  assert (r1 = r2) as -> by (apply (NoDup_fmap_eq rel_pair (cs_relations v)); [done..|congruence]). congruence.
Qed.

(** ** Witnesses *)

Lemma accepted_trigger_is_host_proven_witness :
  ∃ t v, causal_topology CausalDemo.packet CausalDemo.ledger CausalDemo.findings None = Ok t ∧
    validate_causal_synthesis (CausalDemo.says CausalDemo.honest) EmptyString t = Ok v ∧
    InitiatingTrigger ∈ ml_kind <$> cs_relations v.
Proof.
  destruct (causal_topology CausalDemo.packet CausalDemo.ledger CausalDemo.findings None) as [t|] eqn:Et; [|vm_compute in Et; discriminate].
  destruct (validate_causal_synthesis (CausalDemo.says CausalDemo.honest) EmptyString t) as [v|] eqn:Ev.
  - exists t, v. split_and!; [done..|].
    exact (proj1 (@accepted_trigger_is_host_proven AnswerDemo.sha2 _ _ _ _ _ _ _ _ _ _ CausalDemo.causal_ledger_built Et Ev)).
  - vm_compute in Et. injection Et as <-. vm_compute in Ev. discriminate.
Defined.

Lemma contradiction_can_make_every_answer_fail_witness :
  CausalDemo.run (derive_host_causal_topology (CausalDemo.contested "k2" ["e2"])) CausalDemo.honest = false.
Proof.
  unfold CausalDemo.run. destruct (derive_host_causal_topology (CausalDemo.contested "k2" ["e2"])) as [t|] eqn:Et.
  - by apply contradiction_can_make_every_answer_fail.
  - vm_compute in Et. discriminate.
Defined.
