(* ===== verification/Contribution.v ===== *)
(** * Contributions and their reconciliation

    [cd-core/src/multi_model/contributions.rs]: routing plans of bounded
    contributors, the validation of one proposal against the host packet, the
    deterministic baseline and the reconciliation of all attempts. The derived
    deserialiser of proposals is a parameter. *)
From Stdlib Require Import ZArith Lia Ascii String.
From stdpp Require Import base tactics option list list_numbers sets sorting strings.
From S2P Require Import Prelude RustStr Crypto BTree TriageSdk Answer Neighborhood FastPacket Display TriagePolicy.

Local Open Scope string_scope.
Local Open Scope list_scope.
Local Open Scope Z_scope.

(** ** Labels and their orders *)

Definition CONTRIBUTION_SCHEMA_V1 : string := "contextdesk.multi_model.contribution.v1".

Inductive ContributionClaimKind := KObservation | KSymptom | KCausalCandidate | KCompetingExplanation.
Inductive ContributionAvailability :=
| AvCompleted | AvUnavailable | AvNotAdmitted | AvTimedOut | AvCancelled | AvMalformed | AvFailed.
Inductive ContributionDegradationReason :=
| QualificationUnavailable | ProviderRoundBudgetExhausted | ContextBudgetExhausted | TotalContextBudgetExhausted
| DegCancelled | DegDeadline | ProviderFailed | MalformedProposal | ReviewerNotRequired | ReviewerPhaseDisabled.

#[global] Instance ContributionRole_eq_dec : EqDecision ContributionRole.
Proof. solve_decision. Defined.
#[global] Instance ContributionClaimKind_eq_dec : EqDecision ContributionClaimKind.
Proof. solve_decision. Defined.
#[global] Instance ContributionAvailability_eq_dec : EqDecision ContributionAvailability.
Proof. solve_decision. Defined.
#[global] Instance ContributionDegradationReason_eq_dec : EqDecision ContributionDegradationReason.
Proof. solve_decision. Defined.

Definition contribution_role_as_str (r : ContributionRole) : string :=
  match r with
  | CrObservationExtractor => "observation_extractor" | CrTimelineAnalyst => "timeline_analyst"
  | CrCausalProposer => "causal_proposer" | CrContradictionChecker => "contradiction_checker"
  | CrEvidenceGap => "evidence_gap" | CrReviewer => "reviewer"
  end.
Definition claim_kind_as_str (k : ContributionClaimKind) : string :=
  match k with
  | KObservation => "observation" | KSymptom => "symptom" | KCausalCandidate => "causal_candidate"
  | KCompetingExplanation => "competing_explanation"
  end.
Definition availability_as_str (a : ContributionAvailability) : string :=
  match a with
  | AvCompleted => "completed" | AvUnavailable => "unavailable" | AvNotAdmitted => "not_admitted"
  | AvTimedOut => "timed_out" | AvCancelled => "cancelled" | AvMalformed => "malformed" | AvFailed => "failed"
  end.
Definition degradation_detail (r : ContributionDegradationReason) : string :=
  match r with
  | QualificationUnavailable => "contributor lacked current qualified evidence; no provider call was sent"
  | ProviderRoundBudgetExhausted =>
      "host provider-round budget was exhausted before this contributor was admitted"
  | ContextBudgetExhausted =>
      "host per-call context budget was exhausted before this contributor was admitted"
  | TotalContextBudgetExhausted =>
      "host total contribution context budget was exhausted before this contributor was admitted"
  | DegCancelled => "turn was cancelled before this contributor completed"
  | DegDeadline => "turn deadline elapsed before this contributor completed"
  | ProviderFailed => "authorized contributor provider failed; deterministic host floor retained"
  | MalformedProposal => "contributor proposal failed host validation; deterministic host floor retained"
  | ReviewerNotRequired => "deterministic reconciliation did not recommend reviewer escalation"
  | ReviewerPhaseDisabled => "optional reviewer phase is disabled by the host routing policy"
  end.

Definition role_rank (r : ContributionRole) : Z :=
  match r with
  | CrObservationExtractor => 0 | CrTimelineAnalyst => 1 | CrCausalProposer => 2
  | CrContradictionChecker => 3 | CrEvidenceGap => 4 | CrReviewer => 5
  end.
Definition claim_rank (k : ContributionClaimKind) : Z :=
  match k with KObservation => 0 | KSymptom => 1 | KCausalCandidate => 2 | KCompetingExplanation => 3 end.
Definition availability_rank (a : ContributionAvailability) : Z :=
  match a with
  | AvCompleted => 0 | AvUnavailable => 1 | AvNotAdmitted => 2 | AvTimedOut => 3 | AvCancelled => 4
  | AvMalformed => 5 | AvFailed => 6
  end.
#[global] Instance role_order : KeyOrder ContributionRole := rank_le role_rank.
#[global] Instance role_order_ok : KeyOrderOk ContributionRole.
Proof. apply rank_order_ok. by intros [] []. Defined.
#[global] Instance claim_order : KeyOrder ContributionClaimKind := rank_le claim_rank.
#[global] Instance claim_order_ok : KeyOrderOk ContributionClaimKind.
Proof. apply rank_order_ok. by intros [] []. Defined.
#[global] Instance availability_order : KeyOrder ContributionAvailability := rank_le availability_rank.
#[global] Instance availability_order_ok : KeyOrderOk ContributionAvailability.
Proof. apply rank_order_ok. by intros [] []. Defined.

(** ** Routing plans *)

Record ContributionRoutingPlan := {
  plan_roles : list ContributionRole;
  plan_policy : ContributionRoutingPolicy;
}.
Inductive ContributionRoutingError :=
| EmptyPlan | TooManyContributors | TooMuchParallelism | NoRounds | NoContextBudget | ReviewerDisabled
| MultipleReviewers | ReviewerNotFinal.

Definition reviewer_count (roles : list ContributionRole) : Z :=
  zlen (List.filter (λ r, bool_decide (r = CrReviewer)) roles).
Definition ContributionRoutingPlan_new (roles : list ContributionRole) (policy : ContributionRoutingPolicy) :
    result ContributionRoutingError ContributionRoutingPlan :=
  reject_if (bool_decide (roles = [])) EmptyPlan ≫= λ _,
  reject_if (max_contributors policy <? zlen roles) TooManyContributors ≫= λ _,
  reject_if ((max_parallel policy =? 0) || (max_contributors policy <? max_parallel policy))
    TooMuchParallelism ≫= λ _,
  reject_if (crp_max_rounds policy =? 0) NoRounds ≫= λ _,
  reject_if (crp_max_context_chars policy =? 0) NoContextBudget ≫= λ _,
  reject_if (1 <? reviewer_count roles) MultipleReviewers ≫= λ _,
  reject_if ((reviewer_count roles =? 1) && negb (bool_decide (last roles = Some CrReviewer)))
    ReviewerNotFinal ≫= λ _,
  reject_if ((reviewer_count roles =? 1) && negb (reviewer_enabled policy)) ReviewerDisabled ≫= λ _,
  Ok {| plan_roles := roles; plan_policy := policy |}.

(** ** Proposals and validated contributions *)

Record ModelContributionClaimV1 := {
  cc_claim_id : string; cc_candidate_id : string; cc_kind : ContributionClaimKind; cc_text : string;
  cc_evidence_ids : list string;
}.
Record ModelEvidenceGapV1 := { eg_gap_id : string; eg_candidate_id : option string; eg_text : string }.
Record ModelContributionContradictionV1 := {
  ct_contradiction_id : string; ct_candidate_a : string; ct_candidate_b : string;
  ct_evidence_ids : list string; ct_text : string;
}.
Record ModelContributionProposalV1 := {
  cp_schema : string; cp_packet_id : string; cp_role : ContributionRole; cp_abstained : bool;
  cp_claims : list ModelContributionClaimV1; cp_evidence_gaps : list ModelEvidenceGapV1;
  cp_contradictions : list ModelContributionContradictionV1;
}.
Record ContributionIdentity := { ci_profile_id : string; ci_model : string }.
(** A validated claim or contradiction has the fields of the proposed one, with
    its evidence ids in order. *)
Abbreviation ValidatedContributionClaimV1 := ModelContributionClaimV1 (only parsing).
Abbreviation ValidatedContributionContradictionV1 := ModelContributionContradictionV1 (only parsing).
Record ValidatedContributionV1 := {
  vc_packet_id : string; vc_role : ContributionRole; vc_identity : ContributionIdentity; vc_abstained : bool;
  vc_claims : list ValidatedContributionClaimV1; vc_evidence_gaps : list ModelEvidenceGapV1;
  vc_contradictions : list ValidatedContributionContradictionV1;
}.
Record ContributionAttemptV1 := {
  ca_role : ContributionRole; ca_identity : ContributionIdentity; ca_availability : ContributionAvailability;
  ca_contribution : option ValidatedContributionV1;
}.
Definition attempt_completed (c : ValidatedContributionV1) : ContributionAttemptV1 :=
  {| ca_role := vc_role c; ca_identity := vc_identity c; ca_availability := AvCompleted;
     ca_contribution := Some c |}.
Definition attempt_unavailable (role : ContributionRole) (i : ContributionIdentity)
    (a : ContributionAvailability) : ContributionAttemptV1 :=
  {| ca_role := role; ca_identity := i; ca_availability := a; ca_contribution := None |}.

Inductive ContributionValidationError :=
| CvMalformed | CvSchema | CvStalePacket | CvWrongRole | CvForeignCandidate | CvForeignEvidence | CvWrongScope
| CvRoleMismatch | CvInvalidLabel.

Definition safe_label (value : string) : bool :=
  negb (is_empty value) &&
  negb (existsb (λ c, is_control c || bool_decide (c = ch [0xE2; 0x80; 0xA8]) ||
                      bool_decide (c = ch [0xE2; 0x80; 0xA9])) (chars_of (bytes value))).
Definition role_allows (role : ContributionRole) (kind : ContributionClaimKind) : bool :=
  match role with
  | CrObservationExtractor | CrTimelineAnalyst => bool_decide (kind = KObservation)
  | CrCausalProposer => bool_decide (kind ∈ [KSymptom; KCausalCandidate; KCompetingExplanation])
  | CrContradictionChecker | CrEvidenceGap => false
  | CrReviewer => true
  end.
Definition role_allows_gaps (role : ContributionRole) : bool := bool_decide (role ∈ [CrEvidenceGap; CrReviewer]).
Definition role_allows_contradictions (role : ContributionRole) : bool :=
  bool_decide (role ∈ [CrContradictionChecker; CrReviewer]).

(** The loop over the evidence ids of a claim or a contradiction; [refuse] is what
    it checks of a row. *)
Fixpoint collect_evidence (packet : FastTriagePacketV1)
    (refuse : FastTriagePacketRow → option ContributionValidationError) (evidence_ids ids : list string) :
    result ContributionValidationError (list string) :=
  match ids with
  | [] => Ok evidence_ids
  | id :: rest =>
      if bool_decide (id ∈ evidence_ids) then Err CvInvalidLabel else
      match packet_get packet id with
      | None => Err CvForeignEvidence
      | Some row =>
          match refuse row with
          | Some e => Err e
          | None => collect_evidence packet refuse (set_insert id evidence_ids) rest
          end
      end
  end.

Definition claim_refuses (claim : ModelContributionClaimV1) (row : FastTriagePacketRow) :
    option ContributionValidationError :=
  if negb (bool_decide (pk_scope row = ScopeCandidate)) || negb (bool_decide (pk_candidate_id row = cc_candidate_id claim))
  then Some CvWrongScope
  else if bool_decide (pk_role row = Symptom) && bool_decide (cc_kind claim ∈ [KCausalCandidate; KCompetingExplanation])
  then Some CvRoleMismatch else None.
Definition contradiction_refuses (c : ModelContributionContradictionV1) (row : FastTriagePacketRow) :
    option ContributionValidationError :=
  if negb (bool_decide (pk_scope row = ScopeCandidate)) ||
     (negb (bool_decide (pk_candidate_id row = ct_candidate_a c)) &&
      negb (bool_decide (pk_candidate_id row = ct_candidate_b c)))
  then Some CvWrongScope else None.

Section validate.
Context (packet : FastTriagePacketV1) (role : ContributionRole).

Fixpoint check_contribution_claims (labels : list string) (claims : list ModelContributionClaimV1) :
    result ContributionValidationError (list string * list ValidatedContributionClaimV1) :=
  match claims with
  | [] => Ok (labels, [])
  | claim :: rest =>
      if negb (safe_label (cc_claim_id claim)) || bool_decide (cc_claim_id claim ∈ labels) then Err CvInvalidLabel
      else if negb (role_allows role (cc_kind claim)) then Err CvRoleMismatch
      else if negb (bool_decide (cc_candidate_id claim ∈ packet_candidate_ids packet)) then Err CvForeignCandidate
      else if bool_decide (cc_evidence_ids claim = []) then Err CvForeignEvidence
      else
        collect_evidence packet (claim_refuses claim) [] (cc_evidence_ids claim) ≫= λ ids,
        check_contribution_claims (cc_claim_id claim :: labels) rest ≫= λ '(labels, done),
        Ok (labels, {| cc_claim_id := cc_claim_id claim; cc_candidate_id := cc_candidate_id claim;
                       cc_kind := cc_kind claim; cc_text := cc_text claim; cc_evidence_ids := ids |} :: done)
  end.

Fixpoint check_contribution_gaps (labels : list string) (gaps : list ModelEvidenceGapV1) :
    result ContributionValidationError (list string) :=
  match gaps with
  | [] => Ok labels
  | gap :: rest =>
      if negb (safe_label (eg_gap_id gap)) || bool_decide (eg_gap_id gap ∈ labels) then Err CvInvalidLabel
      else if is_some_and (eg_candidate_id gap) (λ c, negb (bool_decide (c ∈ packet_candidate_ids packet)))
      then Err CvForeignCandidate
      else check_contribution_gaps (eg_gap_id gap :: labels) rest
  end.

Fixpoint check_contribution_contradictions (labels : list string) (cs : list ModelContributionContradictionV1) :
    result ContributionValidationError (list ValidatedContributionContradictionV1) :=
  match cs with
  | [] => Ok []
  | c :: rest =>
      if negb (safe_label (ct_contradiction_id c)) || bool_decide (ct_contradiction_id c ∈ labels)
      then Err CvInvalidLabel
      else if bool_decide (ct_candidate_a c = ct_candidate_b c) ||
              negb (bool_decide (ct_candidate_a c ∈ packet_candidate_ids packet)) ||
              negb (bool_decide (ct_candidate_b c ∈ packet_candidate_ids packet)) then Err CvForeignCandidate
      else if bool_decide (ct_evidence_ids c = []) then Err CvForeignEvidence
      else
        collect_evidence packet (contradiction_refuses c) [] (ct_evidence_ids c) ≫= λ ids,
        check_contribution_contradictions (ct_contradiction_id c :: labels) rest ≫= λ done,
        Ok ({| ct_contradiction_id := ct_contradiction_id c; ct_candidate_a := ct_candidate_a c;
               ct_candidate_b := ct_candidate_b c; ct_evidence_ids := ids; ct_text := ct_text c |} :: done)
  end.
End validate.

Definition ClaimKey : Type := string * ContributionClaimKind * list string.
Definition claim_key (c : ValidatedContributionClaimV1) : ClaimKey :=
  (cc_candidate_id c, cc_kind c, cc_evidence_ids c).
Definition claim_leb (a b : ValidatedContributionClaimV1) : bool :=
  bool_decide (key_le (claim_key a, cc_claim_id a) (claim_key b, cc_claim_id b)).

Definition validate_contribution (from_str : string → option ModelContributionProposalV1) (raw : string)
    (packet : FastTriagePacketV1) (i : ContributionIdentity) (expected_role : ContributionRole) :
    result ContributionValidationError ValidatedContributionV1 :=
  ok_or (from_str raw) CvMalformed ≫= λ proposal,
  reject_if (negb (bool_decide (cp_schema proposal = CONTRIBUTION_SCHEMA_V1))) CvSchema ≫= λ _,
  reject_if (negb (bool_decide (cp_packet_id proposal = pkt_packet_id packet))) CvStalePacket ≫= λ _,
  reject_if (negb (bool_decide (cp_role proposal = expected_role))) CvWrongRole ≫= λ _,
  reject_if (is_empty (trim (ci_profile_id i)) || is_empty (trim (ci_model i))) CvInvalidLabel ≫= λ _,
  check_contribution_claims packet expected_role [] (cp_claims proposal) ≫= λ '(labels, claims),
  reject_if (negb (bool_decide (cp_evidence_gaps proposal = [])) && negb (role_allows_gaps expected_role))
    CvWrongRole ≫= λ _,
  check_contribution_gaps packet labels (cp_evidence_gaps proposal) ≫= λ labels,
  reject_if (negb (bool_decide (cp_contradictions proposal = [])) &&
             negb (role_allows_contradictions expected_role)) CvWrongRole ≫= λ _,
  check_contribution_contradictions packet labels (cp_contradictions proposal) ≫= λ contradictions,
  Ok {| vc_packet_id := pkt_packet_id packet; vc_role := expected_role; vc_identity := i;
        vc_abstained := cp_abstained proposal; vc_claims := sort_by claim_leb claims;
        vc_evidence_gaps := cp_evidence_gaps proposal; vc_contradictions := contradictions |}.

(** ** The deterministic baseline *)

Inductive ReconciliationState :=
| DeterministicBaseline | RsSupported | Contested | InsufficientEvidence | Abstained | EscalationRecommended
| RsUnavailable.
Definition reconciliation_state_as_str (s : ReconciliationState) : string :=
  match s with
  | DeterministicBaseline => "deterministic_baseline" | RsSupported => "supported" | Contested => "contested"
  | InsufficientEvidence => "insufficient_evidence" | Abstained => "abstained"
  | EscalationRecommended => "escalation_recommended" | RsUnavailable => "unavailable"
  end.

Record BaselineTimelineRow := {
  bt_evidence_id : string; bt_candidate_id : string; bt_scope : FastTriageEvidenceScope;
  bt_chronology_ordinal : option Z; bt_context_category : FastTriageEvidenceCategory;
}.
Record BaselineCandidateGroup := {
  bg_candidate_id : string; bg_evidence_ids : list string; bg_cause_evidence_ids : list string;
  bg_symptom_evidence_ids : list string;
}.
Record BaselineRelationship := {
  br_evidence_id : string; br_candidate_id : string; br_category : FastTriageEvidenceCategory;
}.
Record DeterministicBaselineV1 := {
  db_timeline : list BaselineTimelineRow; db_candidate_groups : list BaselineCandidateGroup;
  db_relationships : list BaselineRelationship; db_citations : list string;
  db_symptom_evidence_ids : list string; db_root_cause_established : bool;
}.

Definition timeline_row (row : FastTriagePacketRow) : BaselineTimelineRow :=
  {| bt_evidence_id := pk_evidence_id row; bt_candidate_id := pk_candidate_id row; bt_scope := pk_scope row;
     bt_chronology_ordinal := pk_chronology_ordinal row; bt_context_category := pk_context_category row |}.
Definition relationship (row : FastTriagePacketRow) : BaselineRelationship :=
  {| br_evidence_id := pk_evidence_id row; br_candidate_id := pk_candidate_id row;
     br_category := pk_context_category row |}.
Definition push_row (row : FastTriagePacketRow) (g : BaselineCandidateGroup) : BaselineCandidateGroup :=
  {| bg_candidate_id := bg_candidate_id g; bg_evidence_ids := bg_evidence_ids g ++ [pk_evidence_id row];
     bg_cause_evidence_ids :=
       if bool_decide (pk_role row = Cause) then bg_cause_evidence_ids g ++ [pk_evidence_id row]
       else bg_cause_evidence_ids g;
     bg_symptom_evidence_ids :=
       if bool_decide (pk_role row = Symptom) then bg_symptom_evidence_ids g ++ [pk_evidence_id row]
       else bg_symptom_evidence_ids g |}.
Definition empty_group (cand : string) : BaselineCandidateGroup :=
  {| bg_candidate_id := cand; bg_evidence_ids := []; bg_cause_evidence_ids := []; bg_symptom_evidence_ids := [] |}.
Definition group_row (groups : list (string * BaselineCandidateGroup)) (row : FastTriagePacketRow) :
    list (string * BaselineCandidateGroup) :=
  bmap_upsert (pk_candidate_id row) (push_row row) (push_row row (empty_group (pk_candidate_id row))) groups.

Definition deterministic_baseline (packet : FastTriagePacketV1) : DeterministicBaselineV1 :=
  {| db_timeline := timeline_row <$> pkt_rows packet;
     db_candidate_groups := (foldl group_row [] (pkt_rows packet)).*2;
     db_relationships := relationship <$> pkt_rows packet;
     db_citations := pk_evidence_id <$> pkt_rows packet;
     db_symptom_evidence_ids :=
       pk_evidence_id <$> List.filter (λ row, bool_decide (pk_role row = Symptom)) (pkt_rows packet);
     db_root_cause_established := false |}.

(** ** Reconciliation *)

Record ReconciledClaim := {
  rc_candidate_id : string; rc_kind : ContributionClaimKind; rc_evidence_ids : list string;
  rc_role_count : Z; rc_contributor_count : Z; rc_model_id_count : Z; rc_gateway_count : Z;
}.
Inductive ReconciliationSupportKind := ExactAgreement | CompatibleSupport.
Record ReconciliationSupportV1 := {
  su_candidate_id : string; su_kind : ContributionClaimKind; su_support_kind : ReconciliationSupportKind;
  su_evidence_ids : list string; su_role_count : Z; su_model_ref_count : Z; su_model_id_count : Z;
  su_gateway_count : Z;
}.
Inductive ReconciliationGapKind := MissingObservationCoverage | MissingCausalCoverage | UnresolvedQuestion.
Record ReconciliationGapV1 := {
  rg_kind : ReconciliationGapKind; rg_candidate_id : option string; rg_reporter_model_count : Z;
}.
Record ReconciliationConflict := {
  cf_candidate_id : string; cf_evidence_ids : list string; cf_kinds : list ContributionClaimKind;
}.
Record ReconciliationReportV1 := {
  rr_packet_id : string; rr_state : ReconciliationState; rr_escalation_recommended : bool;
  rr_availability : list (ContributionRole * ContributionAvailability); rr_claims : list ReconciledClaim;
  rr_support : list ReconciliationSupportV1; rr_conflicts : list ReconciliationConflict;
  rr_gaps : list ReconciliationGapV1;
  rr_reported_contradictions : list ValidatedContributionContradictionV1;
  rr_baseline : DeterministicBaselineV1; rr_root_cause_established : bool;
}.

#[global] Instance support_kind_eq_dec : EqDecision ReconciliationSupportKind.
Proof. solve_decision. Defined.
#[global] Instance support_eq_dec : EqDecision ReconciliationSupportV1.
Proof. solve_decision. Defined.
#[global] Instance gap_kind_eq_dec : EqDecision ReconciliationGapKind.
Proof. solve_decision. Defined.
#[global] Instance gap_eq_dec : EqDecision ReconciliationGapV1.
Proof. solve_decision. Defined.

Definition support_kind_rank (k : ReconciliationSupportKind) : Z :=
  match k with ExactAgreement => 0 | CompatibleSupport => 1 end.
#[global] Instance support_kind_order : KeyOrder ReconciliationSupportKind := rank_le support_kind_rank.
#[global] Instance support_kind_order_ok : KeyOrderOk ReconciliationSupportKind.
Proof. apply rank_order_ok. by intros [] []. Defined.
Definition support_fields (s : ReconciliationSupportV1) :
    string * ContributionClaimKind * ReconciliationSupportKind * list string * Z * Z * Z * Z :=
  (su_candidate_id s, su_kind s, su_support_kind s, su_evidence_ids s, su_role_count s, su_model_ref_count s,
   su_model_id_count s, su_gateway_count s).
#[global] Instance support_order : KeyOrder ReconciliationSupportV1 := proj_le support_fields.
#[global] Instance support_order_ok : KeyOrderOk ReconciliationSupportV1.
Proof. apply proj_order_ok. by intros [] [] [=]; subst. Defined.

Definition gap_kind_rank (k : ReconciliationGapKind) : Z :=
  match k with MissingObservationCoverage => 0 | MissingCausalCoverage => 1 | UnresolvedQuestion => 2 end.
#[global] Instance gap_kind_order : KeyOrder ReconciliationGapKind := rank_le gap_kind_rank.
#[global] Instance gap_kind_order_ok : KeyOrderOk ReconciliationGapKind.
Proof. apply rank_order_ok. by intros [] []. Defined.
Definition gap_fields (g : ReconciliationGapV1) : ReconciliationGapKind * option string * Z :=
  (rg_kind g, rg_candidate_id g, rg_reporter_model_count g).
#[global] Instance gap_order : KeyOrder ReconciliationGapV1 := proj_le gap_fields.
#[global] Instance gap_order_ok : KeyOrderOk ReconciliationGapV1.
Proof. apply proj_order_ok. by intros [] [] [=]; subst. Defined.

(** Who supports a claim: the role, the profile and the model of a contributor. *)
Definition Supporter : Type := ContributionRole * string * string.
Definition ModelRef : Type := string * string.
Definition supporter (c : ValidatedContributionV1) : Supporter :=
  (vc_role c, ci_profile_id (vc_identity c), ci_model (vc_identity c)).
Definition model_ref (c : ValidatedContributionV1) : ModelRef :=
  (ci_profile_id (vc_identity c), ci_model (vc_identity c)).
Definition ref_of (s : Supporter) : ModelRef := (s.1.2, s.2).
Definition is_observation (k : ContributionClaimKind) : bool := bool_decide (k = KObservation).
Definition is_causal (k : ContributionClaimKind) : bool :=
  bool_decide (k ∈ [KSymptom; KCausalCandidate; KCompetingExplanation]).

(** What the loop over the attempts collects. *)
Record Tally := {
  ta_claim_supporters : list (ClaimKey * list Supporter);
  ta_gap_reporters : list (option string * list ModelRef);
  ta_completed : Z;
  ta_non_abstained : Z;
  ta_has_observation : bool;
  ta_has_causal : bool;
  ta_contradictions : list ValidatedContributionContradictionV1;
}.
Definition no_tally : Tally :=
  {| ta_claim_supporters := []; ta_gap_reporters := []; ta_completed := 0; ta_non_abstained := 0;
     ta_has_observation := false; ta_has_causal := false; ta_contradictions := [] |}.

Definition support_claim (who : Supporter) (m : list (ClaimKey * list Supporter))
    (claim : ValidatedContributionClaimV1) : list (ClaimKey * list Supporter) :=
  bmap_upsert (claim_key claim) (set_insert who) [who] m.
Definition report_gap (who : ModelRef) (m : list (option string * list ModelRef)) (gap : ModelEvidenceGapV1) :
    list (option string * list ModelRef) :=
  bmap_upsert (eg_candidate_id gap) (set_insert who) [who] m.

Definition usable (a : ContributionAttemptV1) : option ValidatedContributionV1 :=
  c ← ca_contribution a; if bool_decide (ca_availability a = AvCompleted) then Some c else None.
Definition tally_contribution (t : Tally) (c : ValidatedContributionV1) : Tally :=
  {| ta_claim_supporters := foldl (support_claim (supporter c)) (ta_claim_supporters t) (vc_claims c);
     ta_gap_reporters := foldl (report_gap (model_ref c)) (ta_gap_reporters t) (vc_evidence_gaps c);
     ta_completed := ta_completed t + 1;
     ta_non_abstained := if vc_abstained c then ta_non_abstained t else ta_non_abstained t + 1;
     ta_has_observation :=
       ta_has_observation t || existsb (λ k, is_observation (cc_kind k)) (vc_claims c);
     ta_has_causal := ta_has_causal t || existsb (λ k, is_causal (cc_kind k)) (vc_claims c);
     ta_contradictions := ta_contradictions t ++ vc_contradictions c |}.
Definition tally_attempt (t : Tally) (a : ContributionAttemptV1) : Tally :=
  match usable a with Some c => tally_contribution t c | None => t end.

Record Counts := { n_roles : Z; n_model_refs : Z; n_model_ids : Z; n_gateways : Z }.
Definition contributor_counts (contributors : list Supporter) : Counts :=
  {| n_roles := zlen (set_collect ((λ s : Supporter, s.1.1) <$> contributors));
     n_model_refs := zlen (set_collect (ref_of <$> contributors));
     n_model_ids := zlen (set_collect ((λ s : Supporter, s.2) <$> contributors));
     n_gateways := zlen (set_collect ((λ s : Supporter, s.1.2) <$> contributors)) |}.

Definition reconciled_claim (entry : ClaimKey * list Supporter) : ReconciledClaim :=
  let '(cand, kind, ids, contributors) := entry in
  let n := contributor_counts contributors in
  {| rc_candidate_id := cand; rc_kind := kind; rc_evidence_ids := ids; rc_role_count := n_roles n;
     rc_contributor_count := n_model_refs n; rc_model_id_count := n_model_ids n; rc_gateway_count := n_gateways n |}.

Definition support_relation (cand : string) (kind : ContributionClaimKind) (sk : ReconciliationSupportKind)
    (ids : list string) (n : Counts) : ReconciliationSupportV1 :=
  {| su_candidate_id := cand; su_kind := kind; su_support_kind := sk; su_evidence_ids := ids;
     su_role_count := n_roles n; su_model_ref_count := n_model_refs n; su_model_id_count := n_model_ids n;
     su_gateway_count := n_gateways n |}.
Definition exact_support (relations : list ReconciliationSupportV1) (entry : ClaimKey * list Supporter) :
    list ReconciliationSupportV1 :=
  let '(cand, kind, ids, contributors) := entry in
  let n := contributor_counts contributors in
  if 2 <=? n_model_refs n then set_insert (support_relation cand kind ExactAgreement ids n) relations else relations.

Definition overlaps (left right : list string) : bool := existsb (λ id, binary_search_is_ok id right) left.
Definition compatible_support (left : ClaimKey * list Supporter) (relations : list ReconciliationSupportV1)
    (right : ClaimKey * list Supporter) : list ReconciliationSupportV1 :=
  let '(cand, kind, ids, contributors) := left in
  let '(cand', kind', ids', contributors') := right in
  if negb (bool_decide (cand = cand')) || negb (bool_decide (kind = kind')) || bool_decide (ids = ids') ||
     negb (overlaps ids ids') then relations
  else
    let n := contributor_counts (foldl (λ s k, set_insert k s) contributors contributors') in
    if n_model_refs n <? 2 then relations
    else set_insert (support_relation cand kind CompatibleSupport (set_collect (ids ++ ids')) n) relations.
(** The two nested loops: every entry with every later one. *)
Fixpoint compatible_supports (relations : list ReconciliationSupportV1)
    (entries : list (ClaimKey * list Supporter)) : list ReconciliationSupportV1 :=
  match entries with
  | [] => relations
  | entry :: rest => compatible_supports (foldl (compatible_support entry) relations rest) rest
  end.
Definition support_of (entries : list (ClaimKey * list Supporter)) : list ReconciliationSupportV1 :=
  compatible_supports (foldl exact_support [] entries) entries.

Definition gap_of (kind : ReconciliationGapKind) (cand : option string) (n : Z) : ReconciliationGapV1 :=
  {| rg_kind := kind; rg_candidate_id := cand; rg_reporter_model_count := n |}.
Definition gaps_of (t : Tally) : list ReconciliationGapV1 :=
  let gaps := if ta_has_observation t then [] else set_insert (gap_of MissingObservationCoverage None 0) [] in
  let gaps := if ta_has_causal t then gaps else set_insert (gap_of MissingCausalCoverage None 0) gaps in
  foldl (λ gaps r, set_insert (gap_of UnresolvedQuestion r.1 (zlen r.2)) gaps) gaps (ta_gap_reporters t).

Definition add_kind (m : list (string * list string * list ContributionClaimKind)) (claim : ReconciledClaim) :
    list (string * list string * list ContributionClaimKind) :=
  bmap_upsert (rc_candidate_id claim, rc_evidence_ids claim) (set_insert (rc_kind claim)) [rc_kind claim] m.
Definition conflict_of (entry : string * list string * list ContributionClaimKind) : option ReconciliationConflict :=
  let '(cand, ids, kinds) := entry in
  let causal_kinds := set_collect (List.filter (λ k, negb (bool_decide (k = KObservation))) kinds) in
  if 1 <? zlen causal_kinds
  then Some {| cf_candidate_id := cand; cf_evidence_ids := ids; cf_kinds := causal_kinds |} else None.
Definition conflicts_of (claims : list ReconciledClaim) : list ReconciliationConflict :=
  omap conflict_of (foldl add_kind [] claims).

Definition contradiction_key (c : ValidatedContributionContradictionV1) : string * string * list string * string :=
  (ct_candidate_a c, ct_candidate_b c, ct_evidence_ids c, ct_contradiction_id c).
Definition contradiction_leb (a b : ValidatedContributionContradictionV1) : bool :=
  bool_decide (key_le (contradiction_key a) (contradiction_key b)).
Definition availability_leb (a b : ContributionRole * ContributionAvailability) : bool := bool_decide (key_le a b).
Definition dropped_out (a : ContributionAttemptV1) : bool :=
  negb (bool_decide (ca_availability a ∈ [AvCompleted; AvNotAdmitted])).

Definition reconcile_contributions (packet : FastTriagePacketV1) (attempts : list ContributionAttemptV1) :
    ReconciliationReportV1 :=
  let t := foldl tally_attempt no_tally attempts in
  let claims := reconciled_claim <$> ta_claim_supporters t in
  let gaps := gaps_of t in
  let conflicts := conflicts_of claims in
  let has_dropout := existsb dropped_out attempts in
  let reported := sort_by contradiction_leb (ta_contradictions t) in
  let has_conflict := negb (bool_decide (conflicts = [])) || negb (bool_decide (reported = [])) in
  let missing_role_coverage := negb (ta_has_observation t) || negb (ta_has_causal t) in
  {| rr_packet_id := pkt_packet_id packet;
     rr_state :=
       if bool_decide (attempts = []) then DeterministicBaseline
       else if ta_completed t =? 0 then RsUnavailable
       else if ta_non_abstained t =? 0 then Abstained
       else if has_conflict then Contested
       else if missing_role_coverage then InsufficientEvidence
       else if has_dropout || negb (bool_decide (gaps = [])) then EscalationRecommended
       else RsSupported;
     rr_escalation_recommended := has_conflict || has_dropout || missing_role_coverage || negb (bool_decide (gaps = []));
     rr_availability := sort_by availability_leb ((λ a, (ca_role a, ca_availability a)) <$> attempts);
     rr_claims := claims;
     rr_support := support_of (ta_claim_supporters t);
     rr_conflicts := conflicts;
     rr_gaps := gaps;
     rr_reported_contradictions := reported;
     rr_baseline := deterministic_baseline packet;
     rr_root_cause_established := false |}.

Record ReconciliationReplayV1 := {
  rp_packet_id : string; rp_deterministic_only : ReconciliationState; rp_single_contributor : ReconciliationState;
  rp_bounded_multi_model : ReconciliationState; rp_single_claim_count : Z; rp_bounded_claim_count : Z;
  rp_bounded_conflict_count : Z;
}.
Definition replay_reconciliation (packet : FastTriagePacketV1) (single : option ContributionAttemptV1)
    (bounded : list ContributionAttemptV1) : ReconciliationReplayV1 :=
  let single_report := match single with
                       | Some attempt => reconcile_contributions packet [attempt]
                       | None => reconcile_contributions packet []
                       end in
  let bounded_report := reconcile_contributions packet bounded in
  {| rp_packet_id := pkt_packet_id packet;
     rp_deterministic_only := rr_state (reconcile_contributions packet []);
     rp_single_contributor := rr_state single_report;
     rp_bounded_multi_model := rr_state bounded_report;
     rp_single_claim_count := zlen (rr_claims single_report);
     rp_bounded_claim_count := zlen (rr_claims bounded_report);
     rp_bounded_conflict_count := zlen (rr_conflicts bounded_report) + zlen (rr_reported_contradictions bounded_report) |}.

(** ** What a contribution may say *)

(** A cited row: of the packet, in the neighborhood of a candidate. *)
Definition cites_row (packet : FastTriagePacketV1) (P : FastTriagePacketRow → Prop) (id : string) : Prop :=
  ∃ row, packet_get packet id = Some row ∧ pk_scope row = ScopeCandidate ∧ P row.
Definition cites_rows (packet : FastTriagePacketV1) (P : FastTriagePacketRow → Prop) (ids : list string) : Prop :=
  ids ≠ [] ∧ NoDup ids ∧ Forall (cites_row packet P) ids.

Definition claim_in_packet (packet : FastTriagePacketV1) (role : ContributionRole) (k : ModelContributionClaimV1) :
    Prop :=
  role_allows role (cc_kind k) = true ∧ cc_candidate_id k ∈ packet_candidate_ids packet ∧
  cites_rows packet (λ row, pk_candidate_id row = cc_candidate_id k ∧
    (pk_role row = Symptom → cc_kind k ∉ [KCausalCandidate; KCompetingExplanation])) (cc_evidence_ids k).
Definition gap_in_packet (packet : FastTriagePacketV1) (g : ModelEvidenceGapV1) : Prop :=
  ∀ c, eg_candidate_id g = Some c → c ∈ packet_candidate_ids packet.
Definition contradiction_in_packet (packet : FastTriagePacketV1) (c : ModelContributionContradictionV1) : Prop :=
  ct_candidate_a c ≠ ct_candidate_b c ∧ ct_candidate_a c ∈ packet_candidate_ids packet ∧
  ct_candidate_b c ∈ packet_candidate_ids packet ∧
  cites_rows packet (λ row, pk_candidate_id row = ct_candidate_a c ∨ pk_candidate_id row = ct_candidate_b c)
    (ct_evidence_ids c).

Definition labels_of (p : ModelContributionProposalV1) : list string :=
  (cc_claim_id <$> cp_claims p) ++ (eg_gap_id <$> cp_evidence_gaps p) ++ (ct_contradiction_id <$> cp_contradictions p).
Definition contribution_ok (packet : FastTriagePacketV1) (i : ContributionIdentity) (role : ContributionRole)
    (p : ModelContributionProposalV1) : Prop :=
  cp_schema p = CONTRIBUTION_SCHEMA_V1 ∧ cp_packet_id p = pkt_packet_id packet ∧ cp_role p = role ∧
  trim (ci_profile_id i) ≠ EmptyString ∧ trim (ci_model i) ≠ EmptyString ∧
  NoDup (labels_of p) ∧ Forall (λ l, safe_label l = true) (labels_of p) ∧
  (cp_evidence_gaps p ≠ [] → role_allows_gaps role = true) ∧
  (cp_contradictions p ≠ [] → role_allows_contradictions role = true) ∧
  Forall (claim_in_packet packet role) (cp_claims p) ∧ Forall (gap_in_packet packet) (cp_evidence_gaps p) ∧
  Forall (contradiction_in_packet packet) (cp_contradictions p).

(** What the host keeps: the same, with evidence ids and claims in order. *)
Definition ordered_claim (k : ModelContributionClaimV1) : ValidatedContributionClaimV1 :=
  {| cc_claim_id := cc_claim_id k; cc_candidate_id := cc_candidate_id k; cc_kind := cc_kind k; cc_text := cc_text k;
     cc_evidence_ids := set_collect (cc_evidence_ids k) |}.
Definition ordered_contradiction (c : ModelContributionContradictionV1) : ValidatedContributionContradictionV1 :=
  {| ct_contradiction_id := ct_contradiction_id c; ct_candidate_a := ct_candidate_a c;
     ct_candidate_b := ct_candidate_b c; ct_evidence_ids := set_collect (ct_evidence_ids c); ct_text := ct_text c |}.
Definition contribution_of (packet : FastTriagePacketV1) (i : ContributionIdentity) (role : ContributionRole)
    (p : ModelContributionProposalV1) : ValidatedContributionV1 :=
  {| vc_packet_id := pkt_packet_id packet; vc_role := role; vc_identity := i; vc_abstained := cp_abstained p;
     vc_claims := sort_by claim_leb (ordered_claim <$> cp_claims p); vc_evidence_gaps := cp_evidence_gaps p;
     vc_contradictions := ordered_contradiction <$> cp_contradictions p |}.

Lemma collect_evidence_Ok packet refuse seen ids s :
  collect_evidence packet refuse seen ids = Ok s ↔
  (NoDup ids ∧ Forall (λ id, id ∉ seen ∧ ∃ row, packet_get packet id = Some row ∧ refuse row = None) ids ∧
   s = foldl (λ s k, set_insert k s) seen ids).
Proof.
  revert seen. induction ids as [|id ids IH]; intros seen; cbn.
  { split; [intros [= <-]; by split_and!; [constructor|constructor|]|by intros (_ & _ & ->)]. }
  rewrite NoDup_cons, Forall_cons. case_bool_decide as Hin; [split; [done|naive_solver]|].
  destruct (packet_get packet id) as [row|]; [|split; [done|naive_solver]].
  destruct (refuse row) eqn:E; [split; [done|naive_solver]|]. rewrite IH.
  assert (∀ l, Forall (λ x, x ∉ set_insert id seen ∧ ∃ row, packet_get packet x = Some row ∧ refuse row = None) l ↔
    id ∉ l ∧ Forall (λ x, x ∉ seen ∧ ∃ row, packet_get packet x = Some row ∧ refuse row = None) l) as ->.
  { intros l. rewrite !Forall_forall. setoid_rewrite set_insert_elem. naive_solver. }
  naive_solver.
Qed.

Lemma collect_rows packet refuse P ids s :
  (∀ row, refuse row = None ↔ pk_scope row = ScopeCandidate ∧ P row) →
  (ids ≠ [] ∧ collect_evidence packet refuse [] ids = Ok s) ↔ (cites_rows packet P ids ∧ s = set_collect ids).
Proof.
  intros Href. rewrite collect_evidence_Ok. unfold cites_rows, cites_row, set_collect.
  rewrite !Forall_forall. setoid_rewrite Href. pose proof (@not_elem_of_nil string). naive_solver.
Qed.

Lemma claim_refuses_None k row :
  claim_refuses k row = None ↔
  pk_scope row = ScopeCandidate ∧
  (pk_candidate_id row = cc_candidate_id k ∧
   (pk_role row = Symptom → cc_kind k ∉ [KCausalCandidate; KCompetingExplanation])).
Proof. unfold claim_refuses. repeat case_bool_decide; cbn; naive_solver. Qed.

Lemma contradiction_refuses_None c row :
  contradiction_refuses c row = None ↔
  pk_scope row = ScopeCandidate ∧ (pk_candidate_id row = ct_candidate_a c ∨ pk_candidate_id row = ct_candidate_b c).
Proof. unfold contradiction_refuses. repeat case_bool_decide; cbn; naive_solver. Qed.

Lemma check_claims_in_packet packet role labels ks labels' done :
  check_contribution_claims packet role labels ks = Ok (labels', done) ↔
  (Forall (λ k, safe_label (cc_claim_id k) = true ∧ claim_in_packet packet role k) ks ∧ NoDup (cc_claim_id <$> ks) ∧
   (∀ l, l ∈ cc_claim_id <$> ks → l ∉ labels) ∧ labels' = rev (cc_claim_id <$> ks) ++ labels ∧
   done = ordered_claim <$> ks).
Proof.
  revert labels done. induction ks as [|k ks IH]; intros labels done; cbn.
  { split; [|by intros (_ & _ & _ & -> & ->)]. intros [= <- <-]. split_and!; [constructor..| |done|done].
    by intros l ?%not_elem_of_nil. }
  rewrite Forall_cons, NoDup_cons. unfold claim_in_packet at 1.
  pose proof (λ s, collect_rows packet (claim_refuses k) _ (cc_evidence_ids k) s (claim_refuses_None k)) as Hrows.
  destruct (safe_label (cc_claim_id k)); [|split; [done|naive_solver]]. cbn.
  case_bool_decide as Hin; [split; [done|intros (_ & _ & Hl & _); by destruct (Hl (cc_claim_id k)); [left|]]|].
  destruct (role_allows role (cc_kind k)); cbn; [|split; [done|naive_solver]].
  case_bool_decide; cbn; [|split; [done|naive_solver]].
  case_bool_decide as Hnil; [unfold cites_rows; split; [done|naive_solver]|].
  rewrite bind_Ok. setoid_rewrite bind_Ok. split.
  - intros (s & Hs & [l d] & Hd & [= <- <-]). apply IH in Hd as (Hall & Hnd & Hl & -> & ->).
    destruct (proj1 (Hrows s)) as [Hc ->]; [done|]. split_and!; try done.
    + intros Hk. destruct (Hl _ Hk). by left.
    + intros l [->|Hin']%elem_of_cons; [done|]. intros ?. destruct (Hl l Hin'). by right.
    + by rewrite <-(assoc_L (++)).
  - intros (((_ & _ & _ & Hc) & Hall) & (Hk & Hnd) & Hl & -> & ->).
    destruct (proj2 (Hrows _) (conj Hc eq_refl)) as [_ Hs]. eexists. split; [exact Hs|].
    eexists (_, _). split; [|done]. apply IH. split_and!; [done..| | |done].
    + intros l Hin'. apply not_elem_of_cons. split; [by intros ->|]. apply Hl. by right.
    + by rewrite <-(assoc_L (++)).
Qed.

Lemma check_gaps_in_packet packet labels gs labels' :
  check_contribution_gaps packet labels gs = Ok labels' ↔
  (Forall (λ g, safe_label (eg_gap_id g) = true ∧ gap_in_packet packet g) gs ∧ NoDup (eg_gap_id <$> gs) ∧
   (∀ l, l ∈ eg_gap_id <$> gs → l ∉ labels) ∧ labels' = rev (eg_gap_id <$> gs) ++ labels).
Proof.
  revert labels. induction gs as [|g gs IH]; intros labels; cbn.
  { split; [|by intros (_ & _ & _ & ->)]. intros [= <-]. split_and!; [constructor..| |done].
    by intros l ?%not_elem_of_nil. }
  rewrite Forall_cons, NoDup_cons.
  assert (is_some_and (eg_candidate_id g) (λ c, negb (bool_decide (c ∈ packet_candidate_ids packet))) = false ↔
          gap_in_packet packet g) as Hg.
  { rewrite is_some_and_false. unfold gap_in_packet. by setoid_rewrite negb_false_iff; setoid_rewrite bool_decide_eq_true. }
  destruct (safe_label (eg_gap_id g)); [|split; [done|naive_solver]]. cbn.
  case_bool_decide as Hin; [split; [done|intros (_ & _ & Hl & _); by destruct (Hl (eg_gap_id g)); [left|]]|].
  destruct (is_some_and _ _); [split; [done|]; intros (((_ & H) & _) & _); by apply Hg in H|].
  rewrite IH. setoid_rewrite elem_of_cons. rewrite <-(assoc_L (++)). cbn. naive_solver.
Qed.

Lemma check_contradictions_in_packet packet labels cs done :
  check_contribution_contradictions packet labels cs = Ok done ↔
  (Forall (λ c, safe_label (ct_contradiction_id c) = true ∧ contradiction_in_packet packet c) cs ∧
   NoDup (ct_contradiction_id <$> cs) ∧ (∀ l, l ∈ ct_contradiction_id <$> cs → l ∉ labels) ∧
   done = ordered_contradiction <$> cs).
Proof.
  revert labels done. induction cs as [|c cs IH]; intros labels done; cbn.
  { split; [|by intros (_ & _ & _ & ->)]. intros [= <-]. split_and!; [constructor..| |done].
    by intros l ?%not_elem_of_nil. }
  rewrite Forall_cons, NoDup_cons. unfold contradiction_in_packet at 1.
  pose proof (λ s, collect_rows packet (contradiction_refuses c) _ (ct_evidence_ids c) s (contradiction_refuses_None c))
    as Hrows.
  destruct (safe_label (ct_contradiction_id c)); [|split; [done|naive_solver]]. cbn.
  case_bool_decide as Hin; [split; [done|intros (_ & _ & Hl & _); by destruct (Hl (ct_contradiction_id c)); [left|]]|].
  case_bool_decide; [split; [done|naive_solver]|]. do 2 (case_bool_decide; cbn; [|split; [done|naive_solver]]).
  case_bool_decide as Hnil; [unfold cites_rows; split; [done|naive_solver]|].
  rewrite bind_Ok. setoid_rewrite bind_Ok. split.
  - intros (s & Hs & d & Hd & [= <-]). apply IH in Hd as (Hall & Hnd & Hl & ->).
    destruct (proj1 (Hrows s)) as [Hc ->]; [done|]. split_and!; try done.
    + intros Hk. destruct (Hl _ Hk). by left.
    + intros l [->|Hin']%elem_of_cons; [done|]. intros ?. destruct (Hl l Hin'). by right.
  - intros (((_ & _ & _ & _ & Hc) & Hall) & (Hk & Hnd) & Hl & ->).
    destruct (proj2 (Hrows _) (conj Hc eq_refl)) as [_ Hs]. eexists. split; [exact Hs|].
    eexists. split; [|done]. apply IH. split_and!; [done..| |done].
    intros l Hin'. apply not_elem_of_cons. split; [by intros ->|]. apply Hl. by right.
Qed.

Lemma Forall_and_labels {A} (f : A → string) (P : A → Prop) l :
  Forall (λ x, safe_label (f x) = true ∧ P x) l ↔ Forall (λ s, safe_label s = true) (f <$> l) ∧ Forall P l.
Proof. rewrite Forall_fmap, <-Forall_and. done. Qed.

Lemma only_if_allowed {A} (l : list A) (allowed : bool) :
  negb (bool_decide (l = [])) && negb allowed = false ↔ (l ≠ [] → allowed = true).
Proof. case_bool_decide; destruct allowed; naive_solver. Qed.
Lemma in_labels (l l' : list string) x : x ∈ rev l ++ l' ↔ x ∈ l ∨ x ∈ l'.
Proof. by rewrite elem_of_app, !list_elem_of_In, <-in_rev. Qed.

Lemma validate_contribution_spec from_str raw packet i role c :
  validate_contribution from_str raw packet i role = Ok c ↔
  ∃ p, from_str raw = Some p ∧ contribution_ok packet i role p ∧ c = contribution_of packet i role p.
Proof.
  unfold validate_contribution, contribution_ok, labels_of. split.
  - intros H. inv_result. destruct a4 as [labels claims]. inv_result.
    rewrite only_if_allowed in Hstep5. rewrite only_if_allowed in Hstep7. unfold is_empty in Hstep3. split_bool.
    apply check_claims_in_packet in Hstep4 as ((Hcs & Hc)%Forall_and_labels & Hcn & _ & -> & ->).
    apply check_gaps_in_packet in Hstep6 as ((Hgs & Hg)%Forall_and_labels & Hgn & Hgl & ->).
    apply check_contradictions_in_packet in Hstep8 as ((Hds & Hd)%Forall_and_labels & Hdn & Hdl & ->).
    setoid_rewrite in_labels in Hgl. do 2 setoid_rewrite in_labels in Hdl.
    exists a. rewrite !NoDup_app, !Forall_app. setoid_rewrite elem_of_app. split_and!; naive_solver.
  - intros (p & -> & (Hs & Hid & Hr & Hp & Hm & Hnd & Hsafe & Hag & Had & Hc & Hg & Hd) & ->).
    rewrite !NoDup_app in Hnd. rewrite !Forall_app in Hsafe. setoid_rewrite elem_of_app in Hnd. cbn.
    unfold is_empty. rewrite (bool_decide_eq_true_2 (cp_schema p = _)), (bool_decide_eq_true_2 (cp_packet_id p = _)),
      (bool_decide_eq_true_2 (cp_role p = _)), !(bool_decide_eq_false_2 (_ = EmptyString)) by done. cbn.
    rewrite bind_Ok. eexists (_, _). split.
    { apply check_claims_in_packet. split_and!; [|naive_solver| |done|done]; [apply Forall_and_labels; naive_solver|].
      intros l _. apply not_elem_of_nil. }
    rewrite <-only_if_allowed in Hag. rewrite <-only_if_allowed in Had. rewrite Hag. cbn. rewrite bind_Ok. eexists. split.
    { apply check_gaps_in_packet. split_and!; [|naive_solver| |done]; [apply Forall_and_labels; naive_solver|].
      intros l Hl. rewrite in_labels. pose proof (@not_elem_of_nil string). naive_solver. }
    rewrite Had. cbn. rewrite bind_Ok. eexists. split; [|done].
    apply check_contradictions_in_packet. split_and!; [|naive_solver| |done]; [apply Forall_and_labels; naive_solver|].
    intros l Hl. rewrite !in_labels. pose proof (@not_elem_of_nil string). naive_solver.
Qed.

(** C9. A contribution is accepted exactly when it stays in the packet it was asked
    about: it echoes the packet and the assigned role, says only what the role may
    say, gives distinct safe labels, names candidates of the packet and cites rows of
    their neighborhood, each once and no symptom as a cause. The host then keeps
    exactly what was proposed, in its own order. *)
Theorem contribution_accepted_iff_in_packet from_str raw packet i role c :
  validate_contribution from_str raw packet i role = Ok c ↔
  ∃ p, from_str raw = Some p ∧ contribution_ok packet i role p ∧ c = contribution_of packet i role p.
Proof. apply validate_contribution_spec. Qed.

(** ** What the loop over the attempts collects *)

Definition usable_contributions (attempts : list ContributionAttemptV1) : list ValidatedContributionV1 :=
  omap usable attempts.
Definition claim_pairs (cs : list ValidatedContributionV1) : list (ClaimKey * Supporter) :=
  cs ≫= λ c, (λ k, (claim_key k, supporter c)) <$> vc_claims c.
Definition gap_pairs (cs : list ValidatedContributionV1) : list (option string * ModelRef) :=
  cs ≫= λ c, (λ g, (eg_candidate_id g, model_ref c)) <$> vc_evidence_gaps c.

Lemma foldl_fmap' {S A B} (step : S → B → S) (f : A → B) s l :
  foldl (λ s a, step s (f a)) s l = foldl step s (f <$> l).
Proof. revert s. induction l as [|a l IH]; intros s; cbn; [done|]. apply IH. Qed.

Lemma tally_spec attempts :
  let cs := usable_contributions attempts in
  foldl tally_attempt no_tally attempts =
  {| ta_claim_supporters := group_sets (claim_pairs cs); ta_gap_reporters := group_sets (gap_pairs cs);
     ta_completed := zlen cs; ta_non_abstained := zlen (List.filter (λ c, negb (vc_abstained c)) cs);
     ta_has_observation := existsb (λ k, is_observation (cc_kind k)) (cs ≫= vc_claims);
     ta_has_causal := existsb (λ k, is_causal (cc_kind k)) (cs ≫= vc_claims);
     ta_contradictions := cs ≫= vc_contradictions |}.
Proof.
  cbn zeta. induction attempts as [|a attempts IH] using rev_ind; [done|].
  rewrite foldl_app, IH. clear IH. unfold usable_contributions. rewrite omap_app. cbn.
  set (cs := omap usable attempts). unfold tally_attempt. destruct (usable a) as [c|]; cbn; [|by rewrite app_nil_r].
  unfold tally_contribution, claim_pairs, gap_pairs. cbn.
  rewrite !bind_app, !existsb_app, List.filter_app, !zlen_app. cbn. rewrite !app_nil_r.
  unfold group_sets. rewrite !foldl_app, <-!foldl_fmap'. cbn. f_equal. all: destruct (vc_abstained c); cbn; unfold zlen; cbn; rewrite ?orb_false_r; try done; lia.
Qed.

Lemma claim_pairs_elem cs key who :
  (key, who) ∈ claim_pairs cs ↔ ∃ c k, c ∈ cs ∧ k ∈ vc_claims c ∧ claim_key k = key ∧ supporter c = who.
Proof.
  unfold claim_pairs. rewrite list_elem_of_bind. setoid_rewrite list_elem_of_fmap. naive_solver.
Qed.
Lemma gap_pairs_elem cs cand who :
  (cand, who) ∈ gap_pairs cs ↔ ∃ c g, c ∈ cs ∧ g ∈ vc_evidence_gaps c ∧ eg_candidate_id g = cand ∧ model_ref c = who.
Proof.
  unfold gap_pairs. rewrite list_elem_of_bind. setoid_rewrite list_elem_of_fmap. naive_solver.
Qed.

(** ** Order and wording of the attempts *)

(** A report without the contradictions the contributors wrote. *)
Definition without_contradictions (r : ReconciliationReportV1) : ReconciliationReportV1 :=
  {| rr_packet_id := rr_packet_id r; rr_state := rr_state r; rr_escalation_recommended := rr_escalation_recommended r;
     rr_availability := rr_availability r; rr_claims := rr_claims r; rr_support := rr_support r;
     rr_conflicts := rr_conflicts r; rr_gaps := rr_gaps r; rr_reported_contradictions := [];
     rr_baseline := rr_baseline r; rr_root_cause_established := rr_root_cause_established r |}.
Definition contradictions_of (attempts : list ContributionAttemptV1) : list ValidatedContributionContradictionV1 :=
  usable_contributions attempts ≫= vc_contradictions.

Lemma key_leb_total {A K} `{KeyOrderOk K} (f : A → K) x y :
  bool_decide (key_le (f x) (f y)) = false → bool_decide (key_le (f y) (f x)) = true.
Proof. rewrite bool_decide_eq_false, bool_decide_eq_true. destruct (total key_le (f x) (f y)); done. Qed.
Lemma key_leb_trans {A K} `{KeyOrderOk K} (f : A → K) x y z :
  bool_decide (key_le (f x) (f y)) = true → bool_decide (key_le (f y) (f z)) = true →
  bool_decide (key_le (f x) (f z)) = true.
Proof. rewrite !bool_decide_eq_true. by etrans. Qed.

Lemma existsb_perm {A} (p : A → bool) l k : l ≡ₚ k → existsb p l = existsb p k.
Proof. intros Hl. apply eq_bool_prop_intro. by rewrite !Is_true_true, !existsb_elem_of; setoid_rewrite Hl. Qed.
Lemma zlen_filter_perm {A} (p : A → bool) l k : l ≡ₚ k → zlen (List.filter p l) = zlen (List.filter p k).
Proof. intros Hl. unfold zlen. f_equal. by rewrite Hl. Qed.

Lemma sort_by_nil {A} (le : A → A → bool) l : sort_by le l = [] ↔ l = [].
Proof.
  split; [|by intros ->]. intros H. apply Permutation_nil. rewrite <-H. apply sort_by_perm.
Qed.
Lemma bool_decide_nil_perm {A} (l k : list A) : l ≡ₚ k → bool_decide (l = []) = bool_decide (k = []).
Proof.
  intros Hl. apply bool_decide_ext. split; intros ->; [by apply Permutation_nil|by apply Permutation_nil; symmetry].
Qed.

(** What reconciliation says does not depend on the order in which contributors
    answer: the state, the recommendation, the claims with their counts, the support,
    the conflicts and the gaps are the same for every order, the same contradictions
    are reported, and when their labels tell them apart they are in the same order
    too, so that the whole report is the same. *)
Theorem reconciliation_ignores_arrival_order packet attempts attempts' :
  attempts ≡ₚ attempts' →
  let r := reconcile_contributions packet attempts in
  let r' := reconcile_contributions packet attempts' in
  without_contradictions r = without_contradictions r' ∧
  rr_reported_contradictions r ≡ₚ rr_reported_contradictions r' ∧
  (NoDup (contradiction_key <$> contradictions_of attempts) → r = r').
Proof.
  intros Hp. unfold contradictions_of.
  assert (usable_contributions attempts ≡ₚ usable_contributions attempts') as Hcs
    by (unfold usable_contributions; by rewrite Hp).
  assert (claim_pairs (usable_contributions attempts) ≡ₚ claim_pairs (usable_contributions attempts')) as Hclaims
    by (unfold claim_pairs; by rewrite Hcs).
  assert (gap_pairs (usable_contributions attempts) ≡ₚ gap_pairs (usable_contributions attempts')) as Hgaps
    by (unfold gap_pairs; by rewrite Hcs).
  assert ((usable_contributions attempts ≫= vc_contradictions) ≡ₚ (usable_contributions attempts' ≫= vc_contradictions))
    as Hcontra by by rewrite Hcs.
  assert ((usable_contributions attempts ≫= vc_claims) ≡ₚ (usable_contributions attempts' ≫= vc_claims)) as Hks
    by by rewrite Hcs.
  unfold reconcile_contributions. rewrite !tally_spec. unfold gaps_of. cbn -[sort_by].
  assert (group_sets (claim_pairs (usable_contributions attempts)) =
          group_sets (claim_pairs (usable_contributions attempts'))) as ->
    by (apply group_sets_ext; intros x; by rewrite Hclaims).
  assert (group_sets (gap_pairs (usable_contributions attempts)) =
          group_sets (gap_pairs (usable_contributions attempts'))) as ->
    by (apply group_sets_ext; intros x; by rewrite Hgaps).
  assert (zlen (usable_contributions attempts) = zlen (usable_contributions attempts')) as ->
    by (unfold zlen; by rewrite Hcs).
  rewrite (zlen_filter_perm _ _ _ Hcs), !(existsb_perm _ _ _ Hks), (existsb_perm dropped_out _ _ Hp),
    (bool_decide_nil_perm _ _ Hp).
  rewrite (sort_by_perm_eq availability_leb (key_leb_total id) (key_leb_trans id) _
    ((λ a, (ca_role a, ca_availability a)) <$> attempts')); [|intros x y _ _; unfold availability_leb|by rewrite Hp].
  2: { rewrite !bool_decide_eq_true. apply (anti_symm key_le). }
  assert (sort_by contradiction_leb (usable_contributions attempts ≫= vc_contradictions) ≡ₚ
          sort_by contradiction_leb (usable_contributions attempts' ≫= vc_contradictions)) as Hsorted
    by by rewrite !sort_by_perm.
  rewrite (bool_decide_nil_perm _ _ Hsorted). split_and!; [done..|]. intros Hnd. f_equal.
  apply sort_by_perm_eq; [apply key_leb_total|apply key_leb_trans| |done].
  intros x y Hx Hy Hxy Hyx. eapply NoDup_fmap_eq; [exact Hnd|done..|]. unfold contradiction_leb in *.
  rewrite bool_decide_eq_true in Hxy, Hyx. by apply (anti_symm key_le).
Qed.

(** The same contribution in other words: other claim labels, claim texts, gap
    labels and explanations. *)
Definition reworded (c c' : ValidatedContributionV1) : Prop :=
  supporter c = supporter c' ∧ vc_abstained c = vc_abstained c' ∧
  claim_key <$> vc_claims c = claim_key <$> vc_claims c' ∧
  eg_candidate_id <$> vc_evidence_gaps c = eg_candidate_id <$> vc_evidence_gaps c' ∧
  contradiction_key <$> vc_contradictions c = contradiction_key <$> vc_contradictions c'.
Definition reworded_attempt (a a' : ContributionAttemptV1) : Prop :=
  ca_role a = ca_role a' ∧ ca_availability a = ca_availability a' ∧
  option_Forall2 reworded (ca_contribution a) (ca_contribution a').

Lemma bind_Forall2_eq {A B C} (R : A → B → Prop) (f : A → list C) (g : B → list C) l k :
  (∀ x y, R x y → f x = g y) → Forall2 R l k → l ≫= f = k ≫= g.
Proof. intros Hfg. induction 1 as [|x y l k Hxy _ IH]; cbn; [done|]. by rewrite (Hfg x y), IH. Qed.
Lemma fmap_of_bind {A B C} (f : B → C) (g : A → list B) l : f <$> (l ≫= g) = l ≫= λ x, f <$> g x.
Proof. induction l as [|x l IH]; cbn; [done|]. by rewrite fmap_app, IH. Qed.
Lemma existsb_Forall2 {A B} (R : A → B → Prop) (p : A → bool) (q : B → bool) l k :
  (∀ x y, R x y → p x = q y) → Forall2 R l k → existsb p l = existsb q k.
Proof. intros Hpq. induction 1 as [|x y l k Hxy _ IH]; cbn; [done|]. by rewrite (Hpq x y), IH. Qed.
Lemma filter_Forall2_length {A B} (R : A → B → Prop) (p : A → bool) (q : B → bool) l k :
  (∀ x y, R x y → p x = q y) → Forall2 R l k → zlen (List.filter p l) = zlen (List.filter q k).
Proof.
  intros Hpq. induction 1 as [|x y l k Hxy _ IH]; cbn; [done|]. rewrite (Hpq x y) by done.
  destruct (q y); [|done]. by rewrite !zlen_cons, IH.
Qed.
Lemma existsb_fmap {A B} (f : A → B) (p : B → bool) l : existsb (λ x, p (f x)) l = existsb p (f <$> l).
Proof. induction l as [|x l IH]; cbn; [done|]. by rewrite IH. Qed.

Lemma usable_reworded attempts attempts' :
  Forall2 reworded_attempt attempts attempts' →
  Forall2 reworded (usable_contributions attempts) (usable_contributions attempts').
Proof.
  unfold usable_contributions. induction 1 as [|a a' l l' (_ & Ha & Hc) _ IH]; cbn; [constructor|].
  unfold usable. rewrite <-Ha. destruct Hc as [c c' Hc|]; cbn; [|done].
  case_bool_decide; [by constructor|done].
Qed.

(** Reconciliation reads no prose: contributors who say the same in other words
    (other claim and gap labels, other texts) get the same report, apart from the text
    of the contradictions it quotes. *)
Theorem reconciliation_ignores_wording packet attempts attempts' :
  Forall2 reworded_attempt attempts attempts' →
  let r := reconcile_contributions packet attempts in
  let r' := reconcile_contributions packet attempts' in
  without_contradictions r = without_contradictions r' ∧
  contradiction_key <$> rr_reported_contradictions r = contradiction_key <$> rr_reported_contradictions r'.
Proof.
  intros Ha. pose proof (usable_reworded _ _ Ha) as Hcs.
  set (cs := usable_contributions attempts) in *. set (cs' := usable_contributions attempts') in *.
  assert (claim_pairs cs = claim_pairs cs') as Hclaims.
  { unfold claim_pairs. apply (bind_Forall2_eq reworded); [|done]. intros c c' (Hs & _ & Hk & _).
    rewrite Hs. transitivity ((., supporter c') <$> (claim_key <$> vc_claims c)); [by rewrite <-list_fmap_compose|].
    by rewrite Hk, <-list_fmap_compose. }
  assert (gap_pairs cs = gap_pairs cs') as Hgaps.
  { unfold gap_pairs. apply (bind_Forall2_eq reworded); [|done]. intros c c' (Hs & _ & _ & Hg & _).
    assert (model_ref c = model_ref c') as -> by (unfold supporter in Hs; unfold model_ref; congruence).
    transitivity ((., model_ref c') <$> (eg_candidate_id <$> vc_evidence_gaps c)); [by rewrite <-list_fmap_compose|].
    by rewrite Hg, <-list_fmap_compose. }
  assert (claim_key <$> (cs ≫= vc_claims) = claim_key <$> (cs' ≫= vc_claims)) as Hks.
  { rewrite !fmap_of_bind. apply (bind_Forall2_eq reworded); [|done]. by intros c c' (_ & _ & Hk & _). }
  assert (contradiction_key <$> (cs ≫= vc_contradictions) = contradiction_key <$> (cs' ≫= vc_contradictions)) as Hkey.
  { rewrite !fmap_of_bind. apply (bind_Forall2_eq reworded); [|done]. by intros c c' (_ & _ & _ & _ & Hk). }
  assert (∀ p, existsb (λ k, p (cc_kind k)) (cs ≫= vc_claims) = existsb (λ k, p (cc_kind k)) (cs' ≫= vc_claims)) as Hkind.
  { intros p. set (q := λ key : ClaimKey, p key.1.2). etrans; [apply (existsb_fmap claim_key q)|]. rewrite Hks.
    symmetry. apply (existsb_fmap claim_key q). }
  assert (contradiction_key <$> sort_by contradiction_leb (cs ≫= vc_contradictions) =
          contradiction_key <$> sort_by contradiction_leb (cs' ≫= vc_contradictions)) as Hsorted.
  { by rewrite !(sort_by_fmap contradiction_leb (λ a b, bool_decide (key_le a b)) contradiction_key), Hkey. }
  split; [|unfold reconcile_contributions; rewrite !tally_spec; exact Hsorted].
  unfold reconcile_contributions. rewrite !tally_spec. unfold gaps_of. cbn -[sort_by]. fold cs cs'.
  rewrite Hclaims, Hgaps, (Hkind is_observation), (Hkind is_causal).
  rewrite (filter_Forall2_length reworded _ (λ c, negb (vc_abstained c)) cs cs') by
    (try done; intros c c' (_ & -> & _); done).
  rewrite (existsb_Forall2 reworded_attempt dropped_out dropped_out attempts attempts') by
    (try done; intros a a' (_ & Hv & _); unfold dropped_out; by rewrite Hv).
  assert (zlen cs = zlen cs') as -> by (unfold zlen; by erewrite Forall2_length).
  assert (bool_decide (attempts = []) = bool_decide (attempts' = [])) as -> by (by destruct Ha).
  assert ((λ a, (ca_role a, ca_availability a)) <$> attempts = (λ a, (ca_role a, ca_availability a)) <$> attempts') as ->.
  { apply fmap_eq_Forall2. eapply Forall2_impl; [exact Ha|]. intros a a' (? & ? & _). by f_equal. }
  assert (∀ l l' : list ModelContributionContradictionV1, contradiction_key <$> l = contradiction_key <$> l' →
    bool_decide (l = []) = bool_decide (l' = [])) as Hnil by by intros [] [] ?.
  by rewrite (Hnil _ _ Hsorted).
Qed.

(** ** Support *)

(** Attempts as the pipeline makes them: what they contribute was validated against
    the packet. *)
Definition host_validated (packet : FastTriagePacketV1) (a : ContributionAttemptV1) : Prop :=
  ∀ c, usable a = Some c →
    ∃ from_str raw, validate_contribution from_str raw packet (vc_identity c) (vc_role c) = Ok c.

Lemma host_validated_claims packet attempts c k :
  Forall (host_validated packet) attempts → c ∈ usable_contributions attempts → k ∈ vc_claims c →
  ∃ k0, claim_in_packet packet (vc_role c) k0 ∧ k = ordered_claim k0.
Proof.
  intros Hall (a & Ha & Hc)%list_elem_of_omap Hk. rewrite Forall_forall in Hall.
  destruct (Hall a Ha c Hc) as (fs & raw & (p & _ & Hok & Hceq)%validate_contribution_spec).
  rewrite Hceq in Hk. cbn in Hk. rewrite sort_by_perm in Hk. apply list_elem_of_fmap in Hk as (k0 & -> & Hk0).
  exists k0. split; [|done]. destruct Hok as (_ & _ & _ & _ & _ & _ & _ & _ & _ & Hcl & _).
  rewrite Forall_forall in Hcl. by apply Hcl.
Qed.
Lemma host_validated_sorted packet attempts c k :
  Forall (host_validated packet) attempts → c ∈ usable_contributions attempts → k ∈ vc_claims c →
  StronglySorted key_lt (cc_evidence_ids k).
Proof. intros Hall Hc Hk. destruct (host_validated_claims _ _ _ _ Hall Hc Hk) as (k0 & _ & ->). apply set_collect_spec. Qed.

Lemma two_in_set `{KeyOrderOk A} (l : list A) : 2 ≤ zlen (set_collect l) ↔ ∃ x y, x ∈ l ∧ y ∈ l ∧ x ≠ y.
Proof.
  destruct (set_collect_spec l) as [Hs He]. setoid_rewrite <-He. apply sorted_NoDup in Hs.
  clear He. revert Hs. generalize (set_collect l). intros s Hs. unfold zlen. split.
  - destruct s as [|x [|y s]]; cbn; [lia..|]. intros _. exists x, y. apply NoDup_cons in Hs as [Hx _]. set_solver.
  - destruct s as [|x [|y s]]; cbn; [set_solver|set_solver|lia].
Qed.

Definition exact_of (e : ClaimKey * list Supporter) (s : ReconciliationSupportV1) : Prop :=
  let '(cand, kind, ids, who) := e in
  2 ≤ n_model_refs (contributor_counts who) ∧ s = support_relation cand kind ExactAgreement ids (contributor_counts who).
Definition compatible_of (e e' : ClaimKey * list Supporter) (s : ReconciliationSupportV1) : Prop :=
  let '(cand, kind, ids, who) := e in
  let '(cand', kind', ids', who') := e' in
  let n := contributor_counts (foldl (λ s k, set_insert k s) who who') in
  cand = cand' ∧ kind = kind' ∧ ids ≠ ids' ∧ overlaps ids ids' = true ∧ 2 ≤ n_model_refs n ∧
  s = support_relation cand kind CompatibleSupport (set_collect (ids ++ ids')) n.

Lemma exact_support_elem relations entries s :
  s ∈ foldl exact_support relations entries ↔ s ∈ relations ∨ ∃ e, e ∈ entries ∧ exact_of e s.
Proof.
  apply (foldl_exists (λ r, s ∈ r)). intros r [[[cand kind] ids] who]. cbn.
  destruct (2 <=? _) eqn:E; split_bool; [rewrite set_insert_elem|]; split; try naive_solver; naive_solver lia.
Qed.
Lemma compatible_support_elem e relations entries s :
  s ∈ foldl (compatible_support e) relations entries ↔ s ∈ relations ∨ ∃ e', e' ∈ entries ∧ compatible_of e e' s.
Proof.
  apply (foldl_exists (λ r, s ∈ r)). intros r [[[cand' kind'] ids'] who']. destruct e as [[[cand kind] ids] who]. cbn.
  repeat case_bool_decide; cbn; try (split; naive_solver). destruct (overlaps ids ids'); cbn; [|split; naive_solver].
  destruct (_ <? 2) eqn:E; split_bool; [|rewrite set_insert_elem]; split; try naive_solver; naive_solver lia.
Qed.
Lemma compatible_supports_elem relations entries s :
  s ∈ compatible_supports relations entries ↔
  s ∈ relations ∨ ∃ l e l' e', entries = l ++ e :: l' ∧ e' ∈ l' ∧ compatible_of e e' s.
Proof.
  revert relations. induction entries as [|e entries IH]; intros relations; cbn.
  { split; [by left|]. intros [?|(l & ? & ? & ? & Hl & _)]; [done|]. by destruct l. }
  rewrite IH, compatible_support_elem. split.
  - intros [[?|(e' & ? & ?)]|(l & x & l' & e' & -> & ? & ?)]; [by left|right..].
    + by exists [], e, entries, e'.
    + by exists (e :: l), x, l', e'.
  - intros [?|([|y l] & x & l' & e' & Heq & ? & ?)]; [by do 2 left| |]; injection Heq as -> ->.
    + left. right. eauto.
    + right. by exists l, x, l', e'.
Qed.

Lemma refs_two who : 2 ≤ n_model_refs (contributor_counts who) ↔ ∃ w w', w ∈ who ∧ w' ∈ who ∧ ref_of w ≠ ref_of w'.
Proof.
  cbn. rewrite two_in_set. setoid_rewrite list_elem_of_fmap. split.
  - intros (? & ? & (w & -> & ?) & (w' & -> & ?) & ?). eauto.
  - intros (w & w' & ? & ? & ?). exists (ref_of w), (ref_of w'). split_and!; [by exists w|by exists w'|done].
Qed.
Lemma overlaps_spec ids ids' : StronglySorted key_lt ids' → overlaps ids ids' = true ↔ ∃ id, id ∈ ids ∧ id ∈ ids'.
Proof. intros Hs. unfold overlaps. rewrite existsb_elem_of. by setoid_rewrite (λ x, binary_search_spec x ids' Hs). Qed.
Lemma in_either_order {A} (l : list A) x y :
  x ∈ l → y ∈ l → x ≠ y →
  (∃ l1 l2, l = l1 ++ x :: l2 ∧ y ∈ l2) ∨ (∃ l1 l2, l = l1 ++ y :: l2 ∧ x ∈ l2).
Proof.
  intros (l1 & l2 & ->)%list_elem_of_split [Hy|[->|Hy]%elem_of_cons]%elem_of_app Hne; [|done|].
  - right. apply list_elem_of_split in Hy as (l3 & l4 & ->). exists l3, (l4 ++ x :: l2).
    rewrite <-(assoc_L (++)). split; [done|]. set_solver.
  - left. eauto.
Qed.

(** Two models that made claims standing in relation [P]. *)
Definition two_models (cs : list ValidatedContributionV1) (P : ModelContributionClaimV1 → ModelContributionClaimV1 → Prop) :
    Prop :=
  ∃ c c' k k', c ∈ cs ∧ c' ∈ cs ∧ k ∈ vc_claims c ∧ k' ∈ vc_claims c' ∧ model_ref c ≠ model_ref c' ∧ P k k'.
Definition supported_as (r : ReconciliationReportV1) (sk : ReconciliationSupportKind) (key : ClaimKey) : Prop :=
  ∃ s, s ∈ rr_support r ∧ su_support_kind s = sk ∧ (su_candidate_id s, su_kind s, su_evidence_ids s) = key.

Lemma support_elem packet attempts s :
  let entries := group_sets (claim_pairs (usable_contributions attempts)) in
  s ∈ rr_support (reconcile_contributions packet attempts) ↔
  (∃ e, e ∈ entries ∧ exact_of e s) ∨ ∃ l e l' e', entries = l ++ e :: l' ∧ e' ∈ l' ∧ compatible_of e e' s.
Proof.
  cbn zeta. unfold reconcile_contributions. rewrite tally_spec. cbn [rr_support ta_claim_supporters].
  unfold support_of. rewrite compatible_supports_elem, exact_support_elem.
  pose proof (not_elem_of_nil s). naive_solver.
Qed.

Lemma entry_supporter cs key who w :
  (key, who) ∈ group_sets (claim_pairs cs) → w ∈ who →
  ∃ c k, c ∈ cs ∧ k ∈ vc_claims c ∧ claim_key k = key ∧ supporter c = w.
Proof. intros (_ & _ & Hw)%group_sets_elem Hin. by apply claim_pairs_elem, Hw. Qed.
Lemma entry_of cs c k :
  c ∈ cs → k ∈ vc_claims c → ∃ who, (claim_key k, who) ∈ group_sets (claim_pairs cs) ∧ supporter c ∈ who.
Proof.
  intros Hc Hk. assert ((claim_key k, supporter c) ∈ claim_pairs cs) as Hp by (apply claim_pairs_elem; eauto 6).
  destruct (group_sets_get _ _ _ Hp) as [who Hwho]. exists who. split; [done|].
  apply group_sets_elem in Hwho as (_ & _ & Hw). by apply Hw.
Qed.

Lemma exact_agreement_iff packet attempts key :
  supported_as (reconcile_contributions packet attempts) ExactAgreement key ↔
  two_models (usable_contributions attempts) (λ k k', claim_key k = key ∧ claim_key k' = key).
Proof.
  unfold supported_as, two_models. setoid_rewrite support_elem. split.
  - intros (s & [([[[cand kind] ids] who] & He & Hrefs & ->)|(_ & [[[? ?] ?] ?] & _ & [[[? ?] ?] ?] & _ & _ & Hc)] & Hsk & <-);
      [|destruct Hc as (_ & _ & _ & _ & _ & ->); done].
    apply refs_two in Hrefs as (w & w' & Hw & Hw' & Hne).
    destruct (entry_supporter _ _ _ _ He Hw) as (c & k & ? & ? & ? & <-).
    destruct (entry_supporter _ _ _ _ He Hw') as (c' & k' & ? & ? & ? & <-). exists c, c', k, k'. by split_and!.
  - intros (c & c' & k & k' & Hc & Hc' & Hk & Hk' & Hne & <- & Heq).
    destruct (entry_of _ _ _ Hc Hk) as (who & He & Hw), (entry_of _ _ _ Hc' Hk') as (who' & He' & Hw').
    rewrite Heq in He'. destruct (group_sets_groups (claim_pairs (usable_contributions attempts))) as [Hok _].
    rewrite <-bmap_get_elem in He, He' by done. assert (who' = who) as -> by congruence.
    rewrite bmap_get_elem in He by done. eexists. split; [left; exists (claim_key k, who); split; [done|]; split; [|reflexivity]|by split].
    apply refs_two. by exists (supporter c), (supporter c').
Qed.

Lemma union_refs_two (who who' : list Supporter) :
  who ≠ [] → who' ≠ [] →
  2 ≤ n_model_refs (contributor_counts (foldl (λ s k, set_insert k s) who who')) ↔
  ∃ w w', w ∈ who ∧ w' ∈ who' ∧ ref_of w ≠ ref_of w'.
Proof.
  intros Hne Hne'. rewrite refs_two.
  assert (∀ x l, x ∈ foldl (λ s k, set_insert k s) who l ↔ x ∈ who ∨ x ∈ l) as Hin.
  { intros x l. rewrite (foldl_exists (λ s, x ∈ s) (λ k, x = k)); [|intros s k; rewrite set_insert_elem; tauto].
    naive_solver. }
  setoid_rewrite Hin. destruct who as [|a who]; [done|]. destruct who' as [|b who']; [done|]. clear Hne Hne' Hin.
  assert (a ∈ a :: who) by by left. assert (b ∈ b :: who') by by left.
  generalize dependent (a :: who). generalize dependent (b :: who'). intros l' Hb l Ha.
  split; [|intros (w & w' & ? & ? & ?); exists w, w'; auto].
  intros (w & w' & [Hw|Hw] & [Hw'|Hw'] & Hne); eauto.
  - destruct (decide (ref_of w = ref_of b)) as [E|]; [|by eauto]. exists w', b. split; [done|]. split; [done|]. congruence.
  - destruct (decide (ref_of a = ref_of w)) as [E|]; [|by eauto]. exists a, w'. split; [done|]. split; [done|]. congruence.
Qed.

Lemma compatible_support_iff packet attempts cand kind ids :
  Forall (host_validated packet) attempts →
  supported_as (reconcile_contributions packet attempts) CompatibleSupport (cand, kind, ids) ↔
  two_models (usable_contributions attempts) (λ k k',
    cc_candidate_id k = cand ∧ cc_candidate_id k' = cand ∧ cc_kind k = kind ∧ cc_kind k' = kind ∧
    cc_evidence_ids k ≠ cc_evidence_ids k' ∧ (∃ id, id ∈ cc_evidence_ids k ∧ id ∈ cc_evidence_ids k') ∧
    ids = set_collect (cc_evidence_ids k ++ cc_evidence_ids k')).
Proof.
  intros Hall. unfold supported_as, two_models. setoid_rewrite support_elem.
  assert (∀ cd kd ids who, ((cd, kd, ids), who) ∈ group_sets (claim_pairs (usable_contributions attempts)) →
    StronglySorted key_lt ids ∧ who ≠ []) as Hent.
  { intros cd kd evs who He. split; [|by apply group_sets_elem in He as (_ & ? & _)].
    pose proof (proj1 (group_sets_elem _ _ _) He) as (_ & Hne & _). destruct who as [|w who]; [done|].
    destruct (entry_supporter _ _ _ w He) as (c & k & Hc & Hk & Hkey & _); [by left|].
    injection Hkey as _ _ <-. by eapply host_validated_sorted. }
  split.
  - intros (s & [([[[? ?] ?] ?] & _ & _ & ->)|(l & [[[cd kd] evs] who] & l' & [[[cd' kd'] evs'] who'] & Hl & Hin & Hc)] & Hsk & Heq);
      [done|]. destruct Hc as (<- & <- & Hne & Hov & Hrefs & ->). cbn in Heq. injection Heq as -> -> <-.
    assert (((cand, kind, evs), who) ∈ group_sets (claim_pairs (usable_contributions attempts))) as He
      by (rewrite Hl; set_solver).
    assert (((cand, kind, evs'), who') ∈ group_sets (claim_pairs (usable_contributions attempts))) as He'
      by (rewrite Hl; set_solver).
    destruct (Hent _ _ _ _ He) as [_ Hw0], (Hent _ _ _ _ He') as [Hs' Hw0'].
    apply overlaps_spec in Hov; [|done]. apply union_refs_two in Hrefs as (w & w' & Hw & Hw' & Href); [|done..].
    destruct (entry_supporter _ _ _ _ He Hw) as (c & k & ? & ? & [= ? ? ?] & <-).
    destruct (entry_supporter _ _ _ _ He' Hw') as (c' & k' & ? & ? & [= ? ? ?] & <-).
    exists c, c', k, k'. subst. by split_and!.
  - intros (c & c' & k & k' & Hc & Hc' & Hk & Hk' & Href & Hcd & Hcd' & Hkd & Hkd' & Hne & (id & Hid & Hid') & ->).
    destruct (entry_of _ _ _ Hc Hk) as (who & He & Hw), (entry_of _ _ _ Hc' Hk') as (who' & He' & Hw').
    unfold claim_key in He, He'. rewrite Hcd, Hkd in He. rewrite Hcd', Hkd' in He'.
    destruct (Hent _ _ _ _ He) as [Hs0 Hw0], (Hent _ _ _ _ He') as [Hs0' Hw0'].
    destruct (in_either_order _ _ _ He He') as [(l1 & l2 & Hl & Hin)|(l1 & l2 & Hl & Hin)]; [congruence|..].
    + eexists. split; [right; exists l1, (cand, kind, cc_evidence_ids k, who), l2, (cand, kind, cc_evidence_ids k', who');
        split_and!; [done..|]; split_and!; [done..| | |reflexivity]|by split].
      * apply overlaps_spec; [done|]. eauto.
      * apply union_refs_two; [done..|]. by exists (supporter c), (supporter c').
    + eexists. split; [right; exists l1, (cand, kind, cc_evidence_ids k', who'), l2, (cand, kind, cc_evidence_ids k, who);
        split_and!; [done..|]; split_and!; [done..|by apply not_eq_sym| | |reflexivity]|].
      * apply overlaps_spec; [done|]. eauto.
      * apply union_refs_two; [done..|]. exists (supporter c'), (supporter c). split_and!; [done..|]. by apply not_eq_sym.
      * cbn. split; [done|]. f_equal. apply set_eq_iff. set_solver.
Qed.

(** C10. Support is never one model agreeing with itself. An exact agreement is
    reported exactly when two different models, by gateway and name, made a claim of
    the same kind about the same candidate with the same evidence; compatible support
    exactly when their evidence differs and overlaps, and it carries the union. One
    model in several roles supports nothing. *)
Theorem support_iff_two_models_agree packet attempts :
  Forall (host_validated packet) attempts →
  let r := reconcile_contributions packet attempts in
  (∀ key, supported_as r ExactAgreement key ↔
     two_models (usable_contributions attempts) (λ k k', claim_key k = key ∧ claim_key k' = key)) ∧
  (∀ cand kind ids, supported_as r CompatibleSupport (cand, kind, ids) ↔
     two_models (usable_contributions attempts) (λ k k',
       cc_candidate_id k = cand ∧ cc_candidate_id k' = cand ∧ cc_kind k = kind ∧ cc_kind k' = kind ∧
       cc_evidence_ids k ≠ cc_evidence_ids k' ∧ (∃ id, id ∈ cc_evidence_ids k ∧ id ∈ cc_evidence_ids k') ∧
       ids = set_collect (cc_evidence_ids k ++ cc_evidence_ids k'))) ∧
  ∀ s, s ∈ rr_support r → 2 ≤ su_model_ref_count s.
Proof.
  intros Hall. split_and!; [apply exact_agreement_iff|intros; by apply compatible_support_iff|]. intros s.
  rewrite support_elem. intros [([[[? ?] ?] ?] & _ & ? & ->)|(_ & [[[? ?] ?] ?] & _ & [[[? ?] ?] ?] & _ & _ & Hc)]; [done|].
  by destruct Hc as (_ & _ & _ & _ & ? & ->).
Qed.

(** ** Conflicts and the supported state *)

Lemma omap_nil {A B} (f : A → option B) l : omap f l = [] ↔ ∀ x, x ∈ l → f x = None.
Proof.
  induction l as [|a l IH]; cbn; [split; [by intros _ x ?%not_elem_of_nil|done]|].
  setoid_rewrite elem_of_cons. destruct (f a) eqn:E; [split; [done|]|rewrite IH; naive_solver].
  intros H. specialize (H a). rewrite E in H. naive_solver.
Qed.
Lemma group_sets_nil `{KeyOrderOk K} `{KeyOrderOk W} (pairs : list (K * W)) : group_sets pairs = [] ↔ pairs = [].
Proof.
  split; [|by intros ->]. intros Hnil. destruct pairs as [|[k w] pairs]; [done|].
  destruct (group_sets_get ((k, w) :: pairs) k w) as [s Hs]; [by left|]. rewrite Hnil in Hs. by apply not_elem_of_nil in Hs.
Qed.
Lemma bind_nil {A B} (f : A → list B) l : l ≫= f = [] ↔ ∀ x, x ∈ l → f x = [].
Proof.
  induction l as [|a l IH]; cbn; [split; [by intros _ x ?%not_elem_of_nil|done]|].
  setoid_rewrite elem_of_cons. rewrite app_nil. change (list_bind A B f l) with (l ≫= f). rewrite IH. naive_solver.
Qed.

Definition one_reading (ks : list ModelContributionClaimV1) : Prop :=
  ∀ k k', k ∈ ks → k' ∈ ks → cc_candidate_id k = cc_candidate_id k' → cc_evidence_ids k = cc_evidence_ids k' →
    is_causal (cc_kind k) = true → is_causal (cc_kind k') = true → cc_kind k = cc_kind k'.

Lemma is_causal_not_observation k : is_causal k = true ↔ k ≠ KObservation.
Proof. unfold is_causal. rewrite bool_decide_eq_true. destruct k; set_solver. Qed.

Lemma no_conflicts cs :
  conflicts_of (reconciled_claim <$> group_sets (claim_pairs cs)) = [] ↔ one_reading (cs ≫= vc_claims).
Proof.
  unfold conflicts_of. rewrite omap_nil.
  set (pairs := (λ c, ((rc_candidate_id c, rc_evidence_ids c), rc_kind c)) <$> (reconciled_claim <$> group_sets (claim_pairs cs))).
  assert (foldl add_kind [] (reconciled_claim <$> group_sets (claim_pairs cs)) = group_sets pairs) as ->.
  { exact (foldl_fmap' group_insert (λ c, (rc_candidate_id c, rc_evidence_ids c, rc_kind c)) [] _). }
  assert (∀ cand ids kind, ((cand, ids), kind) ∈ pairs ↔ ∃ k, k ∈ cs ≫= vc_claims ∧ claim_key k = (cand, kind, ids)) as Hp.
  { intros cand ids kind. unfold pairs. rewrite <-list_fmap_compose, list_elem_of_fmap. setoid_rewrite list_elem_of_bind.
    split.
    - intros ([[[? ?] ?] who] & Heq & He). cbn in Heq. injection Heq as -> -> ->. pose proof (proj1 (group_sets_elem _ _ _) He) as (_ & Hne & _).
      destruct who as [|w who]; [done|]. destruct (entry_supporter _ _ _ w He) as (c0 & k & ? & ? & ? & _); [by left|]. exists k. split; [|done]. by exists c0.
    - intros (k & (c & Hk & Hc) & Hkey). destruct (entry_of _ _ _ Hc Hk) as (who & He & _). rewrite Hkey in He.
      by exists ((cand, kind, ids), who). }
  unfold one_reading. split.
  - intros Hnone k k' Hk Hk' Hcand Hids Hc Hc'. destruct (decide (cc_kind k = cc_kind k')) as [|Hne]; [done|]. exfalso.
    assert (((cc_candidate_id k, cc_evidence_ids k), cc_kind k) ∈ pairs) as H1 by (apply Hp; eauto).
    assert (((cc_candidate_id k, cc_evidence_ids k), cc_kind k') ∈ pairs) as H2.
    { apply Hp. exists k'. split; [done|]. unfold claim_key. by rewrite Hcand, Hids. }
    destruct (group_sets_get _ _ _ H1) as [kinds Hkinds]. specialize (Hnone _ Hkinds). cbn in Hnone.
    apply group_sets_elem in Hkinds as (_ & _ & Hin). destruct (1 <? _) eqn:E; [done|]. split_bool.
    enough (2 ≤ zlen (set_collect (List.filter (λ k, negb (bool_decide (k = KObservation))) kinds))) by lia.
    apply two_in_set. apply is_causal_not_observation in Hc, Hc'. exists (cc_kind k), (cc_kind k').
    rewrite !elem_of_filter_bool, !Hin, !negb_true_iff, !bool_decide_eq_false. by split_and!.
  - intros Hone [[cand ids] kinds] He. cbn. destruct (1 <? _) eqn:E; [|done]. split_bool. exfalso.
    apply group_sets_elem in He as (_ & _ & Hin).
    destruct (proj1 (two_in_set (List.filter (λ k, negb (bool_decide (k = KObservation))) kinds))) as (x & y & Hx & Hy & Hne);
      [lia|]. rewrite elem_of_filter_bool, Hin, Hp in Hx, Hy. destruct Hx as [(k & Hk & [= ? ? ?]) Hx], Hy as [(k' & Hk' & [= ? ? ?]) Hy].
    split_bool. apply Hne. subst. apply (Hone k k'); [done|done|congruence|congruence|by apply is_causal_not_observation..].
Qed.

Lemma no_dropout attempts :
  existsb dropped_out attempts = false ↔ ∀ a, a ∈ attempts → ca_availability a ∈ [AvCompleted; AvNotAdmitted].
Proof.
  rewrite existsb_false_Forall, Forall_forall. unfold dropped_out.
  by setoid_rewrite negb_false_iff; setoid_rewrite bool_decide_eq_true.
Qed.
Lemma some_active cs :
  (zlen (List.filter (λ c, negb (vc_abstained c)) cs) =? 0) = false ↔ ∃ c, c ∈ cs ∧ vc_abstained c = false.
Proof.
  rewrite Z.eqb_neq. unfold zlen. split.
  - intros Hlen. destruct (List.filter _ cs) as [|c l] eqn:E; [done|]. exists c.
    rewrite <-negb_true_iff, <-(elem_of_filter_bool (λ c, negb (vc_abstained c))), E. by left.
  - intros (c & Hc & Ha). assert (c ∈ List.filter (λ c, negb (vc_abstained c)) cs) as Hin
      by (apply elem_of_filter_bool; by rewrite Ha).
    destruct (List.filter _ cs); [by apply not_elem_of_nil in Hin|]. cbn. lia.
Qed.
Lemma no_gaps t :
  ta_has_observation t = true → ta_has_causal t = true → gaps_of t = [] ↔ ta_gap_reporters t = [].
Proof.
  intros Ho Hc. unfold gaps_of. rewrite Ho, Hc. split; [|by intros ->].
  destruct (ta_gap_reporters t) as [|r rs]; [done|]. intros Hnil. exfalso.
  apply (not_elem_of_nil (gap_of UnresolvedQuestion r.1 (zlen r.2))). rewrite <-Hnil.
  apply (foldl_exists (λ s, gap_of UnresolvedQuestion r.1 (zlen r.2) ∈ s)
    (λ r', gap_of UnresolvedQuestion r.1 (zlen r.2) = gap_of UnresolvedQuestion r'.1 (zlen r'.2))).
  { intros s r'. rewrite set_insert_elem. tauto. }
  right. exists r. split; [by left|done].
Qed.

(** A report is supported exactly when nothing is open: every contributor that
    was admitted completed, one of them did not abstain, there is an observation and a
    causal claim, no one reported a gap or a contradiction, and no two claims read the
    same evidence of a candidate as different kinds of cause. Then no escalation is
    recommended. Whatever happens, no root cause is established. *)
Theorem supported_iff_nothing_is_open packet attempts :
  let r := reconcile_contributions packet attempts in
  let cs := usable_contributions attempts in
  (rr_state r = RsSupported ↔
   (∀ a, a ∈ attempts → ca_availability a ∈ [AvCompleted; AvNotAdmitted]) ∧
   (∃ c, c ∈ cs ∧ vc_abstained c = false) ∧
   (∃ k, k ∈ cs ≫= vc_claims ∧ cc_kind k = KObservation) ∧ (∃ k, k ∈ cs ≫= vc_claims ∧ cc_kind k ≠ KObservation) ∧
   (∀ c, c ∈ cs → vc_evidence_gaps c = [] ∧ vc_contradictions c = []) ∧ one_reading (cs ≫= vc_claims)) ∧
  (rr_state r = RsSupported → rr_escalation_recommended r = false) ∧
  rr_root_cause_established r = false ∧ db_root_cause_established (rr_baseline r) = false.
Proof.
  cbn zeta. unfold reconcile_contributions. rewrite tally_spec.
  cbn [rr_state rr_escalation_recommended rr_root_cause_established rr_baseline db_root_cause_established
       deterministic_baseline ta_claim_supporters ta_completed ta_non_abstained ta_has_observation ta_has_causal
       ta_contradictions].
  set (cs := usable_contributions attempts).
  set (t := Build_Tally _ _ _ _ _ _ _).
  set (obs := existsb (λ k, is_observation (cc_kind k)) _). set (causal := existsb (λ k, is_causal (cc_kind k)) _).
  set (conflicts := conflicts_of _). set (reported := sort_by contradiction_leb _).
  assert (obs = true ↔ ∃ k, k ∈ cs ≫= vc_claims ∧ cc_kind k = KObservation) as <-.
  { unfold obs. rewrite existsb_elem_of. unfold is_observation. by setoid_rewrite bool_decide_eq_true. }
  assert (causal = true ↔ ∃ k, k ∈ cs ≫= vc_claims ∧ cc_kind k ≠ KObservation) as <-.
  { unfold causal. rewrite existsb_elem_of. by setoid_rewrite is_causal_not_observation. }
  assert (reported = [] ↔ ∀ c, c ∈ cs → vc_contradictions c = []) as Hrep.
  { unfold reported. by rewrite sort_by_nil, bind_nil. }
  assert (obs = true → causal = true → gaps_of t = [] ↔ ∀ c, c ∈ cs → vc_evidence_gaps c = []) as Hgaps.
  { intros Ho Hc. rewrite no_gaps by done. cbn. rewrite group_sets_nil. unfold gap_pairs. rewrite bind_nil.
    split; intros H c Hcs; specialize (H c Hcs); [by eapply fmap_nil_inv|by rewrite H]. }
  assert (attempts = [] → cs = []) as Hnil by (unfold cs; by intros ->).
  rewrite <-no_dropout, <-some_active, <-no_conflicts. fold conflicts.
  destruct (zlen (List.filter _ cs) =? 0) eqn:Eact.
  { split_and!; [split; [|naive_solver]; by repeat case_match|by repeat case_match|done|done]. }
  apply some_active in Eact as (c & Hc & _).
  rewrite (bool_decide_eq_false_2 (attempts = [])) by (intros E; rewrite (Hnil E) in Hc; by apply not_elem_of_nil in Hc).
  assert ((zlen cs =? 0) = false) as ->.
  { apply Z.eqb_neq. destruct cs; [by apply not_elem_of_nil in Hc|]. unfold zlen. cbn. lia. }
  split_and!; [split|..|done|done].
  - destruct obs, causal, (existsb dropped_out attempts); repeat case_bool_decide; cbn; try done.
    intros _. split_and!; try done. intros c' Hc'. split; [by apply Hgaps|by apply Hrep].
  - intros (Hd & _ & Ho & Hk & Hall & Hcf). rewrite Hd, Ho, Hk, (bool_decide_eq_true_2 (conflicts = [])),
      (bool_decide_eq_true_2 (reported = [])), (bool_decide_eq_true_2 (gaps_of t = [])); [done|..|done].
    + apply Hgaps; [done..|]. intros c' Hc'. by apply Hall.
    + apply Hrep. intros c' Hc'. by apply Hall.
  - destruct obs, causal, (existsb dropped_out attempts); repeat case_bool_decide; done.
Qed.

(** ** Contributions about a packet of three rows *)

Module ContributionDemo.
Import AnswerDemo.
Definition rows : list HostEvidenceEntry := [row "e1" "g" Cause; row "e2" "g" Supporting; row "e3" "h" Symptom].
Definition binding : AnswerBindingV1 :=
  {| bind_session_id := "s"; bind_turn_id := "t"; bind_corpus_id := "c";
     bind_revision := {| event_revision := 1; template_analysis_revision := 2; suppression_revision := 3 |};
     bind_ledger_digest := ledger_digest rows |}.
Definition inputs : FastTriagePacketInputs :=
  {| in_ledger := {| led_binding := binding; led_entries := (λ e, (ev_evidence_id e, e)) <$> rows |};
     in_independent_candidate_id := None; in_timeline_complete := true; in_clock := OrderOnly;
     in_trace_correlated_candidates := []; in_neighborhood := default_budget |}.
Definition packet : FastTriagePacketV1 := packet_build inputs.
Lemma contribution_ledger_built : HostEvidenceLedger_new binding rows = Ok (in_ledger inputs).
Proof. vm_compute. reflexivity. Qed.

Definition claim (id cand : string) (kind : ContributionClaimKind) (ids : list string) : ModelContributionClaimV1 :=
  {| cc_claim_id := id; cc_candidate_id := cand; cc_kind := kind; cc_text := "text"; cc_evidence_ids := ids |}.
Definition proposal (role : ContributionRole) (abstained : bool) (claims : list ModelContributionClaimV1) :
    ModelContributionProposalV1 :=
  {| cp_schema := CONTRIBUTION_SCHEMA_V1; cp_packet_id := pkt_packet_id packet; cp_role := role; cp_abstained := abstained;
     cp_claims := claims; cp_evidence_gaps := []; cp_contradictions := [] |}.
Definition model (name : string) : ContributionIdentity := {| ci_profile_id := "gateway"; ci_model := name |}.
Definition accepted (name : string) (p : ModelContributionProposalV1) :
    result ContributionValidationError ValidatedContributionV1 :=
  validate_contribution (λ _, Some p) EmptyString packet (model name) (cp_role p).
Definition attempt (name : string) (p : ModelContributionProposalV1) : ContributionAttemptV1 :=
  match accepted name p with
  | Ok c => attempt_completed c
  | Err _ => attempt_unavailable (cp_role p) (model name) AvMalformed
  end.
Lemma attempt_validated name p : host_validated packet (attempt name p).
Proof.
  intros c Hc. unfold attempt in Hc. destruct (accepted name p) as [c'|] eqn:E; [|done]. cbn in Hc. injection Hc as <-.
  exists (λ _, Some p), EmptyString. unfold accepted in E. pose proof E as (p' & Hp & Hok & ->)%validate_contribution_spec.
  exact E.
Qed.

(** Three contributors, two of whom observe the same; all abstain or none does. *)
Definition panel (abstained : bool) : list ContributionAttemptV1 :=
  [attempt "m1" (proposal CrObservationExtractor abstained [claim "a" "g" KObservation ["e2"; "e1"]]);
   attempt "m2" (proposal CrTimelineAnalyst abstained [claim "b" "g" KObservation ["e1"; "e2"]]);
   attempt "m3" (proposal CrCausalProposer abstained [claim "c" "g" KCausalCandidate ["e1"]; claim "d" "h" KSymptom ["e3"]])].
Lemma panel_validated abstained : Forall (host_validated packet) (panel abstained).
Proof. repeat constructor; apply attempt_validated. Qed.
End ContributionDemo.

(** Abstaining has no effect on claims. A contributor abstains when it declines to
    make a claim, but a proposal that abstains and makes claims is accepted: three such
    contributors leave the report in the state [Abstained] with three claims, one of
    them supported by two models, and no reviewer is recommended. *)
Theorem abstaining_contributors_still_claim :
  let r := reconcile_contributions ContributionDemo.packet (ContributionDemo.panel true) in
  rr_state r = Abstained ∧ zlen (rr_claims r) = 3 ∧ zlen (rr_support r) = 1 ∧ rr_escalation_recommended r = false.
Proof. vm_compute. done. Qed.

(** ** Witnesses *)

Lemma reconciliation_ignores_arrival_order_witness :
  let r := reconcile_contributions ContributionDemo.packet (ContributionDemo.panel false) in
  r = reconcile_contributions ContributionDemo.packet (rev (ContributionDemo.panel false)) ∧ rr_state r = RsSupported.
Proof.
  split; [|vm_compute; reflexivity].
  apply (reconciliation_ignores_arrival_order ContributionDemo.packet (ContributionDemo.panel false)).
  - symmetry. apply Permutation_rev.
  - vm_compute. constructor.
Defined.

Lemma reconciliation_ignores_wording_witness :
  let r := reconcile_contributions ContributionDemo.packet (ContributionDemo.panel false) in
  without_contradictions r = without_contradictions (reconcile_contributions ContributionDemo.packet
    [ContributionDemo.attempt "m1" (ContributionDemo.proposal CrObservationExtractor false
       [ContributionDemo.claim "x" "g" KObservation ["e2"; "e1"]]);
     ContributionDemo.attempt "m2" (ContributionDemo.proposal CrTimelineAnalyst false
       [ContributionDemo.claim "y" "g" KObservation ["e1"; "e2"]]);
     ContributionDemo.attempt "m3" (ContributionDemo.proposal CrCausalProposer false
       [ContributionDemo.claim "z" "g" KCausalCandidate ["e1"]; ContributionDemo.claim "w" "h" KSymptom ["e3"]])]).
Proof.
  apply reconciliation_ignores_wording. vm_compute. repeat constructor.
Defined.

Lemma support_iff_two_models_agree_witness :
  supported_as (reconcile_contributions ContributionDemo.packet (ContributionDemo.panel false)) ExactAgreement
    ("g", KObservation, ["e1"; "e2"]).
Proof.
  apply (proj1 (support_iff_two_models_agree ContributionDemo.packet _ (ContributionDemo.panel_validated false))).
  eexists _, _, _, _. split_and!.
  - left.
  - right. left.
  - left.
  - left.
  - vm_compute. congruence.
  - vm_compute. reflexivity.
  - vm_compute. reflexivity.
Defined.
