(* ===== verification/AnswerFloor.v ===== *)
(** * The answer floor of contributions

    [reconciliation_answer] of [cd-core/src/multi_model/contributions.rs]: the
    investigation answer the host makes of the contributions it accepted, as a JSON
    document that goes through the validator of model answers. Printing JSON values
    and reading them back are parameters; what they must agree on is
    [JsonAnswers]. *)
From Stdlib Require Import ZArith Lia Ascii String.
From stdpp Require Import countable base tactics option list list_numbers sets sorting strings.
From S2P Require Import Prelude RustStr Crypto BTree TriageSdk Answer Neighborhood FastPacket TriagePolicy Contribution.

Local Open Scope string_scope.
Local Open Scope list_scope.
Local Open Scope Z_scope.

(** ** The document *)

Definition keep_text (m : list (ClaimKey * string)) (claim : ValidatedContributionClaimV1) : list (ClaimKey * string) :=
  bmap_upsert (claim_key claim)
    (λ text, if bool_decide (key_le (cc_text claim) text) && negb (bool_decide (cc_text claim = text))
             then cc_text claim else text) (cc_text claim) m.
Definition keep_texts (m : list (ClaimKey * string)) (a : ContributionAttemptV1) : list (ClaimKey * string) :=
  match usable a with Some c => foldl keep_text m (vc_claims c) | None => m end.

Definition section_name (kind : ContributionClaimKind) : string :=
  match kind with
  | KObservation => "observations" | KSymptom => "symptoms" | KCausalCandidate => "causal_candidates"
  | KCompetingExplanation => "competing_explanations"
  end.

(** [serde_json::Map] is an ordered map here. *)
Definition Object : Type := list (string * Value Z).
Definition claim_value (index : Z) (text : string) (ids : list string) : Value Z :=
  JObject [("claim_id", JString ("reconciled-" +:+ decimal index)); ("evidence_ids", JArray (JString <$> ids));
           ("text", JString text)].
Definition push_claim (section : string) (claim : Value Z) (object : Object) : result ValidationError Object :=
  match unwrap_or (JArray []) (bmap_get section object) with
  | JArray vs => Ok (bmap_insert section (JArray (vs ++ [claim])) object)
  | _ => Err VSchema
  end.
Fixpoint place_claims (index : Z) (m : list (string * Object)) (claims : list (ClaimKey * string)) :
    result ValidationError (list (string * Object)) :=
  match claims with
  | [] => Ok m
  | (cand, kind, ids, text) :: rest =>
      ok_or (bmap_get cand m) VWrongScope ≫= λ object,
      push_claim (section_name kind) (claim_value index text ids) object ≫= λ object,
      place_claims (saturating_add usize_max index 1) (bmap_insert cand object m) rest
  end.
Definition candidate_object (cand : string) : Object := [("candidate_id", JString cand)].
Definition by_candidate_new (ledger : HostEvidenceLedger) : list (string * Object) :=
  foldl (λ m cand, bmap_insert cand (candidate_object cand) m) [] (ledger_candidate_ids ledger).
Definition proposal_value (by_candidate : list (string * Object)) : Value Z :=
  JObject [("candidates", JArray (JObject <$> by_candidate.*2)); ("schema", JString SCHEMA_V1)].

Definition reconciliation_answer (json_to_string : Value Z → string)
    (from_str : string → option ModelInvestigationAnswerV1) (packet : FastTriagePacketV1)
    (attempts : list ContributionAttemptV1) : result ValidationError AnswerEnvelopeV1 :=
  place_claims 0 (by_candidate_new (pkt_ledger packet)) (foldl keep_texts [] attempts) ≫= λ by_candidate,
  validate_model_answer from_str (json_to_string (proposal_value by_candidate)) (pkt_ledger packet).

(** ** Reading the document back

    What the deserialisers derived for [ModelInvestigationAnswerV1] make of an object:
    unknown members are refused, absent sections are empty. *)

Definition known_members (names : list string) (m : Object) : bool :=
  forallb (λ kv, bool_decide (kv.1 ∈ names)) m.
Definition strings_from_value (v : Value Z) : option (list string) :=
  match v with JArray vs => mapM Value_as_str vs | _ => None end.
Definition claim_from_value (v : Value Z) : option ModelClaimV1 :=
  match v with
  | JObject m =>
      guard (known_members ["claim_id"; "text"; "evidence_ids"] m = true);;
      id ← bmap_get "claim_id" m ≫= Value_as_str; text ← bmap_get "text" m ≫= Value_as_str;
      ids ← bmap_get "evidence_ids" m ≫= strings_from_value;
      Some {| mc_claim_id := id; mc_text := text; mc_evidence_ids := ids |}
  | _ => None
  end.
Definition section_from_value (name : string) (m : Object) : option (list ModelClaimV1) :=
  match bmap_get name m with
  | None => Some []
  | Some (JArray vs) => mapM claim_from_value vs
  | Some _ => None
  end.
Definition candidate_from_value (v : Value Z) : option ModelCandidateV1 :=
  match v with
  | JObject m =>
      guard (known_members ["candidate_id"; "observations"; "symptoms"; "causal_candidates"; "initiating_causes";
                            "competing_explanations"; "missing_evidence"] m = true);;
      id ← bmap_get "candidate_id" m ≫= Value_as_str;
      observations ← section_from_value "observations" m; symptoms ← section_from_value "symptoms" m;
      causal_candidates ← section_from_value "causal_candidates" m;
      initiating_causes ← section_from_value "initiating_causes" m;
      competing_explanations ← section_from_value "competing_explanations" m;
      missing_evidence ← section_from_value "missing_evidence" m;
      Some {| md_candidate_id := id; md_observations := observations; md_symptoms := symptoms;
              md_causal_candidates := causal_candidates; md_initiating_causes := initiating_causes;
              md_competing_explanations := competing_explanations; md_missing_evidence := missing_evidence |}
  | _ => None
  end.
Definition answer_from_value (v : Value Z) : option ModelInvestigationAnswerV1 :=
  match v with
  | JObject m =>
      guard (known_members ["schema"; "candidates"] m = true);;
      schema ← bmap_get "schema" m ≫= Value_as_str;
      candidates ← bmap_get "candidates" m ≫= λ v, match v with JArray vs => mapM candidate_from_value vs | _ => None end;
      Some {| ma_schema := schema; ma_candidates := candidates |}
  | _ => None
  end.

(** Text printed from a value that decodes to an answer decodes to that answer. *)
Class JsonAnswers (json_to_string : Value Z → string) (from_str : string → option ModelInvestigationAnswerV1) : Prop :=
  json_answer_roundtrip v p : answer_from_value v = Some p → from_str (json_to_string v) = Some p.

(** ** What is in the document *)

(** A claim to place: its number, its key and its text. *)
Definition Item : Type := Z * (ClaimKey * string).
Definition item_cand (x : Item) : string := x.2.1.1.1.
Definition item_kind (x : Item) : ContributionClaimKind := x.2.1.1.2.
Definition item_ids (x : Item) : list string := x.2.1.2.
Definition item_value (x : Item) : Value Z := claim_value x.1 x.2.2 (item_ids x).
Definition item_claim (x : Item) : ModelClaimV1 :=
  {| mc_claim_id := "reconciled-" +:+ decimal x.1; mc_text := x.2.2; mc_evidence_ids := item_ids x |}.
Definition items_of (cand : string) (kind : ContributionClaimKind) (placed : list Item) : list Item :=
  List.filter (λ x, bool_decide (item_cand x = cand) && bool_decide (item_kind x = kind)) placed.

Definition section_value (items : list Item) : option (Value Z) :=
  match items with [] => None | _ => Some (JArray (item_value <$> items)) end.
Definition object_ok (cand : string) (placed : list Item) (obj : Object) : Prop :=
  bmap_ok obj ∧ bmap_get "candidate_id" obj = Some (JString cand) ∧
  (∀ kind, bmap_get (section_name kind) obj = section_value (items_of cand kind placed)) ∧
  ∀ key, key ∈ keys obj → key = "candidate_id" ∨ ∃ kind, key = section_name kind.
Definition document_ok (cands : list string) (placed : list Item) (m : list (string * Object)) : Prop :=
  bmap_ok m ∧ keys m = cands ∧ Forall (λ kv, object_ok kv.1 placed kv.2) m.

#[global] Instance section_name_inj : Inj (=) (=) section_name.
Proof. by intros [] []. Qed.

Lemma push_claim_ok cand placed obj x :
  object_ok cand placed obj → item_cand x = cand →
  ∃ obj', push_claim (section_name (item_kind x)) (item_value x) obj = Ok obj' ∧ object_ok cand (placed ++ [x]) obj'.
Proof.
  intros (Hok & Hid & Hsec & Hkeys) Hx. unfold push_claim. rewrite Hsec.
  set (items := items_of cand (item_kind x) placed).
  assert (unwrap_or (JArray []) (section_value items) = JArray (item_value <$> items)) as -> by by destruct items.
  eexists. split; [done|]. split_and!.
  - by apply bmap_insert_ok.
  - rewrite bmap_get_insert, bool_decide_eq_false_2; [done|]. by destruct (item_kind x).
  - intros kind. rewrite bmap_get_insert. unfold items_of. rewrite List.filter_app. cbn.
    rewrite (bool_decide_eq_true_2 (item_cand x = cand)) by done. cbn. case_bool_decide as Hk.
    + apply (inj section_name) in Hk as ->. rewrite bool_decide_eq_true_2 by done. fold (items_of cand (item_kind x) placed).
      fold items. unfold section_value. rewrite fmap_app. by destruct items.
    + rewrite bool_decide_eq_false_2 by (intros <-; done). rewrite app_nil_r. apply Hsec.
  - intros key [->|Hin]%bmap_insert_keys; [by right; eexists|by apply Hkeys].
Qed.

Lemma object_ok_other cand placed x obj : item_cand x ≠ cand → object_ok cand placed obj → object_ok cand (placed ++ [x]) obj.
Proof.
  intros Hne (Hok & Hid & Hsec & Hkeys). split_and!; [done..| |done]. intros kind. rewrite Hsec. unfold items_of.
  rewrite List.filter_app. cbn. rewrite (bool_decide_eq_false_2 (item_cand x = cand)) by done. cbn. by rewrite app_nil_r.
Qed.

Fixpoint numbered (index : Z) (claims : list (ClaimKey * string)) : list Item :=
  match claims with [] => [] | c :: rest => (index, c) :: numbered (saturating_add usize_max index 1) rest end.

Lemma place_claims_ok cands placed m index claims :
  document_ok cands placed m → Forall (λ c : ClaimKey * string, c.1.1.1 ∈ cands) claims →
  ∃ m', place_claims index m claims = Ok m' ∧ document_ok cands (placed ++ numbered index claims) m'.
Proof.
  intros Hdoc Hall. revert placed m index Hdoc. induction Hall as [|[[[cand kind] ids] text] claims Hc _ IH];
    intros placed m index Hdoc; cbn.
  { exists m. by rewrite app_nil_r. }
  destruct Hdoc as (Hok & Hkeys & Hobjs). cbn in Hc. rewrite <-Hkeys in Hc.
  apply list_elem_of_fmap in Hc as ([cand' obj] & -> & Hin). cbn. rewrite (proj2 (bmap_get_elem cand' m obj Hok) Hin). cbn.
  rewrite Forall_forall in Hobjs. set (x := (index, ((cand', kind, ids), text)) : Item).
  destruct (push_claim_ok cand' placed obj x (Hobjs _ Hin) eq_refl) as (obj' & Hpush & Hobj').
  change (push_claim (section_name kind) (claim_value index text ids) obj)
    with (push_claim (section_name (item_kind x)) (item_value x) obj). rewrite Hpush. cbn.
  destruct (IH (placed ++ [x]) (bmap_insert cand' obj' m) (saturating_add usize_max index 1)) as (m' & Hm' & Hdoc').
  - split_and!; [by apply bmap_insert_ok| |].
    + rewrite <-Hkeys. apply sorted_elements_eq; [by apply bmap_insert_ok|done|]. intros y. rewrite bmap_insert_keys.
      split; [|by right]. intros [->|?]; [|done]. by eapply elem_keys.
    + apply Forall_forall. intros [c o] Hco. apply bmap_get_elem in Hco; [|by apply bmap_insert_ok].
      rewrite bmap_get_insert in Hco. case_bool_decide as Hcc; [subst c; by injection Hco as <-|]. cbn.
      apply object_ok_other; [by intros E; apply Hcc|]. apply (Hobjs (c, o)). by apply bmap_get_elem.
  - exists m'. split; [done|]. by rewrite <-(assoc_L (++)) in Hdoc'.
Qed.

Lemma by_candidate_new_ok ledger : document_ok (ledger_candidate_ids ledger) [] (by_candidate_new ledger).
Proof.
  unfold by_candidate_new. destruct (set_collect_spec (ev_candidate_id <$> ledger_rows ledger)) as [Hs _].
  fold (ledger_candidate_ids ledger) in Hs. set (cands := ledger_candidate_ids ledger) in *.
  set (new := λ m cand, bmap_insert cand (candidate_object cand) m).
  assert (∀ m, bmap_ok m → Forall (λ kv : string * Object, kv.2 = candidate_object kv.1) m →
    bmap_ok (foldl new m cands) ∧ Forall (λ kv : string * Object, kv.2 = candidate_object kv.1) (foldl new m cands) ∧
    ∀ x, x ∈ keys (foldl new m cands) ↔ x ∈ keys m ∨ x ∈ cands) as Hgen.
  { clear Hs. induction cands as [|c cands IH]; intros m Hok Hall; cbn; [split_and!; [done..|set_solver]|].
    destruct (IH (new m c)) as (H1 & H2 & H3); [by apply bmap_insert_ok| |].
    - apply Forall_forall. intros [k o] Hin. apply bmap_get_elem in Hin; [|by apply bmap_insert_ok].
      unfold new in Hin. rewrite bmap_get_insert in Hin. case_bool_decide; [subst; by injection Hin as <-|].
      rewrite Forall_forall in Hall. apply (Hall (k, o)). by apply bmap_get_elem.
    - split_and!; [done..|]. intros x. rewrite H3. unfold new. rewrite bmap_insert_keys. set_solver. }
  destruct (Hgen []) as (H1 & H2 & H3); [constructor..|]. split_and!; [done| |].
  - apply sorted_elements_eq; [done..|]. intros x. rewrite H3. unfold keys. set_solver.
  - eapply Forall_impl; [exact H2|]. intros [c o] ->. split_and!; [by repeat constructor|done|by intros []|].
    intros key Hin. left. unfold keys in Hin. cbn in Hin. set_solver.
Qed.

(** ** What the document says *)

Definition item_candidate (placed : list Item) (cand : string) : ModelCandidateV1 :=
  let section kind := item_claim <$> items_of cand kind placed in
  {| md_candidate_id := cand; md_observations := section KObservation; md_symptoms := section KSymptom;
     md_causal_candidates := section KCausalCandidate; md_initiating_causes := [];
     md_competing_explanations := section KCompetingExplanation; md_missing_evidence := [] |}.
Definition item_answer (cands : list string) (placed : list Item) : ModelInvestigationAnswerV1 :=
  {| ma_schema := SCHEMA_V1; ma_candidates := item_candidate placed <$> cands |}.

Lemma mapM_fmap_Some {A B C} (f : B → option C) (g : A → B) (h : A → C) l :
  (∀ x, x ∈ l → f (g x) = Some (h x)) → mapM f (g <$> l) = Some (h <$> l).
Proof.
  induction l as [|x l IH]; intros Hf; cbn; [done|]. rewrite Hf by (by left). cbn.
  rewrite IH; [done|]. intros y Hy. apply Hf. by right.
Qed.

Lemma claim_decodes x : claim_from_value (item_value x) = Some (item_claim x).
Proof.
  unfold item_value, claim_value, claim_from_value. cbn -[mapM bmap_get].
  change (bmap_get "claim_id" _) with (Some (JString (Number := Z) ("reconciled-" +:+ decimal x.1))).
  change (bmap_get "text" _) with (Some (JString (Number := Z) x.2.2)).
  change (bmap_get "evidence_ids" _) with (Some (JArray (JString (Number := Z) <$> item_ids x))). cbn -[mapM].
  rewrite (mapM_fmap_Some _ _ id) by done. cbn. by rewrite list_fmap_id.
Qed.

Lemma section_decodes cand placed obj kind :
  object_ok cand placed obj →
  section_from_value (section_name kind) obj = Some (item_claim <$> items_of cand kind placed).
Proof.
  intros (_ & _ & Hsec & _). unfold section_from_value. rewrite Hsec. unfold section_value.
  destruct (items_of cand kind placed) as [|x items] eqn:E; [done|]. rewrite <-E. apply mapM_fmap_Some.
  intros y _. apply claim_decodes.
Qed.
Lemma absent_section cand placed obj name :
  object_ok cand placed obj → name ≠ "candidate_id" → (∀ kind, name ≠ section_name kind) →
  section_from_value name obj = Some [].
Proof.
  intros (Hok & _ & _ & Hkeys) Hid Hk. unfold section_from_value. destruct (bmap_get name obj) as [v|] eqn:E; [|done].
  apply bmap_get_elem in E; [|done]. apply elem_keys in E. destruct (Hkeys _ E) as [?|[kind ?]]; [done|by destruct (Hk kind)].
Qed.

Lemma candidate_decodes cand placed obj :
  object_ok cand placed obj → candidate_from_value (JObject obj) = Some (item_candidate placed cand).
Proof.
  intros Hobj. pose proof Hobj as (Hok & Hid & Hsec & Hkeys). unfold candidate_from_value.
  assert (known_members ["candidate_id"; "observations"; "symptoms"; "causal_candidates"; "initiating_causes";
                         "competing_explanations"; "missing_evidence"] obj = true) as ->.
  { unfold known_members. rewrite forallb_Forall. apply Forall_forall. intros [k v] Hin. cbn.
    apply bool_decide_eq_true. apply elem_keys in Hin. destruct (Hkeys k Hin) as [->|[[] ->]]; cbn; set_solver. }
  rewrite Hid, (absent_section cand placed obj "initiating_causes"), (absent_section cand placed obj "missing_evidence")
    by (done || by intros []).
  change "observations" with (section_name KObservation). change "symptoms" with (section_name KSymptom).
  change "causal_candidates" with (section_name KCausalCandidate).
  change "competing_explanations" with (section_name KCompetingExplanation).
  rewrite !(section_decodes cand placed obj) by done. done.
Qed.

Lemma document_decodes cands placed m :
  document_ok cands placed m → answer_from_value (proposal_value m) = Some (item_answer cands placed).
Proof.
  intros (Hok & <- & Hobjs). unfold proposal_value, answer_from_value. cbn -[mapM bmap_get].
  change (bmap_get "schema" _) with (Some (JString (Number := Z) SCHEMA_V1)).
  change (bmap_get "candidates" _) with (Some (JArray (JObject <$> m.*2))). cbn -[mapM].
  rewrite <-list_fmap_compose. rewrite (mapM_fmap_Some _ _ (λ kv, item_candidate placed kv.1)).
  - cbn. unfold item_answer, keys. by rewrite <-list_fmap_compose.
  - intros [c o] Hin. rewrite Forall_forall in Hobjs. apply candidate_decodes. apply (Hobjs _ Hin).
Qed.

(** ** The document is a grounded proposal *)

Definition kind_of (k : ContributionClaimKind) : ClaimKind :=
  match k with
  | KObservation => Observation | KSymptom => SymptomClaim | KCausalCandidate => CausalCandidate
  | KCompetingExplanation => CompetingExplanation
  end.
Definition ALL_KINDS : list ContributionClaimKind := [KObservation; KSymptom; KCausalCandidate; KCompetingExplanation].

Lemma items_of_elem cand kind placed x :
  x ∈ items_of cand kind placed ↔ x ∈ placed ∧ item_cand x = cand ∧ item_kind x = kind.
Proof. unfold items_of. rewrite elem_of_filter_bool, andb_true_iff, !bool_decide_eq_true. tauto. Qed.

Lemma claims_in_order_items placed cand :
  claims_in_order (item_candidate placed cand) =
  ALL_KINDS ≫= λ kind, (λ x, (kind_of kind, item_claim x)) <$> items_of cand kind placed.
Proof. unfold claims_in_order. cbn. by rewrite <-!list_fmap_compose. Qed.

Lemma claims_in_order_elem placed cand kc :
  kc ∈ claims_in_order (item_candidate placed cand) ↔
  ∃ x, x ∈ placed ∧ item_cand x = cand ∧ kc = (kind_of (item_kind x), item_claim x).
Proof.
  rewrite claims_in_order_items, list_elem_of_bind. setoid_rewrite list_elem_of_fmap. setoid_rewrite items_of_elem. split.
  - intros (kind & (x & -> & ? & ? & <-) & _). eauto.
  - intros (x & ? & ? & ->). exists (item_kind x). split; [eauto 6|]. unfold ALL_KINDS. destruct (item_kind x); set_solver.
Qed.

(** Sorting the elements into buckets loses none and repeats none. *)
Section buckets.
Context {A K : Type} `{EqDecision K} (f : A → K).
Definition bucket (l : list A) (k : K) : list A := List.filter (λ x, bool_decide (f x = k)) l.

Lemma buckets_skip x l ks : f x ∉ ks → ks ≫= bucket (x :: l) = ks ≫= bucket l.
Proof.
  induction ks as [|k ks IH]; cbn; [done|]. intros [Hk Hks]%not_elem_of_cons.
  rewrite bool_decide_eq_false_2 by done. f_equal. by apply IH.
Qed.
Lemma buckets_cons x l ks : NoDup ks → f x ∈ ks → ks ≫= bucket (x :: l) ≡ₚ x :: (ks ≫= bucket l).
Proof.
  induction 1 as [|k ks Hk Hnd IH]; cbn; [by intros ?%not_elem_of_nil|]. case_bool_decide as E.
  - intros _. subst k. cbn. constructor. by rewrite <-(buckets_skip x l ks Hk).
  - intros [?|Hin]%elem_of_cons; [done|]. fold (bucket l k). rewrite Permutation_middle. f_equiv. by apply IH.
Qed.
Lemma buckets_perm ks l : NoDup ks → (∀ x, x ∈ l → f x ∈ ks) → ks ≫= bucket l ≡ₚ l.
Proof.
  intros Hnd. induction l as [|x l IH]; intros Hl.
  - clear. induction ks as [|k ks IH]; cbn; [done|]. exact IH.
  - rewrite buckets_cons by (try done; apply Hl; by left). constructor. apply IH. intros y Hy. apply Hl. by right.
Qed.
End buckets.

(** Every placed claim is in the answer once. *)
Lemma all_items_perm cands placed :
  NoDup cands → (∀ x, x ∈ placed → item_cand x ∈ cands) →
  (all_claims (item_answer cands placed)).*2 ≡ₚ item_claim <$> placed.
Proof.
  intros Hnd Hin. unfold all_claims, item_answer. cbn.
  set (ks := cands ≫= λ c, (c,.) <$> ALL_KINDS).
  assert (((item_candidate placed <$> cands) ≫= claims_in_order).*2 =
          item_claim <$> (ks ≫= bucket (λ x, (item_cand x, item_kind x)) placed)) as ->.
  { unfold ks. clear. induction cands as [|c cands IH]; [done|]. rewrite fmap_cons. cbn [mbind list_bind].
    rewrite fmap_app, bind_app, fmap_app. f_equal; [|exact IH]. rewrite claims_in_order_items. unfold ALL_KINDS. cbn.
    rewrite !fmap_app, <-!list_fmap_compose. cbn.
    assert (∀ kind, bucket (λ x, (item_cand x, item_kind x)) placed (c, kind) = items_of c kind placed) as Hb.
    { intros kind. unfold bucket, items_of. apply List.filter_ext. intros x.
      repeat case_bool_decide; cbn; try done; naive_solver. }
    by rewrite !Hb. }
  apply fmap_Permutation, buckets_perm.
  - unfold ks. clear Hin. induction Hnd as [|c cands Hc _ IH]; [constructor|]. cbn [mbind list_bind].
    rewrite NoDup_app. split_and!; [| |exact IH].
    + apply NoDup_fmap; [by intros ?? [=]|]. unfold ALL_KINDS. apply (bool_decide_eq_true_1 _). done.
    + intros y (kind & -> & _)%list_elem_of_fmap (c' & (k' & [= <- ?] & _)%list_elem_of_fmap & ?)%list_elem_of_bind. done.
  - intros x Hx. unfold ks. apply list_elem_of_bind. exists (item_cand x). split; [|by apply Hin].
    apply list_elem_of_fmap. exists (item_kind x). split; [done|]. unfold ALL_KINDS. destruct (item_kind x); set_solver.
Qed.

(** ** Numbers *)

Lemma numbered_spec index claims :
  0 ≤ index → index + zlen claims ≤ usize_max →
  (numbered index claims).*2 = claims ∧ NoDup (numbered index claims).*1 ∧
  Forall (λ x : Item, index ≤ x.1 < index + zlen claims) (numbered index claims).
Proof.
  revert index. induction claims as [|c claims IH]; intros index Hi Hlen; cbn; [by split_and!; constructor|].
  rewrite zlen_cons in *. pose proof (zlen_nonneg claims). rewrite saturating_add_exact by lia.
  destruct (IH (index + 1)) as (H1 & H2 & H3); [lia..|]. split_and!.
  - by rewrite H1.
  - constructor; [|done]. intros (x & Hx & Hin)%list_elem_of_fmap. rewrite Forall_forall in H3. specialize (H3 x Hin). lia.
  - constructor; [cbn; lia|]. eapply Forall_impl; [exact H3|]. cbn. lia.
Qed.

Lemma decimal_inj n m : 0 ≤ n ≤ u64_max → 0 ≤ m ≤ u64_max → decimal n = decimal m → n = m.
Proof.
  intros Hn Hm E. unfold decimal in E. apply (inj of_bytes) in E.
  destruct (decimal_go_parse 20 n) as (Hp & _); [done|unfold u64_max in *; lia|].
  destruct (decimal_go_parse 20 m) as (Hq & _); [done|unfold u64_max in *; lia|].
  unfold decimal_bytes in E. rewrite E in Hp. congruence.
Qed.

(** ** The kept claims *)

Lemma keep_texts_claims attempts :
  foldl keep_texts [] attempts = foldl keep_text [] (usable_contributions attempts ≫= vc_claims).
Proof.
  unfold usable_contributions. generalize (@nil (ClaimKey * string)). induction attempts as [|a attempts IH]; intros m; [done|].
  cbn [foldl omap list_omap]. rewrite IH. unfold keep_texts. destruct (usable a) as [c|]; cbn; [|done].
  by rewrite foldl_app.
Qed.
Lemma kept_spec attempts :
  bmap_ok (foldl keep_texts [] attempts) ∧
  ∀ key, key ∈ keys (foldl keep_texts [] attempts) ↔
    ∃ c k, c ∈ usable_contributions attempts ∧ k ∈ vc_claims c ∧ claim_key k = key.
Proof.
  rewrite keep_texts_claims. split.
  - apply foldl_inv; [|constructor]. intros m k Hm. by apply bmap_upsert_ok.
  - intros key. rewrite (foldl_exists (λ m, key ∈ keys m) (λ k, key = claim_key k)).
    + unfold keys at 1. cbn. setoid_rewrite list_elem_of_bind. rewrite elem_of_nil. naive_solver.
    + intros m k. unfold keep_text. rewrite bmap_upsert_keys. tauto.
Qed.
Lemma kept_length attempts :
  zlen (foldl keep_texts [] attempts) ≤ zlen (usable_contributions attempts ≫= vc_claims).
Proof.
  destruct (kept_spec attempts) as [Hok%sorted_NoDup Hkeys]. unfold zlen.
  assert (keys (foldl keep_texts [] attempts) ⊆+ claim_key <$> (usable_contributions attempts ≫= vc_claims)) as Hsub.
  { apply NoDup_submseteq; [done|]. intros key (c & k & Hc & Hk & <-)%Hkeys. apply list_elem_of_fmap_2.
    apply list_elem_of_bind. eauto. }
  apply submseteq_length in Hsub. unfold keys in Hsub. rewrite !length_fmap in Hsub. lia.
Qed.

(** A validated claim is a claim the validator of answers accepts. *)
Lemma kept_claim_ok `{Sha2} i attempts c k :
  ledger_ok (in_ledger i) → Forall (host_validated (packet_build i)) attempts →
  c ∈ usable_contributions attempts → k ∈ vc_claims c →
  cc_candidate_id k ∈ ledger_candidate_ids (in_ledger i) ∧ cc_evidence_ids k ≠ [] ∧ NoDup (cc_evidence_ids k) ∧
  Forall (evidence_ok (in_ledger i) (kind_of (cc_kind k)) (cc_candidate_id k)) (cc_evidence_ids k).
Proof.
  intros Hok Hall Hc Hk. destruct (host_validated_claims _ _ _ _ Hall Hc Hk) as (k0 & (_ & _ & Hne & Hnd & Hrows) & ->). cbn.
  destruct (set_collect_spec (cc_evidence_ids k0)) as [Hsorted Hin]. rewrite Forall_forall in Hrows.
  assert (∀ id, id ∈ cc_evidence_ids k0 → evidence_ok (in_ledger i) (kind_of (cc_kind k0)) (cc_candidate_id k0) id) as Hev.
  { intros id Hid. destruct (Hrows id Hid) as (row & Hget & _ & Hcand & Hrole). rewrite packet_get_ledger in Hget by done.
    destruct (ledger_get (in_ledger i) id) as [e|] eqn:He; [|done]. injection Hget as <-. exists e. cbn in *.
    destruct (ledger_get_row _ _ _ Hok He) as [Hrow _]. pose proof Hok as [_ Hf]. rewrite Forall_forall in Hf.
    unfold ledger_get in He. apply bmap_get_elem in He; [|apply Hok]. destruct (Hf _ He) as (_ & _ & ? & ?).
    split_and!; [|done..|]; [apply bmap_get_elem; [apply Hok|done]|]. intros Hkind Hsym. apply (Hrole Hsym).
    destruct (cc_kind k0); try done. set_solver. }
  split_and!.
  - destruct (cc_evidence_ids k0) as [|id ids] eqn:E; [done|]. destruct (Hev id) as (e & He & Hcand & _); [by left|].
    apply (set_collect_spec (ev_candidate_id <$> ledger_rows (in_ledger i))). rewrite <-Hcand. apply list_elem_of_fmap_2.
    by apply ledger_get_row in He as [? _].
  - intros Hnil. destruct (cc_evidence_ids k0) as [|id ids]; [done|]. apply (not_elem_of_nil id). rewrite <-Hnil.
    apply Hin. by left.
  - by apply sorted_NoDup.
  - apply Forall_forall. intros id Hid. by apply Hev, Hin.
Qed.

Lemma item_answer_ids cands placed : md_candidate_id <$> ma_candidates (item_answer cands placed) = cands.
Proof. cbn. rewrite <-list_fmap_compose. apply list_fmap_id. Qed.

Lemma floor_proposal_ok `{Sha2} i attempts :
  ledger_ok (in_ledger i) → Forall (host_validated (packet_build i)) attempts →
  zlen (usable_contributions attempts ≫= vc_claims) ≤ usize_max →
  let placed := numbered 0 (foldl keep_texts [] attempts) in
  (∀ x, x ∈ placed → item_cand x ∈ ledger_candidate_ids (in_ledger i)) ∧
  proposal_ok (in_ledger i) (item_answer (ledger_candidate_ids (in_ledger i)) placed).
Proof.
  intros Hok Hall Hlen. cbn zeta. pose proof (kept_length attempts). destruct (kept_spec attempts) as [Hkok Hkeys].
  destruct (numbered_spec 0 (foldl keep_texts [] attempts)) as (Hclaims & Hnd & Hrange); [lia..|].
  set (placed := numbered 0 (foldl keep_texts [] attempts)) in *.
  assert (∀ x, x ∈ placed → ∃ c k, c ∈ usable_contributions attempts ∧ k ∈ vc_claims c ∧
    cc_candidate_id k = item_cand x ∧ cc_kind k = item_kind x ∧ cc_evidence_ids k = item_ids x) as Hitems.
  { intros x Hx. assert (x.2 ∈ foldl keep_texts [] attempts) as Hin by (rewrite <-Hclaims; by apply list_elem_of_fmap_2).
    destruct x as [n [[[cand kind] ids] text]]. apply elem_keys, Hkeys in Hin as (c & k & ? & ? & [= ? ? ?]). eauto 10. }
  destruct (set_collect_spec (ev_candidate_id <$> ledger_rows (in_ledger i))) as [Hcs Hcin].
  fold (ledger_candidate_ids (in_ledger i)) in Hcs, Hcin.
  assert (∀ x, x ∈ placed → item_cand x ∈ ledger_candidate_ids (in_ledger i)) as Hcand.
  { intros x (c & k & Hc & Hk & <- & _)%Hitems. by destruct (kept_claim_ok i attempts c k) as [? _]. }
  split; [done|]. split_and!.
  - cbn. rewrite Forall_fmap. apply Forall_forall. intros cand Hc. cbn. split.
    + apply Hcin, list_elem_of_fmap in Hc as (e & -> & He). destruct Hok as [_ Hf]. rewrite Forall_forall in Hf.
      apply list_elem_of_fmap in He as ([k e'] & -> & Hin). by destruct (Hf _ Hin) as (_ & ? & _).
    + apply Forall_forall. intros kc (x & Hx & <- & ->)%claims_in_order_elem.
      destruct (Hitems x Hx) as (c & k & Hcc & Hk & E1 & E2 & E3).
      destruct (kept_claim_ok i attempts c k) as (_ & Hne & Hndk & Hev); [done..|]. rewrite E1, E2, E3 in *.
      split_and!; cbn; [by destruct (decimal x.1)|done..].
  - rewrite item_answer_ids. by apply sorted_NoDup.
  - rewrite all_items_perm by (done || by apply sorted_NoDup). rewrite <-list_fmap_compose.
    apply (NoDup_fmap_2_strong _ placed).
    + intros x y Hx Hy E. cbn in E. rewrite Forall_forall in Hrange. apply Hrange in Hx as Hrx. apply Hrange in Hy as Hry.
      apply (f_equal bytes) in E. rewrite !bytes_app in E. apply app_inv_head in E. apply (inj bytes) in E.
      apply decimal_inj in E; [|unfold usize_max in *; lia..]. by eapply (NoDup_fmap_eq fst).
    + by eapply NoDup_fmap_1.
  - intros x. by rewrite item_answer_ids, <-Hcin.
Qed.

Definition floor_ok (i : FastTriagePacketInputs) (attempts : list ContributionAttemptV1) (env : AnswerEnvelopeV1) : Prop :=
  ans_root_cause_established (env_answer env) = false ∧
  candidate_id <$> ans_candidates (env_answer env) = ledger_candidate_ids (in_ledger i) ∧
  ∀ cand kind ids,
    (∃ claim, claim ∈ (ans_candidates (env_answer env) ≫= candidate_claims) ∧ claim_candidate_id claim = cand ∧
       claim_kind claim = kind ∧ claim_evidence_ids claim = ids) ↔
    (∃ c k, c ∈ usable_contributions attempts ∧ k ∈ vc_claims c ∧ cc_candidate_id k = cand ∧
       kind_of (cc_kind k) = kind ∧ cc_evidence_ids k = ids).

Lemma floor_answer `{Sha2} json_to_string from_str `{!JsonAnswers json_to_string from_str} binding evidence i attempts :
  HostEvidenceLedger_new binding evidence = Ok (in_ledger i) →
  Forall (host_validated (packet_build i)) attempts →
  zlen (usable_contributions attempts ≫= vc_claims) ≤ usize_max →
  ∃ env, reconciliation_answer json_to_string from_str (packet_build i) attempts = Ok env ∧ floor_ok i attempts env.
Proof.
  intros (Hok & _ & Hperm & Hne & _)%ledger_new_Ok Hall Hlen.
  destruct (floor_proposal_ok i attempts Hok Hall Hlen) as [Hcand Hprop].
  set (claims := foldl keep_texts [] attempts) in *. set (cands := ledger_candidate_ids (in_ledger i)) in *.
  destruct (place_claims_ok cands [] (by_candidate_new (in_ledger i)) 0 claims) as (m & Hm & Hdoc).
  { apply by_candidate_new_ok. }
  { pose proof (kept_length attempts). destruct (numbered_spec 0 claims) as (Hnum & _ & _); [unfold claims in *; lia..|].
    rewrite <-Hnum, Forall_fmap. apply Forall_forall. intros x Hx. by apply Hcand. }
  cbn [app] in Hdoc. apply document_decodes in Hdoc. apply json_answer_roundtrip in Hdoc.
  exists (answer_of (in_ledger i) (item_answer cands (numbered 0 claims))). split.
  { unfold reconciliation_answer. cbn [pkt_ledger packet_build]. fold claims. rewrite Hm. cbn.
    apply validate_model_answer_spec; [done| |eauto 6]. intros E. apply Hne. apply Permutation_nil.
    rewrite <-Hperm. unfold ledger_rows. by rewrite E. }
  assert (∀ claim, claim ∈ (ans_candidates (env_answer (answer_of (in_ledger i) (item_answer cands (numbered 0 claims))))
      ≫= candidate_claims) ↔
    ∃ x, x ∈ numbered 0 claims ∧ claim = host_claim (in_ledger i) (item_cand x) (kind_of (item_kind x), item_claim x)) as Hel.
  { intros claim. rewrite host_claims_elem. split.
    - intros (c & kc & (cand & -> & Hc)%list_elem_of_fmap & (x & Hx & <- & ->)%claims_in_order_elem & ->). by exists x.
    - intros (x & Hx & ->). exists (item_candidate (numbered 0 claims) (item_cand x)), (kind_of (item_kind x), item_claim x).
      split_and!; [apply list_elem_of_fmap_2; by apply Hcand|apply claims_in_order_elem; by exists x|done]. }
  split_and!.
  - cbn [env_answer answer_of ans_root_cause_established]. apply existsb_false_Forall, Forall_forall. intros kc (c & (cand & -> & Hc)%list_elem_of_fmap &
      (x & Hx & <- & ->)%claims_in_order_elem)%all_claims_elem. cbn. by destruct (item_kind x).
  - cbn. rewrite <-!list_fmap_compose. apply list_fmap_id.
  - intros cand kind ids. setoid_rewrite Hel. destruct (kept_spec attempts) as [Hkok Hkeys]. fold claims in Hkok, Hkeys.
    pose proof (kept_length attempts). destruct (numbered_spec 0 claims) as (Hnum & _ & _); [unfold claims in *; lia..|].
    split.
    + intros (? & (x & Hx & ->) & <- & <- & <-). assert (x.2 ∈ claims) as Hin by (rewrite <-Hnum; by apply list_elem_of_fmap_2).
      destruct x as [n [[[cd kd] is'] text]]. apply elem_keys, Hkeys in Hin as (c & k & ? & ? & [= <- <- <-]). by exists c, k.
    + intros (c & k & Hc & Hk & <- & <- & <-). assert (claim_key k ∈ keys claims) as Hin by (apply Hkeys; eauto).
      apply list_elem_of_fmap in Hin as ([key text] & Hkey & Hin). cbn in Hkey. rewrite <-Hnum in Hin.
      apply list_elem_of_fmap in Hin as (x & Hx2 & Hx). eexists. split; [by exists x|].
      destruct x as [n y]. cbn in Hx2. subst y key. done.
Qed.

(** The host always has an answer: whatever subset of the contributors completed,
    the claims it accepted make an answer that passes the validator of model answers.
    It covers every candidate of the ledger, contains the accepted claims and no others,
    and establishes no root cause. *)
Theorem floor_answer_is_always_available `{Sha2} json_to_string from_str `{!JsonAnswers json_to_string from_str}
    binding evidence i attempts :
  HostEvidenceLedger_new binding evidence = Ok (in_ledger i) →
  Forall (host_validated (packet_build i)) attempts →
  zlen (usable_contributions attempts ≫= vc_claims) ≤ usize_max →
  ∃ env, reconciliation_answer json_to_string from_str (packet_build i) attempts = Ok env ∧
    ans_root_cause_established (env_answer env) = false ∧
    candidate_id <$> ans_candidates (env_answer env) = ledger_candidate_ids (in_ledger i) ∧
    ∀ cand kind ids,
      (∃ claim, claim ∈ (ans_candidates (env_answer env) ≫= candidate_claims) ∧ claim_candidate_id claim = cand ∧
         claim_kind claim = kind ∧ claim_evidence_ids claim = ids) ↔
      (∃ c k, c ∈ usable_contributions attempts ∧ k ∈ vc_claims c ∧ cc_candidate_id k = cand ∧
         kind_of (cc_kind k) = kind ∧ cc_evidence_ids k = ids).
Proof.
  intros Hnew Hall Hlen. by eapply floor_answer.
Qed.

(** ** A printer and a reader that agree *)

Module FloorDemo.
#[global] Instance ModelClaimV1_eq_dec : EqDecision ModelClaimV1.
Proof. solve_decision. Defined.
#[global] Instance ModelCandidateV1_eq_dec : EqDecision ModelCandidateV1.
Proof. solve_decision. Defined.
#[global] Instance ModelInvestigationAnswerV1_eq_dec : EqDecision ModelInvestigationAnswerV1.
Proof. solve_decision. Defined.
#[global] Instance ModelClaimV1_countable : Countable ModelClaimV1.
Proof.
  refine (inj_countable' (λ c, (mc_claim_id c, mc_text c, mc_evidence_ids c))
            (λ '(a, b, c), {| mc_claim_id := a; mc_text := b; mc_evidence_ids := c |}) _). by intros [].
Defined.
#[global] Instance ModelCandidateV1_countable : Countable ModelCandidateV1.
Proof.
  refine (inj_countable' (λ c, (md_candidate_id c, md_observations c, md_symptoms c, md_causal_candidates c,
                                md_initiating_causes c, md_competing_explanations c, md_missing_evidence c))
            (λ '(a, b, c, d, e, f, g), {| md_candidate_id := a; md_observations := b; md_symptoms := c;
               md_causal_candidates := d; md_initiating_causes := e; md_competing_explanations := f;
               md_missing_evidence := g |}) _). by intros [].
Defined.
#[global] Instance ModelInvestigationAnswerV1_countable : Countable ModelInvestigationAnswerV1.
Proof.
  refine (inj_countable' (λ a, (ma_schema a, ma_candidates a))
            (λ '(a, b), {| ma_schema := a; ma_candidates := b |}) _). by intros [].
Defined.

Fixpoint digits (p : positive) : string :=
  match p with
  | xH => EmptyString
  | xO p => String "0" (digits p)
  | xI p => String "1" (digits p)
  end.
Fixpoint number (s : string) : positive :=
  match s with
  | EmptyString => xH
  | String c s => if bool_decide (c = "1"%char) then xI (number s) else xO (number s)
  end.
Lemma number_digits p : number (digits p) = p.
Proof. induction p as [p IH|p IH|]; cbn; by rewrite ?IH. Qed.

Definition json_to_string (v : Value Z) : string :=
  match answer_from_value v with Some p => digits (encode p) | None => EmptyString end.
Definition from_str (s : string) : option ModelInvestigationAnswerV1 := decode (number s).
#[export] Instance json_answers : JsonAnswers json_to_string from_str.
Proof. intros v p Hv. unfold from_str, json_to_string. by rewrite Hv, number_digits, decode_encode. Qed.
End FloorDemo.

Lemma floor_answer_is_always_available_witness :
  ∃ env, reconciliation_answer FloorDemo.json_to_string FloorDemo.from_str ContributionDemo.packet
           (ContributionDemo.panel false) = Ok env ∧
    candidate_id <$> ans_candidates (env_answer env) = ["g"; "h"].
Proof.
  destruct (@floor_answer_is_always_available AnswerDemo.sha2 _ _ FloorDemo.json_answers _ _ ContributionDemo.inputs
    (ContributionDemo.panel false) ContributionDemo.contribution_ledger_built (ContributionDemo.panel_validated false))
    as (env & Henv & _ & Hcands & _).
  - vm_compute. congruence.
  - exists env. split; [exact Henv|]. rewrite Hcands. vm_compute. reflexivity.
Defined.
