(* ===== verification/FastRoute.v ===== *)
(** * The fast-triage route

    [crates/cd-core/src/fast_triage/route.rs] with the records of
    [telemetry.rs], and the waiting discipline of [agent.rs] it uses
    ([TurnClock], [within_turn_deadline]), over the prompts of [FastPrompt] and the
    Markdown projection of [Display]. Model transports, the wall clock, the cancel
    flag and the nonces are the interface [FastWorld]; the printing of JSON values,
    SHA-256 and the Unicode table are the interface [FastHost]. *)
From Stdlib Require Import ZArith Lia Ascii String.
From stdpp Require Import base tactics option list list_numbers sets sorting strings.
From S2P Require Import Prelude RustStr EvidencePack BTree Crypto TriageSdk Answer Terminal Neighborhood.
From S2P Require Import FastPacket FastValidate Display Injection Context FastPrompt TurnBudget.

Local Open Scope string_scope.
Local Open Scope list_scope.
Local Open Scope Z_scope.

(** ** Telemetry *)

Inductive FastTriageStage := StagePrimary | StageCorrection | StageEscalation.
Inductive FastTriageAttemptOutcome :=
| AttemptAccepted | AttemptRejected | AttemptProviderFailed | AttemptDeadline | AttemptCancelled.

Record FastTriageAttemptTelemetry := {
  at_stage : FastTriageStage;
  at_profile_id : string;
  at_model_id : string;
  at_terminal_state : option FastTriageTerminalState;
  at_reasoning_present : bool;
  at_reasoning_chars : Z;
  at_visible_chars : Z;
  at_tool_calls : Z;
  at_outcome : FastTriageAttemptOutcome;
  at_categories : list FastTriageFailureCategory;
}.

Inductive FastTriageEscalationState :=
| EscNotRequested | EscNotConfigured | EscNotAuthorized | EscRequested | EscSucceeded | EscFailed
| EscPacketIdentityChanged.
Record FastTriageEscalationTelemetry := {
  es_state : FastTriageEscalationState;
  es_profile_id : option string;
  es_model_id : option string;
  es_packet_id : option string;
}.
Definition not_requested : FastTriageEscalationTelemetry :=
  {| es_state := EscNotRequested; es_profile_id := None; es_model_id := None; es_packet_id := None |}.

Inductive FastTriageOutcomeLabel :=
| LabelNotSelected | VerifiedFastAnswer | VerifiedAfterCorrection | VerifiedAfterEscalation
| PartialInconclusive | LabelEscalationRequested | LabelCancelled | LabelDeadline
| LabelProviderFailed.
Definition is_verified (l : FastTriageOutcomeLabel) : bool :=
  match l with
  | VerifiedFastAnswer | VerifiedAfterCorrection | VerifiedAfterEscalation => true
  | _ => false
  end.

Record FastTriagePacketTelemetry := {
  pt_packet_id : string;
  pt_candidate_count : Z;
  pt_evidence_row_count : Z;
  pt_independent_row_count : Z;
  pt_role_evidence : FastTriageRoleEvidence;
  pt_timeline_complete : bool;
}.
Definition from_packet (p : FastTriagePacketV1) : FastTriagePacketTelemetry :=
  {| pt_packet_id := pkt_packet_id p;
     pt_candidate_count := zlen (packet_candidate_ids p);
     pt_evidence_row_count := zlen (pkt_rows p);
     pt_independent_row_count :=
       zlen (List.filter (λ row, bool_decide (pk_scope row = ScopeIndependent)) (pkt_rows p));
     pt_role_evidence := role_evidence p;
     pt_timeline_complete := pkt_timeline_complete p |}.

Definition FAST_TRIAGE_TELEMETRY_SCHEMA_V1 : string := "contextdesk.fast_triage.telemetry.v1".
Record FastTriageTelemetryV1 := {
  tm_schema : string;
  tm_route_selected : bool;
  tm_selection_rejection : option FastTriageRouteRejection;
  tm_workflow_contract : FastTriageWorkflowContract;
  tm_contract_fingerprint : string;
  tm_role : option FastTriageRoleBinding;
  tm_packet : option FastTriagePacketTelemetry;
  tm_attempts : list FastTriageAttemptTelemetry;
  tm_provider_attempts : Z;
  tm_correction_used : bool;
  tm_correction_category : option FastTriageFailureCategory;
  tm_validation_categories : list FastTriageFailureCategory;
  tm_escalation : FastTriageEscalationTelemetry;
  tm_deadline_ms : Z;
  tm_outcome : FastTriageOutcomeLabel;
}.

(** ** Bounded accumulation of a stream *)

Definition FAST_TRIAGE_RESPONSE_CHAR_CAP : Z := 32000.
Record BoundedStream := { bs_text : list ascii; bs_chars : Z; bs_exceeded : bool }.
Definition stream_new : BoundedStream := {| bs_text := []; bs_chars := 0; bs_exceeded := false |}.
Fixpoint push_chars (s : BoundedStream) (chars : list (list ascii)) : BoundedStream :=
  match chars with
  | [] => s
  | c :: chars =>
      if FAST_TRIAGE_RESPONSE_CHAR_CAP <=? bs_chars s
      then {| bs_text := bs_text s; bs_chars := bs_chars s; bs_exceeded := true |}
      else push_chars {| bs_text := bs_text s ++ c; bs_chars := bs_chars s + 1;
                         bs_exceeded := bs_exceeded s |} chars
  end.
Definition stream_push (s : BoundedStream) (fragment : string) : BoundedStream :=
  if bs_exceeded s then s else push_chars s (chars_of (bytes fragment)).
Definition stream_take (s : BoundedStream) : string :=
  if bs_exceeded s then EmptyString else of_bytes (bs_text s).

(** ** Inputs *)

Definition FAST_TRIAGE_MAX_CORRECTIONS : Z := 1.
Record FastTriageFallback := {
  fb_profile_id : string;
  fb_model_id : string;
  fb_authorized : bool;
}.
Record FastTriageBudget := {
  fbud_deadline_ms : Z;
  fbud_context_char_budget : Z;
  fbud_max_corrections : Z;
}.
Definition effective_corrections (b : FastTriageBudget) : Z :=
  Z.min (fbud_max_corrections b) FAST_TRIAGE_MAX_CORRECTIONS.

Record FastTriageInputs := {
  fi_user_text : string;
  fi_packet : FastTriagePacketV1;
  fi_expected_packet_id : option string;
  fi_enabled : bool;
  fi_records : list FastTriageRouteRecord;
  fi_profile_id : option string;
  fi_model_id : option string;
  fi_fallback : option FastTriageFallback;
  fi_budget : FastTriageBudget;
}.

(** ** The outside *)

Inductive Backend := PrimaryBackend | FallbackBackend.

(** How a call handed to the transport ends: with the provider's answer, at the
    timeout, or because the cancel flag was seen. *)
Inductive CallEnd (E : Type) :=
| Answered (r : result E ChatCompletion) | TimedOut | CancelSeen.
Arguments Answered {_} _. Arguments TimedOut {_}. Arguments CancelSeen {_}.

(** The outside of a turn whose calls go to the backends [B]. *)
Class FastWorld (B : Type) := {
  World : Type;
  CoreError : Type;
  cancel_flag : World → bool;
  (** [started.elapsed()], in nanoseconds *)
  elapsed_ns : World → Z;
  (** [Uuid::new_v4], for the fence around the evidence *)
  boundary_nonce : World → string;
  (** the streamed fragments and the end of one call; the remaining time is the
      timeout handed to [tokio::time::timeout], if any *)
  complete_streaming : B → list ChatMessage → option Z → World →
    World * list string * CallEnd CoreError;
  no_timeout_without_limit b m w : (complete_streaming b m None w).2 ≠ TimedOut;
}.

(** SHA-256, the printing of JSON values and the Unicode table of letters and
    digits. *)
Class FastHost := {
  #[global] fh_sha2 :: Sha2;
  json_to_string : Value Z → string;
  is_alphanumeric : char → bool;
}.

(** ** Waiting *)

Definition flat_plan (total : Z) : TurnDeadlinePlan :=
  {| total_ms := total; choosing_ms := total; retrieving_ms := total; synthesizing_ms := total;
     explicit := 0 <? total |}.

Section waiting.
Context {B : Type} `{FastWorld B}.

(** [TurnClock] in the phase it starts in, which this route never leaves. *)
Definition remaining_for_operation (plan : TurnDeadlinePlan) (w : World) : option Z :=
  if total_ms plan =? 0 then None
  else Some (Z.min (saturating_sub (total_ms plan * 1000000) (elapsed_ns w))
                   (for_phase plan ChoosingEvidence * 1000000)).

Inductive Awaited :=
| AwaitOk (r : result CoreError ChatCompletion) (fragments : list string)
| AwaitCancelled | AwaitDeadline.

Definition within_turn_deadline (plan : TurnDeadlinePlan) (b : B)
    (messages : list ChatMessage) (w : World) : World * bool * Awaited :=
  if cancel_flag w then (w, false, AwaitCancelled)
  else
    let remaining := remaining_for_operation plan w in
    if is_some_and remaining (λ r, r =? 0) then (w, false, AwaitDeadline)
    else
      let '(w, fragments, ended) := complete_streaming b messages remaining w in
      (w, true, match ended with
                | Answered r => AwaitOk r fragments
                | TimedOut => AwaitDeadline
                | CancelSeen => AwaitCancelled
                end).
End waiting.

Section route.
Context `{FastWorld Backend, FastHost} (from_str : string → option ModelInvestigationAnswerV1).

Inductive FastTriageRouteOutcome :=
| OutNotSelected (rejection : FastTriageRouteRejection) (telemetry : FastTriageTelemetryV1)
| OutVerified (envelope : AnswerEnvelopeV1) (content : string) (telemetry : FastTriageTelemetryV1)
| OutPartial (categories : list FastTriageFailureCategory) (telemetry : FastTriageTelemetryV1)
| OutEscalationRequested (packet : FastTriagePacketV1)
    (categories : list FastTriageFailureCategory) (telemetry : FastTriageTelemetryV1)
| OutCancelled (telemetry : FastTriageTelemetryV1)
| OutDeadline (telemetry : FastTriageTelemetryV1)
| OutProviderFailed (error : CoreError) (telemetry : FastTriageTelemetryV1).
Definition outcome_telemetry (o : FastTriageRouteOutcome) : FastTriageTelemetryV1 :=
  match o with
  | OutNotSelected _ t | OutVerified _ _ t | OutPartial _ t | OutEscalationRequested _ _ t
  | OutCancelled t | OutDeadline t | OutProviderFailed _ t => t
  end.

Record FastTriageStageEvent := {
  sv_stage : FastTriageStage;
  sv_started : bool;
  sv_outcome : option FastTriageAttemptOutcome;
  sv_packet_id : string;
  sv_provider_attempts : Z;
  sv_categories : list FastTriageFailureCategory;
}.

Record RunTelemetry := {
  rt_attempts : list FastTriageAttemptTelemetry;
  rt_provider_attempts : Z;
  rt_correction_used : bool;
  rt_correction_category : option FastTriageFailureCategory;
  rt_validation_categories : list FastTriageFailureCategory;
  rt_escalation : FastTriageEscalationTelemetry;
}.
Definition no_run : RunTelemetry :=
  {| rt_attempts := []; rt_provider_attempts := 0; rt_correction_used := false;
     rt_correction_category := None; rt_validation_categories := []; rt_escalation := not_requested |}.

(** The state of a run: the outside, the telemetry, the events handed to
    [on_stage], and the calls handed to a transport so far. *)
Record RouteState := {
  rs_world : World;
  rs_run : RunTelemetry;
  rs_events : list FastTriageStageEvent;
  rs_calls : list (Backend * list ChatMessage);
}.

(** ** One attempt *)

Inductive AttemptResult :=
| ResAccepted (envelope : AnswerEnvelopeV1)
| ResRejected (categories : list FastTriageFailureCategory)
| ResCancelled | ResDeadline | ResProviderFailed (error : CoreError).

Definition record_attempt (run : RunTelemetry) (stage : FastTriageStage)
    (role : FastTriageRoleBinding) (terminal : option FastTriageTerminal)
    (outcome : FastTriageAttemptOutcome) (categories : list FastTriageFailureCategory) :
    RunTelemetry :=
  {| rt_attempts := rt_attempts run ++
       [{| at_stage := stage; at_profile_id := role_profile_id role;
           at_model_id := role_model_id role; at_terminal_state := te_state <$> terminal;
           at_reasoning_present := is_some_and terminal reasoning_present;
           at_reasoning_chars := unwrap_or 0 (reasoning_chars <$> terminal);
           at_visible_chars := unwrap_or 0 (visible_chars <$> terminal);
           at_tool_calls := unwrap_or 0 ((λ t, zlen (te_tool_calls t)) <$> terminal);
           at_outcome := outcome; at_categories := categories |}];
     rt_provider_attempts := rt_provider_attempts run;
     rt_correction_used := rt_correction_used run;
     rt_correction_category := rt_correction_category run;
     rt_validation_categories := categories;
     rt_escalation := rt_escalation run |}.

Definition count_attempt (run : RunTelemetry) : RunTelemetry :=
  {| rt_attempts := rt_attempts run;
     rt_provider_attempts := saturating_add u32_max (rt_provider_attempts run) 1;
     rt_correction_used := rt_correction_used run;
     rt_correction_category := rt_correction_category run;
     rt_validation_categories := rt_validation_categories run;
     rt_escalation := rt_escalation run |}.

Definition stage_event (packet : FastTriagePacketV1) (stage : FastTriageStage)
    (outcome : option FastTriageAttemptOutcome) (run : RunTelemetry) : FastTriageStageEvent :=
  {| sv_stage := stage; sv_started := negb (is_some outcome); sv_outcome := outcome;
     sv_packet_id := pkt_packet_id packet; sv_provider_attempts := rt_provider_attempts run;
     sv_categories := if is_some outcome then rt_validation_categories run else [] |}.

(** [record_attempt] and [emit_finished]. *)
Definition close_attempt (packet : FastTriagePacketV1) (stage : FastTriageStage)
    (role : FastTriageRoleBinding) (terminal : option FastTriageTerminal)
    (outcome : FastTriageAttemptOutcome) (categories : list FastTriageFailureCategory)
    (st : RouteState) : RouteState :=
  let run := record_attempt (rs_run st) stage role terminal outcome categories in
  {| rs_world := rs_world st; rs_run := run;
     rs_events := rs_events st ++ [stage_event packet stage (Some outcome) run];
     rs_calls := rs_calls st |}.

(** What the host makes of a completed answer. *)
Definition judge (packet : FastTriagePacketV1) (terminal : FastTriageTerminal) :
    AnswerEnvelopeV1 + list FastTriageFailureCategory :=
  match te_state terminal with
  | EmptyVisible => inr [EmptyVisibleAnswer]
  | Malformed => inr [MalformedTerminal]
  | TypedObject =>
      let object := unwrap_or EmptyString (te_typed_object terminal) in
      match validate_fast_answer from_str object packet with
      | FastAccepted envelope =>
          if negb (bool_decide (bind_ledger_digest (env_binding envelope) =
                                bind_ledger_digest (led_binding (pkt_ledger packet))))
          then inr [PacketIdentityChanged] else inl envelope
      | FastRejected categories => inr categories
      end
  end.

Definition run_attempt (plan : TurnDeadlinePlan) (b : Backend) (packet : FastTriagePacketV1)
    (messages : list ChatMessage) (stage : FastTriageStage) (role : FastTriageRoleBinding)
    (st : RouteState) : AttemptResult * RouteState :=
  let events := rs_events st ++ [stage_event packet stage None (rs_run st)] in
  let run := count_attempt (rs_run st) in
  let '(w, issued, awaited) := within_turn_deadline plan b messages (rs_world st) in
  let st := {| rs_world := w; rs_run := run; rs_events := events;
               rs_calls := if issued : bool then rs_calls st ++ [(b, messages)] else rs_calls st |} in
  let close := close_attempt packet stage role in
  match awaited with
  | AwaitOk (Err error) _ =>
      if cancel_flag w then (ResCancelled, close None AttemptCancelled [] st)
      else (ResProviderFailed error, close None AttemptProviderFailed [] st)
  | AwaitCancelled => (ResCancelled, close None AttemptCancelled [] st)
  | AwaitDeadline => (ResDeadline, close None AttemptDeadline [] st)
  | AwaitOk (Ok completion) fragments =>
      let terminal := terminal_parse completion (stream_take (foldl stream_push stream_new fragments)) in
      match judge packet terminal with
      | inl envelope => (ResAccepted envelope, close (Some terminal) AttemptAccepted [] st)
      | inr categories =>
          (ResRejected categories, close (Some terminal) AttemptRejected categories st)
      end
  end.

(** ** The whole route *)

Definition set_run (run : RunTelemetry) (st : RouteState) : RouteState :=
  {| rs_world := rs_world st; rs_run := run; rs_events := rs_events st; rs_calls := rs_calls st |}.
Definition use_correction (category : option FastTriageFailureCategory) (run : RunTelemetry) :
    RunTelemetry :=
  {| rt_attempts := rt_attempts run; rt_provider_attempts := rt_provider_attempts run;
     rt_correction_used := true; rt_correction_category := category;
     rt_validation_categories := rt_validation_categories run; rt_escalation := rt_escalation run |}.
Definition set_escalation (e : FastTriageEscalationTelemetry) (run : RunTelemetry) : RunTelemetry :=
  {| rt_attempts := rt_attempts run; rt_provider_attempts := rt_provider_attempts run;
     rt_correction_used := rt_correction_used run;
     rt_correction_category := rt_correction_category run;
     rt_validation_categories := rt_validation_categories run; rt_escalation := e |}.
Definition set_esc_state (s : FastTriageEscalationState) (run : RunTelemetry) : RunTelemetry :=
  set_escalation {| es_state := s; es_profile_id := es_profile_id (rt_escalation run);
                    es_model_id := es_model_id (rt_escalation run);
                    es_packet_id := es_packet_id (rt_escalation run) |} run.
Definition set_categories (cs : list FastTriageFailureCategory) (run : RunTelemetry) :
    RunTelemetry :=
  {| rt_attempts := rt_attempts run; rt_provider_attempts := rt_provider_attempts run;
     rt_correction_used := rt_correction_used run;
     rt_correction_category := rt_correction_category run;
     rt_validation_categories := cs; rt_escalation := rt_escalation run |}.

Definition not_selected_telemetry (rejection : FastTriageRouteRejection)
    (contract : FastTriageWorkflowContract) (fingerprint : string) (deadline : Z) :
    FastTriageTelemetryV1 :=
  {| tm_schema := FAST_TRIAGE_TELEMETRY_SCHEMA_V1; tm_route_selected := false;
     tm_selection_rejection := Some rejection; tm_workflow_contract := contract;
     tm_contract_fingerprint := fingerprint; tm_role := None; tm_packet := None; tm_attempts := [];
     tm_provider_attempts := 0; tm_correction_used := false; tm_correction_category := None;
     tm_validation_categories := []; tm_escalation := not_requested; tm_deadline_ms := deadline;
     tm_outcome := LabelNotSelected |}.

Definition finish (inputs : FastTriageInputs) (selected : SelectedFastRoute) (run : RunTelemetry)
    (outcome : FastTriageOutcomeLabel) : FastTriageTelemetryV1 :=
  {| tm_schema := FAST_TRIAGE_TELEMETRY_SCHEMA_V1; tm_route_selected := true;
     tm_selection_rejection := None; tm_workflow_contract := sel_workflow_contract selected;
     tm_contract_fingerprint := sel_contract_fingerprint selected; tm_role := Some (sel_role selected);
     tm_packet := Some (from_packet (fi_packet inputs)); tm_attempts := rt_attempts run;
     tm_provider_attempts := rt_provider_attempts run; tm_correction_used := rt_correction_used run;
     tm_correction_category := rt_correction_category run;
     tm_validation_categories := rt_validation_categories run;
     tm_escalation := rt_escalation run;
     tm_deadline_ms := fbud_deadline_ms (fi_budget inputs); tm_outcome := outcome |}.

(** The loop [for attempt in 0..=corrections_allowed]: [more] attempts remain.
    It ends the run, or falls through with the last rejection. *)
Fixpoint attempts (inputs : FastTriageInputs) (selected : SelectedFastRoute)
    (evidence_block : string) (attempt more : nat)
    (correction_category : option FastTriageFailureCategory)
    (categories : list FastTriageFailureCategory) (st : RouteState) :
    (FastTriageRouteOutcome + list FastTriageFailureCategory) * RouteState :=
  match more with
  | O => (inr categories, st)
  | S more =>
      let first := bool_decide (attempt = 0%nat) in
      let packet := fi_packet inputs in
      let stage := if first then StagePrimary else StageCorrection in
      let messages := fast_triage_messages json_to_string (fi_user_text inputs) packet evidence_block
                        (if first then None else correction_category) in
      let st := if first then st else set_run (use_correction correction_category (rs_run st)) st in
      let '(result, st) := run_attempt (flat_plan (fbud_deadline_ms (fi_budget inputs)))
        PrimaryBackend packet messages stage (sel_role selected) st in
      let finish := finish inputs selected (rs_run st) in
      match result with
      | ResAccepted envelope =>
          (inl (OutVerified envelope (render_answer_markdown is_alphanumeric envelope)
                  (finish (if first then VerifiedFastAnswer else VerifiedAfterCorrection))), st)
      | ResRejected rejected =>
          if existsb is_host_side rejected
          then (inl (OutPartial rejected (finish PartialInconclusive)), st)
          else attempts inputs selected evidence_block (S attempt) more (head rejected) rejected st
      | ResCancelled => (inl (OutCancelled (finish LabelCancelled)), st)
      | ResDeadline => (inl (OutDeadline (finish LabelDeadline)), st)
      | ResProviderFailed error => (inl (OutProviderFailed error (finish LabelProviderFailed)), st)
      end
  end.

Definition esc_account (state : FastTriageEscalationState) (fb : option FastTriageFallback)
    (packet_id : option string) : FastTriageEscalationTelemetry :=
  {| es_state := state; es_profile_id := fb_profile_id <$> fb; es_model_id := fb_model_id <$> fb;
     es_packet_id := packet_id |}.

(** After the fast lane: one attempt at a configured, authorized fallback. *)
Definition escalate (inputs : FastTriageInputs) (has_fallback_backend : bool)
    (selected : SelectedFastRoute) (evidence_block : string)
    (categories : list FastTriageFailureCategory) (st : RouteState) :
    FastTriageRouteOutcome * RouteState :=
  let packet := fi_packet inputs in
  let requested st :=
    (OutEscalationRequested packet categories
       (finish inputs selected (rs_run st) LabelEscalationRequested), st) in
  match fi_fallback inputs with
  | None => requested (set_run (set_escalation (esc_account EscNotConfigured None None) (rs_run st)) st)
  | Some fb =>
      if negb (fb_authorized fb && has_fallback_backend) then
        requested (set_run (set_escalation
          (esc_account (if fb_authorized fb then EscNotConfigured else EscNotAuthorized) (Some fb) None)
          (rs_run st)) st)
      else
        let role := {| role_profile_id := fb_profile_id fb; role_model_id := fb_model_id fb |} in
        let messages := fast_triage_messages json_to_string (fi_user_text inputs) packet evidence_block
                          (head categories) in
        let st := set_run (set_escalation (esc_account EscRequested (Some fb)
                    (Some (pkt_packet_id packet))) (rs_run st)) st in
        let '(result, st) := run_attempt (flat_plan (fbud_deadline_ms (fi_budget inputs)))
          FallbackBackend packet messages StageEscalation role st in
        let st := set_run (set_esc_state (match result with ResAccepted _ => EscSucceeded
                                          | _ => EscFailed end) (rs_run st)) st in
        let finish := finish inputs selected (rs_run st) in
        (match result with
         | ResAccepted envelope =>
             OutVerified envelope (render_answer_markdown is_alphanumeric envelope) (finish VerifiedAfterEscalation)
         | ResRejected rejected => OutPartial rejected (finish PartialInconclusive)
         | ResCancelled => OutCancelled (finish LabelCancelled)
         | ResDeadline => OutDeadline (finish LabelDeadline)
         | ResProviderFailed error => OutProviderFailed error (finish LabelProviderFailed)
         end, st)
  end.

Definition request_of (inputs : FastTriageInputs) : FastTriageRouteRequest :=
  {| req_enabled := fi_enabled inputs; req_profile_id := fi_profile_id inputs;
     req_model_id := fi_model_id inputs;
     req_workflow_contract := HostGroundedSynthesisCompletePacket;
     req_contract_fingerprint := fast_triage_contract_fingerprint |}.

Definition run_fast_triage_route (has_fallback_backend : bool) (inputs : FastTriageInputs)
    (w : World) : FastTriageRouteOutcome * RouteState :=
  let st := {| rs_world := w; rs_run := no_run; rs_events := []; rs_calls := [] |} in
  let packet := fi_packet inputs in
  match select_fast_triage_route (fi_records inputs) (request_of inputs) with
  | NotSelected rejection =>
      (OutNotSelected rejection
         (not_selected_telemetry rejection HostGroundedSynthesisCompletePacket
            fast_triage_contract_fingerprint (fbud_deadline_ms (fi_budget inputs))), st)
  | Selected selected =>
      let finish run := finish inputs selected run in
      if is_some_and (fi_expected_packet_id inputs)
           (λ expected, negb (bool_decide (expected = pkt_packet_id packet))) then
        let run := set_categories [PacketIdentityChanged] (rs_run st) in
        (OutPartial [PacketIdentityChanged] (finish run PartialInconclusive), set_run run st)
      else if cancel_flag w then (OutCancelled (finish (rs_run st) LabelCancelled), st)
      else
        let evidence_block := fast_triage_evidence_block (boundary_nonce w) packet in
        let initial := fast_triage_messages json_to_string (fi_user_text inputs) packet evidence_block None in
        if synthesis_packing_budget (fbud_context_char_budget (fi_budget inputs)) <?
           estimate_context_chars initial then
          let t := finish (rs_run st) LabelNotSelected in
          (OutNotSelected PacketExceedsContextBudget
             {| tm_schema := tm_schema t; tm_route_selected := false;
                tm_selection_rejection := Some PacketExceedsContextBudget;
                tm_workflow_contract := tm_workflow_contract t;
                tm_contract_fingerprint := tm_contract_fingerprint t; tm_role := tm_role t;
                tm_packet := tm_packet t; tm_attempts := tm_attempts t;
                tm_provider_attempts := tm_provider_attempts t;
                tm_correction_used := tm_correction_used t;
                tm_correction_category := tm_correction_category t;
                tm_validation_categories := tm_validation_categories t;
                tm_escalation := tm_escalation t; tm_deadline_ms := tm_deadline_ms t;
                tm_outcome := tm_outcome t |}, st)
        else
          match attempts inputs selected evidence_block 0
                  (S (Z.to_nat (effective_corrections (fi_budget inputs)))) None [] st with
          | (inl outcome, st) => (outcome, st)
          | (inr categories, st) =>
              escalate inputs has_fallback_backend selected evidence_block categories st
          end
  end.

(** ** What an attempt adds *)

(** [extends nonce inputs b stages st st']: the attempts of [stages] ran against
    backend [b], each of them handing over at most one call, with the messages of
    this packet. *)
Definition messages_of (nonce : string) (inputs : FastTriageInputs) (m : list ChatMessage) : Prop :=
  ∃ cat, m = fast_triage_messages json_to_string (fi_user_text inputs) (fi_packet inputs)
               (fast_triage_evidence_block nonce (fi_packet inputs)) cat.
Definition extends (nonce : string) (inputs : FastTriageInputs) (b : Backend) (stages : list FastTriageStage)
    (st st' : RouteState) : Prop :=
  ∃ done calls,
    rt_attempts (rs_run st') = rt_attempts (rs_run st) ++ done ∧ at_stage <$> done = stages ∧
    rs_calls st' = rs_calls st ++ calls ∧ (length calls ≤ length stages)%nat ∧
    Forall (λ c, c.1 = b ∧ messages_of nonce inputs c.2) calls ∧
    (rt_provider_attempts (rs_run st) + zlen stages ≤ u32_max →
     rt_provider_attempts (rs_run st') = rt_provider_attempts (rs_run st) + zlen stages).

(** The telemetry that attempts only grow. *)
Definition same_progress (st st' : RouteState) : Prop :=
  rt_attempts (rs_run st') = rt_attempts (rs_run st) ∧ rs_calls st' = rs_calls st ∧
  rt_provider_attempts (rs_run st') = rt_provider_attempts (rs_run st).

Lemma extends_nil nonce inputs b st : extends nonce inputs b [] st st.
Proof.
  exists [], []. rewrite !app_nil_r. split_and!; try done. intros _. rewrite zlen_nil. lia.
Qed.

Lemma extends_trans nonce inputs b s1 s2 st1 st2 st3 :
  extends nonce inputs b s1 st1 st2 → extends nonce inputs b s2 st2 st3 → extends nonce inputs b (s1 ++ s2) st1 st3.
Proof.
  intros (d1 & c1 & Ha1 & Hs1 & Hc1 & Hl1 & Hf1 & Hp1) (d2 & c2 & Ha2 & Hs2 & Hc2 & Hl2 & Hf2 & Hp2).
  exists (d1 ++ d2), (c1 ++ c2). rewrite fmap_app, !length_app, zlen_app. split_and!.
  - by rewrite Ha2, Ha1, (assoc_L (++)).
  - by rewrite Hs1, Hs2.
  - by rewrite Hc2, Hc1, (assoc_L (++)).
  - lia.
  - by apply Forall_app.
  - pose proof (zlen_nonneg s1). pose proof (zlen_nonneg s2). intros ?.
    rewrite Hp2; rewrite Hp1; lia.
Qed.

Lemma extends_start nonce inputs b stages st0 st st' :
  same_progress st0 st → extends nonce inputs b stages st st' → extends nonce inputs b stages st0 st'.
Proof. unfold extends. by intros (-> & -> & ->). Qed.
Lemma extends_end nonce inputs b stages st st1 st' :
  extends nonce inputs b stages st st1 → same_progress st1 st' → extends nonce inputs b stages st st'.
Proof. unfold extends. by intros H1 (-> & -> & ->). Qed.

Lemma judge_accepts packet terminal envelope :
  judge packet terminal = inl envelope →
  ∃ object, te_typed_object terminal = Some object ∧
    validate_fast_answer from_str object packet = FastAccepted envelope ∨
  te_typed_object terminal = None ∧ object = EmptyString ∧
    validate_fast_answer from_str object packet = FastAccepted envelope.
Proof.
  unfold judge. destruct (te_state terminal); try done.
  destruct (te_typed_object terminal) as [obj|]; cbn [unwrap_or];
    [exists obj|exists EmptyString]; [left|right]; destruct (validate_fast_answer _ _ _); try done;
    destruct (negb _); naive_solver.
Qed.

Lemma run_attempt_extends nonce inputs plan b m stage role st :
  messages_of nonce inputs m →
  let '(result, st') := run_attempt plan b (fi_packet inputs) m stage role st in
  extends nonce inputs b [stage] st st' ∧
  match result with
  | ResAccepted envelope =>
      rs_calls st' = rs_calls st ++ [(b, m)] ∧
      ∃ object, validate_fast_answer from_str object (fi_packet inputs) = FastAccepted envelope
  | ResRejected categories => rt_validation_categories (rs_run st') = categories
  | _ => True
  end.
Proof.
  intros Hm. unfold run_attempt.
  destruct (within_turn_deadline plan b m (rs_world st)) as [[w issued] awaited] eqn:Ew.
  assert (∀ terminal outcome categories,
    extends nonce inputs b [stage] st (close_attempt (fi_packet inputs) stage role terminal outcome categories
      {| rs_world := w; rs_run := count_attempt (rs_run st);
         rs_events := rs_events st ++ [stage_event (fi_packet inputs) stage None (rs_run st)];
         rs_calls := if issued then rs_calls st ++ [(b, m)] else rs_calls st |})) as Hclose.
  { intros terminal outcome categories. eexists [_], (if issued then [(b, m)] else []). cbn.
    split_and!; [done|done|by destruct issued; rewrite ?app_nil_r|by destruct issued; cbn; lia| |].
    - destruct issued; repeat constructor; done.
    - intros ?. unfold saturating_add. rewrite zlen_cons, zlen_nil in *. lia. }
  destruct awaited as [[completion|error] fragments| |]; [..|done|done].
  - destruct (judge _ _) as [envelope|categories] eqn:Ej; [|split; [apply Hclose|done]].
    split; [apply Hclose|]. split.
    + cbn. unfold within_turn_deadline in Ew. repeat case_match; by simplify_eq.
    + apply judge_accepts in Ej as (object & [(? & ?)|(? & ? & ?)]); eauto.
  - destruct (cancel_flag w); (split; [apply Hclose|done]).
Qed.

(** Attempts, their count and the calls stay in step. *)
Lemma extends_summary nonce inputs b stages st st' :
  extends nonce inputs b stages st st' →
  rt_provider_attempts (rs_run st) = zlen (rt_attempts (rs_run st)) →
  zlen (rs_calls st) ≤ zlen (rt_attempts (rs_run st)) →
  Forall (λ c, messages_of nonce inputs c.2) (rs_calls st) →
  zlen (rt_attempts (rs_run st)) + zlen stages ≤ u32_max →
  at_stage <$> rt_attempts (rs_run st') = (at_stage <$> rt_attempts (rs_run st)) ++ stages ∧
  rt_provider_attempts (rs_run st') = zlen (rt_attempts (rs_run st')) ∧
  zlen (rs_calls st') ≤ rt_provider_attempts (rs_run st') ∧
  Forall (λ c, messages_of nonce inputs c.2 ∧ (c ∈ rs_calls st ∨ c.1 = b)) (rs_calls st').
Proof.
  intros (done & calls & -> & <- & -> & Hl & Hf & Hp) Hcount Hcalls Hold Hmax.
  rewrite Hcount in Hp. rewrite Hp by done. rewrite fmap_app, !zlen_app. unfold zlen in *.
  rewrite length_fmap in *. split_and!; [done|lia|lia|]. apply Forall_app. split.
  - apply Forall_forall. intros c Hc. rewrite Forall_forall in Hold. auto.
  - eapply Forall_impl; [exact Hf|]. intros c [? ?]. auto.
Qed.

Definition stages_from (attempt k : nat) : list FastTriageStage :=
  match attempt, k with
  | O, S k => StagePrimary :: replicate k StageCorrection
  | _, k => replicate k StageCorrection
  end.

(** The outcome reports the run it ends, and claims a verified answer only for
    one the host validated. *)
Definition reports (inputs : FastTriageInputs) (o : FastTriageRouteOutcome) (st : RouteState) : Prop :=
  tm_attempts (outcome_telemetry o) = rt_attempts (rs_run st) ∧
  tm_provider_attempts (outcome_telemetry o) = rt_provider_attempts (rs_run st) ∧
  match o with
  | OutVerified envelope content t =>
      content = render_answer_markdown is_alphanumeric envelope ∧ is_verified (tm_outcome t) = true ∧
      rs_calls st ≠ [] ∧
      ∃ object, validate_fast_answer from_str object (fi_packet inputs) = FastAccepted envelope
  | o => is_verified (tm_outcome (outcome_telemetry o)) = false
  end.

Lemma attempts_spec nonce inputs selected attempt more cat categories st :
  let '(r, st') := attempts inputs selected (fast_triage_evidence_block nonce (fi_packet inputs))
                     attempt more cat categories st in
  (∃ k, (k ≤ more)%nat ∧ extends nonce inputs PrimaryBackend (stages_from attempt k) st st' ∧
        (more ≠ 0%nat → k ≠ 0%nat)) ∧
  match r with inl o => reports inputs o st' | inr _ => True end.
Proof.
  revert attempt cat categories st. induction more as [|more IH]; intros attempt cat categories st.
  { cbn. split; [|done]. exists 0%nat. split_and!; [done|destruct attempt; apply extends_nil|done]. }
  cbn [attempts]. set (first := bool_decide (attempt = 0%nat)).
  set (st0 := if first then st else _).
  assert (same_progress st st0) as Hsame by (subst st0; by destruct first).
  set (m := fast_triage_messages _ _ _ _ _). set (stage := if first then StagePrimary else StageCorrection).
  assert (messages_of nonce inputs m) as Hm by (by eexists).
  assert (stages_from attempt 1 = [stage]) as Hs1 by (subst stage first; by destruct attempt).
  pose proof (run_attempt_extends nonce inputs (flat_plan (fbud_deadline_ms (fi_budget inputs))) PrimaryBackend m
    stage (sel_role selected) st0 Hm) as Hrun.
  destruct (run_attempt _ _ _ _ _ _ st0) as [result st1]. destruct Hrun as [Hext Hres].
  apply (extends_start _ _ _ _ st) in Hext; [|done].
  assert (∃ k, (k ≤ S more)%nat ∧ extends nonce inputs PrimaryBackend (stages_from attempt k) st st1 ∧
    (S more ≠ 0%nat → k ≠ 0%nat)) as Hone.
  { exists 1%nat. rewrite Hs1. split_and!; [lia|done|done]. }
  destruct result as [envelope|rejected| | |error]; [..|done|done|done].
  - destruct Hres as [Hcalls Hobj]. split; [done|].
    split_and!; [done..|by destruct first|rewrite Hcalls; by destruct (rs_calls st0)|done].
  - destruct (existsb is_host_side rejected); [done|].
    specialize (IH (S attempt) (head rejected) rejected st1).
    destruct (attempts _ _ _ _ more _ _ st1) as [r st']. destruct IH as [(k & Hk & Hext' & _) Hr].
    split; [|done]. exists (S k). split_and!; [lia| |done].
    replace (stages_from attempt (S k)) with ([stage] ++ stages_from (S attempt) k)
      by (subst stage first; by destruct attempt).
    by eapply extends_trans.
Qed.

Lemma escalate_spec nonce inputs hb selected categories st :
  let '(o, st') := escalate inputs hb selected (fast_triage_evidence_block nonce (fi_packet inputs))
                     categories st in
  reports inputs o st' ∧
  (same_progress st st' ∨
   extends nonce inputs FallbackBackend [StageEscalation] st st' ∧ hb = true ∧
   ∃ fb, fi_fallback inputs = Some fb ∧ fb_authorized fb = true).
Proof.
  unfold escalate. destruct (fi_fallback inputs) as [fb|]; [|by repeat split; left].
  destruct (fb_authorized fb) eqn:Ha, hb; cbn [andb negb]; try by repeat split; left.
  set (st0 := set_run _ st). set (m := fast_triage_messages _ _ _ _ _).
  assert (same_progress st st0) as Hsame by done.
  assert (messages_of nonce inputs m) as Hm by (by eexists).
  pose proof (run_attempt_extends nonce inputs (flat_plan (fbud_deadline_ms (fi_budget inputs))) FallbackBackend m
    StageEscalation {| role_profile_id := fb_profile_id fb; role_model_id := fb_model_id fb |} st0 Hm) as Hrun.
  destruct (run_attempt _ _ _ _ _ _ st0) as [result st1]. destruct Hrun as [Hext Hres].
  apply (extends_start _ _ _ _ st) in Hext; [|done]. split.
  - destruct result as [envelope|rejected| | |error]; try done.
    destruct Hres as [Hcalls Hobj].
    split_and!; [done..|cbn; rewrite Hcalls; by destruct (rs_calls st0)|done].
  - right. split; [by eapply extends_end|]. eauto.
Qed.
End route.

(** ** The stream *)

Lemma push_chars_within s cs :
  bs_exceeded s = false → bs_chars s + zlen cs ≤ FAST_TRIAGE_RESPONSE_CHAR_CAP →
  push_chars s cs = {| bs_text := bs_text s ++ concat cs; bs_chars := bs_chars s + zlen cs;
                       bs_exceeded := false |}.
Proof.
  revert s. induction cs as [|c cs IH]; intros [text n e] He Hle; cbn in *.
  { subst. rewrite app_nil_r. f_equal. unfold zlen. cbn. lia. }
  rewrite zlen_cons in *. pose proof (zlen_nonneg cs). rewrite (proj2 (Z.leb_gt _ _)) by lia.
  rewrite IH by (cbn; done || lia). cbn. rewrite <-(assoc_L (++)). f_equal. lia.
Qed.

Lemma push_chars_over s cs :
  bs_chars s ≤ FAST_TRIAGE_RESPONSE_CHAR_CAP →
  FAST_TRIAGE_RESPONSE_CHAR_CAP < bs_chars s + zlen cs → bs_exceeded (push_chars s cs) = true.
Proof.
  revert s. induction cs as [|c cs IH]; intros s Hs Hlt; cbn [push_chars].
  { unfold zlen in Hlt. cbn in Hlt. lia. }
  rewrite zlen_cons in Hlt. destruct (Z.leb_spec FAST_TRIAGE_RESPONSE_CHAR_CAP (bs_chars s)); [done|].
  apply IH; cbn; lia.
Qed.

Lemma stream_exceeded s fragments : bs_exceeded s = true → bs_exceeded (foldl stream_push s fragments) = true.
Proof.
  intros Hs. apply (foldl_inv (λ s, bs_exceeded s = true)); [|done]. intros t f Ht.
  unfold stream_push. by rewrite Ht.
Qed.

Definition fragment_chars (fragments : list string) : Z :=
  zlen (fragments ≫= λ f, chars_of (bytes f)).

Lemma stream_foldl s fragments :
  bs_exceeded s = false → bs_chars s ≤ FAST_TRIAGE_RESPONSE_CHAR_CAP →
  stream_take (foldl stream_push s fragments) =
  if bs_chars s + fragment_chars fragments <=? FAST_TRIAGE_RESPONSE_CHAR_CAP
  then of_bytes (bs_text s ++ concat (bytes <$> fragments)) else EmptyString.
Proof.
  revert s. induction fragments as [|f fragments IH]; intros s He Hs.
  { unfold fragment_chars, zlen. cbn. rewrite Z.add_0_r, (proj2 (Z.leb_le _ _)) by done.
    unfold stream_take. by rewrite He, app_nil_r. }
  cbn [foldl]. unfold fragment_chars in *. rewrite bind_cons, zlen_app.
  set (cs := chars_of (bytes f)). pose proof (zlen_nonneg (fragments ≫= λ f, chars_of (bytes f))).
  assert (stream_push s f = push_chars s cs) as Hpush by (unfold stream_push; by rewrite He).
  destruct (decide (bs_chars s + zlen cs ≤ FAST_TRIAGE_RESPONSE_CHAR_CAP)) as [Hle|Hgt].
  - rewrite Hpush, push_chars_within, IH by done. cbn. unfold cs at 2. rewrite chars_of_concat.
    by rewrite <-(assoc_L (++)), Z.add_assoc.
  - rewrite (proj2 (Z.leb_gt _ _)) by lia. unfold stream_take.
    by rewrite stream_exceeded by (rewrite Hpush; apply push_chars_over; lia).
Qed.

(** ** Claims *)

(** The stream of one attempt is kept whole or not at all: up to 32,000
    characters the accumulated text is exactly the concatenation of the streamed
    fragments, and beyond that it is empty, never a truncated prefix. *)
Theorem streamed_text_is_all_or_nothing fragments :
  stream_take (foldl stream_push stream_new fragments) =
  if fragment_chars fragments <=? FAST_TRIAGE_RESPONSE_CHAR_CAP
  then of_bytes (concat (bytes <$> fragments)) else EmptyString.
Proof. by rewrite stream_foldl. Qed.

(** C6. The route is finite and cannot change gateway on its own: it makes at most
    one primary attempt, one correction (only when the budget allows one) and one
    escalation, in this order; the fallback is called only when it is configured,
    authorized and handed over; every call carries the messages built from the one
    unchanged packet and evidence block; the telemetry lists exactly the attempts,
    counts each of them, and no call goes uncounted. *)
Theorem fast_route_is_bounded_and_authorized `{FastWorld Backend, FastHost} from_str hb inputs w :
  let '(o, st) := run_fast_triage_route from_str hb inputs w in
  let t := outcome_telemetry o in
  ∃ primary correction escalation : bool,
    at_stage <$> tm_attempts t =
      (if primary then [StagePrimary] else []) ++ (if correction then [StageCorrection] else []) ++
      (if escalation then [StageEscalation] else []) ∧
    (correction = true → primary = true ∧ 1 ≤ fbud_max_corrections (fi_budget inputs)) ∧
    (escalation = true → hb = true ∧
       ∃ fb, fi_fallback inputs = Some fb ∧ fb_authorized fb = true) ∧
    tm_provider_attempts t = zlen (tm_attempts t) ∧
    zlen (rs_calls st) ≤ tm_provider_attempts t ∧
    Forall (λ c, messages_of (boundary_nonce w) inputs c.2 ∧ (c.1 = FallbackBackend → escalation = true)) (rs_calls st).
Proof.
  unfold run_fast_triage_route.
  destruct (select_fast_triage_route _ _) as [selected|]; [|by exists false, false, false].
  destruct (is_some_and _ _); [by exists false, false, false|].
  destruct (cancel_flag w); [by exists false, false, false|].
  destruct (_ <? _); [by exists false, false, false|].
  set (st0 := {| rs_world := w; rs_run := no_run; rs_events := []; rs_calls := [] |}).
  set (n := S (Z.to_nat _)).
  pose proof (attempts_spec from_str (boundary_nonce w) inputs selected 0 n None [] st0) as Ha.
  destruct (attempts _ _ _ _ _ _ _ _ st0) as [r st]. destruct Ha as [(k & Hk & Hext & Hk0) Hr].
  assert (k ≠ 0%nat ∧ (k ≤ 2)%nat ∧ (k = 2%nat → 1 ≤ fbud_max_corrections (fi_budget inputs))) as (Hk1 & Hk2 & Hk3).
  { unfold n, effective_corrections, FAST_TRIAGE_MAX_CORRECTIONS in *. split_and!; [by apply Hk0|lia|lia]. }
  assert (stages_from 0 k =
    [StagePrimary] ++ (if bool_decide (k = 2%nat) then [StageCorrection] else [])) as Hst
    by (destruct k as [|[|[|k]]]; done || lia). rewrite Hst in Hext.
  destruct (extends_summary _ _ _ _ _ _ Hext) as (Hs1 & Hp1 & Hc1 & Hf1);
    [done|done|constructor|case_bool_decide; vm_compute; congruence|].
  assert (∀ b, Forall (λ c, messages_of (boundary_nonce w) inputs c.2 ∧ (c.1 = FallbackBackend → b = true)) (rs_calls st)) as Hprim.
  { intros b. eapply Forall_impl; [exact Hf1|]. intros c [? [Hin|Hb]]; [by apply not_elem_of_nil in Hin|].
    split; [done|]. by rewrite Hb. }
  destruct r as [o|categories].
  - destruct Hr as (-> & -> & _). exists true, (bool_decide (k = 2%nat)), false.
    split_and!; [by rewrite Hs1, app_nil_r|by intros ?%bool_decide_eq_true; auto|done..].
  - pose proof (escalate_spec from_str (boundary_nonce w) inputs hb selected categories st) as He.
    destruct (escalate _ _ _ _ _ _ st) as [o st']. destruct He as [(-> & -> & _) [Hsame|(Hext' & -> & Hfb)]].
    + destruct Hsame as (-> & -> & ->). exists true, (bool_decide (k = 2%nat)), false.
      split_and!; [by rewrite Hs1, app_nil_r|by intros ?%bool_decide_eq_true; auto|done..].
    + destruct (extends_summary _ _ _ _ _ _ Hext') as (Hs2 & Hp2 & Hc2 & Hf2);
        [done|lia|eapply Forall_impl; [exact Hf1|by intros c [? _]]| |].
      { apply (f_equal length) in Hs1. rewrite length_fmap in Hs1. unfold zlen. rewrite Hs1.
        case_bool_decide; vm_compute; congruence. }
      exists true, (bool_decide (k = 2%nat)), true.
      split_and!; [by rewrite Hs2, Hs1, (assoc_L (++))|by intros ?%bool_decide_eq_true; auto|done..|].
      eapply Forall_impl; [exact Hf2|]. by intros c [? _].
Qed.

(** C5. An answer leaves the route as verified only when the host validated it: the
    envelope is the one the validator accepted for this packet, at least one call
    was made, the displayed text is its projection, and the telemetry label says
    verified in this case and in no other. *)
Theorem verified_fast_answers_are_host_validated `{FastWorld Backend, FastHost} from_str hb inputs w :
  let '(o, st) := run_fast_triage_route from_str hb inputs w in
  match o with
  | OutVerified envelope content t =>
      content = render_answer_markdown is_alphanumeric envelope ∧ is_verified (tm_outcome t) = true ∧
      rs_calls st ≠ [] ∧
      ∃ object, validate_fast_answer from_str object (fi_packet inputs) = FastAccepted envelope
  | o => is_verified (tm_outcome (outcome_telemetry o)) = false
  end.
Proof.
  unfold run_fast_triage_route. destruct (select_fast_triage_route _ _) as [selected|]; [|done].
  destruct (is_some_and _ _); [done|]. destruct (cancel_flag w); [done|]. destruct (_ <? _); [done|].
  set (st0 := {| rs_world := w; rs_run := no_run; rs_events := []; rs_calls := [] |}).
  pose proof (attempts_spec from_str (boundary_nonce w) inputs selected 0
    (S (Z.to_nat (effective_corrections (fi_budget inputs)))) None [] st0) as Ha.
  destruct (attempts _ _ _ _ _ _ _ _ st0) as [[o|categories] st]; destruct Ha as [_ Hr]; [by destruct Hr as (_ & _ & ?)|].
  pose proof (escalate_spec from_str (boundary_nonce w) inputs hb selected categories st) as He.
  destruct (escalate _ _ _ _ _ _ st) as [o st']. by destruct He as [(_ & _ & ?) _].
Qed.

(** Nothing leaves the host without authority: when the exact evidence does not
    select the route, when the packet is not the one the host captured, when the
    turn is already cancelled, or when the complete packet does not fit, no call is
    handed to any transport, no stage is announced, and the outcome says why. *)
Theorem unauthorized_fast_route_is_silent `{FastWorld Backend, FastHost} from_str hb inputs w :
  (∃ rejection, select_fast_triage_route (fi_records inputs) (request_of inputs) = NotSelected rejection) ∨
  (∃ expected, fi_expected_packet_id inputs = Some expected ∧
               expected ≠ pkt_packet_id (fi_packet inputs)) ∨
  cancel_flag w = true ∨
  synthesis_packing_budget (fbud_context_char_budget (fi_budget inputs)) <
    estimate_context_chars (fast_triage_messages json_to_string (fi_user_text inputs) (fi_packet inputs)
      (fast_triage_evidence_block (boundary_nonce w) (fi_packet inputs)) None) →
  let '(o, st) := run_fast_triage_route from_str hb inputs w in
  rs_calls st = [] ∧ rs_events st = [] ∧ rs_world st = w ∧
  tm_provider_attempts (outcome_telemetry o) = 0 ∧
  match o with
  | OutNotSelected _ _ | OutCancelled _ => True
  | OutPartial categories _ => categories = [PacketIdentityChanged]
  | _ => False
  end.
Proof.
  intros Hcase. unfold run_fast_triage_route.
  destruct (select_fast_triage_route _ _) as [selected|rejection]; [|done].
  destruct (fi_expected_packet_id inputs) as [expected|]; cbn [is_some_and].
  - case_bool_decide; cbn [negb]; [|done]. destruct (cancel_flag w) eqn:Hc; [done|].
    rewrite (proj2 (Z.ltb_lt _ _)); [done|]. destruct Hcase as [[? ?]|[(? & [= <-] & ?)|[?|?]]]; done.
  - destruct (cancel_flag w) eqn:Hc; [done|].
    rewrite (proj2 (Z.ltb_lt _ _)); [done|]. destruct Hcase as [[? ?]|[(? & ? & ?)|[?|?]]]; done.
Qed.

(** A valid first answer is delivered: when the evidence selects the route, the
    packet is current and fits, the turn is neither cancelled nor out of time, and
    the primary model completes with a terminal the host accepts, the route returns
    that answer after exactly one attempt, whatever fallback is configured. *)
Theorem a_valid_first_answer_is_delivered `{FastWorld Backend, FastHost} from_str hb inputs w selected w' fragments completion envelope :
  let m := fast_triage_messages json_to_string (fi_user_text inputs) (fi_packet inputs)
             (fast_triage_evidence_block (boundary_nonce w) (fi_packet inputs)) None in
  let remaining := remaining_for_operation (flat_plan (fbud_deadline_ms (fi_budget inputs))) w in
  select_fast_triage_route (fi_records inputs) (request_of inputs) = Selected selected →
  fi_expected_packet_id inputs = Some (pkt_packet_id (fi_packet inputs)) →
  cancel_flag w = false → remaining ≠ Some 0 →
  estimate_context_chars m ≤ synthesis_packing_budget (fbud_context_char_budget (fi_budget inputs)) →
  complete_streaming PrimaryBackend m remaining w = (w', fragments, Answered (Ok completion)) →
  judge from_str (fi_packet inputs)
    (terminal_parse completion (stream_take (foldl stream_push stream_new fragments))) = inl envelope →
  let '(o, st) := run_fast_triage_route from_str hb inputs w in
  rs_calls st = [(PrimaryBackend, m)] ∧ rs_world st = w' ∧
  ∃ t, o = OutVerified envelope (render_answer_markdown is_alphanumeric envelope) t ∧
       tm_outcome t = VerifiedFastAnswer ∧ tm_provider_attempts t = 1.
Proof.
  intros m remaining Hsel Hid Hc Hrem Hfit Hcall Hj. unfold run_fast_triage_route.
  rewrite Hsel, Hid. cbn [is_some_and]. rewrite bool_decide_eq_true_2 by done. cbn [negb].
  rewrite Hc. fold m. rewrite (proj2 (Z.ltb_ge _ _)) by done. cbn [attempts].
  rewrite bool_decide_eq_true_2 by done. fold m. unfold run_attempt, within_turn_deadline. cbn [rs_world].
  rewrite Hc. fold remaining.
  assert (is_some_and remaining (λ r, r =? 0) = false) as ->.
  { apply is_some_and_false. intros r E. apply Z.eqb_neq. intros ->. done. }
  rewrite Hcall, Hj. split_and!; [done..|]. eexists. done.
Qed.

(** ** A scripted outside *)

Module RouteDemo.
Definition script (w : list (CallEnd unit)) (limit : option Z) : list (CallEnd unit) * list string * CallEnd unit :=
  match w, limit with
  | TimedOut :: r, None => (r, [], CancelSeen)
  | e :: r, _ => (r, [], e)
  | [], _ => ([], [], CancelSeen)
  end.
Lemma script_limit w : (script w None).2 ≠ TimedOut.
Proof. by destruct w as [|[] r]. Qed.
(** The elapsed time is fixed, the calls end as scripted. *)
Definition world (elapsed : Z) : FastWorld Backend :=
  {| World := list (CallEnd unit); CoreError := unit;
     cancel_flag _ := false; elapsed_ns _ := elapsed; boundary_nonce _ := demo_nonce;
     complete_streaming _ _ limit w := script w limit;
     no_timeout_without_limit _ _ w := script_limit w |}.
Definition host : FastHost :=
  {| fh_sha2 := AnswerDemo.sha2; json_to_string _ := "{}"; is_alphanumeric _ := true |}.
Definition fingerprint : string := @fast_triage_contract_fingerprint AnswerDemo.sha2.
Definition inputs (enabled : bool) (deadline : Z) : FastTriageInputs :=
  {| fi_user_text := "why"; fi_packet := ValidateDemo.packet;
     fi_expected_packet_id := Some (pkt_packet_id ValidateDemo.packet); fi_enabled := enabled;
     fi_records := [{| rec_profile_id := "p"; rec_model_id := "m";
                       rec_workflow_contract := HostGroundedSynthesisCompletePacket;
                       rec_verdict := Qualified; rec_contract_fingerprint := fingerprint |}];
     fi_profile_id := Some "p"; fi_model_id := Some "m"; fi_fallback := None;
     fi_budget := {| fbud_deadline_ms := deadline; fbud_context_char_budget := 120000;
                     fbud_max_corrections := 1 |} |}.
Definition completion (content : string) : ChatCompletion :=
  {| cc_content := content; cc_tool_calls := []; cc_finish_reason := "stop" |}.
Definition selected : SelectedFastRoute :=
  {| sel_role := {| role_profile_id := "p"; role_model_id := "m" |};
     sel_workflow_contract := HostGroundedSynthesisCompletePacket; sel_contract_fingerprint := fingerprint |}.
Definition run (elapsed deadline : Z) (w : list (CallEnd unit)) :=
  @run_fast_triage_route (world elapsed) host AnswerDemo.from_str false (inputs true deadline) w.
End RouteDemo.

Lemma unauthorized_fast_route_is_silent_witness :
  rs_calls (@run_fast_triage_route (RouteDemo.world 0) RouteDemo.host AnswerDemo.from_str true
    (RouteDemo.inputs false 0) []).2 = [].
Proof.
  refine (proj1 (@unauthorized_fast_route_is_silent (RouteDemo.world 0) RouteDemo.host
    AnswerDemo.from_str true (RouteDemo.inputs false 0) [] _)).
  left. exists RouteDisabled. vm_compute. reflexivity.
Defined.

Lemma a_valid_first_answer_is_delivered_witness :
  rs_calls (@run_fast_triage_route (RouteDemo.world 0) RouteDemo.host AnswerDemo.from_str false
    (RouteDemo.inputs true 1000) [Answered (Ok (RouteDemo.completion "{}"))]).2 =
  [(PrimaryBackend, fast_triage_messages (λ _, "{}") "why" ValidateDemo.packet
     (fast_triage_evidence_block demo_nonce ValidateDemo.packet) None)].
Proof.
  refine (proj1 (@a_valid_first_answer_is_delivered (RouteDemo.world 0) RouteDemo.host
    AnswerDemo.from_str false (RouteDemo.inputs true 1000)
    [Answered (Ok (RouteDemo.completion "{}"))] RouteDemo.selected [] []
    (RouteDemo.completion "{}") (answer_of ValidateDemo.two_causes AnswerDemo.proposal)
    _ _ _ _ _ _ _)).
  - vm_compute. reflexivity.
  - reflexivity.
  - reflexivity.
  - vm_compute. congruence.
  - vm_compute. congruence.
  - reflexivity.
  - vm_compute. reflexivity.
Defined.

(** The telemetry can lose the reason of a rejection: after a rejected primary
    attempt whose correction then fails at the provider, the run's validation
    categories are empty, although they are described as the categories of the
    final rejected attempt. *)
Theorem telemetry_forgets_the_final_rejection :
  ∃ (world : FastWorld Backend) (host : FastHost) from_str hb inputs w,
    let '(o, st) := run_fast_triage_route from_str hb inputs w in
    tm_validation_categories (outcome_telemetry o) = [] ∧
    ∃ a, a ∈ tm_attempts (outcome_telemetry o) ∧ at_outcome a = AttemptRejected ∧
         at_categories a = [MalformedTerminal].
Proof.
  exists (RouteDemo.world 0), RouteDemo.host, AnswerDemo.from_str, false,
    (RouteDemo.inputs true 0), [Answered (Ok (RouteDemo.completion "prose")); Answered (Err ())].
  vm_compute. split; [reflexivity|]. eexists. split; [by left|]. done.
Qed.

(** An attempt can be counted although nothing was sent: when the deadline has
    passed before the first attempt, the run reports one provider attempt while no
    call was handed to a transport. *)
Theorem expired_attempt_is_counted_but_not_sent :
  ∃ (world : FastWorld Backend) (host : FastHost) from_str hb inputs w,
    let '(o, st) := run_fast_triage_route from_str hb inputs w in
    rs_calls st = [] ∧ tm_provider_attempts (outcome_telemetry o) = 1 ∧
    tm_outcome (outcome_telemetry o) = LabelDeadline.
Proof.
  exists (RouteDemo.world 2000000000), RouteDemo.host, AnswerDemo.from_str, false,
    (RouteDemo.inputs true 1000), [].
  vm_compute. done.
Qed.
