(* ===== verification/Redact.v ===== *)
(** * Secret scrubbing

    [redact_candidate] and [scrub_secrets] of [crates/cd-core/src/redact.rs], pass
    by pass, over the UTF-8 bytes of the text. Every scanner of the source looks
    for a marker from a position that only moves forward, so a pass is a function
    of the bytes not yet looked at. Slicing a [str] at a position that is not a
    character boundary panics: the one pass that can do so returns an [option]. The
    Unicode table behind [char::is_alphanumeric] is a parameter. *)
From Stdlib Require Import ZArith Lia Ascii String.
From stdpp Require Import base tactics option list list_numbers sets strings.
From S2P Require Import Prelude RustStr.

Local Open Scope string_scope.
Local Open Scope list_scope.

(** A pass: the text afterwards, and whether it redacted anything. *)
Definition Pass := (list ascii * bool)%type.

(** ** Bytes *)

Definition is_upper_or_digit (c : ascii) : bool := in_range 65 90 c || is_ascii_digit c.
Definition is_ascii_alphabetic (c : ascii) : bool := in_range 65 90 c || in_range 97 122 c.
Definition one_of (s : string) (c : ascii) : bool := bool_decide (c ∈ bytes s).
Definition key_char (c : ascii) : bool := is_ascii_alphanumeric c || one_of "-_" c.
Definition bearer_char (c : ascii) : bool := is_ascii_alphanumeric c || one_of "-_." c.
Definition github_char (c : ascii) : bool := is_ascii_alphanumeric c || one_of "_" c.
Definition aws_char (c : ascii) : bool := is_ascii_alphanumeric c || one_of "/+=" c.
Definition jwt_char (c : ascii) : bool := is_ascii_alphanumeric c || one_of "-_." c.
(** An ampersand, a semicolon, white space, a quote or a closing parenthesis ends
    the value of a parameter. *)
Definition value_end (c : ascii) : bool :=
  bool_decide (c ∈ ["038"; "059"; "032"; "009"; "010"; "013"; "034"; "039"; "041"]%char).

(** [text.find(key)] in the lowercased text, cut out of the original: the bytes
    before, the bytes of the key as written, and the bytes after. *)
Definition split_ci (key s : list ascii) : option (list ascii * list ascii * list ascii) :=
  '(pre, _) ← split_once_bytes key (byte_lower <$> s);
  let at_ := drop (length pre) s in
  Some (take (length pre) s, take (length key) at_, drop (length key) at_).
Definition split_exact (key s : list ascii) : option (list ascii * list ascii * list ascii) :=
  '(pre, rest) ← split_once_bytes key s; Some (pre, key, rest).

(** ** The forward scan

    [find] locates the next marker; [act], given the marker and the bytes after
    it, says what is written for them, how many of those bytes that covers, and
    whether it is a redaction. *)
Section scan.
Context (find : list ascii → option (list ascii * list ascii * list ascii)).
Context (act : list ascii → list ascii → list ascii * nat * bool).

Fixpoint scan_go (fuel : nat) (s : list ascii) : Pass :=
  match fuel with
  | O => (s, false)
  | S fuel =>
      match find s with
      | None => (s, false)
      | Some (pre, hit, rest) =>
          let '(new, n, redacted) := act hit rest in
          let '(out, changed) := scan_go fuel (drop n rest) in
          (pre ++ new ++ out, redacted || changed)
      end
  end.
Definition scan (s : list ascii) : Pass := scan_go (S (length s)) s.
End scan.

(** Passes one after the other. *)
Definition and_then (p q : list ascii → Pass) (s : list ascii) : Pass :=
  let '(s1, c1) := p s in let '(s2, c2) := q s1 in (s2, c1 || c2).
Fixpoint passes (ps : list (list ascii → Pass)) (s : list ascii) : Pass :=
  match ps with
  | [] => (s, false)
  | p :: ps => and_then p (passes ps) s
  end.

(** ** PEM blocks *)

Definition PEM_BEGIN : list ascii := bytes "-----BEGIN ".
Definition PEM_END : list ascii := bytes "-----END ".
Definition PEM_DASHES : list ascii := bytes "-----".
Definition PEM_SPARED : list ascii := bytes "_____BEGIN ".

Fixpoint pem_go (fuel : nat) (out : list ascii) (changed : bool) : Pass :=
  match fuel with
  | O => (out, changed)
  | S fuel =>
      match split_once_bytes PEM_BEGIN out with
      | None => (out, changed)
      | Some (before, after) =>
          match split_once_bytes PEM_END (PEM_BEGIN ++ after) with
          | None => (out, changed)
          | Some (body, after_end) =>
              match split_once_bytes PEM_DASHES after_end with
              | None => (out, changed)
              | Some (label, rest) =>
                  let block := body ++ PEM_END ++ label ++ PEM_DASHES in
                  if contains_bytes (bytes "PRIVATE KEY") block
                  then pem_go fuel (before ++ bytes "[REDACTED_PEM]" ++ rest) true
                  else pem_go fuel (before ++ PEM_SPARED ++ after) changed
              end
          end
      end
  end.
Definition redact_pem (s : list ascii) : Pass :=
  let '(out, changed) := pem_go (S (length s)) s false in
  if changed then (replace_bytes PEM_SPARED PEM_BEGIN out, true) else (out, false).

(** ** JSON web tokens *)

Definition jwt_len (s : list ascii) : option nat :=
  let run := take_while jwt_char s in
  let dots := length (List.filter (one_of ".") run) in
  if bool_decide (dots = 2%nat) && bool_decide (30 ≤ length run)%nat then Some (length run) else None.
Fixpoint jwt_go (fuel : nat) (s : list ascii) : Pass :=
  match fuel, s with
  | S fuel, c :: r =>
      if bool_decide (length s ≤ 10)%nat then (s, false)
      else match (if bool_decide (bytes "eyJ" `prefix_of` s) then jwt_len s else None) with
           | Some len => let '(out, _) := jwt_go fuel (drop len s) in (bytes "[REDACTED_JWT]" ++ out, true)
           | None => let '(out, changed) := jwt_go fuel r in (c :: out, changed)
           end
  | _, _ => (s, false)
  end.
Definition redact_jwt (s : list ascii) : Pass := jwt_go (length s) s.

(** ** Keys with a fixed prefix *)

Definition AKIA : list ascii := bytes "AKIA".
Definition aws_access_act (hit rest : list ascii) : list ascii * nat * bool :=
  if bool_decide (16 ≤ length rest)%nat && forallb is_upper_or_digit (take 16 rest)
  then (bytes "AKIA[REDACTED]", 16%nat, true) else (hit, O, false).
Definition redact_aws_access_key : list ascii → Pass := scan (split_exact AKIA) aws_access_act.

Definition AWS_SECRET_KEY : list ascii := bytes "aws_secret_access_key".
(** The next search starts one byte after the key; [None] is the panic of a slice
    that splits a character. *)
Fixpoint aws_secret_go (fuel : nat) (s : list ascii) : option Pass :=
  match fuel with
  | O => Some (s, false)
  | S fuel =>
      match split_ci AWS_SECRET_KEY s with
      | None => Some (s, false)
      | Some (pre, hit, rest) =>
          let skipped := take_while (λ c, bool_decide (c ∈ [" "; "009"; "="; ":"]%char)) rest in
          let trimmed := drop (length skipped) rest in
          let tok := take_while aws_char trimmed in
          if bool_decide (30 ≤ length tok)%nat
          then Some (pre ++ hit ++ skipped ++ bytes "[REDACTED_AWS_SECRET]" ++ drop (length tok) trimmed, true)
          else match rest with
               | [] => Some (s, false)
               | c :: r =>
                   if match r with d :: _ => cont d | [] => false end then None
                   else '(out, changed) ← aws_secret_go fuel r; Some (pre ++ hit ++ c :: out, changed)
               end
      end
  end.
Definition redact_aws_secret_label (s : list ascii) : option Pass := aws_secret_go (S (length s)) s.

(** A token of at least [min] bytes after the marker is replaced. *)
Definition token_act (cls : ascii → bool) (min : nat) (repl : list ascii) (hit rest : list ascii) :
    list ascii * nat * bool :=
  let tok := take_while cls rest in
  if bool_decide (min ≤ length tok)%nat then (repl, length tok, true) else (hit, O, false).

Definition GITHUB_PREFIXES : list string := ["ghp_"; "gho_"; "ghu_"; "ghs_"; "ghr_"; "github_pat_"].
Definition redact_github_prefix (prefix : string) : list ascii → Pass :=
  scan (split_exact (bytes prefix)) (token_act github_char 20 (bytes "[REDACTED_GH_TOKEN]")).
Definition redact_github_tokens : list ascii → Pass := passes (redact_github_prefix <$> GITHUB_PREFIXES).

Definition STARS : list ascii := bytes "***".
Definition KEY_PREFIXES : list string := ["sk-"; "xai-"].
Definition redact_key_prefix (prefix : string) : list ascii → Pass :=
  scan (split_exact (bytes prefix)) (token_act key_char 8 (bytes prefix ++ STARS)).
Definition redact_prefixed_keys : list ascii → Pass := passes (redact_key_prefix <$> KEY_PREFIXES).

Definition BEARER : list ascii := bytes "Bearer ".
Definition bearer_act (hit rest : list ascii) : list ascii * nat * bool :=
  if bool_decide (STARS `prefix_of` rest) then (hit ++ STARS, 3%nat, false)
  else
    let tok := take_while bearer_char rest in
    if bool_decide (length tok = 0%nat) then (hit, O, false) else (BEARER ++ STARS, length tok, true).
Definition redact_bearer : list ascii → Pass := scan (split_exact BEARER) bearer_act.

(** ** Parameters of URLs and connection strings *)

Definition URL_KEYS : list string :=
  ["password="; "passwd="; "pwd="; "secret="; "api_key="; "apikey="; "access_token="; "client_secret="].
Definition url_act (hit rest : list ascii) : list ascii * nat * bool :=
  let value := take_while (λ c, negb (value_end c)) rest in
  if bool_decide (length value = 0%nat) then (hit, O, false) else (hit ++ STARS, length value, true).
Definition redact_url_key (key : string) : list ascii → Pass := scan (split_ci (bytes key)) url_act.
Definition redact_url_embedded_credentials : list ascii → Pass := passes (redact_url_key <$> URL_KEYS).

(** ** High-entropy tokens *)

Definition looks_high_entropy (tok : list ascii) : bool :=
  if bool_decide (length tok < 32)%nat then false
  else if negb (existsb is_ascii_digit tok && existsb is_ascii_alphabetic tok) then false
  else bool_decide (16 ≤ length (remove_dups (List.filter (λ c, (bv c <? 128)%Z) tok)))%nat.
Definition is_secret_token (tok : list ascii) : bool :=
  bool_decide (32 ≤ length tok)%nat && negb (contains_bytes (bytes "REDACTED") tok) &&
  negb (bool_decide (STARS `suffix_of` tok)) && looks_high_entropy tok.
Fixpoint entropy_go (fuel : nat) (s : list ascii) : Pass :=
  match fuel, s with
  | S fuel, c :: r =>
      if key_char c then
        let tok := take_while key_char s in
        let '(out, changed) := entropy_go fuel (drop (length tok) s) in
        if is_secret_token tok
        then (bytes "[REDACTED_SECRET]" ++ out, true) else (tok ++ out, changed)
      else let '(out, changed) := entropy_go fuel r in (c :: out, changed)
  | _, _ => (s, false)
  end.
Definition redact_high_entropy (s : list ascii) : Pass := entropy_go (length s) s.

(** ** The pipeline *)

Record RedactionResult := {
  rr_text : list ascii;
  rr_redacted : bool;
  rr_classes : list string;
  rr_blocked : bool;
  rr_block_reason : option string;
}.

Definition push_class (changed : bool) (c : string) (classes : list string) : list string :=
  if changed && negb (bool_decide (c ∈ classes)) then classes ++ [c] else classes.

(** The passes up to the bearer pass, which both pipelines share. *)
Definition credential_passes (s : list ascii) : option (list ascii * list string) :=
  let '(s, c_pem) := redact_pem s in
  let '(s, c_jwt) := redact_jwt s in
  let '(s, c_akia) := redact_aws_access_key s in
  '(s, c_aws) ← redact_aws_secret_label s;
  let '(s, c_gh) := redact_github_tokens s in
  let '(s, c_key) := redact_prefixed_keys s in
  let '(s, c_bearer) := redact_bearer s in
  Some (s, push_class c_bearer "bearer" (push_class c_key "api_key_prefix"
    (push_class c_gh "github_token" (push_class c_aws "aws_secret"
    (push_class c_akia "aws_access_key" (push_class c_jwt "jwt" (push_class c_pem "pem" []))))))).

Definition scrub_secrets_light (s : list ascii) : option (list ascii) :=
  '(s, _) ← credential_passes s; Some (redact_high_entropy s).1.

Section dominant.
Context (is_alphanumeric : list ascii → bool).

(** [w.trim_matches(|c| !c.is_alphanumeric())] *)
Fixpoint drop_chars (cs : list (list ascii)) : list (list ascii) :=
  match cs with
  | c :: r => if is_alphanumeric c then cs else drop_chars r
  | [] => []
  end.
Definition trim_word (w : string) : string :=
  of_bytes (concat (rev (drop_chars (rev (drop_chars (chars_of (bytes w))))))).

Definition is_prose (w : string) : bool :=
  let w := trim_word w in
  negb (str_len w <? 2)%Z && negb (24 <=? str_len w)%Z &&
  negb (existsb (λ p, starts_with p w) ["eyJ"; "AKIA"; "sk-"; "ghp_"; "-----"]).
Definition is_residual (w : string) : bool :=
  negb (contains "REDACTED" w) && negb (contains "***" w) && negb (bool_decide (w = "Bearer")) &&
  negb (existsb (λ p, starts_with p w) ["sk-"; "xai-"; "AKIA"]).

Definition is_credential_dominant (original : list ascii) (classes : list string) : option bool :=
  let trimmed := trim (of_bytes original) in
  if bool_decide (classes = []) || is_empty trimmed then Some false
  else
    let prose_words := length (List.filter is_prose (split_whitespace trimmed)) in
    scrubbed ← scrub_secrets_light original;
    let residual := join " " (List.filter is_residual (split_whitespace (of_bytes scrubbed))) in
    Some (is_empty (trim residual) ||
          (bool_decide ("pem" ∈ classes) && bool_decide (prose_words < 5)%nat) ||
          bool_decide (prose_words = 0%nat) || bool_decide (prose_words ≤ 1)%nat).

Definition redact_candidate (s : list ascii) : option RedactionResult :=
  '(out, classes) ← credential_passes s;
  let '(out, c_url) := redact_url_embedded_credentials out in
  let '(out, c_entropy) := redact_high_entropy out in
  let classes := push_class c_entropy "high_entropy" (push_class c_url "url_credentials" classes) in
  blocked ← is_credential_dominant s classes;
  Some {| rr_text := out; rr_redacted := negb (bool_decide (classes = [])) || blocked;
          rr_classes := classes; rr_blocked := blocked;
          rr_block_reason :=
            if blocked : bool
            then Some ("content appears credential-dominant (" +:+ join "," classes +:+ "); refuse to store")
            else None |}.

Definition scrub_secrets (s : string) : option string :=
  r ← redact_candidate (bytes s); Some (of_bytes (rr_text r)).
End dominant.

(** ** What scrubbing guarantees *)

(** [masked marker cls min s]: after no occurrence of the marker do [min] or more
    bytes of a token follow. *)
Definition masked (marker : list ascii) (cls : ascii → bool) (min : nat) (s : list ascii) : Prop :=
  ∀ a b, s = a ++ marker ++ b → (length (take_while cls b) < min)%nat.

(** The credentials with a fixed marker: marker, bytes of the token, its shortest
    length. *)
Definition KNOWN : list (string * (ascii → bool) * nat) :=
  [("AKIA", is_upper_or_digit, 16%nat)] ++ ((λ p, (p, github_char, 20%nat)) <$> GITHUB_PREFIXES) ++
  ((λ p, (p, key_char, 8%nat)) <$> KEY_PREFIXES) ++ [("Bearer ", bearer_char, 1%nat)].

(** What the passes write in the place of a secret. *)
Definition MASKS : list (list ascii) :=
  STARS :: (bytes <$> ["[REDACTED]"; "[REDACTED_AWS_SECRET]"; "[REDACTED_GH_TOKEN]"; "[REDACTED_SECRET]"]).

(** [t] is [s] with some stretches replaced by masks. *)
Inductive cuts : list ascii → list ascii → Prop :=
| cuts_nil : cuts [] []
| cuts_keep c s t : cuts s t → cuts (c :: s) (c :: t)
| cuts_mask x m s t : m ∈ MASKS → cuts s t → cuts (x ++ s) (m ++ t).
#[local] Hint Constructors cuts : core.

Lemma cuts_refl s : cuts s s.
Proof. induction s; auto. Qed.
Lemma cuts_app s t s' t' : cuts s t → cuts s' t' → cuts (s ++ s') (t ++ t').
Proof.
  intros H H'. induction H; cbn; auto. rewrite <-!(assoc_L (++)). auto.
Qed.
Lemma cuts_to x m : m ∈ MASKS → cuts x m.
Proof. intros Hm. rewrite <-(app_nil_r x), <-(app_nil_r m). auto. Qed.

Lemma take_while_drop p s : s = take_while p s ++ drop (length (take_while p s)) s.
Proof. induction s as [|c s IH]; cbn; [done|]. destruct (p c); cbn; [by f_equal|done]. Qed.
Lemma take_while_rest p s :
  match drop (length (take_while p s)) s with [] => True | c :: _ => p c = false end.
Proof. induction s as [|c s IH]; cbn; [done|]. destruct (p c) eqn:E; cbn; [done|by rewrite E]. Qed.
Lemma take_while_Forall p s : Forall (λ c, p c = true) (take_while p s).
Proof. induction s as [|c s IH]; cbn; [done|]. destruct (p c) eqn:E; by constructor. Qed.
Lemma take_while_length p s : (length (take_while p s) ≤ length s)%nat.
Proof. induction s as [|c s IH]; cbn; [lia|]. destruct (p c); cbn; lia. Qed.
Lemma take_while_all p x s : Forall (λ c, p c = true) x → take_while p (x ++ s) = x ++ take_while p s.
Proof. intros H. induction H as [|c x Hc _ IH]; cbn; [done|]. by rewrite Hc, IH. Qed.
Lemma take_take_while p s : take (length (take_while p s)) s = take_while p s.
Proof. rewrite (take_while_drop p s) at 2. by rewrite take_app_length. Qed.

Lemma split_exact_Some key s pre hit rest :
  split_exact key s = Some (pre, hit, rest) → s = pre ++ hit ++ rest ∧ hit = key.
Proof.
  unfold split_exact. destruct (split_once_bytes key s) as [[l t]|] eqn:E; cbn; [|done].
  intros [= <- <- <-]. by apply split_once_bytes_Some in E as [-> _].
Qed.
Lemma split_ci_Some key s pre hit rest :
  split_ci key s = Some (pre, hit, rest) → s = pre ++ hit ++ rest ∧ byte_lower <$> hit = key.
Proof.
  unfold split_ci. destruct (split_once_bytes key _) as [[l t]|] eqn:E; cbn; [|done].
  intros [= <- <- <-]. split; [by rewrite !take_drop|].
  apply split_once_bytes_Some in E as [E _]. rewrite fmap_take, fmap_drop, E, drop_app_length.
  apply take_app_length.
Qed.

(** A scan whose action only puts masks in the place of bytes after the marker. *)
Lemma scan_go_cuts find act fuel s :
  (∀ s pre hit rest, find s = Some (pre, hit, rest) → s = pre ++ hit ++ rest) →
  (∀ s pre hit rest new n r, find s = Some (pre, hit, rest) → act hit rest = (new, n, r) →
     cuts (hit ++ take n rest) new) →
  cuts s (scan_go find act fuel s).1.
Proof.
  intros Hfind Hact. revert s. induction fuel as [|fuel IH]; intros s; cbn; [apply cuts_refl|].
  destruct (find s) as [[[pre hit] rest]|] eqn:E; [|apply cuts_refl].
  destruct (act hit rest) as [[new n] r] eqn:Ea. specialize (IH (drop n rest)).
  destruct (scan_go _ _ fuel _) as [out ch]. cbn in *. rewrite (Hfind _ _ _ _ E).
  rewrite <-(take_drop n rest), (assoc_L (++) hit).
  apply cuts_app; [apply cuts_refl|]. apply cuts_app; [by eapply Hact|done].
Qed.

Lemma url_cuts key s : cuts s (redact_url_key key s).1.
Proof.
  apply scan_go_cuts; [by intros ???? [? _]%split_ci_Some|].
  intros _ _ hit rest new n r _. unfold url_act. case_bool_decide; intros [= <- <- <-].
  - rewrite take_0, app_nil_r. apply cuts_refl.
  - apply cuts_app; [apply cuts_refl|]. apply cuts_to. by left.
Qed.

Lemma entropy_cuts fuel s : cuts s (entropy_go fuel s).1.
Proof.
  revert s. induction fuel as [|fuel IH]; intros [|c s]; try apply cuts_refl. cbn [entropy_go].
  destruct (key_char c).
  - specialize (IH (drop (length (take_while key_char (c :: s))) (c :: s))).
    destruct (entropy_go fuel _) as [out ch]. cbn [fst] in IH.
    rewrite (take_while_drop key_char (c :: s)) at 1.
    destruct (is_secret_token _); apply cuts_app; auto using cuts_refl. apply cuts_to. unfold MASKS. set_solver.
  - specialize (IH s). destruct (entropy_go fuel s) as [out ch]. cbn in *. auto.
Qed.

Lemma aws_secret_cuts fuel s out ch : aws_secret_go fuel s = Some (out, ch) → cuts s out.
Proof.
  revert s out ch. induction fuel as [|fuel IH]; intros s out ch; cbn [aws_secret_go]; [intros [= <- <-]; apply cuts_refl|].
  destruct (split_ci AWS_SECRET_KEY s) as [[[pre hit] rest]|] eqn:E; [|intros [= <- <-]; apply cuts_refl].
  apply split_ci_Some in E as [-> _]. case_bool_decide.
  - intros Hs. apply (inj Some), pair_equal_spec in Hs as [<- _]. repeat (apply cuts_app; [apply cuts_refl|]).
    set (p := λ c, _). rewrite (take_while_drop p rest) at 1. apply cuts_app; [apply cuts_refl|].
    rewrite (take_while_drop aws_char (drop _ rest)) at 1. apply cuts_app; [|apply cuts_refl].
    apply cuts_to. unfold MASKS. set_solver.
  - destruct rest as [|c r]; [intros [= <- <-]; apply cuts_refl|]. destruct (match r with [] => _ | _ => _ end); [done|].
    destruct (aws_secret_go fuel r) as [[o h]|] eqn:Er; cbn [mbind option_bind]; [|done]. intros [= <- <-].
    repeat (apply cuts_app; [apply cuts_refl|]). apply cuts_keep. by eapply IH.
Qed.

(** *** Markers *)

Section marker.
Context (P : list ascii) (cls : ascii → bool) (min : nat).

(** A mask begins with a byte that is in neither the marker nor a token, ends with
    one that is not in the marker, and does not contain the marker. *)
Definition mask_ok (m : list ascii) : bool :=
  match m with c :: _ => bool_decide (c ∉ P) && negb (cls c) | [] => false end &&
  match last m with Some z => bool_decide (z ∉ P) | None => false end &&
  negb (contains_bytes P m).
(** Either the marker does not overlap itself or all of it could be token. *)
Definition overlap_ok : bool :=
  forallb (λ n, negb (bool_decide (drop n P `prefix_of` P))) (seq 1 (length P - 1)) || forallb cls P.
Definition marker_ok : bool :=
  negb (bool_decide (P = [])) && (0 <? min)%nat && forallb mask_ok MASKS && overlap_ok.

Context (HP : marker_ok = true).

Lemma marker_facts : P ≠ [] ∧ (0 < min)%nat ∧ Forall (λ m, mask_ok m = true) MASKS ∧ overlap_ok = true.
Proof.
  unfold marker_ok in HP. rewrite !andb_true_iff, negb_true_iff, Nat.ltb_lt, forallb_Forall in HP.
  destruct HP as [[[H1 H2] H3] H4]. by case_bool_decide.
Qed.
Lemma mask_spec m :
  m ∈ MASKS → (∃ c m', m = c :: m' ∧ c ∉ P ∧ cls c = false) ∧
              (∀ y a b, m ++ y = a ++ P ++ b → ∃ a2, y = a2 ++ P ++ b).
Proof.
  intros Hm. assert (mask_ok m = true) as Hok.
  { destruct marker_facts as (_ & _ & HM & _). rewrite Forall_forall in HM. by apply HM. }
  unfold mask_ok in Hok. destruct m as [|c m']; [done|]. apply andb_true_iff in Hok as [Hok Hno].
  apply andb_true_iff in Hok as [Hc Hz]. apply andb_true_iff in Hc as [Hc Hcls].
  split; [exists c, m'; split; [done|]; split; [by case_bool_decide|by destruct (cls c)]|].
  intros y a b Heq. destruct (last (c :: m')) as [z|] eqn:El; [|done]. case_bool_decide as Hzp; [|done].
  apply last_Some in El as [w Hw]. rewrite Hw, <-(assoc_L (++)) in Heq.
  destruct (occurs_beside z P w y a b Hzp Heq) as [(b1 & _ & ->)|(a2 & _ & ->)]; [|eauto].
  rewrite Hw in Hno. apply negb_true_iff, not_true_iff_false in Hno. destruct Hno.
  apply contains_bytes_spec. exists a, (b1 ++ [z]). by rewrite <-!(assoc_L (++)).
Qed.

Lemma cuts_prefix Q s t b :
  Forall (λ c, c ∈ P) Q → cuts s t → t = Q ++ b → ∃ b', s = Q ++ b' ∧ cuts b' b.
Proof.
  intros HQ Hc. revert Q HQ b. induction Hc as [|c s t Hc IH|x m s t Hm Hc IH]; intros [|q Q] HQ b Heq;
    cbn in Heq; try (subst b; eexists; split; [reflexivity|by auto]).
  - done.
  - injection Heq as <- Heq. apply Forall_cons in HQ as [_ HQ].
    destruct (IH Q HQ b Heq) as (b' & -> & Hb). by exists b'.
  - destruct (mask_spec m Hm) as [(c & m' & -> & Hnot & _) _]. injection Heq as -> _.
    by apply Forall_cons in HQ as [? _].
Qed.

Lemma cuts_occurs s t a b :
  cuts s t → t = a ++ P ++ b → ∃ a' b', s = a' ++ P ++ b' ∧ cuts b' b.
Proof.
  intros Hc. revert a. induction Hc as [|c s t Hc IH|x m s t Hm Hc IH]; intros a Heq.
  - destruct a; [|done]. destruct marker_facts as [Hne _]. by destruct P.
  - destruct a as [|a0 a].
    + destruct (cuts_prefix P (c :: s) (c :: t) b) as (b' & Hs & Hb); auto.
      { by apply Forall_forall. }
      by exists [], b'.
    + injection Heq as <- Heq. destruct (IH a Heq) as (a' & b' & -> & Hb). by exists (c :: a'), b'.
  - apply (mask_spec m Hm) in Heq as [a2 Heq]. destruct (IH a2 Heq) as (a' & b' & -> & Hb).
    exists (x ++ a'), b'. by rewrite <-(assoc_L (++)).
Qed.

Lemma cuts_run s t : cuts s t → (length (take_while cls t) ≤ length (take_while cls s))%nat.
Proof.
  intros Hc. induction Hc as [|c s t Hc IH|x m s t Hm Hc IH]; cbn [take_while]; [done| |].
  - destruct (cls c); cbn; lia.
  - destruct (mask_spec m Hm) as [(c & m' & -> & _ & Hcls) _]. cbn. rewrite Hcls. cbn. lia.
Qed.

Lemma cuts_masked s t : masked P cls min s → cuts s t → masked P cls min t.
Proof.
  intros Hs Hc a b Heq. destruct (cuts_occurs s t a b Hc Heq) as (a' & b' & Hs' & Hb).
  specialize (Hs _ _ Hs'). pose proof (cuts_run _ _ Hb). lia.
Qed.

(** *** The scan for one marker *)

Context (act : list ascii → list ascii → list ascii * nat * bool).
(** What is written for the marker and the bytes it covers: the marker or nothing,
    and a mask; or the marker alone, when no token follows. *)
Definition act_spec : Prop := ∀ rest,
  (∃ q m n r, act P rest = (q ++ m, n, r) ∧ (q = P ∨ q = []) ∧ m ∈ MASKS) ∨
  (act P rest = (P, O, false) ∧ (length (take_while cls rest) < min)%nat).
Context (Hact : act_spec).

Lemma first_occurrence pre rest y a b :
  (∀ l', l' `prefix_of` pre → l' ≠ pre → ~ ∃ t', pre ++ P ++ rest = l' ++ P ++ t') →
  pre ++ P ++ y = a ++ P ++ b → ∃ a1, a = pre ++ a1 ∧ P ++ y = a1 ++ P ++ b.
Proof.
  intros Hmin Heq. apply app_eq_inv in Heq as [(k & -> & Hk)|(k & -> & Hk)]; [|by exists k].
  destruct (decide (k = [])) as [->|Hne].
  { exists []. by rewrite !app_nil_r. }
  exfalso. apply (Hmin a); [by exists k| |].
  { intros Ha. apply (f_equal length) in Ha. rewrite length_app in Ha. destruct k; cbn in Ha; [done|lia]. }
  rewrite (assoc_L (++)) in Hk. apply app_eq_inv in Hk as [(w & HP' & Hy)|(w & Hw & Hy)].
  - apply (f_equal length) in HP'. rewrite !length_app in HP'. destruct k; cbn in HP'; [done|lia].
  - exists (w ++ rest). rewrite <-!(assoc_L (++)). f_equal.
    by rewrite (assoc_L (++) k), Hw, (assoc_L (++)).
Qed.

Lemma overlap_run a1 k b y :
  P = a1 ++ k → a1 ≠ [] → k ≠ [] → k ++ y = P ++ b →
  (length (take_while cls b) ≤ length (take_while cls y))%nat.
Proof.
  intros HPa Ha Hk Heq. destruct marker_facts as (_ & _ & _ & Hover).
  apply app_eq_inv in Heq as [(z & Hz & Hb)|(z & Hz & Hy)].
  - apply (f_equal length) in HPa, Hz. rewrite length_app in HPa, Hz. destruct a1; cbn in *; [done|lia].
  - apply orb_true_iff in Hover as [Hun|Hall].
    + rewrite forallb_Forall, Forall_forall in Hun. specialize (Hun (length a1)).
      assert (length a1 ∈ seq 1 (length P - 1)) as Hin%Hun.
      { apply elem_of_seq. rewrite HPa, length_app. destruct a1, k; cbn; try done; lia. }
      replace (drop (length a1) P) with k in Hin by (by rewrite HPa, drop_app_length).
      rewrite bool_decide_eq_true_2 in Hin; [done|by exists z].
    + rewrite forallb_Forall, Hz, Forall_app in Hall. destruct Hall as [_ Hall].
      rewrite Hy, take_while_all by done. rewrite length_app. lia.
Qed.

Lemma act_cuts rest new n r : act P rest = (new, n, r) → cuts (P ++ take n rest) new.
Proof.
  intros Ha. destruct (Hact rest) as [(q & m & n' & r' & Ha' & Hq & Hm)|[Ha' _]]; rewrite Ha in Ha';
    injection Ha' as -> -> ->.
  - destruct Hq; subst q; [|by apply cuts_to]. apply cuts_app; [apply cuts_refl|by apply cuts_to].
  - rewrite take_0, app_nil_r. apply cuts_refl.
Qed.

Lemma scan_cuts_go fuel s : cuts s (scan_go (split_exact P) act fuel s).1.
Proof.
  apply scan_go_cuts; [by intros ???? [? _]%split_exact_Some|].
  intros s' pre hit rest new n r [_ ->]%split_exact_Some. apply act_cuts.
Qed.

Definition first_at (pre rest : list ascii) : Prop :=
  ∀ l', l' `prefix_of` pre → l' ≠ pre → ~ ∃ t', pre ++ P ++ rest = l' ++ P ++ t'.

Lemma masked_mask pre rest q m out :
  first_at pre rest → q = P ∨ q = [] → m ∈ MASKS → masked P cls min out →
  masked P cls min (pre ++ (q ++ m) ++ out).
Proof.
  intros Hfirst Hq Hm Hout a b Heq. destruct marker_facts as (Hne & Hmin & _ & _).
  destruct (mask_spec m Hm) as [(c & m' & -> & Hc & Hcls) Hafter].
  assert (∀ a2 : list ascii, m' ++ out = a2 ++ P ++ b → (length (take_while cls b) < min)%nat) as Hin.
  { intros a2 Ha2. destruct (Hafter out (c :: a2) b) as [a3 Ha3]; [cbn; by rewrite Ha2|]. by eapply Hout. }
  rewrite <-(assoc_L (++)) in Heq. cbn in Heq. destruct Hq; subst q.
  - destruct (first_occurrence _ _ _ _ _ Hfirst Heq) as (a1 & -> & Heq').
    destruct (occurs_beside c P P (m' ++ out) a1 b Hc Heq') as [(b1 & -> & HPb)|(a2 & _ & Ha2)]; [|eauto].
    destruct b1 as [|b0 b1]; [cbn; rewrite Hcls; cbn; lia|].
    apply (f_equal length) in HPb. rewrite !length_app in HPb. cbn in HPb. lia.
  - destruct (occurs_beside c P pre (m' ++ out) a b Hc Heq) as [(b1 & _ & ->)|(a2 & _ & Ha2)]; [|eauto].
    destruct (Hfirst a); [by exists (P ++ b1)| |exists (b1 ++ P ++ rest); by rewrite <-!(assoc_L (++))].
    intros Ha. apply (f_equal length) in Ha. rewrite !length_app in Ha. destruct P; cbn in *; [done|lia].
Qed.

Lemma masked_keep pre rest out :
  first_at pre rest → (length (take_while cls out) < min)%nat → masked P cls min out →
  masked P cls min (pre ++ P ++ out).
Proof.
  intros Hfirst Hrun Hout a b Heq. destruct (first_occurrence _ _ _ _ _ Hfirst Heq) as (a1 & -> & Heq').
  apply app_eq_inv in Heq' as [(k & HPa & Hk)|(k & -> & Hk)]; [|by eapply Hout].
  destruct (decide (k = [])) as [->|Hk0]; [by eapply (Hout [])|].
  destruct (decide (a1 = [])) as [->|Ha1].
  - cbn in HPa. subst k. by apply app_inv_head in Hk as ->.
  - pose proof (overlap_run a1 k b out HPa Ha1 Hk0 (eq_sym Hk)). lia.
Qed.

Lemma scan_masked_go fuel s :
  (length s < fuel)%nat → masked P cls min (scan_go (split_exact P) act fuel s).1.
Proof.
  destruct marker_facts as (Hne & Hmin & _ & _).
  revert s. induction fuel as [|fuel IH]; intros s Hlen; cbn; [lia|].
  unfold split_exact. destruct (split_once_bytes P s) as [[pre rest]|] eqn:E; cbn.
  2: { intros a b ->. apply split_once_bytes_None, not_true_iff_false in E. destruct E.
       apply contains_bytes_spec. eauto. }
  apply split_once_bytes_Some in E as [-> Hfirst]. specialize (Hfirst Hne).
  destruct (act P rest) as [[new n] r] eqn:Ea.
  pose proof (cuts_run _ _ (scan_cuts_go fuel (drop n rest))) as Hle. specialize (IH (drop n rest)).
  destruct (scan_go _ _ fuel _) as [out ch]. cbn in *.
  assert (masked P cls min out) as IH'.
  { apply IH. rewrite !length_app in Hlen. rewrite length_drop. destruct P; cbn in *; [done|lia]. }
  destruct (Hact rest) as [(q & m & n' & r' & Ha' & Hq & Hm)|[Ha' Hrun]];
    rewrite Ea in Ha'; injection Ha' as -> -> ->; [by eapply masked_mask|].
  rewrite drop_0 in Hle. eapply masked_keep; [done|lia|done].
Qed.

Lemma scan_masked s : masked P cls min (scan (split_exact P) act s).1.
Proof. apply scan_masked_go. lia. Qed.
Lemma scan_cuts s : cuts s (scan (split_exact P) act s).1.
Proof. apply scan_cuts_go. Qed.
End marker.

(** *** The pipeline *)

Lemma token_act_spec P cls min q m :
  (q = P ∨ q = []) → m ∈ MASKS → act_spec P cls min (token_act cls min (q ++ m)).
Proof.
  intros Hq Hm rest. unfold token_act. case_bool_decide; [left|right; split; [done|lia]].
  by exists q, m, (length (take_while cls rest)), true.
Qed.

Lemma aws_access_act_spec : act_spec AKIA is_upper_or_digit 16 aws_access_act.
Proof.
  intros rest. unfold aws_access_act. case_bool_decide as Hlen; cbn [andb].
  - destruct (forallb _ _) eqn:Hall.
    + left. exists AKIA, (bytes "[REDACTED]"), 16%nat, true. split; [done|]. split; [by left|]. unfold MASKS. set_solver.
    + right. split; [done|]. apply not_le. intros Hge. apply not_true_iff_false in Hall. destruct Hall.
      apply forallb_Forall. rewrite (take_while_drop is_upper_or_digit rest), take_app_le by lia.
      apply Forall_take, take_while_Forall.
  - right. split; [done|]. pose proof (take_while_length is_upper_or_digit rest). lia.
Qed.

Lemma bearer_act_spec : act_spec BEARER bearer_char 1 bearer_act.
Proof.
  intros rest. unfold bearer_act. case_bool_decide.
  - left. exists BEARER, STARS, 3%nat, false. split; [done|]. split; [by left|]. by left.
  - case_bool_decide; [right; split; [done|lia]|left].
    exists BEARER, STARS, (length (take_while bearer_char rest)), true. split; [done|]. split; [by left|]. by left.
Qed.

Lemma known_ok : Forall (λ '(p, cls, min), marker_ok (bytes p) cls min = true) KNOWN.
Proof. repeat constructor. Qed.

Definition keeps (Q : list ascii → Prop) (p : list ascii → Pass) : Prop := ∀ s, Q s → Q (p s).1.

Lemma passes_keep Q ps : Forall (keeps Q) ps → keeps Q (passes ps).
Proof.
  induction 1 as [|p ps Hp _ IH]; intros s Hs; [done|]. cbn. unfold and_then.
  specialize (Hp s Hs). destruct (p s) as [s1 c1]. specialize (IH s1 Hp). by destruct (passes ps s1).
Qed.
Lemma passes_establish Q p ps :
  p ∈ ps → (∀ s, Q (p s).1) → Forall (keeps Q) ps → ∀ s, Q (passes ps s).1.
Proof.
  intros Hin Hp. induction 1 as [|p' ps Hp' Hps IH]; intros s; [by apply elem_of_nil in Hin|].
  cbn. unfold and_then. apply elem_of_cons in Hin as [<-|Hin].
  - specialize (Hp s). destruct (p s) as [s1 c1]. pose proof (passes_keep Q ps Hps s1 Hp).
    by destruct (passes ps s1).
  - destruct (p' s) as [s1 c1]. specialize (IH Hin s1). by destruct (passes ps s1).
Qed.

Section known.
Context (P : list ascii) (cls : ascii → bool) (min : nat) (HP : marker_ok P cls min = true).
#[local] Abbreviation Q := (masked P cls min).

Lemma cutting_keeps p : (∀ s, cuts s (p s).1) → keeps Q p.
Proof. intros Hp s Hs. by eapply cuts_masked. Qed.

Lemma github_keeps : Forall (keeps Q) (redact_github_prefix <$> GITHUB_PREFIXES).
Proof.
  apply Forall_fmap, Forall_true. intros p. apply cutting_keeps. intros s. apply (scan_cuts _ github_char 20).
  apply (token_act_spec _ _ _ []); [by right|]. unfold MASKS. set_solver.
Qed.
Lemma keys_keep : Forall (keeps Q) (redact_key_prefix <$> KEY_PREFIXES).
Proof.
  apply Forall_fmap, Forall_true. intros p. apply cutting_keeps. intros s. apply (scan_cuts _ key_char 8).
  apply token_act_spec; by left.
Qed.
Lemma github_tokens_keep : keeps Q redact_github_tokens.
Proof. apply passes_keep, github_keeps. Qed.
Lemma prefixed_keys_keep : keeps Q redact_prefixed_keys.
Proof. apply passes_keep, keys_keep. Qed.
Lemma bearer_keeps : keeps Q redact_bearer.
Proof. apply cutting_keeps. intros s. apply (scan_cuts _ bearer_char 1), bearer_act_spec. Qed.
Lemma url_keeps : keeps Q redact_url_embedded_credentials.
Proof. apply passes_keep, Forall_fmap, Forall_true. intros p. apply cutting_keeps, url_cuts. Qed.
Lemma entropy_keeps : keeps Q redact_high_entropy.
Proof. apply cutting_keeps. intros s. apply entropy_cuts. Qed.
End known.

Lemma credential_passes_text s t classes :
  credential_passes s = Some (t, classes) →
  ∃ u v ch, redact_aws_secret_label (redact_aws_access_key u).1 = Some (v, ch) ∧
    t = (redact_bearer (redact_prefixed_keys (redact_github_tokens v).1).1).1.
Proof.
  unfold credential_passes. destruct (redact_pem s) as [s1 c1]. destruct (redact_jwt s1) as [s2 c2].
  destruct (redact_aws_access_key s2) as [s3 c3] eqn:E3.
  destruct (redact_aws_secret_label s3) as [[s4 c4]|] eqn:E4; cbn [mbind option_bind]; [|done].
  destruct (redact_github_tokens s4) as [s5 c5] eqn:E5. destruct (redact_prefixed_keys s5) as [s6 c6] eqn:E6.
  destruct (redact_bearer s6) as [s7 c7] eqn:E7. intros [= <- _].
  exists s2, s4, c4. rewrite E3. split; [done|]. rewrite E5. cbn [fst]. rewrite E6. cbn [fst]. by rewrite E7.
Qed.

Lemma redact_candidate_text an s r :
  redact_candidate an s = Some r →
  ∃ t classes, credential_passes s = Some (t, classes) ∧
    rr_text r = (redact_high_entropy (redact_url_embedded_credentials t).1).1.
Proof.
  unfold redact_candidate. destruct (credential_passes s) as [[t classes]|]; cbn [mbind option_bind]; [|done].
  destruct (redact_url_embedded_credentials t) as [u c8] eqn:E8.
  destruct (redact_high_entropy u) as [v c9] eqn:E9.
  destruct (is_credential_dominant _ _ _); cbn [mbind option_bind]; [|done]. intros [= <-].
  exists t, classes. split; [done|]. rewrite E8. cbn [fst rr_text]. by rewrite E9.
Qed.

Lemma credential_passes_masked p cls min s t classes :
  (p, cls, min) ∈ KNOWN → credential_passes s = Some (t, classes) → masked (bytes p) cls min t.
Proof.
  intros Hk (u & v & ch & Hv & ->)%credential_passes_text. pose proof known_ok as Hok.
  rewrite Forall_forall in Hok. specialize (Hok _ Hk). cbn in Hok.
  unfold KNOWN in Hk. rewrite !elem_of_app, !list_elem_of_fmap, !list_elem_of_singleton in Hk.
  destruct Hk as [[= -> -> ->]|[(q & [= -> -> ->] & Hq)|[(q & [= -> -> ->] & Hq)|[= -> -> ->]]]].
  - apply bearer_keeps, prefixed_keys_keep, github_tokens_keep; [done..|].
    eapply cuts_masked; [done| |by eapply aws_secret_cuts]. by apply scan_masked, aws_access_act_spec.
  - apply bearer_keeps, prefixed_keys_keep; [done..|].
    eapply (passes_establish (masked _ _ _)); [by apply list_elem_of_fmap_2| |by apply github_keeps].
    intros s'. apply scan_masked; [done|]. apply (token_act_spec _ _ _ []); [by right|]. unfold MASKS. set_solver.
  - apply bearer_keeps; [done|].
    eapply (passes_establish (masked _ _ _)); [by apply list_elem_of_fmap_2| |by apply keys_keep].
    intros s'. apply scan_masked; [done|]. apply token_act_spec; by left.
  - by apply scan_masked, bearer_act_spec.
Qed.

(** *** The high-entropy pass leaves nothing to itself *)

Lemma entropy_other fuel c s :
  key_char c = false → entropy_go (S fuel) (c :: s) = (c :: (entropy_go fuel s).1, (entropy_go fuel s).2).
Proof. intros Hc. cbn [entropy_go]. rewrite Hc. by destruct (entropy_go fuel s). Qed.
Lemma entropy_token fuel tok s :
  tok ≠ [] → Forall (λ c, key_char c = true) tok → match s with c :: _ => key_char c = false | [] => True end →
  entropy_go (S fuel) (tok ++ s) =
  (if is_secret_token tok then (bytes "[REDACTED_SECRET]" ++ (entropy_go fuel s).1, true)
   else (tok ++ (entropy_go fuel s).1, (entropy_go fuel s).2)).
Proof.
  intros Hne Htok Hs. assert (take_while key_char (tok ++ s) = tok) as Hrun.
  { rewrite take_while_all by done. destruct s as [|c s]; cbn; [|rewrite Hs]; by rewrite app_nil_r. }
  destruct tok as [|c tok]; [done|]. cbn [entropy_go app].
  apply Forall_cons in Htok as [-> _]. change (c :: tok ++ s) with ((c :: tok) ++ s). rewrite Hrun, drop_app_length.
  by destruct (entropy_go fuel s).
Qed.

Lemma entropy_stable fuel fuel' s :
  (length s ≤ fuel)%nat → (length (entropy_go fuel s).1 ≤ fuel')%nat →
  entropy_go fuel' (entropy_go fuel s).1 = ((entropy_go fuel s).1, false).
Proof.
  revert fuel' s. induction fuel as [|fuel IH]; intros fuel' s Hs Hlen.
  { destruct s; [|cbn in Hs; lia]. by destruct fuel'. }
  destruct s as [|c s]; [by destruct fuel'|]. destruct (key_char c) eqn:Ec.
  2: { rewrite entropy_other in * by done. cbn in Hs, Hlen |- *. destruct fuel' as [|fuel']; [lia|].
       rewrite entropy_other by done. rewrite IH by lia. done. }
  pose proof (take_while_rest key_char (c :: s)) as Hrest. pose proof (take_while_drop key_char (c :: s)) as Hcut.
  pose proof (take_while_Forall key_char (c :: s)) as Htok.
  set (tok := take_while key_char (c :: s)) in *. set (rest := drop (length tok) (c :: s)) in *.
  assert (tok ≠ []) as Hne by (unfold tok; cbn; by rewrite Ec).
  rewrite Hcut in Hs, Hlen |- *. rewrite length_app in Hs. clearbody tok rest. clear Hcut Ec s c.
  rewrite entropy_token in Hlen |- * by (destruct rest; done).
  assert (length rest ≤ fuel)%nat as Hfuel by (destruct tok; [done|cbn in Hs; lia]).
  assert (match (entropy_go fuel rest).1 with c :: _ => key_char c = false | [] => True end) as Hout.
  { destruct rest as [|d rest]; [by destruct fuel|]. destruct fuel; [cbn in Hfuel; lia|].
    by rewrite entropy_other. }
  destruct (is_secret_token tok) eqn:Esec; cbn [fst] in *.
  - change (bytes "[REDACTED_SECRET]") with ("["%char :: bytes "REDACTED_SECRET" ++ ["]"%char]) in *.
    rewrite <-app_comm_cons, <-(assoc_L (++)) in *. cbn [length app] in Hlen.
    rewrite length_app in Hlen. cbn [length] in Hlen.
    change (length (bytes "REDACTED_SECRET")) with 15%nat in Hlen.
    destruct fuel' as [|[|[|f]]]; try lia.
    rewrite entropy_other by done. cbn [app]. rewrite (entropy_token _ (bytes "REDACTED_SECRET")) by (by repeat constructor).
    rewrite entropy_other by done. rewrite IH by lia. done.
  - rewrite length_app in Hlen. assert (0 < length tok)%nat by (destruct tok; [done|cbn; lia]). destruct fuel' as [|f]; [lia|].
    rewrite entropy_token by done. by rewrite Esec, IH by lia.
Qed.

(** C19. Scrubbed text holds no credential of a known form: after an AWS access key
    id, a GitHub, [sk-] or [xai-] prefix or [Bearer ] comes less than the shortest
    token, whatever the text and whatever the other passes did around it; and the
    high-entropy pass finds nothing more in it. *)
Theorem scrubbed_text_has_no_known_credential an s r :
  redact_candidate an s = Some r →
  (∀ p cls min, (p, cls, min) ∈ KNOWN → masked (bytes p) cls min (rr_text r)) ∧
  redact_high_entropy (rr_text r) = (rr_text r, false).
Proof.
  intros (t & classes & Ht & ->)%redact_candidate_text. split; [|by apply entropy_stable].
  intros p cls min Hk.
  pose proof known_ok as Hok. rewrite Forall_forall in Hok. specialize (Hok _ Hk). cbn in Hok.
  apply entropy_keeps, url_keeps; [done..|]. by eapply credential_passes_masked.
Qed.

(** ** What scrubbing keeps of a text

    Every slice and every replacement of the passes begins and ends beside an ASCII
    byte, so whatever is local to characters is kept: being UTF-8, and being
    ASCII. *)
#[local] Abbreviation ascii_only := (Forall (λ c, is_ascii c = true)).
Class TextInv (Q : list ascii → Prop) := {
  ti_ascii m : ascii_only m → Q m;
  ti_app a b : Q a → Q b → Q (a ++ b);
  ti_split a m b : m ≠ [] → ascii_only m → Q (a ++ m ++ b) → Q a ∧ Q b;
  ti_head c r : Q (c :: r) → match r with d :: _ => cont d | [] => false end = false →
                is_ascii c = true ∧ Q r;
}.

#[export] Instance utf8_text : TextInv (λ s, utf8_valid s = true).
Proof.
  split.
  - intros m Hm. rewrite <-(app_nil_r m). by rewrite utf8_ascii_app.
  - apply utf8_valid_app.
  - intros a [|c m] b Hne Hm H; [done|]. apply Forall_cons in Hm as [Hc Hm].
    apply (utf8_split_ascii a c (m ++ b)) in H as [Ha Hb]; [|done]. by rewrite utf8_ascii_app in Hb.
  - apply utf8_head.
Qed.
#[export] Instance ascii_text : TextInv ascii_only.
Proof.
  split; [done|by intros; apply Forall_app|intros a m b _ _ H; by decompose_Forall|].
  intros c r [Hc Hr]%Forall_cons _. done.
Qed.

(** A byte is one of 256. *)
Ltac byte_cases c := destruct c as [[] [] [] [] [] [] [] []]; vm_compute.

(** [t] is [s] with some stretches of ASCII replaced by ASCII. *)
Inductive swaps : list ascii → list ascii → Prop :=
| swaps_nil : swaps [] []
| swaps_keep c s t : swaps s t → swaps (c :: s) (c :: t)
| swaps_mask x m s t : x ≠ [] → ascii_only x → ascii_only m → swaps s t → swaps (x ++ s) (m ++ t).
#[local] Hint Constructors swaps : core.

Lemma swaps_refl s : swaps s s.
Proof. induction s; auto. Qed.
Lemma swaps_app_l x s t : swaps s t → swaps (x ++ s) (x ++ t).
Proof. induction x; cbn; auto. Qed.

Lemma replace_swaps pat by_ n s :
  pat ≠ [] → ascii_only pat → ascii_only by_ → swaps (drop n s) (replace_go pat by_ n s).
Proof.
  intros Hne Hp Hb. revert n. induction s as [|a s IH]; intros n; [by destruct n|].
  destruct n as [|n]; cbn; [|apply IH]. case_bool_decide as Hpre; [|apply swaps_keep, (IH O)].
  destruct pat as [|p pat]; [done|]. destruct Hpre as [k Hk]. injection Hk as <- ->.
  specialize (IH (length pat)). rewrite drop_app_length in IH. by apply (swaps_mask (a :: pat)).
Qed.

Lemma key_char_ascii c : key_char c = true → is_ascii c = true.
Proof. by byte_cases c. Qed.
Lemma jwt_char_ascii c : jwt_char c = true → is_ascii c = true.
Proof. by byte_cases c. Qed.
Lemma aws_char_ascii c : aws_char c = true → is_ascii c = true.
Proof. by byte_cases c. Qed.
Lemma github_char_ascii c : github_char c = true → is_ascii c = true.
Proof. by byte_cases c. Qed.
Lemma upper_or_digit_ascii c : is_upper_or_digit c = true → is_ascii c = true.
Proof. by byte_cases c. Qed.
Lemma value_end_ascii c : negb (value_end c) = false → is_ascii c = true.
Proof. by byte_cases c. Qed.

Section text.
Context (Q : list ascii → Prop) `{!TextInv Q}.

Let q_ascii m : ascii_only m → Q m := ti_ascii m.
Let q_app a b : Q a → Q b → Q (a ++ b) := ti_app a b.
Let q_split a m b : m ≠ [] → ascii_only m → Q (a ++ m ++ b) → Q a ∧ Q b := ti_split a m b.

Lemma swaps_inv s t : swaps s t → Q s → Q t.
Proof.
  intros Hs. cut (∀ pre, Q (pre ++ s) → Q (pre ++ t)); [intros H; apply (H [])|].
  induction Hs as [|c s t _ IH|x m s t Hx Hax Ham _ IH]; intros pre Hq; [done| |].
  - specialize (IH (pre ++ [c])). rewrite <-!(assoc_L (++)) in IH. by apply IH.
  - apply q_split in Hq as [Hpre Hq]; [|done..]. rewrite (assoc_L (++)). apply IH.
    rewrite <-(assoc_L (++)). auto using q_app, q_ascii.
Qed.

Lemma ti_token cls s :
  (∀ c, cls c = true → is_ascii c = true) → Q s → Q (drop (length (take_while cls s)) s).
Proof.
  intros Hcls Hs. destruct (decide (take_while cls s = [])) as [->|Hne]; [done|].
  rewrite (take_while_drop cls s) in Hs. apply (q_split []) in Hs as [_ Hs]; [done..|].
  eapply Forall_impl; [apply take_while_Forall|done].
Qed.
Lemma ti_until cls s :
  (∀ c, cls c = false → is_ascii c = true) → Q s → Q (drop (length (take_while cls s)) s).
Proof.
  intros Hcls Hs. pose proof (take_while_rest cls s) as Hr. pose proof (take_while_drop cls s) as Hd.
  destruct (drop _ s) as [|c r]; [by apply q_ascii|]. rewrite Hd in Hs.
  assert (ascii_only [c]) as Hc by (repeat constructor; auto).
  apply (q_split _ [c] r) in Hs as [_ Hs]; [|done..]. by apply (q_app [c]); [apply q_ascii|].
Qed.

(** A scan keeps the text when its action does. *)
Definition find_ok (find : list ascii → option (list ascii * list ascii * list ascii)) : Prop :=
  ∀ s pre hit rest, find s = Some (pre, hit, rest) → s = pre ++ hit ++ rest ∧ hit ≠ [] ∧ ascii_only hit.
Lemma scan_keeps find act :
  find_ok find →
  (∀ hit rest new n r, ascii_only hit → Q rest → act hit rest = (new, n, r) → Q new ∧ Q (drop n rest)) →
  keeps Q (scan find act).
Proof.
  intros Hfind Hact s. unfold scan. generalize (S (length s)) as fuel. intros fuel. revert s.
  induction fuel as [|fuel IH]; intros s Hs; cbn; [done|].
  destruct (find s) as [[[pre hit] rest]|] eqn:E; [|done].
  destruct (Hfind _ _ _ _ E) as (-> & Hne & Hah). apply q_split in Hs as [Hpre Hrest]; [|done..].
  destruct (act hit rest) as [[new n] r] eqn:Ea. destruct (Hact _ _ _ _ _ Hah Hrest Ea) as [Hnew Hdrop].
  specialize (IH _ Hdrop). destruct (scan_go _ _ fuel _). cbn in *. auto using q_app.
Qed.

Lemma split_exact_ok key : key ≠ [] → ascii_only key → find_ok (split_exact key).
Proof. by intros ?? s pre hit rest [-> ->]%split_exact_Some. Qed.
Lemma split_ci_ok key : key ≠ [] → ascii_only key → find_ok (split_ci key).
Proof.
  intros Hne Hk s pre hit rest [-> <-]%split_ci_Some. split; [done|]. split; [by intros ->|].
  apply Forall_fmap in Hk. eapply Forall_impl; [exact Hk|]. intros c. cbn. unfold byte_lower, is_ascii.
  destruct (in_range 65 90 c) eqn:E; [|done]. unfold in_range in E. lia.
Qed.

Lemma token_act_keeps cls min repl hit rest new n r :
  (∀ c, cls c = true → is_ascii c = true) → ascii_only repl → ascii_only hit → Q rest →
  token_act cls min repl hit rest = (new, n, r) → Q new ∧ Q (drop n rest).
Proof.
  intros Hcls Hrepl Hhit Hrest. unfold token_act. case_bool_decide; intros [= <- <- <-]; auto using ti_token.
Qed.

Lemma jwt_swaps fuel s : swaps s (jwt_go fuel s).1.
Proof.
  revert s. induction fuel as [|fuel IH]; intros [|c s]; try apply swaps_refl. cbn [jwt_go].
  case_bool_decide; [apply swaps_refl|].
  destruct (if bool_decide _ then _ else _) as [len|] eqn:E.
  - case_bool_decide; [|done]. unfold jwt_len in E. destruct (_ && _) eqn:El in E; [|done].
    injection E as <-. apply andb_true_iff in El as [_ El]. apply bool_decide_eq_true in El.
    set (tok := take_while jwt_char (c :: s)) in *. specialize (IH (drop (length tok) (c :: s))).
    destruct (jwt_go fuel _) as [out ch]. cbn [fst] in *. rewrite (take_while_drop jwt_char (c :: s)) at 1.
    fold tok.
    apply swaps_mask; [intros Hnil; rewrite Hnil in El; cbn in El; lia| |by repeat constructor|done].
    eapply Forall_impl; [apply take_while_Forall|]. apply jwt_char_ascii.
  - specialize (IH s). destruct (jwt_go fuel s). cbn in *. auto.
Qed.

Lemma entropy_swaps fuel s : swaps s (entropy_go fuel s).1.
Proof.
  revert s. induction fuel as [|fuel IH]; intros [|c s]; try apply swaps_refl. cbn [entropy_go].
  destruct (key_char c) eqn:Ec.
  - set (tok := take_while key_char (c :: s)) in *. specialize (IH (drop (length tok) (c :: s))).
    destruct (entropy_go fuel _) as [out ch]. cbn [fst] in IH. rewrite (take_while_drop key_char (c :: s)) at 1.
    fold tok. destruct (is_secret_token tok); [|by apply swaps_app_l].
    apply swaps_mask; [unfold tok; cbn; by rewrite Ec| |by repeat constructor|done].
    eapply Forall_impl; [apply take_while_Forall|]. apply key_char_ascii.
  - specialize (IH s). destruct (entropy_go fuel s). cbn in *. auto.
Qed.

Lemma pem_go_keeps fuel s ch : Q s → Q (pem_go fuel s ch).1.
Proof.
  revert s ch. induction fuel as [|fuel IH]; intros s ch Hs; cbn [pem_go]; [done|].
  destruct (split_once_bytes PEM_BEGIN s) as [[before after]|] eqn:E1; [|done].
  destruct (split_once_bytes PEM_END _) as [[body after_end]|] eqn:E2; [|done].
  destruct (split_once_bytes PEM_DASHES after_end) as [[label rest]|] eqn:E3; [|done].
  apply split_once_bytes_Some in E1 as [-> _], E2 as [E2 _], E3 as [-> _].
  apply q_split in Hs as [Hbefore Hafter]; [|done|by repeat constructor].
  assert (Q (PEM_BEGIN ++ after)) as Hblock by (apply q_app; [|done]; apply q_ascii; by repeat constructor).
  destruct (contains_bytes _ _); apply IH.
  - rewrite E2 in Hblock. apply q_split in Hblock as [_ Hend]; [|done|by repeat constructor].
    apply q_split in Hend as [_ Hrest]; [|done|by repeat constructor].
    repeat apply q_app; auto. apply q_ascii. by repeat constructor.
  - repeat apply q_app; auto. apply q_ascii. by repeat constructor.
Qed.

Lemma aws_secret_go_keeps fuel s out ch : Q s → aws_secret_go fuel s = Some (out, ch) → Q out.
Proof.
  revert s out ch. induction fuel as [|fuel IH]; intros s out ch Hs; cbn [aws_secret_go]; [by intros [= <- <-]|].
  destruct (split_ci AWS_SECRET_KEY s) as [[[pre hit] rest]|] eqn:E; [|by intros [= <- <-]].
  apply split_ci_ok in E as (-> & Hne & Hhit); [|done|by repeat constructor].
  apply q_split in Hs as [Hpre Hrest]; [|done..]. case_bool_decide.
  - intros Heq. apply (inj Some), pair_equal_spec in Heq as [<- _]. set (p := λ c, _).
    assert (∀ c, p c = true → is_ascii c = true) as Hp.
    { intros c Hc. unfold p in Hc. apply bool_decide_eq_true in Hc. set_unfold in Hc. naive_solver. }
    repeat apply q_app; auto; try (apply q_ascii; by repeat constructor).
    + apply q_ascii. eapply Forall_impl; [apply take_while_Forall|done].
    + apply ti_token; [apply aws_char_ascii|]. by apply ti_token.
  - destruct rest as [|c r]; [intros [= <- <-]; by repeat apply q_app; auto|].
    destruct (match r with [] => _ | _ => _ end) eqn:Ehead; [done|].
    apply ti_head in Hrest as [Hc Hr]; [|done..].
    destruct (aws_secret_go fuel r) as [[o h]|] eqn:Er; cbn [mbind option_bind]; [|done].
    intros [= <- <-]. apply (IH r) in Er; [|done].
    repeat apply q_app; auto. apply (q_app [c]); [apply q_ascii; by repeat constructor|done].
Qed.

Lemma pem_keeps : keeps Q redact_pem.
Proof.
  intros s Hs. unfold redact_pem. pose proof (pem_go_keeps (S (length s)) s false Hs) as H.
  destruct (pem_go _ s false) as [out ch]. destruct ch; [|done].
  eapply swaps_inv; [|exact H]. apply (replace_swaps _ _ 0); [done|by repeat constructor..].
Qed.
Lemma jwt_keeps : keeps Q redact_jwt.
Proof. intros s. apply swaps_inv, jwt_swaps. Qed.
Lemma high_entropy_keeps : keeps Q redact_high_entropy.
Proof. intros s. apply swaps_inv, entropy_swaps. Qed.
Lemma aws_access_keeps : keeps Q redact_aws_access_key.
Proof.
  apply scan_keeps; [apply split_exact_ok; [done|by repeat constructor]|].
  intros hit rest new n r Hhit Hrest. unfold aws_access_act. destruct (_ && _) eqn:E; intros [= <- <- <-]; auto.
  apply andb_true_iff in E as [Hlen%bool_decide_eq_true Hall%forallb_Forall]. split; [apply q_ascii; by repeat constructor|].
  rewrite <-(take_drop 16 rest) in Hrest. apply (q_split []) in Hrest as [_ Hrest]; [done| |].
  - intros Hnil. apply (f_equal length) in Hnil. rewrite length_take in Hnil. cbn [length] in Hnil. lia.
  - eapply Forall_impl; [exact Hall|apply upper_or_digit_ascii].
Qed.
Lemma scan_tokens_keep P cls min repl :
  P ≠ [] → ascii_only P → (∀ c, cls c = true → is_ascii c = true) → ascii_only repl →
  keeps Q (scan (split_exact P) (token_act cls min repl)).
Proof.
  intros Hne HP Hcls Hrepl. apply scan_keeps; [by apply split_exact_ok|].
  intros hit rest new n r Hhit Hrest. by apply token_act_keeps.
Qed.
Lemma github_text : keeps Q redact_github_tokens.
Proof.
  apply passes_keep, Forall_fmap, Forall_forall. intros p Hp.
  apply scan_tokens_keep; [| |apply github_char_ascii|by repeat constructor];
    set_unfold in Hp; destruct_or!; subst p; by repeat constructor.
Qed.
Lemma prefixed_keys_text : keeps Q redact_prefixed_keys.
Proof.
  apply passes_keep, Forall_fmap, Forall_forall. intros p Hp.
  apply scan_tokens_keep; [| |apply key_char_ascii|];
    set_unfold in Hp; destruct_or!; subst p; by repeat constructor.
Qed.
Lemma bearer_text : keeps Q redact_bearer.
Proof.
  apply scan_keeps; [apply split_exact_ok; [done|by repeat constructor]|].
  intros hit rest new n r Hhit Hrest. unfold bearer_act. case_bool_decide as Hs.
  - intros [= <- <- <-]. split; [apply q_ascii, Forall_app; split; [done|by repeat constructor]|].
    destruct Hs as [k ->]. cbn. apply (q_split [] STARS k) in Hrest as [_ ?]; [done|done|by repeat constructor].
  - case_bool_decide; intros [= <- <- <-]; [auto|]. split; [apply q_ascii; by repeat constructor|].
    apply ti_token; [apply jwt_char_ascii|done].
Qed.
Lemma url_text : keeps Q redact_url_embedded_credentials.
Proof.
  apply passes_keep, Forall_fmap, Forall_forall. intros p Hp.
  apply scan_keeps.
  { apply split_ci_ok; set_unfold in Hp; destruct_or!; subst p; by repeat constructor. }
  intros hit rest new n r Hhit Hrest. unfold url_act. case_bool_decide; intros [= <- <- <-]; [auto|].
  split; [apply q_ascii, Forall_app; split; [done|by repeat constructor]|].
  apply ti_until; [apply value_end_ascii|done].
Qed.

Lemma redact_candidate_keeps an s r : redact_candidate an s = Some r → Q s → Q (rr_text r).
Proof.
  intros (t & classes & Ht & ->)%redact_candidate_text Hs. apply high_entropy_keeps, url_text.
  revert Ht. unfold credential_passes.
  apply pem_keeps in Hs. destruct (redact_pem s) as [s1 c1].
  apply jwt_keeps in Hs. cbn [fst] in Hs. destruct (redact_jwt s1) as [s2 c2].
  apply aws_access_keeps in Hs. cbn [fst] in Hs. destruct (redact_aws_access_key s2) as [s3 c3].
  destruct (redact_aws_secret_label s3) as [[s4 c4]|] eqn:E; cbn [mbind option_bind fst] in *; [|done].
  apply aws_secret_go_keeps in E; [|done].
  apply github_text in E. destruct (redact_github_tokens s4) as [s5 c5].
  apply prefixed_keys_text in E. cbn [fst] in E. destruct (redact_prefixed_keys s5) as [s6 c6].
  apply bearer_text in E. cbn [fst] in E. destruct (redact_bearer s6) as [s7 c7]. by intros [= <- _].
Qed.
End text.

(** *** Panics *)

Lemma credential_passes_None s :
  credential_passes s = None ↔
  redact_aws_secret_label (redact_aws_access_key (redact_jwt (redact_pem s).1).1).1 = None.
Proof.
  unfold credential_passes. destruct (redact_pem s) as [s1 c1]. cbn [fst]. destruct (redact_jwt s1) as [s2 c2].
  cbn [fst]. destruct (redact_aws_access_key s2) as [s3 c3]. cbn [fst].
  destruct (redact_aws_secret_label s3) as [[s4 c4]|]; cbn [mbind option_bind]; [|done].
  destruct (redact_github_tokens s4) as [s5 c5]. destruct (redact_prefixed_keys s5) as [s6 c6].
  by destruct (redact_bearer s6).
Qed.

Lemma aws_secret_go_ascii fuel s : ascii_only s → aws_secret_go fuel s ≠ None.
Proof.
  revert s. induction fuel as [|fuel IH]; intros s Hs; cbn [aws_secret_go]; [done|].
  destruct (split_ci AWS_SECRET_KEY s) as [[[pre hit] rest]|] eqn:E; [|done].
  apply split_ci_Some in E as [-> _]. rewrite !Forall_app in Hs. destruct Hs as (_ & _ & Hrest).
  case_bool_decide; [done|]. destruct rest as [|c r]; [done|]. apply Forall_cons in Hrest as [_ Hr].
  destruct (match r with [] => _ | _ => _ end) eqn:Eh.
  - destruct r as [|d r]; [done|]. apply Forall_cons in Hr as [Hd _]. apply is_ascii_cont in Hd. congruence.
  - specialize (IH r Hr). by destruct (aws_secret_go fuel r) as [[]|].
Qed.

Lemma credential_passes_ascii s : ascii_only s → is_Some (credential_passes s).
Proof.
  intros Hs. apply not_eq_None_Some. rewrite credential_passes_None. apply aws_secret_go_ascii.
  by apply (aws_access_keeps ascii_only), (jwt_keeps ascii_only), (pem_keeps ascii_only).
Qed.

(** C39. Scrubbed text is text: when the input is UTF-8 so is the output, since no
    pass puts a mask in the place of a part of a character. *)
Theorem scrubbed_text_is_utf8 an s t :
  scrub_secrets an s = Some t → utf8_valid (bytes s) = true → utf8_valid (bytes t) = true.
Proof.
  unfold scrub_secrets. destruct (redact_candidate an (bytes s)) as [r|] eqn:E; cbn [mbind option_bind]; [|done].
  intros [= <-] Hs. rewrite bytes_of_bytes. by apply (redact_candidate_keeps (λ s, utf8_valid s = true) an (bytes s)).
Qed.

(** Scrubbing an ASCII text does not panic, and what it returns is ASCII. *)
Theorem ascii_text_is_scrubbed an s :
  ascii_only s → ∃ r, redact_candidate an s = Some r ∧ ascii_only (rr_text r).
Proof.
  intros Hs. assert (is_Some (redact_candidate an s)) as [r Hr].
  { pose proof (credential_passes_ascii s Hs) as [[t classes] Ht]. unfold redact_candidate. rewrite Ht.
    cbn [mbind option_bind]. destruct (redact_url_embedded_credentials t) as [u c8].
    destruct (redact_high_entropy u) as [v c9]. unfold is_credential_dominant, scrub_secrets_light. rewrite Ht.
    cbn [mbind option_bind]. by destruct (_ || _). }
  exists r. split; [done|]. by apply (redact_candidate_keeps ascii_only an s).
Qed.

(** *** The loops finish *)

Lemma scan_fuel find act n m s :
  find_ok find → (length s < n)%nat → (length s < m)%nat → scan_go find act n s = scan_go find act m s.
Proof.
  intros Hfind. revert m s. induction n as [|n IH]; intros [|m] s Hn Hm; try lia. cbn.
  destruct (find s) as [[[pre hit] rest]|] eqn:E; [|done].
  destruct (Hfind _ _ _ _ E) as (-> & Hne & _). destruct (act hit rest) as [[new k] r].
  rewrite (IH m); [done| |]; rewrite !length_app in Hn, Hm; rewrite length_drop; destruct hit; cbn in *; done || lia.
Qed.

Definition dashes (s : list ascii) : nat := length (List.filter (one_of "-") s).
Lemma dashes_app s t : dashes (s ++ t) = (dashes s + dashes t)%nat.
Proof. unfold dashes. by rewrite List.filter_app, length_app. Qed.
Lemma dashes_length s : (dashes s ≤ length s)%nat.
Proof. apply List.filter_length_le. Qed.

Lemma pem_fuel n m s ch :
  (dashes s < n)%nat → (dashes s < m)%nat → pem_go n s ch = pem_go m s ch.
Proof.
  revert m s ch. induction n as [|n IH]; intros [|m] s ch Hn Hm; try lia. cbn [pem_go].
  destruct (split_once_bytes PEM_BEGIN s) as [[before after]|] eqn:E1; [|done].
  destruct (split_once_bytes PEM_END _) as [[body after_end]|] eqn:E2; [|done].
  destruct (split_once_bytes PEM_DASHES after_end) as [[label rest]|] eqn:E3; [|done].
  apply split_once_bytes_Some in E1 as [-> _], E2 as [E2 _], E3 as [-> _].
  apply (f_equal dashes) in E2. repeat rewrite dashes_app in *.
  change (dashes PEM_BEGIN) with 5%nat in *. change (dashes PEM_END) with 5%nat in *.
  change (dashes PEM_DASHES) with 5%nat in *.
  destruct (contains_bytes _ _); apply IH; repeat rewrite dashes_app.
  all: try change (dashes (bytes "[REDACTED_PEM]")) with O; try change (dashes PEM_SPARED) with O; lia.
Qed.

(** The scrubbing loops terminate: beyond the length of the text more
    iterations change nothing. The loop for PEM blocks consumes hyphens, the others
    the text after the marker. *)
Theorem scrubbing_terminates s n :
  (length s < n)%nat →
  pem_go n s false = pem_go (S (length s)) s false ∧
  ∀ find act, find_ok find → scan_go find act n s = scan find act s.
Proof.
  intros Hn. split.
  - apply pem_fuel; pose proof (dashes_length s); lia.
  - intros find act Hfind. unfold scan. apply scan_fuel; [done|lia..].
Qed.

(** ** Where scrubbing falls short *)

(** A valid text panics the scrubber, whatever the table of alphanumerics: the
    search for the AWS secret label continues one byte, not one character, after
    the label. *)
Theorem scrub_panics_after_label an :
  let s := "aws_secret_access_key" +:+ of_bytes ["226"; "134"; "146"]%char in
  utf8_valid (bytes s) = true ∧ scrub_secrets an s = None.
Proof. split; vm_compute; reflexivity. Qed.

Definition LF_STR : string := String "010" EmptyString.
Definition certificate : string :=
  "-----BEGIN CERTIFICATE-----" +:+ LF_STR +:+ "MIIB" +:+ LF_STR +:+ "-----END CERTIFICATE-----".

(** A certificate, which the PEM pass means to leave alone, is altered and not
    reported: the marker it rewrote is restored only when a private key was redacted
    too. *)
Theorem certificate_is_altered an :
  redact_candidate an (bytes certificate) =
    Some {| rr_text := bytes ("_____BEGIN CERTIFICATE-----" +:+ LF_STR +:+ "MIIB" +:+ LF_STR +:+
                              "-----END CERTIFICATE-----");
            rr_redacted := false; rr_classes := []; rr_blocked := false; rr_block_reason := None |}.
Proof. vm_compute. reflexivity. Qed.

(** ** Witnesses *)

Definition ascii_alnum (c : list ascii) : bool := forallb is_ascii_alphanumeric c.
Definition sample : string :=
  "curl -H Authorization: Bearer abc.def with sk-abcdefghijkl and password=hunter2; ok".
Definition sample_result : RedactionResult :=
  {| rr_text := bytes "curl -H Authorization: Bearer *** with sk-*** and password=***; ok";
     rr_redacted := true; rr_classes := ["api_key_prefix"; "bearer"; "url_credentials"];
     rr_blocked := false; rr_block_reason := None |}.

Lemma scrubbed_text_has_no_known_credential_witness :
  redact_candidate ascii_alnum (bytes sample) = Some sample_result ∧
  (∀ p cls min, (p, cls, min) ∈ KNOWN → masked (bytes p) cls min (rr_text sample_result)).
Proof.
  assert (redact_candidate ascii_alnum (bytes sample) = Some sample_result) as H by (vm_compute; reflexivity).
  split; [exact H|]. apply (scrubbed_text_has_no_known_credential _ _ _ H).
Defined.

Lemma scrubbed_text_is_utf8_witness :
  let s := "pwd=" +:+ of_bytes ["195"; "169"]%char in
  scrub_secrets ascii_alnum s = Some "pwd=***" ∧ utf8_valid (bytes "pwd=***") = true.
Proof.
  assert (scrub_secrets ascii_alnum ("pwd=" +:+ of_bytes ["195"; "169"]%char) = Some "pwd=***") as H
    by (vm_compute; reflexivity).
  split; [exact H|]. apply (scrubbed_text_is_utf8 _ _ _ H). vm_compute. reflexivity.
Defined.

Lemma ascii_text_is_scrubbed_witness :
  ∃ r, redact_candidate ascii_alnum (bytes sample) = Some r ∧ ascii_only (rr_text r).
Proof. apply (ascii_text_is_scrubbed ascii_alnum (bytes sample)). by repeat constructor. Defined.

Lemma scrubbing_terminates_witness :
  pem_go 1000 (bytes certificate) false = pem_go (S (length (bytes certificate))) (bytes certificate) false.
Proof.
  apply (scrubbing_terminates (bytes certificate) 1000).
  apply Nat.ltb_lt. vm_compute. reflexivity.
Defined.
