(* ===== verification/AuditLog.v ===== *)
(** * The audit log

    [crates/cd-core/src/audit.rs]: an append-only file of JSON lines in which every
    entry carries the hash of its predecessor. Entries are scrubbed by the passes of
    [Redact], which can panic while the lock on the tail hash is held. The derived
    JSON codec and the Unicode table the scrubber consults are the interface
    [AuditCodec]. *)
From Stdlib Require Import ZArith Lia Ascii String.
From stdpp Require Import countable base tactics option list list_numbers sets strings.
From S2P Require Import Prelude RustStr Crypto Permissions Redact.

Local Open Scope string_scope.
Local Open Scope list_scope.
Local Open Scope Z_scope.

(** The timestamp is carried as text. *)
Record AuditEntry := {
  au_at : string;
  au_tool : string;
  au_side_effect : ToolSideEffect;
  au_target : string;
  au_outcome : string;
  au_detail : string;
  au_bytes : Z;
  au_prev_hash : string;
  au_hash : string;
}.

(** [serde_json] on [AuditEntry], and [char::is_alphanumeric]. A derived
    serialiser writes one compact object on one line, which its deserialiser
    reads back. *)
Class AuditCodec := {
  entry_to_string : AuditEntry → string;
  entry_from_str : string → option AuditEntry;
  is_alphanumeric : list ascii → bool;
  entry_roundtrip e : entry_from_str (entry_to_string e) = Some e;
  entry_one_line e : Forall (λ c, 32 ≤ bv c) (bytes (entry_to_string e));
  entry_utf8 e : utf8_valid (bytes (entry_to_string e)) = true;
  entry_object e : ∃ r, bytes (entry_to_string e) = "{"%char :: r ++ ["}"%char];
}.
(** A SHA-256 digest in hexadecimal has 64 digits. *)
Class Sha2Hex `{Sha2} := { sha256_hex_length bs : length (bytes (sha256_hex bs)) = 64%nat }.

Section audit.
Context `{Sha2Hex, AuditCodec}.

Definition GENESIS : string :=
  "0000000000000000000000000000000000000000000000000000000000000000".

(** A logger: the file, absent before the first append, the tail hash, and whether
    a panic has poisoned the lock that guards it. *)
Record AuditLog := {
  al_file : option (list ascii);
  al_tail : string;
  al_poisoned : bool;
}.

Definition with_hash (h : string) (e : AuditEntry) : AuditEntry :=
  {| au_at := au_at e; au_tool := au_tool e; au_side_effect := au_side_effect e;
     au_target := au_target e; au_outcome := au_outcome e; au_detail := au_detail e;
     au_bytes := au_bytes e; au_prev_hash := au_prev_hash e; au_hash := h |}.
(** The hash of an entry: its [prev_hash] and its JSON with an empty hash. *)
Definition entry_hash (e : AuditEntry) : string :=
  sha256_hex (bytes (au_prev_hash e) ++ bytes (entry_to_string (with_hash EmptyString e))).

(** [scrub_line]; [None] is a panic. *)
Definition scrub_line (s : string) : option string := scrub_secrets is_alphanumeric s.

(** What [append] writes for [entry] after [tail]. *)
Definition sealed (tail : string) (entry : AuditEntry) : option AuditEntry :=
  target ← scrub_line (au_target entry);
  detail ← scrub_line (au_detail entry);
  outcome ← scrub_line (au_outcome entry);
  tool ← scrub_line (au_tool entry);
  let e := {| au_at := au_at entry; au_tool := tool; au_side_effect := au_side_effect entry;
              au_target := target; au_outcome := outcome; au_detail := detail;
              au_bytes := au_bytes entry; au_prev_hash := tail; au_hash := EmptyString |} in
  Some (with_hash (entry_hash e) e).

Definition unwrap_or_nil (file : option (list ascii)) : list ascii :=
  match file with Some content => content | None => [] end.

(** What the file system does: the directory cannot be made, the file cannot be
    opened, writing fails after some bytes, or all goes well. *)
Inductive AppendIo := NoDirectory | NoFile | Torn (n : nat) | Written.
Inductive AppendResult := Appended | AppendFailed | AppendPanicked.

(** [AuditLog::append]. *)
Definition append (io : AppendIo) (entry : AuditEntry) (log : AuditLog) : AuditLog * AppendResult :=
  let with_bytes bs tail :=
    {| al_file := Some (unwrap_or_nil (al_file log) ++ bs); al_tail := tail; al_poisoned := false |} in
  match io with
  | NoDirectory => (log, AppendFailed)
  | _ =>
      if al_poisoned log then (log, AppendFailed)
      else match sealed (al_tail log) entry with
           | None => ({| al_file := al_file log; al_tail := al_tail log; al_poisoned := true |}, AppendPanicked)
           | Some e =>
               let line := bytes (entry_to_string e) ++ [LF] in
               match io with
               | NoDirectory | NoFile => (log, AppendFailed)
               | Torn n => (with_bytes (take n line) (al_tail log), AppendFailed)
               | Written => (with_bytes line (au_hash e), Appended)
               end
           end
  end.

Definition nonblank (line : list ascii) : bool := negb (bool_decide (trim_bytes line = [])).

Definition load_tail_hash (file : option (list ascii)) : option string :=
  content ← file;
  _ ← from_utf8 content;
  last ← List.find nonblank (rev (lines content));
  entry ← entry_from_str (of_bytes last);
  if is_empty (au_hash entry) then None else Some (au_hash entry).

Definition audit_new (file : option (list ascii)) : AuditLog :=
  {| al_file := file;
     al_tail := match load_tail_hash file with Some h => h | None => GENESIS end;
     al_poisoned := false |}.

Inductive AuditError :=
| NotText (line : Z) | BadJson (line : Z) | PrevHashMismatch (line : Z) | HashMismatch (line : Z).

Fixpoint verify_lines (i : Z) (prev : string) (ls : list (list ascii)) : result AuditError unit :=
  match ls with
  | [] => Ok tt
  | line :: ls =>
      if negb (utf8_valid line) then Err (NotText i)
      else if negb (nonblank line) then verify_lines (i + 1) prev ls
      else match entry_from_str (of_bytes line) with
           | None => Err (BadJson i)
           | Some entry =>
               if negb (bool_decide (au_prev_hash entry = prev)) then Err (PrevHashMismatch i)
               else if negb (bool_decide (entry_hash entry = au_hash entry))
               then Err (HashMismatch i)
               else verify_lines (i + 1) (au_hash entry) ls
           end
  end.

Definition verify_chain (file : option (list ascii)) : result AuditError unit :=
  match file with
  | None => Ok tt
  | Some content => verify_lines 1 GENESIS (lines content)
  end.

(** ** The chain *)

(** The entries of a file, in order. *)
Definition log_entries (file : option (list ascii)) : list AuditEntry :=
  match file with
  | None => []
  | Some content => omap (λ l, entry_from_str (of_bytes l)) (List.filter nonblank (lines content))
  end.

Fixpoint chained (prev : string) (es : list AuditEntry) : Prop :=
  match es with
  | [] => True
  | e :: es => au_prev_hash e = prev ∧ au_hash e = entry_hash e ∧ chained (au_hash e) es
  end.
Definition last_hash (es : list AuditEntry) : string :=
  match last es with Some e => au_hash e | None => GENESIS end.

(** Entries appended one after another. *)
Fixpoint seal_all (tail : string) (es : list AuditEntry) : option (list AuditEntry) :=
  match es with
  | [] => Some []
  | e :: es => x ← sealed tail e; xs ← seal_all (au_hash x) es; Some (x :: xs)
  end.

(** ** Reading a file back *)

Lemma verify_lines_Ok i prev ls :
  verify_lines i prev ls = Ok tt →
  chained prev (omap (λ l, entry_from_str (of_bytes l)) (List.filter nonblank ls)).
Proof.
  revert i prev. induction ls as [|l ls IH]; intros i prev; cbn; [done|].
  destruct (utf8_valid l); cbn; [|done]. destruct (nonblank l); cbn; [|apply IH].
  destruct (entry_from_str (of_bytes l)) as [e|]; cbn; [|done].
  case_bool_decide as Hp; cbn; [|done]. case_bool_decide as Hh; cbn; [|done]. intros Hv.
  split_and!; [done..|]. by apply (IH (i + 1)).
Qed.

Lemma verify_chain_Ok file : verify_chain file = Ok tt → chained GENESIS (log_entries file).
Proof. destruct file; [apply verify_lines_Ok|done]. Qed.

Definition entry_line (e : AuditEntry) : list ascii := bytes (entry_to_string e).
Definition file_of (es : list AuditEntry) : list ascii := concat ((λ e, entry_line e ++ [LF]) <$> es).

Lemma file_of_lines es : lines (file_of es) = entry_line <$> es.
Proof.
  unfold file_of. rewrite <-(lines_concat (entry_line <$> es)), <-list_fmap_compose; [done|].
  apply Forall_fmap, Forall_forall. intros. apply entry_one_line.
Qed.

Lemma entry_nonblank e : nonblank (entry_line e) = true.
Proof.
  unfold nonblank, entry_line. destruct (entry_object e) as [r ->]. by rewrite trim_plain_ends.
Qed.

Lemma entry_line_parses e : entry_from_str (of_bytes (entry_line e)) = Some e.
Proof. unfold entry_line. rewrite of_bytes_bytes. apply entry_roundtrip. Qed.

Lemma file_of_entries es : log_entries (Some (file_of es)) = es.
Proof.
  cbn. rewrite file_of_lines. induction es as [|e es IH]; [done|]. cbn [fmap list_fmap List.filter].
  rewrite entry_nonblank. cbn. by rewrite entry_line_parses, IH.
Qed.

Lemma chained_verifies i prev es : chained prev es → verify_lines i prev (entry_line <$> es) = Ok tt.
Proof.
  revert i prev. induction es as [|e es IH]; intros i prev; [done|]. cbn [chained fmap list_fmap verify_lines].
  intros (Hp & Hh & Hc). unfold entry_line at 1. rewrite entry_utf8. cbn [negb].
  rewrite entry_nonblank. cbn [negb]. rewrite entry_line_parses.
  rewrite !bool_decide_eq_true_2 by done. by apply IH.
Qed.

Lemma file_of_utf8 es : utf8_valid (file_of es) = true.
Proof.
  unfold file_of. induction es as [|e es IH]; [done|]. cbn. rewrite <-(assoc_L (++)).
  apply utf8_valid_app; [apply entry_utf8|]. done.
Qed.

Lemma load_tail_of es : load_tail_hash (Some (file_of es)) =
  match last es with
  | Some e => if is_empty (au_hash e) then None else Some (au_hash e)
  | None => None
  end.
Proof.
  unfold load_tail_hash. cbn. unfold from_utf8. rewrite file_of_utf8. cbn. rewrite file_of_lines.
  destruct es as [|e es _] using rev_ind; [done|].
  rewrite fmap_app, rev_app_distr, last_snoc. cbn. rewrite entry_nonblank. cbn.
  by rewrite entry_line_parses.
Qed.

Lemma chained_app prev es es' : chained prev (es ++ es') ↔
  chained prev es ∧ chained (match last es with Some e => au_hash e | None => prev end) es'.
Proof.
  revert prev. induction es as [|e es IH]; intros prev; cbn [app chained]; [tauto|].
  rewrite IH. rewrite last_cons. destruct (last es); tauto.
Qed.

Lemma sealed_chained tail e x : sealed tail e = Some x → au_prev_hash x = tail ∧ au_hash x = entry_hash x.
Proof.
  unfold sealed. intros (target & _ & Hb)%bind_Some. apply bind_Some in Hb as (detail & _ & Hb).
  apply bind_Some in Hb as (outcome & _ & Hb). apply bind_Some in Hb as (tool & _ & Hb). by injection Hb as <-.
Qed.

Lemma seal_all_snoc tail es xs e x :
  seal_all tail es = Some xs →
  sealed (match last xs with Some y => au_hash y | None => tail end) e = Some x →
  seal_all tail (es ++ [e]) = Some (xs ++ [x]).
Proof.
  revert tail xs. induction es as [|y es IH]; intros tail xs; cbn [app seal_all].
  { intros [= <-] Hx. cbn in Hx. by rewrite Hx. }
  intros (z & Hz & Hb)%bind_Some. apply bind_Some in Hb as (zs & Hzs & Hb). injection Hb as <-.
  rewrite last_cons, Hz. cbn [mbind option_bind]. intros Hx. rewrite (IH _ _ Hzs); [done|].
  by destruct (last zs).
Qed.

Lemma chained_seal_all tail es xs : seal_all tail es = Some xs → chained tail xs.
Proof.
  revert tail xs. induction es as [|e es IH]; intros tail xs; cbn [seal_all]; [by intros [= <-]|].
  intros (x & Hx & Hb)%bind_Some. apply bind_Some in Hb as (ys & Hys & Hb). injection Hb as <-.
  apply sealed_chained in Hx as [Hp Hh]. cbn. split_and!; auto.
Qed.

(** ** Operation sequences *)

(** A caller appends, with or without luck, or opens the file again. *)
Inductive AuditOp := OpAppend (io : AppendIo) (e : AuditEntry) | OpReopen.
(** The logger, and the entries it has acknowledged. *)
Definition audit_step (st : AuditLog * list AuditEntry) (op : AuditOp) : AuditLog * list AuditEntry :=
  let '(log, acked) := st in
  match op with
  | OpAppend io e =>
      match append io e log with
      | (log, Appended) => (log, acked ++ [e])
      | (log, _) => (log, acked)
      end
  | OpReopen => (audit_new (al_file log), acked)
  end.
Definition audit_run (ops : list AuditOp) : AuditLog * list AuditEntry :=
  foldl audit_step (audit_new None, []) ops.
(** A write that fails has written nothing. *)
Definition not_torn (op : AuditOp) : bool := match op with OpAppend (Torn _) _ => false | _ => true end.

Definition log_ok (st : AuditLog * list AuditEntry) : Prop :=
  ∃ xs, seal_all GENESIS st.2 = Some xs ∧ unwrap_or_nil (al_file st.1) = file_of xs ∧
        (al_file st.1 = None → xs = []) ∧ al_tail st.1 = last_hash xs.

Lemma entry_hash_nonempty e : is_empty (entry_hash e) = false.
Proof.
  apply bool_decide_eq_false. intros E. unfold entry_hash in E.
  pose proof (sha256_hex_length (bytes (au_prev_hash e) ++ bytes (entry_to_string (with_hash EmptyString e)))) as Hl.
  by rewrite E in Hl.
Qed.

Lemma chained_last_nonempty prev es e : chained prev es → last es = Some e → is_empty (au_hash e) = false.
Proof.
  destruct es as [|x es _] using rev_ind; [done|]. rewrite last_snoc. intros Hc [= <-].
  apply chained_app in Hc as (_ & _ & -> & _). apply entry_hash_nonempty.
Qed.

Lemma reopen_ok log acked : log_ok (log, acked) → log_ok (audit_new (al_file log), acked).
Proof.
  intros (xs & Hxs & Hf & Hnone & Ht). exists xs. cbn [fst snd] in *. split_and!; [done..|].
  cbn [audit_new al_tail al_file]. destruct (al_file log) as [f|]; cbn [unwrap_or_nil] in Hf.
  - subst f. rewrite load_tail_of. unfold last_hash. destruct (last xs) as [e|] eqn:El; [|done].
    by rewrite (chained_last_nonempty _ _ _ (chained_seal_all _ _ _ Hxs) El).
  - by rewrite Hnone.
Qed.

Lemma append_ok log acked io e :
  not_torn (OpAppend io e) = true → log_ok (log, acked) → log_ok (audit_step (log, acked) (OpAppend io e)).
Proof.
  intros Hio Hok. cbn [audit_step]. unfold append. destruct io; [done| |done|];
    (destruct (al_poisoned log); [done|]; destruct (sealed (al_tail log) e) as [x|] eqn:Hx; [try done|done]).
  destruct Hok as (xs & Hxs & Hf & Hnone & Ht). cbn [fst snd] in *. rewrite Ht in Hx.
  exists (xs ++ [x]). cbn [fst snd al_file al_tail unwrap_or_nil]. split_and!; [|..|done|].
  - by eapply seal_all_snoc.
  - rewrite Hf. unfold file_of, entry_line. rewrite fmap_app, concat_app. cbn. by rewrite app_nil_r.
  - unfold last_hash. by rewrite last_snoc.
Qed.

Lemma audit_run_ok ops : forallb not_torn ops = true → log_ok (audit_run ops).
Proof.
  induction ops as [|op ops IH] using rev_ind; [by exists []|].
  rewrite forallb_app. intros [Hops Hop]%andb_true_iff. cbn in Hop. rewrite andb_true_r in Hop.
  unfold audit_run. rewrite foldl_snoc. specialize (IH Hops). unfold audit_run in IH.
  destruct (foldl _ _ ops) as [log acked]. destruct op; [by apply append_ok|by apply reopen_ok].
Qed.
End audit.

(** ** Claims *)

(** C32. Whatever callers do, the log they wrote verifies: after any sequence of
    appends, failed, panicked or refused ones, and reopenings of a log that did not
    exist before, where a failing write writes nothing, the hash chain is intact,
    and the file holds exactly the acknowledged appends in order, scrubbed and linked
    to each other. *)
Theorem written_audit_log_verifies `{Sha2Hex, AuditCodec} ops :
  forallb not_torn ops = true →
  let '(log, acked) := audit_run ops in
  verify_chain (al_file log) = Ok tt ∧ seal_all GENESIS acked = Some (log_entries (al_file log)).
Proof.
  intros Hops. pose proof (audit_run_ok ops Hops) as Hok. destruct (audit_run ops) as [log acked].
  destruct Hok as (xs & Hxs & Hf & Hnone & _). cbn [fst snd] in *.
  destruct (al_file log) as [f|]; cbn [unwrap_or_nil] in Hf.
  - subst f. rewrite file_of_entries. split; [|done]. unfold verify_chain. rewrite file_of_lines.
    by eapply chained_verifies, chained_seal_all.
  - by rewrite Hxs, Hnone.
Qed.

(** A poisoned logger records nothing more. *)
Lemma poisoned_silent `{Sha2Hex, AuditCodec} ops log acked :
  al_poisoned log = true → Forall (λ op, op ≠ OpReopen) ops →
  foldl audit_step (log, acked) ops = (log, acked).
Proof.
  intros Hp. induction 1 as [|[io e|] ops Hop _ IH]; [done| |done]. cbn [foldl audit_step].
  unfold append. rewrite Hp. by destruct io.
Qed.

(** C40. One tool call can silence the audit log: when the target of an entry is the
    AWS secret label with an arrow behind it, the append panics with the lock held,
    and until the log is opened again nothing is recorded, whatever is appended. *)
Theorem one_entry_silences_the_audit_log `{Sha2Hex, AuditCodec} log acked e ops :
  al_poisoned log = false →
  au_target e = "aws_secret_access_key" +:+ of_bytes ["226"; "134"; "146"]%char →
  Forall (λ op, op ≠ OpReopen) ops →
  let '(log', acked') := foldl audit_step (log, acked) (OpAppend Written e :: ops) in
  al_file log' = al_file log ∧ acked' = acked.
Proof.
  intros Hp He Hops. cbn [foldl audit_step]. unfold append, sealed, scrub_line. rewrite Hp, He.
  assert (scrub_secrets is_alphanumeric
            ("aws_secret_access_key" +:+ of_bytes ["226"; "134"; "146"]%char) = None) as ->
    by (vm_compute; reflexivity).
  cbn [mbind option_bind]. by rewrite poisoned_silent.
Qed.

(** The bytes that are hashed determine the entry up to its own hash. *)
Lemma entry_hash_inj `{Sha2Hex, AuditCodec} e1 e2 :
  length (bytes (au_prev_hash e1)) = length (bytes (au_prev_hash e2)) →
  entry_hash e1 = entry_hash e2 →
  (au_prev_hash e1 = au_prev_hash e2 ∧ with_hash EmptyString e1 = with_hash EmptyString e2) ∨ sha_collision.
Proof.
  intros Hl E. apply digest_eq_or_collision in E as [E|?]; [left|by right].
  apply app_inj_1 in E as [Hp Hc]; [|done]. split; [by apply (inj bytes)|].
  apply (inj bytes) in Hc. apply (f_equal entry_from_str) in Hc. rewrite !entry_roundtrip in Hc.
  by apply (inj Some) in Hc.
Qed.

Lemma chained_hash_length `{Sha2Hex, AuditCodec} es :
  chained GENESIS es → length (bytes (last_hash es)) = 64%nat.
Proof.
  unfold last_hash. destruct es as [|e es _] using rev_ind; [done|]. rewrite last_snoc.
  intros (_ & _ & -> & _)%chained_app. apply sha256_hex_length.
Qed.

Lemma chained_unique `{Sha2Hex, AuditCodec} es1 es2 :
  chained GENESIS es1 → chained GENESIS es2 → last_hash es1 = last_hash es2 →
  es1 = es2 ∨ sha_collision ∨ ∃ x, sha256_hex x = GENESIS.
Proof.
  revert es2. induction es1 as [|e1 es1 IH] using rev_ind; intros es2;
    destruct es2 as [|e2 es2 _] using rev_ind; intros Hc1 Hc2 Hh; [by left|..].
  - right; right. unfold last_hash in Hh. rewrite last_snoc in Hh. cbn in Hh.
    apply chained_app in Hc2 as (_ & _ & He & _). rewrite He in Hh. by eexists.
  - right; right. unfold last_hash in Hh. rewrite last_snoc in Hh. cbn in Hh.
    apply chained_app in Hc1 as (_ & _ & He & _). rewrite He in Hh. by eexists.
  - apply chained_app in Hc1 as (Hc1 & Hp1 & He1 & _), Hc2 as (Hc2 & Hp2 & He2 & _).
    change (match last es1 with Some e => au_hash e | None => GENESIS end) with (last_hash es1) in Hp1.
    change (match last es2 with Some e => au_hash e | None => GENESIS end) with (last_hash es2) in Hp2.
    unfold last_hash in Hh. rewrite !last_snoc in Hh. rewrite He1, He2 in Hh.
    pose proof (entry_hash_inj e1 e2) as Hinj. rewrite Hp1, Hp2, !chained_hash_length in Hinj by done.
    destruct (Hinj eq_refl Hh) as [(Hp & Hw)|?]; [|by right; left].
    destruct (IH es2 Hc1 Hc2 Hp) as [->|?]; [left|by right]. do 2 f_equal.
    destruct e1, e2. unfold with_hash in Hw. cbn in *. congruence.
Qed.


(** ** A concrete codec *)

Module AuditDemo.
#[export] Instance side_effect_countable : Countable ToolSideEffect.
Proof.
  refine (inj_countable' (λ s, match s with Read => 0%nat | SoftWrite => 1%nat | HardWrite => 2%nat end)
            (λ n, match n with 0%nat => Read | 1%nat => SoftWrite | _ => HardWrite end) _).
  by intros [].
Defined.
#[export] Instance AuditEntry_eq_dec : EqDecision AuditEntry.
Proof. solve_decision. Defined.
#[export] Instance AuditEntry_countable : Countable AuditEntry.
Proof.
  refine (inj_countable'
    (λ e, (au_at e, au_tool e, au_side_effect e, au_target e, au_outcome e, au_detail e, au_bytes e,
           au_prev_hash e, au_hash e))
    (λ '(a, b, c, d, e, f, g, h, i), Build_AuditEntry a b c d e f g h i) _).
  by intros [].
Defined.

(** An entry as the bits of its code between braces. *)
Fixpoint pos_bits (p : positive) : list ascii :=
  match p with xH => [] | xO p => "0"%char :: pos_bits p | xI p => "1"%char :: pos_bits p end.
Fixpoint bits_pos (l : list ascii) : option positive :=
  match l with
  | [] => None
  | [c] => if bool_decide (c = "}"%char) then Some xH else None
  | c :: l => (if bool_decide (c = "0"%char) then xO else xI) <$> bits_pos l
  end.
Lemma bits_roundtrip p : bits_pos (pos_bits p ++ ["}"%char]) = Some p.
Proof.
  induction p as [p IH|p IH|]; [..|done]; cbn [pos_bits app bits_pos]; rewrite IH;
    by destruct (pos_bits p).
Qed.
Definition to_string (e : AuditEntry) : string :=
  of_bytes ("{"%char :: pos_bits (encode e) ++ ["}"%char]).
Definition from_str (s : string) : option AuditEntry :=
  p ← bits_pos (tail (bytes s)); decode p.
Lemma roundtrip e : from_str (to_string e) = Some e.
Proof.
  unfold from_str, to_string. rewrite bytes_of_bytes. cbn [tail]. rewrite bits_roundtrip. cbn.
  apply decode_encode.
Qed.
Lemma to_string_ascii e : Forall (λ c, 32 ≤ bv c < 128) (bytes (to_string e)).
Proof.
  unfold to_string. rewrite bytes_of_bytes. constructor; [by vm_compute|].
  apply Forall_app. split; [|repeat constructor; by vm_compute].
  induction (encode e) as [p IH|p IH|]; constructor; done || by vm_compute.
Qed.
Lemma ascii_utf8 l : Forall (λ c, 32 ≤ bv c < 128) l → utf8_valid l = true.
Proof.
  induction 1 as [|c l Hc _ IH]; [done|]. cbn [utf8_valid].
  by rewrite (proj2 (Z.ltb_lt (bv c) 0x80)) by lia.
Qed.
Lemma to_string_object e : ∃ r, bytes (to_string e) = "{"%char :: r ++ ["}"%char].
Proof. unfold to_string. rewrite bytes_of_bytes. eauto. Qed.
#[export] Instance codec : AuditCodec.
Proof.
  refine {| entry_to_string := to_string; entry_from_str := from_str;
            is_alphanumeric := forallb is_ascii_alphanumeric;
            entry_roundtrip := roundtrip; entry_object := to_string_object |}.
  - intros e. eapply Forall_impl; [apply to_string_ascii|]. intros c [? _]. done.
  - intros e. apply ascii_utf8, to_string_ascii.
Defined.

#[export] Instance sha2 : Sha2 :=
  {| sha256_hex bs := of_bytes (take 64 (rev bs ++ replicate 64 "1"%char)) |}.
#[export] Instance sha2_hex : Sha2Hex.
Proof.
  split. intros bs. unfold sha2. cbn [sha256_hex]. rewrite bytes_of_bytes, length_take, length_app, length_replicate. lia.
Defined.

Definition entry (tool : string) : AuditEntry :=
  {| au_at := "t"; au_tool := tool; au_side_effect := Read; au_target := "/p"; au_outcome := "allowed";
     au_detail := "ok"; au_bytes := 12; au_prev_hash := ""; au_hash := "" |}.
Definition ops : list AuditOp :=
  [OpAppend Written (entry "a"); OpReopen; OpAppend NoFile (entry "b"); OpAppend Written (entry "sk-abcdefgh1")].
Definition log : AuditLog := (audit_run ops).1.
Definition file : option (list ascii) := al_file log.
End AuditDemo.

Lemma written_audit_log_verifies_witness :
  @verify_chain AuditDemo.sha2 AuditDemo.codec AuditDemo.file = Ok tt.
Proof.
  exact (proj1 (@written_audit_log_verifies AuditDemo.sha2 AuditDemo.sha2_hex AuditDemo.codec AuditDemo.ops
    eq_refl)).
Defined.

Lemma one_entry_silences_the_audit_log_witness :
  let e := {| au_at := "t"; au_tool := "a"; au_side_effect := Read;
              au_target := "aws_secret_access_key" +:+ of_bytes ["226"; "134"; "146"]%char;
              au_outcome := "allowed"; au_detail := "ok"; au_bytes := 12; au_prev_hash := ""; au_hash := "" |} in
  let '(log', acked') :=
    @foldl _ _ (@audit_step AuditDemo.sha2 AuditDemo.codec) (AuditDemo.log, [])
      [OpAppend Written e; OpAppend Written (AuditDemo.entry "b")] in
  al_file log' = AuditDemo.file ∧ acked' = [].
Proof.
  apply (@one_entry_silences_the_audit_log AuditDemo.sha2 AuditDemo.sha2_hex AuditDemo.codec AuditDemo.log []).
  - vm_compute. reflexivity.
  - reflexivity.
  - by repeat constructor.
Defined.

