(* ===== verification/SqlRo.v ===== *)
(** * Read-only SQL sources and text bounds

    [crates/cd-core/src/connectors.rs] ([validate_readonly_sql]),
    [crates/cd-core/src/sql_ro.rs] (connection strings, settings, row limit) and
    [crates/cd-core/src/text.rs] (truncation at character boundaries). Query
    execution is the database drivers' and is not modelled. *)
From Stdlib Require Import ZArith Lia Ascii String.
From stdpp Require Import base tactics option list list_numbers sets strings.
From S2P Require Import Prelude RustStr TurnBudget.

Local Open Scope string_scope.
Local Open Scope list_scope.
Local Open Scope Z_scope.

(** ** The statement filter *)

Inductive SqlRejection :=
| EmptySql | MultipleStatements | KeywordBlocked (bad : string) | OnlySelect | WithNeedsSelect.

Definition BLOCKED : list string :=
  ["insert "; "update "; "delete "; "drop "; "alter "; "create "; "truncate "; "grant "; "revoke ";
   "copy "; "attach "; "pragma "; "into outfile"; "execute "; "call "].

Definition trim_end (s : string) : string := of_bytes (rev (trim_end_rev (rev (bytes s)))).

Section filter.
(** [str::to_lowercase], the Unicode mapping. *)
Context (to_lowercase : string → string).

Fixpoint blocked_in (lower : string) (bad : list string) : result SqlRejection unit :=
  match bad with
  | [] => Ok tt
  | b :: bad => if contains b lower then Err (KeywordBlocked b) else blocked_in lower bad
  end.

Definition validate_readonly_sql (sql : string) : result SqlRejection unit :=
  let s := trim sql in
  reject_if (is_empty s) EmptySql ≫= λ _,
  let lower := to_lowercase s in
  reject_if (contains ";" lower && contains ";" (trim_end lower) &&
             contains ";" (trim_end_matches ";" (trim_end lower))) MultipleStatements ≫= λ _,
  blocked_in lower BLOCKED ≫= λ _,
  let first := match head (split_whitespace lower) with Some w => w | None => EmptyString end in
  reject_if (negb (bool_decide (first = "select")) && negb (bool_decide (first = "with")))
    OnlySelect ≫= λ _,
  reject_if (bool_decide (first = "with") && negb (contains " select " lower) &&
             negb (contains (String LF "select ") lower) && negb (contains "select" lower))
    WithNeedsSelect.

Definition MAX_ROWS : Z := 50.
Definition with_row_limit (sql : string) : string :=
  let trimmed := trim (trim_end_matches ";" (trim sql)) in
  if existsb (λ w, bool_decide (w = "limit")) (split_whitespace (to_lowercase trimmed)) then trimmed
  else trimmed +:+ " LIMIT " +:+ decimal (MAX_ROWS + 1).
End filter.

(** ** Postgres connections *)

Record PostgresConnectConfig := {
  pg_host : string;
  pg_port : Z;
  pg_database : string;
  pg_user : string;
  pg_sslmode : string;
  pg_password : option string;
  pg_timeout_ms : Z;
}.

(** [s.replace(c, by)] for a character of one byte. *)
Definition replace_byte (c : ascii) (by_ : list ascii) (s : list ascii) : list ascii :=
  s ≫= λ a, if bool_decide (a = c) then by_ else [a].
Definition BACKSLASH : ascii := "092"%char.
Definition QUOTE : ascii := "039"%char.

Definition escape_conn_val (v : string) : string :=
  if is_empty v || any_whitespace (bytes v) ||
     existsb (λ c, bool_decide (c = QUOTE) || bool_decide (c = BACKSLASH)) (bytes v)
  then of_bytes ([QUOTE] ++
         replace_byte QUOTE [BACKSLASH; QUOTE] (replace_byte BACKSLASH [BACKSLASH; BACKSLASH] (bytes v)) ++
         [QUOTE])
  else v.

Definition postgres_dsn_sslmode (sslmode : string) : string :=
  let m := to_ascii_lowercase (trim sslmode) in
  if bool_decide (m = "disable") then "disable"
  else if bool_decide (m = "prefer") then "prefer"
  else if bool_decide (m ∈ ["require"; "verify-ca"; "verify-full"]) then "require"
  else "prefer".

Inductive PostgresTlsStack := NoTls | Rustls.
Definition postgres_tls_stack_for_sslmode (sslmode : string) : result string PostgresTlsStack :=
  let m := to_ascii_lowercase (trim sslmode) in
  if bool_decide (m = "disable") then Ok NoTls
  else if bool_decide (m ∈ ["prefer"; "require"; "verify-ca"; "verify-full"]) then Ok Rustls
  else Err m.

Definition connection_string (cfg : PostgresConnectConfig) : string :=
  "host=" +:+ escape_conn_val (pg_host cfg) +:+ " port=" +:+ decimal (pg_port cfg) +:+
  " dbname=" +:+ escape_conn_val (pg_database cfg) +:+ " user=" +:+ escape_conn_val (pg_user cfg) +:+
  " connect_timeout=" +:+ decimal (Z.max (pg_timeout_ms cfg / 1000) 1) +:+
  match pg_password cfg with
  | Some pw => " password=" +:+ escape_conn_val pw
  | None => EmptyString
  end +:+ " sslmode=" +:+ postgres_dsn_sslmode (pg_sslmode cfg).

Definition postgres_ro_session_sqls (timeout_ms : Z) : list string :=
  ["SET default_transaction_read_only = on";
   "SET statement_timeout = " +:+ decimal (clamp 100 120000 timeout_ms)].

(** The settings object as the typed reads of it: absent or of another type is
    [None]. *)
Record PostgresSettings := {
  ps_host : option string;
  ps_database : option string;
  ps_user : option string;
  ps_port : option Z;
  ps_sslmode : option string;
  ps_timeout_ms : option Z;
}.
Inductive SettingsError := MissingDatabase | EmptyDatabase | MissingUser.
Definition opt_or {A} (o : option A) (d : A) : A := match o with Some a => a | None => d end.
Definition DEFAULT_TIMEOUT_MS : Z := 5000.

Definition postgres_config_from_settings (s : PostgresSettings) (password : option string) :
    result SettingsError PostgresConnectConfig :=
  ok_or (ps_database s) MissingDatabase ≫= λ database,
  let database := trim database in
  reject_if (is_empty database) EmptyDatabase ≫= λ _,
  ok_or (ps_user s) MissingUser ≫= λ user,
  Ok {| pg_host := trim (opt_or (ps_host s) "127.0.0.1");
        pg_port := opt_or (ps_port s) 5432 mod 65536;
        pg_database := database; pg_user := trim user;
        pg_sslmode := opt_or (ps_sslmode s) "prefer"; pg_password := password;
        pg_timeout_ms := clamp 100 120000 (opt_or (ps_timeout_ms s) DEFAULT_TIMEOUT_MS) |}.

(** ** The libpq grammar of connection strings

    [key=value] pairs separated by whitespace; a value is quoted, or runs to the
    next whitespace; a backslash takes the next character literally. *)
Fixpoint conn_quoted (s : list ascii) : option (list ascii * list ascii) :=
  match s with
  | [] => None
  | c :: r =>
      if bool_decide (c = QUOTE) then Some ([], r)
      else if bool_decide (c = BACKSLASH) then
        match r with
        | [] => None
        | d :: r => '(v, t) ← conn_quoted r; Some (d :: v, t)
        end
      else '(v, t) ← conn_quoted r; Some (c :: v, t)
  end.
Fixpoint conn_simple (s : list ascii) : list ascii * list ascii :=
  match s with
  | [] => ([], [])
  | c :: r =>
      if ws1 c then ([], s)
      else if bool_decide (c = BACKSLASH) then
        match r with
        | [] => ([], [])
        | d :: r => let '(v, t) := conn_simple r in (d :: v, t)
        end
      else let '(v, t) := conn_simple r in (c :: v, t)
  end.
Fixpoint conn_keyword (s : list ascii) : option (list ascii * list ascii) :=
  match s with
  | [] => None
  | c :: r =>
      if ws1 c then None
      else if bool_decide (c = "="%char) then Some ([], r)
      else '(k, t) ← conn_keyword r; Some (c :: k, t)
  end.
Fixpoint skip_ws (s : list ascii) : list ascii :=
  match s with c :: r => if ws1 c then skip_ws r else s | [] => [] end.
Definition conn_value (s : list ascii) : option (list ascii * list ascii) :=
  match s with
  | c :: r =>
      if bool_decide (c = QUOTE) then conn_quoted r
      else let '(v, t) := conn_simple s in if bool_decide (v = []) then None else Some (v, t)
  | [] => None
  end.
Fixpoint conn_pairs (fuel : nat) (s : list ascii) : option (list (string * string)) :=
  match fuel with
  | O => None
  | S fuel =>
      match skip_ws s with
      | [] => Some []
      | s => '(k, r) ← conn_keyword s; '(v, r) ← conn_value r;
             ps ← conn_pairs fuel r; Some ((of_bytes k, of_bytes v) :: ps)
      end
  end.
Definition parse_conninfo (s : string) : option (list (string * string)) :=
  conn_pairs (S (length (bytes s))) (bytes s).

(** *** Escaping reads back *)

Definition escape_byte (a : ascii) : list ascii :=
  if bool_decide (a = BACKSLASH) then [BACKSLASH; BACKSLASH]
  else if bool_decide (a = QUOTE) then [BACKSLASH; QUOTE] else [a].

Lemma replace_both s :
  replace_byte QUOTE [BACKSLASH; QUOTE] (replace_byte BACKSLASH [BACKSLASH; BACKSLASH] s) = s ≫= escape_byte.
Proof.
  unfold replace_byte. induction s as [|a s IH]; [done|]. rewrite !bind_cons, bind_app, IH. f_equal.
  unfold escape_byte. case_bool_decide; [done|]. cbn. by case_bool_decide.
Qed.

Lemma conn_quoted_escaped v r : conn_quoted ((v ≫= escape_byte) ++ QUOTE :: r) = Some (v, r).
Proof.
  induction v as [|a v IH]; [done|]. rewrite bind_cons, <-(assoc_L (++)). unfold escape_byte at 1.
  case_bool_decide as Hb; [subst; cbn; by rewrite IH|].
  case_bool_decide as Hq; [subst; cbn; by rewrite IH|]. cbn [app conn_quoted].
  rewrite !bool_decide_eq_false_2 by done. by rewrite IH.
Qed.

Definition separated (r : list ascii) : Prop := ∀ c r', r = c :: r' → ws1 c = true.

Lemma conn_simple_plain v r :
  Forall (λ c, ws1 c = false ∧ c ≠ BACKSLASH) v → separated r → conn_simple (v ++ r) = (v, r).
Proof.
  intros Hv Hr. induction Hv as [|c v [Hw Hb] _ IH]; cbn.
  - destruct r as [|c r]; [done|]. cbn. by rewrite (Hr c r).
  - rewrite Hw, bool_decide_eq_false_2 by done. by rewrite IH.
Qed.

Lemma any_whitespace_false v : any_whitespace v = false → Forall (λ c, ws1 c = false) v.
Proof.
  induction v as [|a v IH]; [constructor|]. cbn. intros H. apply orb_false_iff in H as [H1 H2].
  apply orb_false_iff in H1 as [H1 _]. constructor; auto.
Qed.

Lemma conn_value_escaped v r :
  separated r → conn_value (bytes (escape_conn_val v) ++ r) = Some (bytes v, r).
Proof.
  intros Hr. unfold escape_conn_val. destruct (_ || _) eqn:E.
  - rewrite bytes_of_bytes, replace_both. cbn. rewrite <-(assoc_L (++)). apply conn_quoted_escaped.
  - apply orb_false_iff in E as [E Hq]. apply orb_false_iff in E as [He Hw].
    apply any_whitespace_false in Hw. apply existsb_false_Forall in Hq.
    apply bool_decide_eq_false in He.
    assert (Forall (λ c, ws1 c = false ∧ c ≠ BACKSLASH) (bytes v)) as Hv.
    { apply Forall_and. split; [done|]. eapply Forall_impl; [exact Hq|]. intros c Hc. cbn in Hc.
      apply orb_false_iff in Hc as [_ ?%bool_decide_eq_false]. done. }
    destruct (bytes v) as [|c s] eqn:Ev; [destruct He; by apply (inj bytes)|].
    inversion Hq as [|?? Hc]; subst. cbn in Hc. apply orb_false_iff in Hc as [Hc _].
    unfold conn_value. cbn [app]. rewrite Hc. change (c :: s ++ r) with ((c :: s) ++ r).
    by rewrite conn_simple_plain.
Qed.

(** A keyword made of letters and underscores. *)
Definition keyword_ok (k : list ascii) : bool :=
  forallb (λ c, negb (ws1 c) && negb (bool_decide (c = "="%char))) k && negb (bool_decide (k = [])).

Lemma conn_keyword_ok k r : keyword_ok k = true → conn_keyword (k ++ "="%char :: r) = Some (k, r).
Proof.
  unfold keyword_ok. intros [Hk _]%andb_true_iff. induction k as [|c k IH]; [done|]. cbn in *.
  apply andb_true_iff in Hk as [Hc Hk]. apply andb_true_iff in Hc as [Hw He].
  apply negb_true_iff in Hw, He. rewrite Hw, He. by rewrite IH.
Qed.

Lemma conn_pairs_step fuel sp k v r :
  Forall (λ c, ws1 c = true) sp → keyword_ok k = true → separated r →
  conn_pairs (S fuel) (sp ++ k ++ "="%char :: bytes (escape_conn_val v) ++ r) =
  ps ← conn_pairs fuel r; Some ((of_bytes k, v) :: ps).
Proof.
  intros Hsp Hk Hr. assert (skip_ws (sp ++ k ++ "="%char :: bytes (escape_conn_val v) ++ r) =
    k ++ "="%char :: bytes (escape_conn_val v) ++ r) as Hskip.
  { induction Hsp as [|c sp Hc _ IH]; cbn; [|by rewrite Hc].
    unfold keyword_ok in Hk. destruct k as [|c k]; [done|]. cbn in *. split_bool.
    by destruct (ws1 c). }
  cbn [conn_pairs]. rewrite Hskip. destruct (k ++ _) as [|c s] eqn:E; [by destruct k|].
  rewrite <-E, conn_keyword_ok by done. cbn [mbind option_bind].
  rewrite conn_value_escaped by done. cbn [mbind option_bind]. by rewrite of_bytes_bytes.
Qed.

Lemma conn_pairs_mono n m s ps : conn_pairs n s = Some ps → (n ≤ m)%nat → conn_pairs m s = Some ps.
Proof.
  revert m s ps. induction n as [|n IH]; intros [|m] s ps; cbn [conn_pairs]; try done; [lia|].
  intros H Hle. destruct (skip_ws s); [done|].
  apply bind_Some in H as ([k r] & Hk & H). apply bind_Some in H as ([v r'] & Hv & H).
  apply bind_Some in H as (qs & Hq & H). rewrite Hk. cbn. rewrite Hv. cbn.
  rewrite (IH m _ _ Hq) by lia. done.
Qed.

(** Digits need no quotes. *)
Lemma escape_digits s :
  Forall (λ c, is_ascii_digit c = true) (bytes s) → bytes s ≠ [] → escape_conn_val s = s.
Proof.
  intros Hd Hne. unfold escape_conn_val.
  assert (is_empty s = false) as -> by (apply bool_decide_eq_false; by intros ->).
  assert (∀ c, is_ascii_digit c = true → 48 ≤ bv c ≤ 57) as Hrange.
  { intros c. unfold is_ascii_digit, in_range. intros. split_bool. lia. }
  assert (any_whitespace (bytes s) = false) as ->.
  { clear Hne. induction Hd as [|c l Hc _ IH]; [done|]. cbn. rewrite IH.
    pose proof (digit_plain c Hc) as Hp.
    destruct l as [|d [|e l]]; [by rewrite (proj1 (ws_plain_first c c c Hp))|..].
    - destruct (ws_plain_first c d d Hp) as (-> & -> & _). done.
    - destruct (ws_plain_first c d e Hp) as (-> & -> & ->). done. }
  assert (existsb (λ c, bool_decide (c = QUOTE) || bool_decide (c = BACKSLASH)) (bytes s) = false) as ->; [|done].
  apply existsb_false_Forall. eapply Forall_impl; [exact Hd|]. intros c Hc%Hrange. cbn.
  rewrite !bool_decide_eq_false_2; [done|intros ->; vm_compute in Hc; destruct Hc; congruence..].
Qed.

Lemma escape_decimal n : 0 ≤ n ≤ u64_max → escape_conn_val (decimal n) = decimal n.
Proof.
  intros Hn. destruct (decimal_bytes_spec n Hn) as (_ & Hd & Hne). unfold decimal.
  apply escape_digits; by rewrite bytes_of_bytes.
Qed.

Lemma escape_sslmode m : escape_conn_val (postgres_dsn_sslmode m) = postgres_dsn_sslmode m.
Proof. unfold postgres_dsn_sslmode. repeat case_bool_decide; done. Qed.

Lemma separated_nil : separated [].
Proof. by intros c r. Qed.
Lemma separated_space r : separated (" "%char :: r).
Proof. by intros c r' [= <- _]. Qed.

(** What the connection string is meant to say. *)
Definition conn_fields (cfg : PostgresConnectConfig) : list (string * string) :=
  [("host", pg_host cfg); ("port", decimal (pg_port cfg)); ("dbname", pg_database cfg);
   ("user", pg_user cfg); ("connect_timeout", decimal (Z.max (pg_timeout_ms cfg / 1000) 1))] ++
  match pg_password cfg with Some pw => [("password", pw)] | None => [] end ++
  [("sslmode", postgres_dsn_sslmode (pg_sslmode cfg))].

(** The bytes of the connection string for a list of pairs. *)
Fixpoint conn_render (ps : list (string * string)) : list ascii :=
  match ps with
  | [] => []
  | (k, v) :: ps => " "%char :: bytes k ++ "="%char :: bytes (escape_conn_val v) ++ conn_render ps
  end.

Lemma conn_render_parses ps :
  Forall (λ kv, keyword_ok (bytes kv.1) = true) ps →
  conn_pairs (S (length ps)) (conn_render ps) = Some ps.
Proof.
  induction 1 as [|[k v] ps Hk _ IH]; [done|]. cbn [conn_render length].
  change (" "%char :: ?x) with ([" "%char] ++ x). rewrite conn_pairs_step; [|by repeat constructor|done|].
  - rewrite IH. cbn. by rewrite of_bytes_bytes.
  - destruct ps as [|[k' v'] ps]; [apply separated_nil|apply separated_space].
Qed.

Lemma connection_string_bytes cfg :
  0 ≤ pg_port cfg ≤ u64_max → 0 ≤ pg_timeout_ms cfg ≤ u64_max →
  " "%char :: bytes (connection_string cfg) = conn_render (conn_fields cfg).
Proof.
  intros Hp Ht. unfold connection_string, conn_fields.
  assert (0 ≤ Z.max (pg_timeout_ms cfg / 1000) 1 ≤ u64_max) as Ht'.
  { split; [lia|]. apply Z.max_lub; [|vm_compute; congruence].
    etrans; [apply Z.div_le_upper_bound with (q := pg_timeout_ms cfg); lia|lia]. }
  destruct (pg_password cfg) as [pw|]; cbn [app conn_render].
  all: rewrite !escape_decimal, escape_sslmode by done.
  all: rewrite !bytes_app, app_nil_r; reflexivity.
Qed.

(** ** Claims *)



(** *** The statement filter *)

(** The one-word entries of the deny list, without their space. *)
Definition WRITE_KEYWORDS : list string :=
  ["insert"; "update"; "delete"; "drop"; "alter"; "create"; "truncate"; "grant"; "revoke"; "copy";
   "attach"; "pragma"; "execute"; "call"].
(** A common table expression that runs [keyword], followed by [sep]. *)
Definition cte (keyword sep : string) : string :=
  "with d as (" +:+ keyword +:+ sep +:+ "from users returning id) select id from d".

(** The deny list only knows a keyword followed by a space: a statement that
    carries any of the blocked keywords in a common table expression is refused
    when a space follows the keyword and accepted when a line feed or a tab does,
    although the filter is meant to admit a single SELECT only. *)
Theorem readonly_filter_misses_keywords_before_newlines :
  Forall (λ k,
    validate_readonly_sql to_ascii_lowercase (cte k " ") = Err (KeywordBlocked (k +:+ " ")) ∧
    validate_readonly_sql to_ascii_lowercase (cte k (String LF "")) = Ok tt ∧
    validate_readonly_sql to_ascii_lowercase (cte k (String "009" "")) = Ok tt) WRITE_KEYWORDS.
Proof. repeat constructor; vm_compute; reflexivity. Qed.
