(* ===== verification/Suppression.v ===== *)
(** * Suppression rules

    [cd-core/src/log_analysis/suppression.rs]: the durable rules that hide events of an
    exact template from the views of a log corpus. A rule is previewed, activated by a
    person and can be disabled, re-enabled and removed; the document is published as a
    sidecar file by an atomic rename, under a lock, with an append-only audit.

    The corpus is seen at moments ([nat → LogCorpus]): between two looks other threads
    may have appended events or analysed templates anew. [None] is a panic; it poisons
    the process-wide lock, which is part of the state. Errors are their texts. The
    queries of the event database are fields of the corpus, [serde_json] and [uuid] the
    class [SidecarCodec]. Paths are those of Unix. *)
From Stdlib Require Import ZArith Lia Ascii String.
From stdpp Require Import base tactics option list list_numbers sets gmap sorting strings.
From S2P Require Import Prelude RustStr BTree Display Redact.

Local Open Scope string_scope.
Local Open Scope list_scope.
Local Open Scope Z_scope.

(** ** Bounds *)

Definition i64_max : Z := 9223372036854775807.
Definition SUPPRESSION_SCHEMA_VERSION : Z := 1.
Definition MAX_SUPPRESSION_RULES : Z := 1024.
Definition MAX_SUPPRESSION_AUDIT_ENTRIES : Z := 4096.
Definition MAX_SUPPRESSION_PREVIEWS : Z := 16.
Definition MAX_SUPPRESSION_REPRESENTATIVES : Z := 3.
Definition MAX_SUPPRESSION_LEVEL_BUCKETS : Z := 32.
Definition MAX_SIDECAR_BYTES : Z := 8 * 1024 * 1024.
Definition MAX_CORPUS_ID_BYTES : Z := 128.
Definition MAX_RULE_NAME_BYTES : Z := 128.
Definition MAX_RULE_RATIONALE_BYTES : Z := 2048.
Definition MAX_TEMPLATE_FINGERPRINT_BYTES : Z := 256.
Definition MAX_SOURCE_IDENTITY_BYTES : Z := 1024.
Definition MAX_LEVEL_BYTES : Z := 64.
Definition MAX_REDACTED_EXCERPT_BYTES : Z := 1024.
Definition MAX_RESOLUTION_ATTEMPTS : nat := 3.

(** ** Rules, previews, audit *)

Inductive SuppressionRuleOrigin := Human | DetectorProposal | ModelProposal.
Inductive SuppressionRuleState := Enabled | Disabled | Removed.
Inductive SuppressionRuleResolutionKind :=
| MatchesCurrent | StaleTargetMissing | StaleFingerprintChanged | InvalidPredicate | ConflictingPredicate | Inactive.
Inductive SuppressionAuditAction := APreviewed | AActivated | ADisabled | AReenabled | ARemoved.
Inductive SuppressionRuleMutation := MDisable | MReenable | MRemove.
Inductive TimeQuality := Wall | Mixed | QOrderOnly.
#[global] Instance SuppressionRuleOrigin_eq_dec : EqDecision SuppressionRuleOrigin.
Proof. solve_decision. Defined.
#[global] Instance SuppressionRuleState_eq_dec : EqDecision SuppressionRuleState.
Proof. solve_decision. Defined.
#[global] Instance SuppressionRuleResolutionKind_eq_dec : EqDecision SuppressionRuleResolutionKind.
Proof. solve_decision. Defined.
#[global] Instance SuppressionAuditAction_eq_dec : EqDecision SuppressionAuditAction.
Proof. solve_decision. Defined.
#[global] Instance SuppressionRuleMutation_eq_dec : EqDecision SuppressionRuleMutation.
Proof. solve_decision. Defined.
#[global] Instance TimeQuality_eq_dec : EqDecision TimeQuality.
Proof. solve_decision. Defined.

Record SuppressionTemplatePredicate := { sp_template_id : Z; sp_template_fingerprint : string }.
Record SuppressionRuleResolution := {
  rs_kind : SuppressionRuleResolutionKind; rs_matches_nothing : bool; rs_explanation : string;
}.
Record SuppressionLevelCount := { lv_level : string; lv_count : Z }.
Record SuppressionTimeSpan := { ts_from : Z; ts_to : Z }.
Record SuppressionRepresentativeEvent := {
  re_seq : Z; re_source : string; re_timestamp : Z; re_time_quality : TimeQuality; re_level : string;
  re_redacted_excerpt : string;
}.
Record NewSuppressionPreview := {
  np_name : string; np_rationale : string; np_template_id : Z; np_origin : SuppressionRuleOrigin;
}.
Record SuppressionPreview := {
  pv_token : string; pv_corpus_id : string; pv_event_revision : Z; pv_rule_revision : Z; pv_name : string;
  pv_rationale : string; pv_predicate : SuppressionTemplatePredicate; pv_origin : SuppressionRuleOrigin;
  pv_matching_event_count : Z; pv_incremental_event_count : Z; pv_corpus_event_count : Z;
  pv_level_counts : list SuppressionLevelCount; pv_source_count : Z; pv_time_span : SuppressionTimeSpan;
  pv_representatives : list SuppressionRepresentativeEvent; pv_created_at : Z;
}.
Record SuppressionRule := {
  ru_id : string; ru_name : string; ru_rationale : string; ru_predicate : SuppressionTemplatePredicate;
  ru_origin : SuppressionRuleOrigin; ru_state : SuppressionRuleState; ru_created_at : Z; ru_updated_at : Z;
  ru_resolution : option SuppressionRuleResolution;
}.
Record SuppressionAuditEntry := {
  ae_id : string; ae_revision : Z; ae_action : SuppressionAuditAction; ae_rule_id : option string;
  ae_preview_token : option string; ae_created_at : Z;
}.
Record SuppressionDocument := {
  sd_schema_version : Z; sd_corpus_id : string; sd_revision : Z; sd_rules : list SuppressionRule;
  sd_previews : list SuppressionPreview; sd_audit : list SuppressionAuditEntry;
  sd_resolved_template_revision : option Z;
}.
Record SuppressionMutationResult := { mr_revision : Z; mr_rule : SuppressionRule }.

#[global] Instance SuppressionTemplatePredicate_eq_dec : EqDecision SuppressionTemplatePredicate.
Proof. solve_decision. Defined.
#[global] Instance SuppressionRuleResolution_eq_dec : EqDecision SuppressionRuleResolution.
Proof. solve_decision. Defined.
#[global] Instance SuppressionLevelCount_eq_dec : EqDecision SuppressionLevelCount.
Proof. solve_decision. Defined.
#[global] Instance SuppressionTimeSpan_eq_dec : EqDecision SuppressionTimeSpan.
Proof. solve_decision. Defined.
#[global] Instance SuppressionRepresentativeEvent_eq_dec : EqDecision SuppressionRepresentativeEvent.
Proof. solve_decision. Defined.
#[global] Instance SuppressionPreview_eq_dec : EqDecision SuppressionPreview.
Proof. solve_decision. Defined.
#[global] Instance SuppressionRule_eq_dec : EqDecision SuppressionRule.
Proof. solve_decision. Defined.
#[global] Instance SuppressionAuditEntry_eq_dec : EqDecision SuppressionAuditEntry.
Proof. solve_decision. Defined.
#[global] Instance SuppressionDocument_eq_dec : EqDecision SuppressionDocument.
Proof. solve_decision. Defined.

Definition empty_document (corpus_id : string) : SuppressionDocument :=
  {| sd_schema_version := SUPPRESSION_SCHEMA_VERSION; sd_corpus_id := corpus_id; sd_revision := 0; sd_rules := [];
     sd_previews := []; sd_audit := []; sd_resolved_template_revision := None |}.

(** ** The outside *)

(** [serde_json] and [uuid]; [document_from_slice] reads the empty resolution of a rule
    and the empty resolved revision when they are absent. *)
Class SidecarCodec := {
  document_from_slice : list ascii → result string SuppressionDocument;
  document_to_vec : SuppressionDocument → result string (list ascii);
  (** [Uuid::parse_str] succeeds and the version is [SortRand] *)
  is_uuid_v7 : string → bool;
}.

(** A row of the query for representatives. *)
Record RepresentativeRow := {
  rw_seq : Z; rw_timestamp : Z; rw_level : string; rw_message : string; rw_source : string;
  rw_active_basis : option string;
}.
(** The corpus at one moment: its two revisions, the template identities and counts,
    and what the queries of [compute_preview_facts] return. *)
Record LogCorpus := {
  lc_event_revision : Z;
  lc_template_analysis_revision : Z;
  lc_template_identities : gmap Z string;
  lc_template_counts : list (Z * Z);
  lc_event_count : result string Z;
  lc_match_summary : Z → result string (Z * Z * option Z * option Z);
  lc_level_rows : Z → result string (list (result string (string * Z)));
  lc_representative_rows : Z → result string (list (result string RepresentativeRow));
}.

(** What is found at the name of the sidecar, and what reading it gives: the length
    before and after, the bytes, and the metadata that identify it. *)
Record SidecarFile := {
  sf_open : result string unit; sf_metadata : result string unit; sf_len : Z; sf_bytes : result string (list ascii);
  sf_metadata_after : result string unit; sf_len_after : Z; sf_modified_ns : option Z; sf_device : Z; sf_inode : Z;
}.
Inductive SidecarEntry :=
| NoEntry | NotRegular (open_error : string) | Unreadable (error : string) | Regular (f : SidecarFile).

(** ** Text *)

Definition validate_bounded_text (kind value : string) (max_bytes : Z) : result string unit :=
  reject_if (is_empty (trim value) || (max_bytes <? str_len value))
    (kind +:+ " must contain 1..=" +:+ decimal max_bytes +:+ " nonblank UTF-8 bytes") ≫= λ _,
  reject_if (any_control (bytes value)) (kind +:+ " contains unsupported control characters").

Definition validate_optional_bounded_text (kind value : string) (max_bytes : Z) : result string unit :=
  reject_if (max_bytes <? str_len value) (kind +:+ " exceeds " +:+ decimal max_bytes +:+ " UTF-8 bytes") ≫= λ _,
  reject_if (existsb (λ c, is_control c && negb (bool_decide (c ∈ [ch [10]; ch [13]; ch [9]]))) (chars_of (bytes value)))
    (kind +:+ " contains unsupported control characters").

(** [s.split(p)] *)
Fixpoint split_by (p : ascii → bool) (cur s : list ascii) : list (list ascii) :=
  match s with
  | [] => [rev cur]
  | a :: r => if p a then rev cur :: split_by p [] r else split_by p (a :: cur) r
  end.
Definition is_slash (a : ascii) : bool := bool_decide (a = "/"%char).
Definition is_separator (a : ascii) : bool := is_slash a || bool_decide (a = "\"%char).
Definition is_ascii_alphabetic (c : ascii) : bool := in_range 65 90 c || in_range 97 122 c.
Definition windows_absolute (s : list ascii) : bool :=
  match s with
  | a :: b :: c :: _ => is_ascii_alphabetic a && bool_decide (b = ":"%char) && is_separator c
  | _ => false
  end.
Definition first_is (p : ascii → bool) (s : list ascii) : bool := match s with a :: _ => p a | [] => false end.
Definition has_parent (p : ascii → bool) (s : list ascii) : bool :=
  existsb (λ component, bool_decide (component = bytes "..")) (split_by p [] s).
Definition validate_source_identity (source : string) : result string unit :=
  validate_bounded_text "suppression representative source" source MAX_SOURCE_IDENTITY_BYTES ≫= λ _,
  let s := bytes source in
  reject_if (first_is is_slash s || first_is is_separator s || windows_absolute s || has_parent is_separator s ||
             (has_parent is_slash s || first_is is_slash s))
    "suppression representative source must be a relative identity".

(** [truncate_utf8_bytes] *)
Fixpoint truncate_go (max_bytes : Z) (output : list ascii) (cs : list (list ascii)) : list ascii :=
  match cs with
  | [] => output
  | c :: rest =>
      if max_bytes <? saturating_add usize_max (zlen output) (zlen c) then output
      else truncate_go max_bytes (output ++ c) rest
  end.
Definition truncate_utf8_bytes (value : list ascii) (max_bytes : Z) : list ascii :=
  if zlen value <=? max_bytes then value else truncate_go max_bytes [] (chars_of value).

(** ** Rules and previews *)

Definition template_id_ok (id : Z) : bool := negb ((id =? 0) || (i64_max <? id)).
Definition validate_predicate (p : SuppressionTemplatePredicate) : result string unit :=
  reject_if (negb (template_id_ok (sp_template_id p))) "suppression template id must be within 1..=i64::MAX" ≫= λ _,
  validate_bounded_text "suppression template fingerprint" (sp_template_fingerprint p) MAX_TEMPLATE_FINGERPRINT_BYTES.
Definition validate_rule_metadata (name rationale : string) : result string unit :=
  validate_bounded_text "suppression rule name" name MAX_RULE_NAME_BYTES ≫= λ _,
  validate_bounded_text "suppression rule rationale" rationale MAX_RULE_RATIONALE_BYTES.
Definition validate_rule_fields (name rationale : string) (p : SuppressionTemplatePredicate) : result string unit :=
  validate_rule_metadata name rationale ≫= λ _, validate_predicate p.
Definition validate_preview_input (input : NewSuppressionPreview) : result string unit :=
  validate_bounded_text "suppression rule name" (np_name input) MAX_RULE_NAME_BYTES ≫= λ _,
  validate_bounded_text "suppression rule rationale" (np_rationale input) MAX_RULE_RATIONALE_BYTES ≫= λ _,
  reject_if (negb (template_id_ok (np_template_id input))) "suppression template id is outside the supported range".

(** The loop over the levels: the levels seen and the total so far. *)
Fixpoint check_levels (levels : list string) (total : Z) (buckets : list SuppressionLevelCount) : result string Z :=
  match buckets with
  | [] => Ok total
  | b :: rest =>
      validate_bounded_text "suppression level" (lv_level b) MAX_LEVEL_BYTES ≫= λ _,
      reject_if (lv_count b =? 0) "suppression level counts must be positive" ≫= λ _,
      reject_if (bool_decide (to_ascii_lowercase (lv_level b) ∈ levels)) "suppression level distribution repeats a level" ≫= λ _,
      ok_or (checked_add u64_max total (lv_count b)) "suppression level count overflow" ≫= λ total,
      check_levels (to_ascii_lowercase (lv_level b) :: levels) total rest
  end.
Fixpoint check_representatives (seqs : list Z) (rs : list SuppressionRepresentativeEvent) : result string unit :=
  match rs with
  | [] => Ok tt
  | r :: rest =>
      reject_if (bool_decide (re_seq r ∈ seqs)) "suppression preview repeats a representative event" ≫= λ _,
      validate_source_identity (re_source r) ≫= λ _,
      validate_bounded_text "suppression representative level" (re_level r) MAX_LEVEL_BYTES ≫= λ _,
      validate_optional_bounded_text "suppression redacted excerpt" (re_redacted_excerpt r) MAX_REDACTED_EXCERPT_BYTES ≫= λ _,
      check_representatives (re_seq r :: seqs) rest
  end.
Definition validate_preview_facts (matching incremental corpus_events : Z) (levels : list SuppressionLevelCount)
    (sources : Z) (span : SuppressionTimeSpan) (representatives : list SuppressionRepresentativeEvent) :
    result string unit :=
  reject_if ((matching =? 0) || (corpus_events <? matching))
    "suppression preview matches must be within 1..=corpus event count" ≫= λ _,
  reject_if (matching <? incremental) "suppression incremental count exceeds matching count" ≫= λ _,
  reject_if ((sources =? 0) || (matching <? sources)) "suppression source count must be within 1..=matching count" ≫= λ _,
  reject_if (ts_to span <? ts_from span) "suppression preview time span is reversed" ≫= λ _,
  reject_if (bool_decide (levels = []) || (MAX_SUPPRESSION_LEVEL_BUCKETS <? zlen levels))
    ("suppression level distribution must contain 1..=" +:+ decimal MAX_SUPPRESSION_LEVEL_BUCKETS +:+ " buckets") ≫= λ _,
  check_levels [] 0 levels ≫= λ total,
  reject_if (negb (total =? matching)) "suppression level distribution does not equal matching count" ≫= λ _,
  reject_if (bool_decide (representatives = []) || (MAX_SUPPRESSION_REPRESENTATIVES <? zlen representatives))
    ("suppression preview must contain 1..=" +:+ decimal MAX_SUPPRESSION_REPRESENTATIVES +:+ " representatives") ≫= λ _,
  check_representatives [] representatives.
Definition validate_preview_fields (p : SuppressionPreview) : result string unit :=
  validate_rule_fields (pv_name p) (pv_rationale p) (pv_predicate p) ≫= λ _,
  validate_preview_facts (pv_matching_event_count p) (pv_incremental_event_count p) (pv_corpus_event_count p)
    (pv_level_counts p) (pv_source_count p) (pv_time_span p) (pv_representatives p).

(** ** Revisions and the audit reserve *)

Definition require_revision (d : SuppressionDocument) (expected : Z) : result string unit :=
  reject_if (negb (sd_revision d =? expected))
    ("stale suppression revision: expected " +:+ decimal expected +:+ ", current " +:+ decimal (sd_revision d)).
Definition next_revision (current : Z) : result string Z :=
  ok_or (checked_add u64_max current 1) "suppression revision overflow".
Definition reserve_of (s : SuppressionRuleState) : Z := match s with Enabled => 2 | Disabled => 1 | Removed => 0 end.
Fixpoint reversal_audit_reserve_go (reserve : Z) (states : list SuppressionRuleState) : result string Z :=
  match states with
  | [] => Ok reserve
  | s :: rest =>
      ok_or (checked_add usize_max reserve (reserve_of s)) "suppression audit reserve overflow" ≫= λ reserve,
      reversal_audit_reserve_go reserve rest
  end.
Definition reversal_audit_reserve_states (states : list SuppressionRuleState) : result string Z :=
  reversal_audit_reserve_go 0 states.
Definition reversal_audit_reserve (rules : list SuppressionRule) : result string Z :=
  reversal_audit_reserve_states (ru_state <$> rules).
Definition ensure_audit_capacity_for (d : SuppressionDocument) (entries reserve_after : Z) : result string unit :=
  ok_or (checked_add usize_max (zlen (sd_audit d)) entries ≫= λ v, checked_add usize_max v reserve_after)
    "suppression audit capacity overflow" ≫= λ required,
  reject_if (MAX_SUPPRESSION_AUDIT_ENTRIES <? required)
    ("suppression audit cannot publish this operation: " +:+ decimal required +:+
     " entries including lifecycle reserve exceeds " +:+ decimal MAX_SUPPRESSION_AUDIT_ENTRIES).

(** ** Documents *)

Definition forget_resolution (r : SuppressionRule) : SuppressionRule :=
  {| ru_id := ru_id r; ru_name := ru_name r; ru_rationale := ru_rationale r; ru_predicate := ru_predicate r;
     ru_origin := ru_origin r; ru_state := ru_state r; ru_created_at := ru_created_at r; ru_updated_at := ru_updated_at r;
     ru_resolution := None |}.
Definition clear_ephemeral_resolution (d : SuppressionDocument) : SuppressionDocument :=
  {| sd_schema_version := sd_schema_version d; sd_corpus_id := sd_corpus_id d; sd_revision := sd_revision d;
     sd_rules := forget_resolution <$> sd_rules d; sd_previews := sd_previews d; sd_audit := sd_audit d;
     sd_resolved_template_revision := None |}.

Section suppression.
Context `{SidecarCodec}.

Definition validate_uuid_v7 (kind value : string) : result string unit :=
  reject_if (negb (is_uuid_v7 value)) (kind +:+ " must be a UUIDv7").

Fixpoint check_rules (ids : list string) (rules : list SuppressionRule) : result string unit :=
  match rules with
  | [] => Ok tt
  | r :: rest =>
      validate_uuid_v7 "suppression rule id" (ru_id r) ≫= λ _,
      reject_if (bool_decide (ru_id r ∈ ids)) ("suppression sidecar repeats rule id " +:+ ru_id r) ≫= λ _,
      validate_rule_metadata (ru_name r) (ru_rationale r) ≫= λ _,
      reject_if (ru_updated_at r <? ru_created_at r)
        ("suppression rule " +:+ ru_id r +:+ " updated_at precedes created_at") ≫= λ _,
      reject_if (bool_decide (ru_state r = Enabled) && negb (bool_decide (ru_origin r = Human)))
        "enabled suppression rules must be human-authored" ≫= λ _,
      check_rules (ru_id r :: ids) rest
  end.
Fixpoint check_previews (corpus_id : string) (revision : Z) (tokens : list string) (ps : list SuppressionPreview) :
    result string unit :=
  match ps with
  | [] => Ok tt
  | p :: rest =>
      validate_uuid_v7 "suppression preview token" (pv_token p) ≫= λ _,
      reject_if (bool_decide (pv_token p ∈ tokens)) ("suppression sidecar repeats preview token " +:+ pv_token p) ≫= λ _,
      reject_if (negb (bool_decide (pv_corpus_id p = corpus_id))) "suppression preview belongs to another corpus" ≫= λ _,
      reject_if ((pv_rule_revision p =? 0) || (revision <? pv_rule_revision p))
        "suppression preview has an invalid rule revision" ≫= λ _,
      validate_preview_fields p ≫= λ _,
      check_previews corpus_id revision (pv_token p :: tokens) rest
  end.
Definition optional_uuid (kind : string) (o : option string) : result string unit :=
  match o with Some value => validate_uuid_v7 kind value | None => Ok tt end.
Fixpoint check_audit (revision : Z) (ids : list string) (previous : Z) (es : list SuppressionAuditEntry) :
    result string unit :=
  match es with
  | [] => Ok tt
  | e :: rest =>
      validate_uuid_v7 "suppression audit id" (ae_id e) ≫= λ _,
      reject_if (bool_decide (ae_id e ∈ ids)) ("suppression sidecar repeats audit id " +:+ ae_id e) ≫= λ _,
      reject_if ((ae_revision e =? 0) || (ae_revision e <=? previous) || (revision <? ae_revision e))
        "suppression audit revisions must be strictly increasing and published" ≫= λ _,
      optional_uuid "suppression audit rule id" (ae_rule_id e) ≫= λ _,
      optional_uuid "suppression audit preview token" (ae_preview_token e) ≫= λ _,
      check_audit revision (ae_id e :: ids) (ae_revision e) rest
  end.

Definition is_nil {A} (l : list A) : bool := match l with [] => true | _ => false end.
Definition validate_document (d : SuppressionDocument) (expected_corpus_id : string) : result string unit :=
  reject_if (SUPPRESSION_SCHEMA_VERSION <? sd_schema_version d)
    ("suppression schema version " +:+ decimal (sd_schema_version d) +:+ " is newer than supported version " +:+
     decimal SUPPRESSION_SCHEMA_VERSION) ≫= λ _,
  reject_if (negb (sd_schema_version d =? SUPPRESSION_SCHEMA_VERSION))
    ("suppression schema version " +:+ decimal (sd_schema_version d) +:+ " is unsupported") ≫= λ _,
  validate_bounded_text "corpus id" (sd_corpus_id d) MAX_CORPUS_ID_BYTES ≫= λ _,
  reject_if (negb (bool_decide (sd_corpus_id d = expected_corpus_id)))
    "suppression sidecar corpus id does not match its corpus" ≫= λ _,
  reject_if (MAX_SUPPRESSION_RULES <? zlen (sd_rules d))
    ("suppression sidecar exceeds " +:+ decimal MAX_SUPPRESSION_RULES +:+ " rules") ≫= λ _,
  reject_if (MAX_SUPPRESSION_PREVIEWS <? zlen (sd_previews d))
    ("suppression sidecar exceeds " +:+ decimal MAX_SUPPRESSION_PREVIEWS +:+ " previews") ≫= λ _,
  reject_if (MAX_SUPPRESSION_AUDIT_ENTRIES <? zlen (sd_audit d))
    ("suppression sidecar exceeds " +:+ decimal MAX_SUPPRESSION_AUDIT_ENTRIES +:+ " audit entries") ≫= λ _,
  check_rules [] (sd_rules d) ≫= λ _,
  reversal_audit_reserve (sd_rules d) ≫= λ reserve,
  ensure_audit_capacity_for d 0 reserve ≫= λ _,
  check_previews (sd_corpus_id d) (sd_revision d) [] (sd_previews d) ≫= λ _,
  check_audit (sd_revision d) [] 0 (sd_audit d) ≫= λ _,
  reject_if ((sd_revision d =? 0) && (negb (is_nil (sd_rules d)) || negb (is_nil (sd_previews d)) || negb (is_nil (sd_audit d))))
    "revision-zero suppression document must be empty" ≫= λ _,
  reject_if ((0 <? sd_revision d) &&
             match last (sd_audit d) with None => true | Some e => negb (ae_revision e =? sd_revision d) end)
    "suppression document revision must match its latest audit entry".

(** ** Reading and publishing the sidecar *)

Definition open_failure (e : string) : string := "open suppression sidecar without following links: " +:+ e.
Definition read_sidecar (f : SidecarFile) : result string (list ascii) :=
  map_err open_failure (sf_open f) ≫= λ _,
  map_err (λ e, "inspect suppression sidecar: " +:+ e) (sf_metadata f) ≫= λ _,
  reject_if (MAX_SIDECAR_BYTES <? sf_len f) ("suppression sidecar exceeds " +:+ decimal MAX_SIDECAR_BYTES +:+ " bytes") ≫= λ _,
  map_err (λ e, "read suppression sidecar: " +:+ e) (sf_bytes f) ≫= λ content,
  let read := take (Z.to_nat (MAX_SIDECAR_BYTES + 1)) content in
  reject_if (MAX_SIDECAR_BYTES <? zlen read) ("suppression sidecar exceeds " +:+ decimal MAX_SIDECAR_BYTES +:+ " bytes") ≫= λ _,
  map_err (λ e, "reinspect suppression sidecar: " +:+ e) (sf_metadata_after f) ≫= λ _,
  reject_if (negb (sf_len_after f =? sf_len f)) "suppression sidecar changed while it was being read" ≫= λ _,
  Ok read.
Definition parse_sidecar (corpus_id : string) (content : list ascii) : result string SuppressionDocument :=
  map_err (λ e, "parse suppression sidecar: " +:+ e) (document_from_slice content) ≫= λ parsed,
  let d := clear_ephemeral_resolution parsed in
  validate_document d corpus_id ≫= λ _, Ok d.
Definition load_document_from_root (root : result string unit) (corpus_id : string) (entry : SidecarEntry) :
    result string SuppressionDocument :=
  root ≫= λ _,
  validate_bounded_text "corpus id" corpus_id MAX_CORPUS_ID_BYTES ≫= λ _,
  match entry with
  | NoEntry => Ok (empty_document corpus_id)
  | NotRegular e | Unreadable e => Err (open_failure e)
  | Regular f => read_sidecar f ≫= parse_sidecar corpus_id
  end.

Definition reject_unsafe_existing_sidecar (entry : SidecarEntry) : result string unit :=
  match entry with
  | NotRegular _ => Err "suppression sidecar must be a regular non-symlink file"
  | Unreadable e => Err ("inspect suppression sidecar: " +:+ e)
  | NoEntry | Regular _ => Ok tt
  end.

(** Which steps of a publication fail, and the metadata of the file it creates. *)
Record Publication := {
  pb_create : result string unit; pb_write : result string unit; pb_persist : result string unit;
  pb_sync : result string unit; pb_sync_directory : result string unit;
  pb_modified_ns : option Z; pb_device : Z; pb_inode : Z;
}.
Definition published (p : Publication) (content : list ascii) : SidecarEntry :=
  Regular {| sf_open := Ok tt; sf_metadata := Ok tt; sf_len := zlen content; sf_bytes := Ok content;
             sf_metadata_after := Ok tt; sf_len_after := zlen content;
             sf_modified_ns := pb_modified_ns p; sf_device := pb_device p; sf_inode := pb_inode p |}.

(** Up to the rename. *)
Definition prepare_document (root : result string unit) (d : SuppressionDocument) (p : Publication)
    (entry : SidecarEntry) : result string (SuppressionDocument * list ascii) :=
  root ≫= λ _,
  let persisted := clear_ephemeral_resolution d in
  validate_document persisted (sd_corpus_id persisted) ≫= λ _,
  map_err (λ e, "serde: " +:+ e) (document_to_vec persisted) ≫= λ content,
  reject_if (MAX_SIDECAR_BYTES <? zlen content)
    ("suppression sidecar exceeds " +:+ decimal MAX_SIDECAR_BYTES +:+ " bytes") ≫= λ _,
  map_err (λ e, "serde: " +:+ e) (document_from_slice content) ≫= λ reparsed,
  reject_if (negb (bool_decide (reparsed = persisted))) "suppression sidecar failed serialization validation" ≫= λ _,
  reject_unsafe_existing_sidecar entry ≫= λ _,
  map_err (λ e, "create suppression temporary file: " +:+ e) (pb_create p) ≫= λ _,
  map_err (λ e, "write suppression sidecar: " +:+ e) (pb_write p) ≫= λ _,
  reject_unsafe_existing_sidecar entry ≫= λ _,
  map_err (λ e, "publish suppression sidecar atomically: " +:+ e) (pb_persist p) ≫= λ _,
  Ok (persisted, content).
(** After it. *)
Definition confirm_document (root : result string unit) (p : Publication) (persisted : SuppressionDocument)
    (entry : SidecarEntry) : result string unit :=
  map_err (λ e, "sync suppression sidecar: " +:+ e) (pb_sync p) ≫= λ _,
  map_err (λ e, "sync suppression directory: " +:+ e) (pb_sync_directory p) ≫= λ _,
  load_document_from_root root (sd_corpus_id persisted) entry ≫= λ loaded,
  reject_if (negb (bool_decide (loaded = persisted))) "published suppression sidecar failed validation".
Definition write_document (root : result string unit) (d : SuppressionDocument) (p : Publication)
    (entry : SidecarEntry) : result string unit * SidecarEntry :=
  match prepare_document root d p entry with
  | Err e => (Err e, entry)
  | Ok (persisted, content) =>
      let entry := published p content in (confirm_document root p persisted entry, entry)
  end.

(** ** Templates and events *)

Definition template_fingerprints (c : LogCorpus) (ids : list Z) (max_bytes : Z) : gmap Z string :=
  list_to_map (omap (λ id, h ← lc_template_identities c !! id;
                           if str_len h <=? max_bytes then Some (id, h) else None) ids).
Definition authoritative_template_predicate (c : LogCorpus) (template_id : Z) :
    result string SuppressionTemplatePredicate :=
  reject_if (negb (template_id_ok template_id)) "suppression template id is outside the supported range" ≫= λ _,
  ok_or (template_fingerprints c [template_id] MAX_TEMPLATE_FINGERPRINT_BYTES !! template_id)
    ("suppression template " +:+ decimal template_id +:+ " is missing from the corpus") ≫= λ fingerprint,
  let p := {| sp_template_id := template_id; sp_template_fingerprint := fingerprint |} in
  validate_predicate p ≫= λ _, Ok p.

Inductive ActiveTimestampBasis := BExplicitWall | BResolvedLocal | BOrderOnly | BLegacyUnknown.
Definition basis_from_storage_str (value : option string) : option ActiveTimestampBasis :=
  match value with
  | None => Some BLegacyUnknown
  | Some s =>
      if bool_decide (s = "explicit_wall") then Some BExplicitWall
      else if bool_decide (s = "resolved_local") then Some BResolvedLocal
      else if bool_decide (s = "order_only") then Some BOrderOnly
      else if bool_decide (s = "legacy_unknown") then Some BLegacyUnknown else None
  end.
Definition is_wall_clock (b : ActiveTimestampBasis) : bool :=
  match b with BExplicitWall | BResolvedLocal => true | _ => false end.
Definition classify_active_timestamp_basis (b : ActiveTimestampBasis) : TimeQuality :=
  if is_wall_clock b then Wall else QOrderOnly.

Record ComputedPreviewFacts := {
  cf_event_revision : Z; cf_matching_event_count : Z; cf_incremental_event_count : Z; cf_corpus_event_count : Z;
  cf_level_counts : list SuppressionLevelCount; cf_source_count : Z; cf_time_span : SuppressionTimeSpan;
  cf_representatives : list SuppressionRepresentativeEvent;
}.

Definition suppression_duck_error (e : string) : string := "suppression preview query: " +:+ e.
Definition level_of (row : result string (string * Z)) : result string SuppressionLevelCount :=
  map_err suppression_duck_error row ≫= λ '(level, count), Ok {| lv_level := level; lv_count := Z.max 0 count |}.
Fixpoint all_ok {A B} (f : A → result string B) (l : list A) : result string (list B) :=
  match l with
  | [] => Ok []
  | a :: rest => f a ≫= λ b, all_ok f rest ≫= λ bs, Ok (b :: bs)
  end.
(** [char::is_alphanumeric] beyond ASCII *)
Context (alphanumeric : list ascii → bool).

(** A representative; redaction can panic. *)
Definition representative_of (row : result string RepresentativeRow) :
    option (result string SuppressionRepresentativeEvent) :=
  match map_err suppression_duck_error row with
  | Err e => Some (Err e)
  | Ok row =>
      match basis_from_storage_str (rw_active_basis row) with
      | None => Some (Err "event has invalid active timestamp basis")
      | Some basis =>
          if rw_seq row <? 0 then Some (Err "suppression representative has negative sequence")
          else
            redaction ← redact_candidate alphanumeric (bytes (rw_message row));
            Some (Ok {| re_seq := rw_seq row; re_source := rw_source row; re_timestamp := rw_timestamp row;
                        re_time_quality := classify_active_timestamp_basis basis; re_level := rw_level row;
                        re_redacted_excerpt :=
                          if rr_blocked redaction then "[credential-dominant event redacted]"
                          else of_bytes (truncate_utf8_bytes (rr_text redaction) MAX_REDACTED_EXCERPT_BYTES) |})
      end
  end.
Fixpoint representatives_of (rows : list (result string RepresentativeRow)) :
    option (result string (list SuppressionRepresentativeEvent)) :=
  match rows with
  | [] => Some (Ok [])
  | row :: rest =>
      r ← representative_of row;
      match r with
      | Err e => Some (Err e)
      | Ok r => rs ← representatives_of rest; Some (rs ≫= λ rs, Ok (r :: rs))
      end
  end.

(** What the queries under the connection lock give, at the moment [c]; [again] is the
    event revision when it is read a second time. *)
Definition event_facts (c : LogCorpus) (again : Z) (predicate : SuppressionTemplatePredicate) (already_hidden : bool) :
    option (result string ComputedPreviewFacts) :=
  let id := sp_template_id predicate in
  match map_err suppression_duck_error (lc_event_count c) ≫= λ count,
        map_err suppression_duck_error (lc_match_summary c id) ≫= λ '(matching, sources, span_from, span_to),
        let matching := Z.max 0 matching in
        reject_if (matching =? 0) ("suppression template " +:+ decimal id +:+ " has no authoritative events") ≫= λ _,
        ok_or span_from "suppression preview has no minimum timestamp" ≫= λ from,
        ok_or span_to "suppression preview has no maximum timestamp" ≫= λ to,
        map_err suppression_duck_error (lc_level_rows c id) ≫= λ levels,
        all_ok level_of levels ≫= λ levels,
        map_err suppression_duck_error (lc_representative_rows c id) ≫= λ rows,
        Ok (Z.max 0 count, matching, sources, {| ts_from := from; ts_to := to |}, levels, rows)
  with
  | Err e => Some (Err e)
  | Ok (count, matching, sources, span, levels, rows) =>
      representatives ← representatives_of rows;
      Some (representatives ≫= λ representatives,
            reject_if (negb (again =? lc_event_revision c)) "corpus changed while computing suppression preview" ≫= λ _,
            Ok {| cf_event_revision := lc_event_revision c; cf_matching_event_count := matching;
                  cf_incremental_event_count := if already_hidden then 0 else matching;
                  cf_corpus_event_count := count; cf_level_counts := levels; cf_source_count := Z.max 0 sources;
                  cf_time_span := span; cf_representatives := representatives |})
  end.

Definition DB_POISONED : string := "log corpus lock poisoned".
(** The moments are those from the second look on. *)
Definition compute_preview_facts (db_poisoned : bool) (moments : nat → LogCorpus)
    (predicate : SuppressionTemplatePredicate) (rules : list SuppressionRule) :
    option (result string ComputedPreviewFacts) :=
  if i64_max <? sp_template_id predicate then Some (Err "suppression template id exceeds i64")
  else if db_poisoned then Some (Err DB_POISONED)
  else
    let already_hidden := existsb (λ r, bool_decide (ru_state r = Enabled) && bool_decide (ru_predicate r = predicate)) rules in
    facts ← event_facts (moments 0%nat) (lc_event_revision (moments 1%nat)) predicate already_hidden;
    Some (facts ≫= λ facts,
          authoritative_template_predicate (moments 2%nat) (sp_template_id predicate) ≫= λ current,
          reject_if (negb (bool_decide (current = predicate))) "suppression template changed while computing preview" ≫= λ _,
          validate_preview_facts (cf_matching_event_count facts) (cf_incremental_event_count facts)
            (cf_corpus_event_count facts) (cf_level_counts facts) (cf_source_count facts) (cf_time_span facts)
            (cf_representatives facts) ≫= λ _,
          Ok facts).

(** ** Mutations *)

(** The sidecar, the process-wide lock and the lock of the event database. *)
Record SuppressionState := { ss_sidecar : SidecarEntry; ss_lock_poisoned : bool; ss_db_poisoned : bool }.
(** What one operation meets: the corpus root, the lock file, the clock, two new UUIDs,
    the moments of the corpus and what happens to a publication. *)
Record Surroundings := {
  en_root : result string unit; en_lock : result string unit; en_now : Z; en_id : string; en_audit_id : string;
  en_moments : nat → LogCorpus; en_publication : Publication;
}.

Definition set_sidecar (st : SuppressionState) (entry : SidecarEntry) : SuppressionState :=
  {| ss_sidecar := entry; ss_lock_poisoned := ss_lock_poisoned st; ss_db_poisoned := ss_db_poisoned st |}.
(** A panic under both locks. *)
Definition poisoned (st : SuppressionState) : SuppressionState :=
  {| ss_sidecar := ss_sidecar st; ss_lock_poisoned := true; ss_db_poisoned := true |}.

Definition LOCK_POISONED : string := "suppression mutation lock is poisoned".
Definition mutation_guard (en : Surroundings) (st : SuppressionState) : result string unit :=
  reject_if (ss_lock_poisoned st) LOCK_POISONED ≫= λ _, en_root en ≫= λ _, en_lock en.

Definition with_document (en : Surroundings) (corpus_id : string) (expected_revision : Z) (st : SuppressionState) :
    result string SuppressionDocument :=
  mutation_guard en st ≫= λ _,
  load_document_from_root (en_root en) corpus_id (ss_sidecar st) ≫= λ d,
  require_revision d expected_revision ≫= λ _, Ok d.

(** [write_document(..)?; Ok(a)] *)
Definition publish {A} (en : Surroundings) (d : SuppressionDocument) (a : A) (st : SuppressionState) :
    result string A * SuppressionState :=
  let '(r, entry) := write_document (en_root en) d (en_publication en) (ss_sidecar st) in
  (r ≫= λ _, Ok a, set_sidecar st entry).

(** The document of an operation: new rules, previews and one audit entry. *)
Definition next_document (d : SuppressionDocument) (revision : Z) (rules : list SuppressionRule)
    (previews : list SuppressionPreview) (entry : SuppressionAuditEntry) : SuppressionDocument :=
  {| sd_schema_version := sd_schema_version d; sd_corpus_id := sd_corpus_id d; sd_revision := revision; sd_rules := rules;
     sd_previews := previews; sd_audit := sd_audit d ++ [entry];
     sd_resolved_template_revision := sd_resolved_template_revision d |}.

Definition new_preview (en : Surroundings) (corpus_id : string) (revision : Z) (input : NewSuppressionPreview)
    (predicate : SuppressionTemplatePredicate) (facts : ComputedPreviewFacts) : SuppressionPreview :=
  {| pv_token := en_id en; pv_corpus_id := corpus_id; pv_event_revision := cf_event_revision facts;
     pv_rule_revision := revision; pv_name := np_name input; pv_rationale := np_rationale input;
     pv_predicate := predicate; pv_origin := np_origin input; pv_matching_event_count := cf_matching_event_count facts;
     pv_incremental_event_count := cf_incremental_event_count facts; pv_corpus_event_count := cf_corpus_event_count facts;
     pv_level_counts := cf_level_counts facts; pv_source_count := cf_source_count facts; pv_time_span := cf_time_span facts;
     pv_representatives := cf_representatives facts; pv_created_at := en_now en |}.
Definition previewed_entry (en : Surroundings) (revision : Z) : SuppressionAuditEntry :=
  {| ae_id := en_audit_id en; ae_revision := revision; ae_action := APreviewed; ae_rule_id := None;
     ae_preview_token := Some (en_id en); ae_created_at := en_now en |}.

Definition preview_from_root (en : Surroundings) (corpus_id : string) (expected_revision : Z)
    (input : NewSuppressionPreview) (st : SuppressionState) :
    option (result string SuppressionPreview) * SuppressionState :=
  match validate_preview_input input ≫= λ _,
        with_document en corpus_id expected_revision st ≫= λ d,
        reversal_audit_reserve (sd_rules d) ≫= λ reserve,
        ensure_audit_capacity_for d 1 reserve ≫= λ _,
        authoritative_template_predicate (en_moments en 0%nat) (np_template_id input) ≫= λ predicate,
        Ok (d, predicate)
  with
  | Err e => (Some (Err e), st)
  | Ok (d, predicate) =>
      match compute_preview_facts (ss_db_poisoned st) (λ k, en_moments en (S k)) predicate (sd_rules d) with
      | None => (None, poisoned st)
      | Some facts =>
          match facts ≫= λ facts, next_revision (sd_revision d) ≫= λ revision, Ok (facts, revision) with
          | Err e => (Some (Err e), st)
          | Ok (facts, revision) =>
              let preview := new_preview en corpus_id revision input predicate facts in
              let '(r, st) :=
                publish en (next_document d revision (sd_rules d) [preview] (previewed_entry en revision)) preview st in
              (Some r, st)
          end
      end
  end.

Definition STALE_PREVIEW : string := "suppression preview is stale; compute a new preview".
Definition new_rule (en : Surroundings) (p : SuppressionPreview) : SuppressionRule :=
  {| ru_id := en_id en; ru_name := pv_name p; ru_rationale := pv_rationale p; ru_predicate := pv_predicate p;
     ru_origin := pv_origin p; ru_state := Enabled; ru_created_at := en_now en; ru_updated_at := en_now en;
     ru_resolution := None |}.
Definition activated_entry (en : Surroundings) (revision : Z) (token : string) : SuppressionAuditEntry :=
  {| ae_id := en_audit_id en; ae_revision := revision; ae_action := AActivated; ae_rule_id := Some (en_id en);
     ae_preview_token := Some token; ae_created_at := en_now en |}.
Definition owns_template (id : Z) (r : SuppressionRule) : bool :=
  negb (bool_decide (ru_state r = Removed)) && (sp_template_id (ru_predicate r) =? id).

(** The checks of an activation, up to the publication. *)
Definition check_activation (en : Surroundings) (corpus_id : string) (expected_revision : Z) (token : string)
    (st : SuppressionState) : result string (SuppressionDocument * SuppressionPreview * Z) :=
  validate_uuid_v7 "suppression preview token" token ≫= λ _,
  with_document en corpus_id expected_revision st ≫= λ d,
  reversal_audit_reserve (sd_rules d) ≫= λ reserve,
  ok_or (checked_add usize_max reserve 2) "suppression audit reserve overflow" ≫= λ next_reserve,
  ensure_audit_capacity_for d 1 next_reserve ≫= λ _,
  ok_or (snd <$> list_find (λ p, pv_token p = token) (sd_previews d))
    "suppression preview token is missing or stale" ≫= λ preview,
  authoritative_template_predicate (en_moments en 0%nat) (sp_template_id (pv_predicate preview)) ≫= λ current,
  reject_if (negb (bool_decide (pv_corpus_id preview = corpus_id)) || negb (pv_rule_revision preview =? sd_revision d) ||
             negb (pv_event_revision preview =? lc_event_revision (en_moments en 1%nat)) ||
             negb (bool_decide (pv_predicate preview = current))) STALE_PREVIEW ≫= λ _,
  reject_if (negb (bool_decide (pv_origin preview = Human)))
    "detector/model proposals cannot activate suppression; a person must author and confirm a new preview" ≫= λ _,
  reject_if (existsb (owns_template (sp_template_id (pv_predicate preview))) (sd_rules d))
    "an active or disabled rule already owns this exact template predicate" ≫= λ _,
  next_revision (sd_revision d) ≫= λ revision,
  reject_if (ss_db_poisoned st) DB_POISONED ≫= λ _,
  reject_if (negb (pv_event_revision preview =? lc_event_revision (en_moments en 2%nat)))
    "suppression preview became stale before activation publication" ≫= λ _,
  authoritative_template_predicate (en_moments en 3%nat) (sp_template_id (pv_predicate preview)) ≫= λ current,
  reject_if (negb (bool_decide (current = pv_predicate preview)))
    "suppression preview became stale before activation publication" ≫= λ _,
  Ok (d, preview, revision).
Definition activate_from_root (en : Surroundings) (corpus_id : string) (expected_revision : Z) (token : string)
    (st : SuppressionState) : result string SuppressionMutationResult * SuppressionState :=
  match check_activation en corpus_id expected_revision token st with
  | Err e => (Err e, st)
  | Ok (d, preview, revision) =>
      let rule := new_rule en preview in
      publish en (next_document d revision (sd_rules d ++ [rule]) [] (activated_entry en revision token))
        {| mr_revision := revision; mr_rule := rule |} st
  end.

(** The state a mutation leads to, and its audit action. *)
Definition transition (s : SuppressionRuleState) (m : SuppressionRuleMutation) :
    result string (SuppressionRuleState * SuppressionAuditAction) :=
  match s, m with
  | Enabled, MDisable => Ok (Disabled, ADisabled)
  | Disabled, MReenable => Ok (Enabled, AReenabled)
  | (Enabled | Disabled), MRemove => Ok (Removed, ARemoved)
  | Removed, _ => Err "removed suppression rules are immutable tombstones"
  | _, _ => Err "suppression rule mutation does not match its current state"
  end.
Definition set_state (s : SuppressionRuleState) (now : Z) (r : SuppressionRule) : SuppressionRule :=
  {| ru_id := ru_id r; ru_name := ru_name r; ru_rationale := ru_rationale r; ru_predicate := ru_predicate r;
     ru_origin := ru_origin r; ru_state := s; ru_created_at := ru_created_at r; ru_updated_at := now;
     ru_resolution := ru_resolution r |}.
Definition mutated_entry (en : Surroundings) (revision : Z) (action : SuppressionAuditAction) (rule_id : string) :
    SuppressionAuditEntry :=
  {| ae_id := en_audit_id en; ae_revision := revision; ae_action := action; ae_rule_id := Some rule_id;
     ae_preview_token := None; ae_created_at := en_now en |}.

Definition check_mutation (en : Surroundings) (corpus_id : string) (expected_revision : Z) (rule_id : string)
    (m : SuppressionRuleMutation) (st : SuppressionState) :
    result string (SuppressionDocument * nat * SuppressionRule * SuppressionRuleState * SuppressionAuditAction * Z) :=
  validate_uuid_v7 "suppression rule id" rule_id ≫= λ _,
  with_document en corpus_id expected_revision st ≫= λ d,
  ok_or (list_find (λ r, ru_id r = rule_id) (sd_rules d)) ("suppression rule not found: " +:+ rule_id) ≫= λ '(index, rule),
  transition (ru_state rule) m ≫= λ '(state, action),
  (if bool_decide (m = MReenable)
   then authoritative_template_predicate (en_moments en 0%nat) (sp_template_id (ru_predicate rule)) ≫= λ current,
        reject_if (negb (bool_decide (current = ru_predicate rule)))
          "suppression rule is stale; its exact template changed while disabled"
   else Ok tt) ≫= λ _,
  reversal_audit_reserve_states (<[index := state]> (ru_state <$> sd_rules d)) ≫= λ reserve,
  ensure_audit_capacity_for d 1 reserve ≫= λ _,
  next_revision (sd_revision d) ≫= λ revision,
  Ok (d, index, rule, state, action, revision).
Definition mutate_rule_from_root (en : Surroundings) (corpus_id : string) (expected_revision : Z) (rule_id : string)
    (m : SuppressionRuleMutation) (st : SuppressionState) :
    result string SuppressionMutationResult * SuppressionState :=
  match check_mutation en corpus_id expected_revision rule_id m st with
  | Err e => (Err e, st)
  | Ok (d, index, rule, state, action, revision) =>
      let rule := set_state state (en_now en) rule in
      publish en (next_document d revision (<[index := rule]> (sd_rules d)) [] (mutated_entry en revision action (ru_id rule)))
        {| mr_revision := revision; mr_rule := rule |} st
  end.

(** ** Publication is atomic *)

Lemma forget_idem r : forget_resolution (forget_resolution r) = forget_resolution r.
Proof. by destruct r. Qed.
Lemma clear_idem d : clear_ephemeral_resolution (clear_ephemeral_resolution d) = clear_ephemeral_resolution d.
Proof.
  destruct d. unfold clear_ephemeral_resolution. cbn. f_equal. rewrite <-list_fmap_compose. apply list_fmap_ext.
  intros i r _. cbn. apply forget_idem.
Qed.

Lemma validate_document_id d cid : validate_document d cid = Ok () → sd_corpus_id d = cid ∧ validate_bounded_text "corpus id" cid MAX_CORPUS_ID_BYTES = Ok ().
Proof. unfold validate_document. intros Hv. inv_result. split_bool. by subst. Qed.

Lemma read_published p content :
  zlen content ≤ MAX_SIDECAR_BYTES → ∀ f, published p content = Regular f → read_sidecar f = Ok content.
Proof.
  intros Hlen f [= <-]. unfold read_sidecar. assert ((MAX_SIDECAR_BYTES <? zlen content) = false) as Hle by (apply Z.ltb_ge; lia).
  cbn [sf_open sf_metadata sf_len sf_bytes sf_metadata_after sf_len_after map_err mbind result_bind]. rewrite take_ge by (unfold zlen in *; lia).
  rewrite Hle. cbn [reject_if mbind result_bind]. by rewrite Z.eqb_refl.
Qed.

(** What a successful rename has published. *)
Lemma prepare_document_spec root d p entry persisted content :
  prepare_document root d p entry = Ok (persisted, content) →
  persisted = clear_ephemeral_resolution d ∧ root = Ok () ∧
  ∀ root', load_document_from_root root' (sd_corpus_id d) (published p content) = root' ≫= λ _, Ok persisted.
Proof.
  unfold prepare_document. intros Hp. inv_result. simplify_eq. split_bool. subst.
  split_and!; [done..|]. intros [[]|e]; [|done]. unfold load_document_from_root. cbn [mbind result_bind].
  destruct (validate_document_id _ _ Hstep) as [_ Hid]. cbn [sd_corpus_id clear_ephemeral_resolution] in Hid, Hstep.
  rewrite Hid. cbn [mbind result_bind]. unfold published. rewrite (read_published p content); [|lia|done].
  cbn [mbind result_bind]. unfold parse_sidecar. rewrite Hstep2. cbn [map_err mbind result_bind].
  rewrite clear_idem, Hstep. done.
Qed.

Lemma write_document_spec root d p entry r entry' :
  write_document root d p entry = (r, entry') →
  (entry' = entry ∧ is_err r = true) ∨
  ∃ content, entry' = published p content ∧ root = Ok () ∧
    load_document_from_root (Ok ()) (sd_corpus_id d) entry' = Ok (clear_ephemeral_resolution d).
Proof.
  unfold write_document. destruct (prepare_document root d p entry) as [[persisted content]|e] eqn:Ep.
  - intros [= <- <-]. apply prepare_document_spec in Ep as (-> & -> & Hload). right. exists content.
    split_and!; [done..|]. apply Hload.
  - intros [= <- <-]. by left.
Qed.

(** ** What an operation may do to a document *)

Definition loaded (cid : string) (st : SuppressionState) (d : SuppressionDocument) : Prop :=
  load_document_from_root (Ok ()) cid (ss_sidecar st) = Ok d.

(** Every operation appends one entry to the audit, with the next revision. *)
Definition advances (d : SuppressionDocument) (e : SuppressionAuditEntry) (d' : SuppressionDocument) : Prop :=
  sd_revision d' = sd_revision d + 1 ∧ sd_audit d' = sd_audit d ++ [e] ∧ ae_revision e = sd_revision d'.

Inductive Edit (d : SuppressionDocument) (e : SuppressionAuditEntry) (d' : SuppressionDocument) : Prop :=
| Previews p :
    sd_rules d' = sd_rules d → sd_previews d' = [p] → pv_rule_revision p = sd_revision d' →
    ae_action e = APreviewed → ae_rule_id e = None → ae_preview_token e = Some (pv_token p) → Edit d e d'
| Activates p r :
    p ∈ sd_previews d → pv_rule_revision p = sd_revision d → pv_origin p = Human →
    existsb (owns_template (sp_template_id (pv_predicate p))) (sd_rules d) = false →
    sd_rules d' = sd_rules d ++ [r] → sd_previews d' = [] → ru_state r = Enabled → ru_origin r = Human →
    ru_predicate r = pv_predicate p →
    ae_action e = AActivated → ae_rule_id e = Some (ru_id r) → ae_preview_token e = Some (pv_token p) → Edit d e d'
| Changes index r m s a now :
    list_find (λ x, ru_id x = ru_id r) (sd_rules d) = Some (index, r) → transition (ru_state r) m = Ok (s, a) →
    sd_rules d' = <[index := set_state s now r]> (sd_rules d) → sd_previews d' = [] →
    ae_action e = a → ae_rule_id e = Some (ru_id r) → ae_preview_token e = None → Edit d e d'.

Lemma loaded_document root cid entry d :
  load_document_from_root root cid entry = Ok d →
  load_document_from_root (Ok ()) cid entry = Ok d ∧ clear_ephemeral_resolution d = d ∧ sd_corpus_id d = cid.
Proof.
  unfold load_document_from_root. destruct root as [[]|e]; [|done]. cbn [mbind result_bind]. intros Hl. split; [done|].
  destruct (validate_bounded_text _ _ _); cbn [mbind result_bind] in Hl; [|done].
  destruct entry as [|e|e|f]; [by injection Hl as <-|done..|]. destruct (read_sidecar f) as [content|]; [|done].
  cbn [mbind result_bind] in Hl. unfold parse_sidecar in Hl. destruct (map_err _ _) as [parsed|]; [|done].
  cbn [mbind result_bind] in Hl. destruct (validate_document _ _) as [[]|] eqn:Ev; [|done]. injection Hl as <-.
  split; [apply clear_idem|]. by apply validate_document_id in Ev as [? _].
Qed.

Lemma with_document_loaded en cid expected st d :
  with_document en cid expected st = Ok d →
  loaded cid st d ∧ clear_ephemeral_resolution d = d ∧ sd_corpus_id d = cid ∧ sd_revision d = expected ∧
  en_root en = Ok () ∧ ss_lock_poisoned st = false.
Proof.
  unfold with_document, mutation_guard. intros Hw. apply bind_Ok in Hw as ([] & Hg & Hw).
  apply bind_Ok in Hw as (d0 & Hl & Hw). unfold require_revision in Hw. inv_result. split_bool.
  destruct (loaded_document _ _ _ _ Hl) as (Hl' & Hc & Hid). done.
Qed.

Lemma publish_spec {A} en d' cid (a : A) st r st' :
  publish en d' a st = (r, st') → clear_ephemeral_resolution d' = d' → sd_corpus_id d' = cid →
  (ss_sidecar st' = ss_sidecar st ∧ is_err r = true) ∨ loaded cid st' d'.
Proof.
  unfold publish, loaded. destruct (write_document _ _ _ _) as [w entry] eqn:Ew. intros [= <- <-] Hc <-.
  apply write_document_spec in Ew as [[-> Hw]|(content & Hentry & _ & Hl)]; [left; by destruct w|right].
  by rewrite Hc in Hl.
Qed.

Lemma next_document_cleared d revision rules previews e :
  clear_ephemeral_resolution d = d → Forall (λ r, ru_resolution r = None) rules →
  clear_ephemeral_resolution (next_document d revision rules previews e) = next_document d revision rules previews e.
Proof.
  intros Hc Hall. unfold clear_ephemeral_resolution, next_document. cbn. f_equal.
  - transitivity (id <$> rules); [|apply list_fmap_id]. apply list_fmap_ext. intros i r Hi.
    apply (Forall_lookup_1 _ _ _ _ Hall) in Hi. destruct r; cbn in *. by subst.
  - rewrite <-Hc. done.
Qed.
Lemma cleared_rules d : clear_ephemeral_resolution d = d → Forall (λ r, ru_resolution r = None) (sd_rules d).
Proof. intros <-. cbn. apply Forall_fmap, Forall_true. done. Qed.

Lemma next_revision_Ok current n : next_revision current = Ok n → n = current + 1.
Proof. unfold next_revision, checked_add. case_match; cbn; congruence. Qed.

Definition edited (cid : string) (st st' : SuppressionState) : Prop :=
  ss_sidecar st' = ss_sidecar st ∨
  ∃ d e d', loaded cid st d ∧ advances d e d' ∧ Edit d e d' ∧ loaded cid st' d'.

Lemma preview_edits en cid expected input st r st' :
  preview_from_root en cid expected input st = (r, st') → edited cid st st'.
Proof.
  unfold preview_from_root. destruct (validate_preview_input _ ≫= _) as [[d predicate]|e] eqn:Ec; [|intros [= _ <-]; by left].
  inv_result. select (with_document _ _ _ _ = _) (fun H => apply with_document_loaded in H as (Hd & Hc & Hid & _)).
  destruct (compute_preview_facts _ _ _ _) as [facts|]; [|intros [= _ <-]; by left].
  destruct (facts ≫= _) as [[f revision]|e] eqn:Ef; [|intros [= _ <-]; by left]. inv_result. simplify_eq.
  select (next_revision _ = _) (fun H => apply next_revision_Ok in H as ->).
  destruct (publish _ _ _ _) as [w st1] eqn:Ep. intros [= _ <-].
  eapply publish_spec in Ep; [|by apply next_document_cleared, cleared_rules|cbn; done].
  destruct Ep as [[Hsame _]|Hl]; [by left|]. right. eexists _, _, _. split_and!; [exact Hd| | |exact Hl].
  - by split_and!.
  - by eapply Previews.
Qed.

Lemma activate_edits en cid expected token st r st' :
  activate_from_root en cid expected token st = (r, st') → edited cid st st'.
Proof.
  unfold activate_from_root. destruct (check_activation en cid expected token st) as [[[d p] revision]|e] eqn:Ec;
    [|intros [= _ <-]; by left].
  unfold check_activation in Ec. inv_result. simplify_eq.
  select (with_document _ _ _ _ = _) (fun H => apply with_document_loaded in H as (Hd & Hc & Hid & _)).
  select (next_revision _ = _) (fun H => apply next_revision_Ok in H as ->).
  select (snd <$> _ = _) (fun H => apply fmap_Some in H as ([i p'] & (Hp & Htok & _)%list_find_Some & ->)). cbn in *. split_bool. subst.
  intros Ep. eapply publish_spec in Ep; [| |reflexivity].
  - destruct Ep as [[Hsame _]|Hl]; [by left|]. right. eexists _, _, _. split_and!; [exact Hd| | |exact Hl]; [by split_and!|].
    eapply (Activates _ _ _ p' (new_rule en p')); try done. by eapply list_elem_of_lookup_2.
  - apply next_document_cleared; [done|]. apply Forall_app. split; [by apply cleared_rules|]. by repeat constructor.
Qed.

Lemma mutate_edits en cid expected rule_id m st r st' :
  mutate_rule_from_root en cid expected rule_id m st = (r, st') → edited cid st st'.
Proof.
  unfold mutate_rule_from_root.
  destruct (check_mutation en cid expected rule_id m st) as [[[[[[d index] rule] s] a] revision]|e] eqn:Ec;
    [|intros [= _ <-]; by left].
  unfold check_mutation in Ec. inv_result. case_match. inv_result. case_match. inv_result. simplify_eq.
  select (with_document _ _ _ _ = _) (fun H => apply with_document_loaded in H as (Hd & Hc & <- & _)).
  select (next_revision _ = _) (fun H => apply next_revision_Ok in H as ->).
  select (list_find _ _ = _) (fun H => rename H into Hfind). pose proof Hfind as (Hi & Hrid & _)%list_find_Some.
  intros Ep. eapply publish_spec in Ep; [| |reflexivity].
  - destruct Ep as [[Hsame _]|Hl]; [by left|]. right. eexists _, _, _. split_and!; [exact Hd| | |exact Hl]; [by split_and!|].
    eapply (Changes _ _ _ index rule m s a (en_now en)); try done. by rewrite Hrid.
  - apply next_document_cleared; [done|]. apply Forall_insert; [by apply cleared_rules|]. cbn.
    by apply (Forall_lookup_1 _ _ _ _ (cleared_rules d Hc)) in Hi.
Qed.

(** ** Histories

    The operations of any number of processes in the order in which the lock lets them
    in, each with its own surroundings; a process can restart. *)

Inductive SuppressionStep (cid : string) (st : SuppressionState) : SuppressionState → Prop :=
| StepPreview en expected input r st' : preview_from_root en cid expected input st = (r, st') → SuppressionStep cid st st'
| StepActivate en expected token r st' : activate_from_root en cid expected token st = (r, st') → SuppressionStep cid st st'
| StepMutate en expected id m r st' : mutate_rule_from_root en cid expected id m st = (r, st') → SuppressionStep cid st st'
| StepRestart : SuppressionStep cid st {| ss_sidecar := ss_sidecar st; ss_lock_poisoned := false; ss_db_poisoned := false |}.
Definition fresh_state : SuppressionState :=
  {| ss_sidecar := NoEntry; ss_lock_poisoned := false; ss_db_poisoned := false |}.

Lemma step_edits cid st st' : SuppressionStep cid st st' → edited cid st st'.
Proof.
  intros [en ex input r ? Hop|en ex token r ? Hop|en ex id m r ? Hop|].
  - by eapply preview_edits.
  - by eapply activate_edits.
  - by eapply mutate_edits.
  - by left.
Qed.

(** The states of the rules, told by the audit alone. *)
Definition set_told (id : string) (s : SuppressionRuleState) (told : list (string * SuppressionRuleState)) :
    list (string * SuppressionRuleState) :=
  (λ t, if bool_decide (t.1 = id) then (t.1, s) else t) <$> told.
Definition audit_step (told : list (string * SuppressionRuleState)) (e : SuppressionAuditEntry) :
    list (string * SuppressionRuleState) :=
  match ae_rule_id e with
  | None => told
  | Some id =>
      match ae_action e with
      | APreviewed => told
      | AActivated => told ++ [(id, Enabled)]
      | ADisabled => set_told id Disabled told
      | AReenabled => set_told id Enabled told
      | ARemoved => set_told id Removed told
      end
  end.
Definition told_by (audit : list SuppressionAuditEntry) : list (string * SuppressionRuleState) :=
  foldl audit_step [] audit.

(** A rule has an activation of a token that was previewed by the revision before. *)
Definition confirmed (audit : list SuppressionAuditEntry) (r : SuppressionRule) : Prop :=
  ru_origin r = Human ∧
  ∃ previewed activated token, previewed ∈ audit ∧ activated ∈ audit ∧
    ae_action previewed = APreviewed ∧ ae_preview_token previewed = Some token ∧
    ae_action activated = AActivated ∧ ae_preview_token activated = Some token ∧ ae_rule_id activated = Some (ru_id r) ∧
    ae_revision activated = ae_revision previewed + 1.
Definition live_templates (rules : list SuppressionRule) : list Z :=
  (λ r, sp_template_id (ru_predicate r)) <$> List.filter (λ r, negb (bool_decide (ru_state r = Removed))) rules.
Record explained (d : SuppressionDocument) : Prop := {
  ex_revision : 0 ≤ sd_revision d;
  ex_revisions : ae_revision <$> sd_audit d = seqZ 1 (sd_revision d);
  ex_states : (λ r, (ru_id r, ru_state r)) <$> sd_rules d = told_by (sd_audit d);
  ex_previews : Forall (λ p, ∃ e, e ∈ sd_audit d ∧ ae_action e = APreviewed ∧ ae_preview_token e = Some (pv_token p) ∧
                             ae_revision e = pv_rule_revision p) (sd_previews d);
  ex_confirmed : Forall (confirmed (sd_audit d)) (sd_rules d);
  ex_live : NoDup (live_templates (sd_rules d));
}.

Lemma empty_explained cid : explained (empty_document cid).
Proof. constructor; cbn; by try constructor. Qed.

Lemma check_rules_ids ids rules :
  check_rules ids rules = Ok () → NoDup (ru_id <$> rules) ∧ ∀ r, r ∈ rules → ru_id r ∉ ids.
Proof.
  revert ids. induction rules as [|r rules IH]; intros ids Hr; cbn in *; [split; [constructor|set_solver]|].
  inv_result. split_bool. destruct (IH _ Hr) as [Hnd Hni]. split; [constructor; [|done]|set_solver].
  intros (r' & Heq & Hr')%list_elem_of_fmap. apply (Hni r' Hr'). rewrite <-Heq. set_solver.
Qed.
Lemma loaded_valid cid st d : loaded cid st d → validate_document d cid = Ok () ∨ d = empty_document cid.
Proof.
  unfold loaded, load_document_from_root. cbn [mbind result_bind].
  destruct (validate_bounded_text _ _ _); cbn [mbind result_bind]; [|done].
  destruct (ss_sidecar st) as [|e|e|f]; [intros [= <-]; by right|done..|]. destruct (read_sidecar f) as [content|]; [|done].
  cbn [mbind result_bind]. unfold parse_sidecar. destruct (map_err _ _) as [parsed|]; [|done].
  cbn [mbind result_bind]. destruct (validate_document _ _) as [[]|] eqn:Ev; [|done]. intros [= <-]. by left.
Qed.
Lemma loaded_ids cid st d : loaded cid st d → NoDup (ru_id <$> sd_rules d).
Proof.
  intros [Hv| ->]%loaded_valid; [|constructor]. unfold validate_document in Hv. inv_result.
  select (check_rules _ _ = _) (fun H => by apply check_rules_ids in H as [? _]).
Qed.

Lemma told_insert rules index r s now :
  NoDup (ru_id <$> rules) → rules !! index = Some r →
  (λ r, (ru_id r, ru_state r)) <$> <[index := set_state s now r]> rules =
  set_told (ru_id r) s ((λ r, (ru_id r, ru_state r)) <$> rules).
Proof.
  intros Hnd Hi. unfold set_told. rewrite <-list_fmap_compose. apply list_eq. intros j. rewrite !list_lookup_fmap.
  destruct (decide (index = j)) as [->|Hne].
  - rewrite list_lookup_insert_eq by (by eapply lookup_lt_Some). rewrite Hi. cbn. by rewrite bool_decide_eq_true_2.
  - rewrite list_lookup_insert_ne by done. destruct (rules !! j) as [r'|] eqn:Hj; [|done]. cbn.
    rewrite bool_decide_eq_false_2; [done|]. intros Heq. apply Hne. eapply (NoDup_lookup _ _ _ (ru_id r)); [exact Hnd|..].
    + by rewrite list_lookup_fmap, Hi.
    + rewrite list_lookup_fmap, Hj. cbn. by rewrite Heq.
Qed.

Lemma live_insert rules index r s now :
  rules !! index = Some r → ru_state r ≠ Removed →
  live_templates (<[index := set_state s now r]> rules) `sublist_of` live_templates rules.
Proof.
  intros Hi Hs. pose proof (lookup_lt_Some _ _ _ Hi) as Hlt. rewrite (insert_take_drop _ _ _ Hlt).
  rewrite <-(take_drop_middle _ _ _ Hi) at 3. unfold live_templates. rewrite !List.filter_app, !fmap_app.
  apply sublist_app; [done|]. cbn. rewrite (bool_decide_eq_false_2 (ru_state r = Removed)) by done. cbn.
  destruct (negb _); cbn; [done|by apply sublist_cons].
Qed.

Lemma confirmed_app audit e r : confirmed audit r → confirmed (audit ++ [e]) r.
Proof.
  intros (Hh & p & a & t & Hp & Ha & Hrest). split; [done|]. exists p, a, t. split_and!; [set_solver..|]. apply Hrest.
Qed.
Lemma confirmed_set_state audit s now r : confirmed audit r → confirmed audit (set_state s now r).
Proof. done. Qed.

Lemma edit_explained d e d' :
  NoDup (ru_id <$> sd_rules d) → explained d → advances d e d' → Edit d e d' → explained d'.
Proof.
  intros Hnd [Hpos Hrev Hst Hpv Hcf Hlv] (Hr' & Ha' & Her) Hedit.
  assert (Forall (confirmed (sd_audit d')) (sd_rules d)) as Hcf'.
  { rewrite Ha'. eapply Forall_impl; [exact Hcf|]. apply confirmed_app. }
  assert (told_by (sd_audit d') = audit_step ((λ r, (ru_id r, ru_state r)) <$> sd_rules d) e) as Htold.
  { unfold told_by. by rewrite Ha', foldl_app, Hst. }
  assert (ae_revision <$> sd_audit d' = seqZ 1 (sd_revision d')) as Hrev'.
  { rewrite Ha', fmap_app, Hrev, Hr', seqZ_app by lia. f_equal. rewrite seqZ_cons, seqZ_nil by lia. cbn. rewrite Her, Hr'. f_equal. lia. }
  destruct Hedit as [p Hru Hpr Hprr Hact Hid Htok|p r Hp Hprr Hh Hown Hru Hpr Hs Ho Hpred Hact Hid Htok|
    index r m s a now Hfind Htr Hru Hpr Hact Hid Htok]; constructor; try lia; try done.
  - rewrite Hru, Htold. unfold audit_step. by rewrite Hid.
  - rewrite Hpr. constructor; [|constructor]. exists e. split_and!; [rewrite Ha'; set_solver|done..|congruence].
  - by rewrite Hru.
  - by rewrite Hru.
  - rewrite Hru, fmap_app, Htold. unfold audit_step. rewrite Hid, Hact. cbn. by rewrite Hs.
  - rewrite Hpr. constructor.
  - rewrite Hru. apply Forall_app. split; [done|]. constructor; [|constructor]. split; [done|].
    rewrite Forall_forall in Hpv. destruct (Hpv p Hp) as (pe & Hpe & Hpa & Hpt & Hprv). exists pe, e, (pv_token p).
    rewrite Ha'. split_and!; [set_solver|set_solver|done..|]. rewrite Her, Hr', Hprv, Hprr. done.
  - rewrite Hru. unfold live_templates in *. rewrite List.filter_app, fmap_app. cbn. rewrite Hs. cbn.
    apply NoDup_app. split_and!; [done| |apply NoDup_singleton]. intros t Ht Hin. apply list_elem_of_singleton in Hin as ->.
    apply list_elem_of_fmap in Ht as (r' & Heq & Hr2%list_elem_of_In%filter_In). destruct Hr2 as [Hin Hlive].
    rewrite <-not_true_iff_false in Hown. apply Hown, existsb_exists. exists r'. split; [done|]. unfold owns_template.
    rewrite Hlive. cbn. apply Z.eqb_eq. by rewrite <-Heq, Hpred.
  - apply list_find_Some in Hfind as (Hi & _). rewrite Hru, (told_insert _ _ _ _ _ Hnd Hi), Htold. unfold audit_step.
    rewrite Hid, Hact. destruct (ru_state r), m; try discriminate Htr; by injection Htr as <- <-.
  - rewrite Hpr. constructor.
  - apply list_find_Some in Hfind as (Hi & _). rewrite Hru. apply Forall_insert; [done|].
    apply confirmed_set_state. exact (Forall_lookup_1 _ _ _ _ Hcf' Hi).
  - apply list_find_Some in Hfind as (Hi & _). rewrite Hru. eapply sublist_NoDup; [exact Hlv|]. apply live_insert; [done|].
    intros Hrm. rewrite Hrm in Htr. by destruct m.
Qed.

Lemma step_explained cid st st' :
  (∀ d, loaded cid st d → explained d) → SuppressionStep cid st st' → ∀ d, loaded cid st' d → explained d.
Proof.
  intros Hex [Hsame|(d & e & d' & Hd & Hadv & Hed & Hd')]%step_edits d0 H0.
  - apply Hex. unfold loaded in *. by rewrite <-Hsame.
  - unfold loaded in H0, Hd'. rewrite Hd' in H0. injection H0 as <-. eapply edit_explained; [|by apply Hex|done|done].
    by eapply loaded_ids.
Qed.
Lemma reachable_explained cid st d : rtc (SuppressionStep cid) fresh_state st → loaded cid st d → explained d.
Proof.
  intros Hr. revert d. assert (∀ d, loaded cid fresh_state d → explained d) as H0.
  { intros d Hd. unfold loaded, load_document_from_root in Hd. cbn [mbind result_bind ss_sidecar fresh_state] in Hd.
    inv_result. apply empty_explained. }
  remember fresh_state as st0 eqn:E. clear E. revert H0. induction Hr as [|st0 st1 st2 Hs _ IH]; [done|].
  intros H0. apply IH. by eapply step_explained.
Qed.

(** Rules are never forgotten, and removed ones never change. *)
Lemma edit_keeps_rules d e d' :
  Edit d e d' → ∀ i r, sd_rules d !! i = Some r → ∃ r', sd_rules d' !! i = Some r' ∧ ru_id r' = ru_id r ∧
    ru_predicate r' = ru_predicate r ∧ ru_origin r' = ru_origin r ∧ (ru_state r = Removed → r' = r).
Proof.
  intros [p -> ?|p r0 ? ? ? ? -> ?|index r0 m s a now Hfind Htr -> ?] i r Hi.
  - by exists r.
  - exists r. split; [|done]. rewrite lookup_app_l; [done|]. by eapply lookup_lt_Some.
  - apply list_find_Some in Hfind as (Hi0 & _). destruct (decide (index = i)) as [->|Hne].
    + rewrite Hi in Hi0. injection Hi0 as ->. exists (set_state s now r0). rewrite list_lookup_insert_eq by (by eapply lookup_lt_Some).
      split_and!; [done..|]. intros Hrm. rewrite Hrm in Htr. by destruct m.
    + exists r. split; [|done]. by rewrite list_lookup_insert_ne.
Qed.

(** C13. The audit log explains every rule. Whatever sequence of previews, activations,
    changes and restarts led to a sidecar, with failed publications and changes of the
    corpus in between: its audit has one entry for every revision, from one to the
    current, and replaying the audit gives exactly the rules with their states. Every
    rule was written by a person and activated from a token that was previewed in the
    revision before, and no two rules that are not removed own the same template. *)
Theorem audit_log_explains_every_rule cid st d :
  rtc (SuppressionStep cid) fresh_state st → load_document_from_root (Ok ()) cid (ss_sidecar st) = Ok d →
  ae_revision <$> sd_audit d = seqZ 1 (sd_revision d) ∧
  (λ r, (ru_id r, ru_state r)) <$> sd_rules d = told_by (sd_audit d) ∧
  Forall (confirmed (sd_audit d)) (sd_rules d) ∧ NoDup (live_templates (sd_rules d)).
Proof. intros Hr Hd. destruct (reachable_explained _ _ _ Hr Hd). done. Qed.

(** C15. An operation does all or nothing. Whatever fails, and whenever the process
    stops, the sidecar afterwards is the one from before, or a document that loads and
    is one step further: its audit is the old one with one entry of the next revision,
    every old rule is still there with its identity, template and origin, and a removed
    rule stays removed. *)
Theorem suppression_publishes_atomically cid st st' d :
  SuppressionStep cid st st' → load_document_from_root (Ok ()) cid (ss_sidecar st) = Ok d →
  ss_sidecar st' = ss_sidecar st ∨
  ∃ d' e, load_document_from_root (Ok ()) cid (ss_sidecar st') = Ok d' ∧ sd_audit d' = sd_audit d ++ [e] ∧
    ae_revision e = sd_revision d' ∧ sd_revision d' = sd_revision d + 1 ∧
    ∀ i r, sd_rules d !! i = Some r → ∃ r', sd_rules d' !! i = Some r' ∧ ru_id r' = ru_id r ∧
      ru_predicate r' = ru_predicate r ∧ ru_origin r' = ru_origin r ∧ (ru_state r = Removed → r' = r).
Proof.
  intros [Hsame|(d0 & e & d' & Hd0 & (Hr' & Ha' & Her) & Hed & Hd')]%step_edits Hd; [by left|]. right.
  unfold loaded in Hd0. rewrite Hd in Hd0. injection Hd0 as <-. exists d', e. split_and!; [done..|].
  by apply (edit_keeps_rules d e).
Qed.

(** ** Rules can be retired

    The audit entries a rule may still need are reserved from its activation on. *)

Fixpoint total_reserve (states : list SuppressionRuleState) : Z :=
  match states with [] => 0 | s :: rest => reserve_of s + total_reserve rest end.
Lemma reserve_of_nonneg s : 0 ≤ reserve_of s.
Proof. by destruct s. Qed.
Lemma total_reserve_nonneg states : 0 ≤ total_reserve states.
Proof. induction states as [|s states IH]; cbn [total_reserve]; [lia|]. pose proof (reserve_of_nonneg s). lia. Qed.
Lemma reserve_go_total acc states n : reversal_audit_reserve_go acc states = Ok n → n = acc + total_reserve states.
Proof.
  revert acc. induction states as [|s states IH]; intros acc Hn; cbn [total_reserve reversal_audit_reserve_go] in *;
    [injection Hn as <-; lia|].
  unfold checked_add in Hn. destruct (_ <=? _); cbn [ok_or mbind result_bind] in Hn; [|done]. apply IH in Hn. lia.
Qed.
Lemma reserve_go_fits acc states :
  acc + total_reserve states ≤ usize_max → reversal_audit_reserve_go acc states = Ok (acc + total_reserve states).
Proof.
  revert acc. induction states as [|s states IH]; intros acc Hn; cbn [total_reserve reversal_audit_reserve_go] in *;
    [f_equal; lia|].
  pose proof (total_reserve_nonneg states). unfold checked_add. rewrite (proj2 (Z.leb_le _ _)) by lia.
  cbn [ok_or mbind result_bind]. rewrite IH by lia. f_equal. lia.
Qed.
Lemma total_reserve_insert states index s s' :
  states !! index = Some s → total_reserve (<[index := s']> states) = total_reserve states - reserve_of s + reserve_of s'.
Proof.
  revert index. induction states as [|t states IH]; intros [|index] Hi; [done..| |]; cbn in Hi.
  - injection Hi as ->. cbn [insert list_insert total_reserve]. lia.
  - change (<[S index := s']> (t :: states)) with (t :: <[index := s']> states). cbn [total_reserve]. rewrite (IH index) by done. lia.
Qed.

Lemma ensure_audit_capacity_spec d entries reserve :
  0 ≤ entries → 0 ≤ reserve →
  ensure_audit_capacity_for d entries reserve = Ok () ↔
  zlen (sd_audit d) + entries + reserve ≤ MAX_SUPPRESSION_AUDIT_ENTRIES.
Proof.
  intros He Hr. unfold ensure_audit_capacity_for, checked_add. assert (MAX_SUPPRESSION_AUDIT_ENTRIES < usize_max) by done.
  assert (0 ≤ zlen (sd_audit d)) by (unfold zlen; lia). split.
  - intros Hc. inv_result. select (_ ≫= _ = Some _) (fun H => rename H into Hs).
    destruct (_ <=? _) in Hs; cbn in Hs; [|done]. case_match; simplify_eq. split_bool. lia.
  - intros Hle. rewrite (proj2 (Z.leb_le _ _)) by lia. cbn. rewrite (proj2 (Z.leb_le _ _)) by lia. cbn.
    apply reject_if_Ok, Z.ltb_ge. lia.
Qed.

(** Walks through a chain whose steps are known to succeed. *)
Ltac ok_steps :=
  repeat match goal with
  | |- (_ ≫= _) = Ok _ =>
      apply bind_Ok; first [exists tt | eexists]; split;
      [first [eassumption | apply reject_if_Ok; first [eassumption | reflexivity | apply Z.ltb_ge; lia]]|]
  end.

Lemma check_rules_insert ids rules index r s now :
  check_rules ids rules = Ok () → rules !! index = Some r → ru_created_at r ≤ now → s ≠ Enabled →
  check_rules ids (<[index := set_state s now r]> rules) = Ok ().
Proof.
  intros Hc Hi Hnow Hs. revert ids index Hc Hi. induction rules as [|r' rules IH]; intros ids [|index] Hc Hi; [done..| |];
    cbn [check_rules] in Hc; inv_result; cbn in Hi.
  - injection Hi as ->. cbn [insert list_insert check_rules set_state ru_id ru_name ru_rationale ru_updated_at ru_created_at ru_state ru_origin].
    ok_steps. by rewrite (bool_decide_eq_false_2 (s = Enabled)).
  - change (<[S index := ?x]> (r' :: rules)) with (r' :: <[index := x]> rules). cbn [check_rules]. ok_steps. by apply IH.
Qed.

Lemma check_audit_app revision ids previous es e :
  check_audit revision ids previous es = Ok () → 0 ≤ previous ≤ revision → is_uuid_v7 (ae_id e) = true →
  ae_id e ∉ ids ++ (ae_id <$> es) → ae_revision e = revision + 1 →
  optional_uuid "suppression audit rule id" (ae_rule_id e) = Ok () → ae_preview_token e = None →
  check_audit (revision + 1) ids previous (es ++ [e]) = Ok ().
Proof.
  intros Hc Hp Hu Hn Hr Hid Ht. revert ids previous Hc Hp Hn. induction es as [|e' es IH]; intros ids previous Hc Hp Hn.
  - cbn [app check_audit]. unfold validate_uuid_v7. rewrite Hu, Ht, bool_decide_eq_false_2 by set_solver.
    cbn [negb reject_if mbind result_bind]. apply bind_Ok. exists tt. split; [apply reject_if_Ok|by ok_steps].
    rewrite !orb_false_iff, Z.eqb_neq, Z.leb_gt, Z.ltb_ge. lia.
  - cbn [app check_audit] in *. inv_result. split_bool. ok_steps. apply bind_Ok. exists tt. split; [apply reject_if_Ok; by apply bool_decide_eq_false_2|].
    apply bind_Ok. exists tt. split; [apply reject_if_Ok; rewrite !orb_false_iff, Z.eqb_neq, Z.leb_gt, Z.ltb_ge; lia|].
    ok_steps. apply IH; [done|lia|set_solver].
Qed.

(** The document in which the rule at [index] has the state [s]. *)
Definition retired (en : Surroundings) (d : SuppressionDocument) (index : nat) (r : SuppressionRule)
    (s : SuppressionRuleState) (a : SuppressionAuditAction) : SuppressionDocument :=
  next_document d (sd_revision d + 1) (<[index := set_state s (en_now en) r]> (sd_rules d)) []
    (mutated_entry en (sd_revision d + 1) a (ru_id r)).

Lemma retiring_frees s m s' a :
  transition s m = Ok (s', a) → m ≠ MReenable → reserve_of s' + 1 ≤ reserve_of s ∧ s' ≠ Enabled.
Proof. destruct s, m; cbn [transition]; intros [= <- <-] Hm; by cbn. Qed.

Lemma valid_rule_uuid ids rules index r :
  check_rules ids rules = Ok () → rules !! index = Some r → is_uuid_v7 (ru_id r) = true.
Proof.
  revert ids index. induction rules as [|r' rules IH]; intros ids [|index] Hc Hi; [done..| |]; cbn [check_rules] in Hc;
    inv_result; cbn in Hi; [|by eapply IH]. injection Hi as ->. unfold validate_uuid_v7 in *. inv_result. by split_bool.
Qed.

Lemma retirement_capacity d index r m s a :
  validate_document d (sd_corpus_id d) = Ok () → sd_rules d !! index = Some r →
  transition (ru_state r) m = Ok (s, a) → m ≠ MReenable →
  let states := <[index := s]> (ru_state <$> sd_rules d) in
  reversal_audit_reserve_states states = Ok (total_reserve states) ∧
  zlen (sd_audit d) + 1 + total_reserve states ≤ MAX_SUPPRESSION_AUDIT_ENTRIES.
Proof.
  intros Hv Hi Ht Hm states. destruct (retiring_frees _ _ _ _ Ht Hm) as [Hfree _]. unfold validate_document in Hv. inv_result.
  pose proof (total_reserve_nonneg (ru_state <$> sd_rules d)).
  select (reversal_audit_reserve _ = _) (fun H => apply reserve_go_total in H as ->).
  select (ensure_audit_capacity_for _ _ _ = _) (fun H => apply ensure_audit_capacity_spec in H as Hcap; [|lia..]).
  assert (total_reserve states = total_reserve (ru_state <$> sd_rules d) - reserve_of (ru_state r) + reserve_of s) as Hs.
  { apply total_reserve_insert. by rewrite list_lookup_fmap, Hi. }
  assert (MAX_SUPPRESSION_AUDIT_ENTRIES < usize_max) by done. assert (0 ≤ zlen (sd_audit d)) by (unfold zlen; lia).
  split; [|lia]. apply (reserve_go_fits 0). lia.
Qed.

Lemma retired_valid en d index r m s a :
  validate_document d (sd_corpus_id d) = Ok () → sd_rules d !! index = Some r →
  transition (ru_state r) m = Ok (s, a) → m ≠ MReenable → ru_created_at r ≤ en_now en →
  is_uuid_v7 (en_audit_id en) = true → en_audit_id en ∉ ae_id <$> sd_audit d → 0 < sd_revision d →
  validate_document (retired en d index r s a) (sd_corpus_id d) = Ok ().
Proof.
  intros Hv Hi Ht Hm Hnow Hu Hn Hpos. destruct (retirement_capacity _ _ _ _ _ _ Hv Hi Ht Hm) as [Hres Hcap].
  destruct (retiring_frees _ _ _ _ Ht Hm) as [_ Hne].
  unfold validate_document in *. inv_result. cbn [retired next_document sd_schema_version sd_corpus_id sd_rules sd_previews sd_audit sd_revision].
  select (check_rules _ _ = _) (fun H => rename H into Hrules).
  select (check_audit _ _ _ _ = _) (fun H => rename H into Haudit).
  pose proof (check_rules_insert _ _ _ _ s (en_now en) Hrules Hi Hnow Hne) as Hrules'.
  assert (reversal_audit_reserve (<[index := set_state s (en_now en) r]> (sd_rules d)) =
          Ok (total_reserve (<[index := s]> (ru_state <$> sd_rules d)))) as Hres'.
  { unfold reversal_audit_reserve. by rewrite list_fmap_insert. }
  pose proof (total_reserve_nonneg (<[index := s]> (ru_state <$> sd_rules d))).
  assert (zlen (sd_audit d ++ [mutated_entry en (sd_revision d + 1) a (ru_id r)]) = zlen (sd_audit d) + 1) as Hlen
    by (unfold zlen; rewrite length_app; cbn; lia).
  assert (ensure_audit_capacity_for (retired en d index r s a) 0 (total_reserve (<[index := s]> (ru_state <$> sd_rules d))) = Ok ()).
  { apply ensure_audit_capacity_spec; [lia..|]. cbn [retired next_document sd_audit]. lia. }
  assert (check_audit (sd_revision d + 1) [] 0 (sd_audit d ++ [mutated_entry en (sd_revision d + 1) a (ru_id r)]) = Ok ()).
  { apply check_audit_app; [done|lia|exact Hu|exact Hn|reflexivity| |reflexivity]. cbn [mutated_entry ae_rule_id optional_uuid]. unfold validate_uuid_v7.
    by rewrite (valid_rule_uuid _ _ _ _ Hrules Hi). }
  unfold zlen in *. rewrite length_insert, Hlen. ok_steps.
  rewrite last_snoc. cbn [mutated_entry ae_revision check_previews mbind result_bind]. rewrite Z.eqb_refl, andb_false_r.
  ok_steps. rewrite (proj2 (Z.eqb_neq (sd_revision d + 1) 0)) by lia. done.
Qed.

(** What a retirement needs of the outside: the locks and files work, the clock is not
    before the rule, the new UUID is new, and the codec reads back what it wrote. *)
Record retirement_possible (en : Surroundings) (st : SuppressionState) (d : SuppressionDocument) (r : SuppressionRule)
    (d' : SuppressionDocument) (content : list ascii) : Prop := {
  rp_lock : ss_lock_poisoned st = false;
  rp_root : en_root en = Ok ();
  rp_file_lock : en_lock en = Ok ();
  rp_publication : Forall (λ w, w = Ok ())
    [pb_create (en_publication en); pb_write (en_publication en); pb_persist (en_publication en);
     pb_sync (en_publication en); pb_sync_directory (en_publication en)];
  rp_clock : ru_created_at r ≤ en_now en;
  rp_uuid : is_uuid_v7 (en_audit_id en) = true;
  rp_new : en_audit_id en ∉ ae_id <$> sd_audit d;
  rp_revision : 0 ≤ sd_revision d < u64_max;
  rp_to_vec : document_to_vec d' = Ok content;
  rp_length : zlen content ≤ MAX_SIDECAR_BYTES;
  rp_from_slice : document_from_slice content = Ok d';
}.

Lemma check_mutation_retires en cid st d index r m s a :
  loaded cid st d → sd_rules d !! index = Some r → transition (ru_state r) m = Ok (s, a) → m ≠ MReenable →
  ss_lock_poisoned st = false → en_root en = Ok () → en_lock en = Ok () → sd_revision d < u64_max →
  check_mutation en cid (sd_revision d) (ru_id r) m st = Ok (d, index, r, s, a, sd_revision d + 1).
Proof.
  intros Hl Hi Ht Hm Hlk Hr Hf Hrev. destruct (loaded_document _ _ _ _ Hl) as (_ & _ & Hid).
  destruct (loaded_valid _ _ _ Hl) as [Hv| ->]; [|done]. rewrite <-Hid in Hv.
  destruct (retirement_capacity _ _ _ _ _ _ Hv Hi Ht Hm) as [Hres Hcap].
  unfold check_mutation, with_document, mutation_guard, require_revision, next_revision, checked_add.
  assert (validate_uuid_v7 "suppression rule id" (ru_id r) = Ok ()) as ->.
  { unfold validate_document in Hv. inv_result. select (check_rules _ _ = _) (fun H => rename H into Hc).
    unfold validate_uuid_v7. by rewrite (valid_rule_uuid _ _ _ _ Hc Hi). }
  unfold loaded in Hl. rewrite Hlk, Hr, Hf. cbn [mbind result_bind reject_if]. rewrite Hl. cbn [mbind result_bind].
  rewrite Z.eqb_refl. cbn [negb reject_if mbind result_bind].
  assert (list_find (λ x, ru_id x = ru_id r) (sd_rules d) = Some (index, r)) as ->.
  { apply list_find_Some. split_and!; [done..|]. intros j r' Hj Hlt Heq. pose proof (loaded_ids _ _ _ Hl) as Hnd.
    assert (j = index); [|lia]. eapply (NoDup_lookup _ _ _ (ru_id r)); [exact Hnd|..]; rewrite list_lookup_fmap.
    - rewrite Hj. cbn. by rewrite Heq.
    - by rewrite Hi. }
  cbn [ok_or mbind result_bind]. rewrite Ht. cbn [mbind result_bind]. rewrite bool_decide_eq_false_2 by done.
  cbn [mbind result_bind]. rewrite Hres. cbn [mbind result_bind].
  pose proof (total_reserve_nonneg (<[index := s]> (ru_state <$> sd_rules d))) as Hnn.
  rewrite (proj2 (ensure_audit_capacity_spec d 1 _ Z.le_0_1 Hnn) Hcap). cbn [mbind result_bind].
  by rewrite (proj2 (Z.leb_le _ _)) by lia.
Qed.

Lemma publish_possible {A} en st d d' (r : SuppressionRule) content (a : A) :
  retirement_possible en st d r d' content → clear_ephemeral_resolution d' = d' →
  validate_document d' (sd_corpus_id d') = Ok () → reject_unsafe_existing_sidecar (ss_sidecar st) = Ok () →
  publish en d' a st = (Ok a, set_sidecar st (published (en_publication en) content)) ∧
  loaded (sd_corpus_id d') (set_sidecar st (published (en_publication en) content)) d'.
Proof.
  intros [_ Hr _ Hp _ _ _ _ Hto Hlen Hfrom] Hc Hv Hu. rewrite !Forall_cons in Hp. destruct Hp as (H1 & H2 & H3 & H4 & H5 & _).
  assert (prepare_document (en_root en) d' (en_publication en) (ss_sidecar st) = Ok (d', content)) as Ep.
  { unfold prepare_document. rewrite Hr, Hc, Hto, H1, H2, H3, Hu. cbn [mbind result_bind map_err]. rewrite Hv.
    cbn [mbind result_bind map_err]. rewrite (proj2 (Z.ltb_ge _ _)) by lia. cbn [mbind result_bind map_err reject_if].
    rewrite Hfrom. cbn [mbind result_bind map_err reject_if]. by rewrite bool_decide_eq_true_2. }
  pose proof (prepare_document_spec _ _ _ _ _ _ Ep) as (_ & _ & Hload).
  unfold publish, write_document, loaded. rewrite Ep. cbn [ss_sidecar set_sidecar]. split; [|apply Hload].
  f_equal. unfold confirm_document. rewrite H4, H5, Hr. cbn [mbind result_bind map_err]. rewrite Hload.
  cbn [mbind result_bind map_err]. by rewrite bool_decide_eq_true_2.
Qed.

(** C14. A live rule can always be retired: the room the audit needs for it was reserved
    when it was activated. Whatever a valid sidecar holds, even one whose audit leaves
    no room for another preview or activation, an enabled rule can be disabled and an
    enabled or disabled one removed as soon as the files and locks work, the clock is
    not before the rule and the document fits: the mutation succeeds, and what loads
    afterwards has the rule in its new state, one more entry and no preview. *)
Theorem live_rules_can_be_retired en cid st d index r m s a content :
  load_document_from_root (Ok ()) cid (ss_sidecar st) = Ok d → sd_rules d !! index = Some r →
  transition (ru_state r) m = Ok (s, a) → m ≠ MReenable →
  retirement_possible en st d r (retired en d index r s a) content →
  ∃ st', mutate_rule_from_root en cid (sd_revision d) (ru_id r) m st =
           (Ok {| mr_revision := sd_revision d + 1; mr_rule := set_state s (en_now en) r |}, st') ∧
    load_document_from_root (Ok ()) cid (ss_sidecar st') = Ok (retired en d index r s a) ∧
    sd_rules (retired en d index r s a) !! index = Some (set_state s (en_now en) r).
Proof.
  intros Hl Hi Ht Hm Hp. pose proof Hp as [Hlk Hr Hf _ Hnow Hu Hn Hrev _ _ _].
  destruct (loaded_document _ _ _ _ Hl) as (_ & Hc & Hid). destruct (loaded_valid _ _ _ Hl) as [Hv|Hv]; [|by rewrite Hv in Hi].
  assert (0 < sd_revision d) as Hpos.
  { unfold validate_document in Hv. inv_result. destruct (decide (sd_revision d = 0)) as [E|]; [|lia]. rewrite E in *.
    destruct (sd_rules d); [done|]. cbn in *. done. }
  rewrite <-Hid in Hv. pose proof (retired_valid en _ _ _ _ _ _ Hv Hi Ht Hm Hnow Hu Hn Hpos) as Hv'.
  destruct (publish_possible en st d (retired en d index r s a) r content
    {| mr_revision := sd_revision d + 1; mr_rule := set_state s (en_now en) r |}) as [Hpub Hl']; [done| |done| |].
  - apply next_document_cleared; [done|]. apply Forall_insert; [by apply cleared_rules|]. cbn.
    by apply (Forall_lookup_1 _ _ _ _ (cleared_rules d Hc)) in Hi.
  - unfold load_document_from_root in Hl. cbn [mbind result_bind] in Hl. destruct (validate_bounded_text _ _ _); [|done].
    by destruct (ss_sidecar st).
  - eexists. split_and!; [|by rewrite <-Hid|cbn; rewrite list_lookup_insert_eq; [done|by eapply lookup_lt_Some]].
    unfold mutate_rule_from_root. by rewrite (check_mutation_retires _ _ _ _ _ _ _ _ _ Hl Hi Ht Hm Hlk Hr Hf) by lia.
Qed.

(** A lock that a panic has poisoned stops every operation, those that retire a rule
    included, until the process restarts. *)
Lemma poisoned_lock_blocks en cid expected rule_id m st :
  ss_lock_poisoned st = true →
  is_err (mutate_rule_from_root en cid expected rule_id m st).1 = true ∧ (mutate_rule_from_root en cid expected rule_id m st).2 = st.
Proof.
  intros Hp. unfold mutate_rule_from_root, check_mutation, with_document, mutation_guard. rewrite Hp.
  unfold validate_uuid_v7. by destruct (is_uuid_v7 rule_id).
Qed.
End suppression.

(** ** A rule, from its preview to its retirement *)

Module SuppressionDemo.
Definition corpus : string := "corpus-1".
Definition full_disk : SuppressionTemplatePredicate := {| sp_template_id := 7; sp_template_fingerprint := "a1b2c3" |}.
Definition row (message : string) : RepresentativeRow :=
  {| rw_seq := 41; rw_timestamp := 900; rw_level := "WARN"; rw_message := message; rw_source := "app/disk.log";
     rw_active_basis := Some "explicit_wall" |}.
Definition log_of (message : string) : LogCorpus :=
  {| lc_event_revision := 5; lc_template_analysis_revision := 2;
     lc_template_identities := {[ 7 := "a1b2c3"; 8 := "d4e5f6" ]}; lc_template_counts := [(7, 3); (8, 1)];
     lc_event_count := Ok 10; lc_match_summary := λ _, Ok (3, 1, Some 800, Some 900);
     lc_level_rows := λ _, Ok [Ok ("WARN", 3)]; lc_representative_rows := λ _, Ok [Ok (row message)] |}.
Definition works : Publication :=
  {| pb_create := Ok (); pb_write := Ok (); pb_persist := Ok (); pb_sync := Ok (); pb_sync_directory := Ok ();
     pb_modified_ns := Some 1; pb_device := 1; pb_inode := 9 |}.
Definition at_time (now : Z) (id audit_id message : string) : Surroundings :=
  {| en_root := Ok (); en_lock := Ok (); en_now := now; en_id := id; en_audit_id := audit_id;
     en_moments := λ _, log_of message; en_publication := works |}.
Definition asked : NewSuppressionPreview :=
  {| np_name := "Full disk"; np_rationale := "Known and ticketed"; np_template_id := 7; np_origin := Human |}.
Definition shown : ComputedPreviewFacts :=
  {| cf_event_revision := 5; cf_matching_event_count := 3; cf_incremental_event_count := 3; cf_corpus_event_count := 10;
     cf_level_counts := [{| lv_level := "WARN"; lv_count := 3 |}]; cf_source_count := 1;
     cf_time_span := {| ts_from := 800; ts_to := 900 |};
     cf_representatives :=
       [{| re_seq := 41; re_source := "app/disk.log"; re_timestamp := 900; re_time_quality := Wall; re_level := "WARN";
           re_redacted_excerpt := "disk is full" |}] |}.

Abbreviation en1 := (at_time 1000 "token-1" "audit-1" "disk is full").
Abbreviation en2 := (at_time 1010 "rule-1" "audit-2" "disk is full").
Abbreviation en3 := (at_time 1020 "-" "audit-3" "disk is full").
Abbreviation preview1 := (new_preview en1 corpus 1 asked full_disk shown).
Abbreviation rule1 := (new_rule en2 preview1).
Abbreviation d1 := (next_document (empty_document corpus) 1 [] [preview1] (previewed_entry en1 1)).
Abbreviation d2 := (next_document d1 2 [rule1] [] (activated_entry en2 2 "token-1")).
Abbreviation d3 := (retired en3 d2 0 rule1 Removed ARemoved).

(** A codec that knows three documents. *)
#[local] Instance three_documents : SidecarCodec := {|
  document_from_slice content :=
    if bool_decide (content = bytes "1") then Ok d1
    else if bool_decide (content = bytes "2") then Ok d2
    else if bool_decide (content = bytes "3") then Ok d3 else Err "not a document";
  document_to_vec d :=
    if bool_decide (d = d1) then Ok (bytes "1")
    else if bool_decide (d = d2) then Ok (bytes "2")
    else if bool_decide (d = d3) then Ok (bytes "3") else Err "unknown document";
  is_uuid_v7 := λ _, true;
|}.
Abbreviation no_alphanumeric := (λ _ : list ascii, false).
Abbreviation holds content := {| ss_sidecar := published works (bytes content); ss_lock_poisoned := false; ss_db_poisoned := false |}.

Lemma previewed : preview_from_root no_alphanumeric en1 corpus 0 asked fresh_state = (Some (Ok preview1), holds "1").
Proof. vm_compute. reflexivity. Qed.
Lemma activated :
  activate_from_root en2 corpus 1 "token-1" (holds "1") = (Ok {| mr_revision := 2; mr_rule := rule1 |}, holds "2").
Proof. vm_compute. reflexivity. Qed.
Lemma active_loads : load_document_from_root (Ok ()) corpus (ss_sidecar (holds "2")) = Ok d2.
Proof. vm_compute. reflexivity. Qed.

(** The audit of the activated rule explains it. *)
Lemma audit_log_explains_every_rule_witness :
  ae_revision <$> sd_audit d2 = seqZ 1 (sd_revision d2) ∧
  (λ r, (ru_id r, ru_state r)) <$> sd_rules d2 = told_by (sd_audit d2) ∧
  Forall (confirmed (sd_audit d2)) (sd_rules d2) ∧ NoDup (live_templates (sd_rules d2)).
Proof.
  apply (audit_log_explains_every_rule no_alphanumeric corpus (holds "2") d2).
  - eapply rtc_l; [eapply StepPreview, previewed|]. eapply rtc_l; [eapply StepActivate, activated|]. apply rtc_refl.
  - exact active_loads.
Defined.

(** The activation published one further revision. *)
Lemma suppression_publishes_atomically_witness :
  ss_sidecar (holds "2") = ss_sidecar (holds "1") ∨
  ∃ d' e, load_document_from_root (Ok ()) corpus (ss_sidecar (holds "2")) = Ok d' ∧ sd_audit d' = sd_audit d1 ++ [e] ∧
    ae_revision e = sd_revision d' ∧ sd_revision d' = sd_revision d1 + 1 ∧
    ∀ i r, sd_rules d1 !! i = Some r → ∃ r', sd_rules d' !! i = Some r' ∧ ru_id r' = ru_id r ∧
      ru_predicate r' = ru_predicate r ∧ ru_origin r' = ru_origin r ∧ (ru_state r = Removed → r' = r).
Proof.
  apply (suppression_publishes_atomically no_alphanumeric corpus (holds "1") (holds "2") d1).
  - eapply StepActivate, activated.
  - vm_compute. reflexivity.
Defined.

Lemma removal_possible : retirement_possible en3 (holds "2") d2 rule1 d3 (bytes "3").
Proof.
  constructor; try reflexivity; try (vm_compute; reflexivity).
  - by rewrite !Forall_cons.
  - by vm_compute.
  - not_in.
  - by split; vm_compute.
  - by vm_compute.
Qed.
(** The rule is removed. *)
Lemma live_rules_can_be_retired_witness :
  ∃ st', mutate_rule_from_root en3 corpus 2 "rule-1" MRemove (holds "2") =
           (Ok {| mr_revision := 3; mr_rule := set_state Removed 1020 rule1 |}, st') ∧
    load_document_from_root (Ok ()) corpus (ss_sidecar st') = Ok d3 ∧
    sd_rules d3 !! 0%nat = Some (set_state Removed 1020 rule1).
Proof.
  apply (live_rules_can_be_retired en3 corpus (holds "2") d2 0 rule1 MRemove Removed ARemoved (bytes "3")).
  - exact active_loads.
  - reflexivity.
  - reflexivity.
  - discriminate.
  - exact removal_possible.
Defined.

(** One log line takes away the control over the rules. The redaction of a message with
    an arrow after the label of a key panics while a preview holds both locks; after it
    no rule of the process can be disabled or removed, although every file is intact. *)
Theorem one_log_line_blocks_suppression :
  let message := "aws_secret_access_key" +:+ of_bytes ["226"; "134"; "146"]%char in
  let '(r, st) := preview_from_root no_alphanumeric (at_time 1015 "token-2" "audit-3" message) corpus 2 asked (holds "2") in
  r = None ∧ ss_sidecar st = ss_sidecar (holds "2") ∧
  ∀ en expected rule_id m,
    is_err (mutate_rule_from_root en corpus expected rule_id m st).1 = true ∧
    (mutate_rule_from_root en corpus expected rule_id m st).2 = st.
Proof.
  intros message.
  assert (preview_from_root no_alphanumeric (at_time 1015 "token-2" "audit-3" message) corpus 2 asked (holds "2") =
          (None, poisoned (holds "2"))) as -> by (vm_compute; reflexivity).
  split_and!; [done..|]. intros. by apply poisoned_lock_blocks.
Qed.
End SuppressionDemo.
