(* ===== verification/SuppressionLens.v ===== *)
(** * The suppression lens

    [cd-core/src/log_analysis/suppression_lens.rs] and the part of [suppression.rs] that
    resolves the rules against a corpus: which templates the policy authorises a query
    to hide, the digest that binds a finding to the policy, and the snapshot for a
    diagnostic export.

    A call looks at the sidecar and the corpus several times while other threads and
    processes change them; the looks of a call are a function [nat → World], in the
    order of time. A look that the code does not make is skipped. *)
From Stdlib Require Import ZArith Lia Ascii String.
From stdpp Require Import base tactics option list list_numbers sets gmap fin_maps sorting strings.
From S2P Require Import Prelude RustStr Crypto BTree Display Redact Suppression.

Local Open Scope string_scope.
Local Open Scope list_scope.
Local Open Scope Z_scope.

Definition MAX_EXCLUDED_TEMPLATE_IDS : Z := 256.
Definition MAX_DIAGNOSTIC_SUPPRESSION_RULES : Z := 64.
Definition MAX_DIAGNOSTIC_SUPPRESSION_AUDIT : Z := 128.

(** ** The resolution of the rules *)

Definition is_enabled (r : SuppressionRule) : bool := bool_decide (ru_state r = Enabled).

(** The indexes of the enabled rules, by template. *)
Definition enabled_step (m : gmap Z (list nat)) (entry : nat * SuppressionRule) : gmap Z (list nat) :=
  let '(index, rule) := entry in
  if is_enabled rule
  then let id := sp_template_id (ru_predicate rule) in <[id := default [] (m !! id) ++ [index]]> m
  else m.
Definition enabled_by_template_id (rules : list SuppressionRule) : gmap Z (list nat) :=
  foldl enabled_step ∅ (imap pair rules).
Definition conflicting_template_ids (rules : list SuppressionRule) : list Z :=
  omap (λ entry : Z * list nat, if (1 <? length entry.2)%nat then Some entry.1 else None)
    (map_to_list (enabled_by_template_id rules)).
Definition structurally_valid_enabled (rules : list SuppressionRule) : list (nat * Z) :=
  omap (λ entry : nat * SuppressionRule,
          if is_enabled entry.2 && is_ok (validate_predicate (ru_predicate entry.2))
          then Some (entry.1, sp_template_id (ru_predicate entry.2)) else None) (imap pair rules).

(** The attempts to read the fingerprints at one revision; each makes three looks. *)
Fixpoint resolution_attempts (attempts : nat) (looks : nat → LogCorpus) (ids : list Z) : option (Z * gmap Z string) :=
  match attempts with
  | O => None
  | S attempts =>
      let before := lc_template_analysis_revision (looks 0%nat) in
      let fingerprints := template_fingerprints (looks 1%nat) ids MAX_TEMPLATE_FINGERPRINT_BYTES in
      let after := lc_template_analysis_revision (looks 2%nat) in
      if before =? after then Some (after, fingerprints)
      else resolution_attempts attempts (λ k, looks (3 + k)%nat) ids
  end.

Definition resolution (kind : SuppressionRuleResolutionKind) (explanation : string) : SuppressionRuleResolution :=
  {| rs_kind := kind; rs_matches_nothing := negb (bool_decide (kind = MatchesCurrent)); rs_explanation := explanation |}.
Definition resolution_of (conflicting : list Z) (fingerprints : gmap Z string) (rule : SuppressionRule) :
    SuppressionRuleResolution :=
  let id := sp_template_id (ru_predicate rule) in
  match ru_state rule with
  | Disabled => resolution Inactive "Rule is disabled and matches nothing until a person re-enables it."
  | Removed => resolution Inactive "Rule is an immutable tombstone retained for audit history."
  | Enabled =>
      match validate_predicate (ru_predicate rule) with
      | Err e =>
          resolution InvalidPredicate
            ("Invalid predicate — matches nothing: " +:+ e +:+ ". Disable or remove the rule after review.")
      | Ok _ =>
          if bool_decide (id ∈ conflicting)
          then resolution ConflictingPredicate
                 ("Conflicting predicate — matches nothing: multiple enabled rules target template " +:+ decimal id +:+
                  ". Disable or remove conflicting rules before applying suppression.")
          else
            match fingerprints !! id with
            | None =>
                resolution StaleTargetMissing
                  ("Stale — matches nothing: template " +:+ decimal id +:+
                   " no longer exists. The rule and audit history were preserved; disable or remove it after review.")
            | Some current =>
                if negb (bool_decide (current = sp_template_fingerprint (ru_predicate rule)))
                then resolution StaleFingerprintChanged
                       ("Stale — matches nothing: template " +:+ decimal id +:+
                        " now has a different fingerprint. The rule was not remapped by numeric id; review the corpus revision.")
                else resolution MatchesCurrent "Exact template id and fingerprint match the current corpus revision."
            end
      end
  end.
Definition set_resolution (r : SuppressionRule) (res : SuppressionRuleResolution) : SuppressionRule :=
  {| ru_id := ru_id r; ru_name := ru_name r; ru_rationale := ru_rationale r; ru_predicate := ru_predicate r;
     ru_origin := ru_origin r; ru_state := ru_state r; ru_created_at := ru_created_at r; ru_updated_at := ru_updated_at r;
     ru_resolution := Some res |}.

Definition resolve_rule_statuses (looks : nat → LogCorpus) (d : SuppressionDocument) : result string SuppressionDocument :=
  let conflicting := conflicting_template_ids (sd_rules d) in
  ok_or (resolution_attempts MAX_RESOLUTION_ATTEMPTS looks (structurally_valid_enabled (sd_rules d)).*2)
    ("suppression_policy_resolution_busy: template metadata changed during " +:+
     decimal (Z.of_nat MAX_RESOLUTION_ATTEMPTS) +:+ " resolution attempts; retry") ≫= λ '(revision, fingerprints),
  Ok {| sd_schema_version := sd_schema_version d; sd_corpus_id := sd_corpus_id d; sd_revision := sd_revision d;
        sd_rules := (λ r, set_resolution r (resolution_of conflicting fingerprints r)) <$> sd_rules d;
        sd_previews := sd_previews d; sd_audit := sd_audit d; sd_resolved_template_revision := Some revision |}.

Section lens.
Context `{SidecarCodec}.

(** The corpus root, the sidecar and the corpus at one moment. *)
Record World := { wo_root : result string unit; wo_sidecar : SidecarEntry; wo_corpus : LogCorpus }.

(** Ten looks: the sidecar first, then the attempts. *)
Definition load_suppression_document (corpus_id : string) (looks : nat → World) : result string SuppressionDocument :=
  load_document_from_root (wo_root (looks 0%nat)) corpus_id (wo_sidecar (looks 0%nat)) ≫=
  resolve_rule_statuses (λ k, wo_corpus (looks (S k))).

(** ** The templates of the policy *)

Fixpoint collect_enabled (rules : list SuppressionRule) : result string (list Z) :=
  match rules with
  | [] => Ok []
  | r :: rest =>
      if is_enabled r
      then
        ok_or (ru_resolution r)
          ("suppression_rule_unresolved: enabled rule " +:+ ru_id r +:+
           " has not been resolved against the current corpus; reload the suppression policy before applying it") ≫= λ res,
        match rs_kind res with
        | MatchesCurrent => collect_enabled rest ≫= λ ids, Ok (sp_template_id (ru_predicate r) :: ids)
        | StaleTargetMissing | StaleFingerprintChanged | InvalidPredicate | ConflictingPredicate => collect_enabled rest
        | Inactive =>
            Err ("suppression_rule_resolution_invalid: enabled rule " +:+ ru_id r +:+
                 " was resolved as inactive; reload the suppression policy")
        end
      else collect_enabled rest
  end.
Definition enabled_template_ids (d : SuppressionDocument) : result string (list Z) :=
  collect_enabled (sd_rules d) ≫= λ ids,
  let ids := set_collect ids in
  reject_if (MAX_EXCLUDED_TEMPLATE_IDS <? zlen ids)
    ("active suppression lens has " +:+ decimal (zlen ids) +:+ " exact templates; query limit is " +:+
     decimal MAX_EXCLUDED_TEMPLATE_IDS) ≫= λ _,
  Ok ids.

(** [before] and [after] are the revision at the two looks. *)
Definition enabled_template_ids_for_corpus (d : SuppressionDocument) (before after : Z) : result string (list Z) :=
  ok_or (sd_resolved_template_revision d)
    "suppression_policy_unresolved: reload the suppression policy before applying it" ≫= λ resolved,
  reject_if (negb (before =? resolved))
    ("suppression_policy_snapshot_stale: resolved template revision " +:+ decimal resolved +:+ ", current revision " +:+
     decimal before +:+ "; reload before applying the lens") ≫= λ _,
  enabled_template_ids d ≫= λ ids,
  reject_if (negb (after =? resolved))
    ("suppression_policy_snapshot_stale: template revision changed from " +:+ decimal resolved +:+ " to " +:+
     decimal after +:+ " while applying the lens; retry") ≫= λ _,
  Ok ids.

(** ** The binding of a finding to the policy *)

Definition update_policy_digest (bytes : list ascii) : list ascii := to_le_bytes 8 (zlen bytes) ++ bytes.
Definition byte (n : Z) : list ascii := to_le_bytes 1 n.
Definition suppression_origin_code (origin : SuppressionRuleOrigin) : Z :=
  match origin with Human => 1 | DetectorProposal => 2 | ModelProposal => 3 end.
Definition suppression_state_code (state : SuppressionRuleState) : Z :=
  match state with Enabled => 1 | Disabled => 2 | Removed => 3 end.
Definition suppression_resolution_code (kind : SuppressionRuleResolutionKind) : Z :=
  match kind with
  | MatchesCurrent => 1 | StaleTargetMissing => 2 | StaleFingerprintChanged => 3 | InvalidPredicate => 4
  | ConflictingPredicate => 5 | Inactive => 6
  end.

Record SuppressionPolicyBindingSnapshot := {
  sb_suppression_policy_revision : Z; sb_resolved_template_revision : Z; sb_effective_policy_sha256 : string;
}.
Definition rule_bytes (r : SuppressionRule) : result string (list ascii) :=
  ok_or (ru_resolution r)
    ("suppression_rule_unresolved: rule " +:+ ru_id r +:+ " has no trusted-core resolution") ≫= λ res,
  Ok (update_policy_digest (bytes (ru_id r)) ++
      update_policy_digest (byte (suppression_origin_code (ru_origin r))) ++
      update_policy_digest (byte (suppression_state_code (ru_state r))) ++
      update_policy_digest (to_le_bytes 8 (sp_template_id (ru_predicate r))) ++
      update_policy_digest (bytes (sp_template_fingerprint (ru_predicate r))) ++
      update_policy_digest (byte (suppression_resolution_code (rs_kind res))) ++
      update_policy_digest (byte (if rs_matches_nothing res then 1 else 0))).
Definition rule_leb (a b : SuppressionRule) : bool := bool_decide (key_le (ru_id a) (ru_id b)).
Definition header_bytes (d : SuppressionDocument) (resolved : Z) : list ascii :=
  update_policy_digest (bytes "contextdesk.suppression-policy-binding.v1") ++
  update_policy_digest (bytes (sd_corpus_id d)) ++
  update_policy_digest (to_le_bytes 4 (sd_schema_version d)) ++
  update_policy_digest (to_le_bytes 8 (sd_revision d)) ++
  update_policy_digest (to_le_bytes 8 resolved).
Context `{Sha2}.
(** The template revision at three looks. *)
Definition policy_binding_snapshot (d : SuppressionDocument) (revisions : nat → Z) :
    result string SuppressionPolicyBindingSnapshot :=
  ok_or (sd_resolved_template_revision d)
    "suppression_policy_unresolved: reload the suppression policy before binding a finding" ≫= λ resolved,
  enabled_template_ids_for_corpus d (revisions 0%nat) (revisions 1%nat) ≫= λ _,
  all_ok rule_bytes (sort_by rule_leb (sd_rules d)) ≫= λ rules,
  reject_if (negb (revisions 2%nat =? resolved))
    "suppression_policy_snapshot_stale: template revision changed while binding the policy; retry" ≫= λ _,
  Ok {| sb_suppression_policy_revision := sd_revision d; sb_resolved_template_revision := resolved;
        sb_effective_policy_sha256 := sha256_hex (header_bytes d resolved ++ concat rules) |}.
Definition capture_suppression_policy_binding (corpus_id : string) (looks : nat → World) :
    result string SuppressionPolicyBindingSnapshot :=
  load_suppression_document corpus_id looks ≫= λ d,
  policy_binding_snapshot d (λ k, lc_template_analysis_revision (wo_corpus (looks (10 + k)%nat))).

(** ** The diagnostic snapshot *)

Record SuppressionDiagnosticRule := {
  dr_rule_id : string; dr_name : string; dr_rationale : string; dr_state : SuppressionRuleState;
  dr_resolution_kind : SuppressionRuleResolutionKind; dr_explanation : string; dr_matching_event_count : Z;
}.
Record SuppressionDiagnosticAuditEntry := {
  da_action : SuppressionAuditAction; da_revision : Z; da_rule_id : option string; da_created_at : Z;
}.
Record SuppressionDiagnosticSnapshot := {
  dx_policy_revision : Z; dx_resolved_template_revision : Z; dx_enabled_rule_count : Z; dx_applied_rule_count : Z;
  dx_stale_rule_count : Z; dx_rules : list SuppressionDiagnosticRule; dx_audit : list SuppressionDiagnosticAuditEntry;
  dx_omitted_rule_entries : Z; dx_omitted_audit_entries : Z;
}.
(** The counters and rules of the loop. *)
Record Diagnosis := { dg_enabled : Z; dg_applied : Z; dg_stale : Z; dg_rules : list SuppressionDiagnosticRule }.

Definition kind_and_explanation (r : SuppressionRule) : SuppressionRuleResolutionKind * string :=
  match ru_resolution r with
  | Some res => (rs_kind res, rs_explanation res)
  | None => (Inactive, "unresolved against the current corpus")
  end.
Definition applies (r : SuppressionRule) : bool :=
  is_enabled r && bool_decide ((kind_and_explanation r).1 = MatchesCurrent).
Definition diagnostic_rule (counts : gmap Z Z) (r : SuppressionRule) : SuppressionDiagnosticRule :=
  {| dr_rule_id := ru_id r; dr_name := ru_name r; dr_rationale := ru_rationale r; dr_state := ru_state r;
     dr_resolution_kind := (kind_and_explanation r).1; dr_explanation := (kind_and_explanation r).2;
     dr_matching_event_count := if applies r then default 0 (counts !! sp_template_id (ru_predicate r)) else 0 |}.
Definition diagnose (counts : gmap Z Z) (g : Diagnosis) (r : SuppressionRule) : Diagnosis :=
  {| dg_enabled := if is_enabled r then dg_enabled g + 1 else dg_enabled g;
     dg_applied := if applies r then dg_applied g + 1 else dg_applied g;
     dg_stale := if applies r then dg_stale g else if is_enabled r then dg_stale g + 1 else dg_stale g;
     dg_rules := if zlen (dg_rules g) <? MAX_DIAGNOSTIC_SUPPRESSION_RULES
                 then dg_rules g ++ [diagnostic_rule counts r] else dg_rules g |}.
Definition template_count_map (counts : list (Z * Z)) : gmap Z Z := foldl (λ m entry, <[entry.1 := entry.2]> m) ∅ counts.
Definition diagnostic_audit (e : SuppressionAuditEntry) : SuppressionDiagnosticAuditEntry :=
  {| da_action := ae_action e; da_revision := ae_revision e; da_rule_id := ae_rule_id e;
     da_created_at := Z.max 0 (ae_created_at e) |}.

(** Eleven looks, the last for the revision; the counts are read at it too. *)
Definition suppression_diagnostic_snapshot (corpus_id : string) (looks : nat → World) :
    result string SuppressionDiagnosticSnapshot :=
  load_suppression_document corpus_id looks ≫= λ d,
  let resolved := default (lc_template_analysis_revision (wo_corpus (looks 10%nat))) (sd_resolved_template_revision d) in
  let counts := template_count_map (lc_template_counts (wo_corpus (looks 11%nat))) in
  let g := foldl (diagnose counts) {| dg_enabled := 0; dg_applied := 0; dg_stale := 0; dg_rules := [] |} (sd_rules d) in
  let audit_total := zlen (sd_audit d) in
  let audit_start := saturating_sub audit_total MAX_DIAGNOSTIC_SUPPRESSION_AUDIT in
  let audit := diagnostic_audit <$> drop (Z.to_nat audit_start) (sd_audit d) in
  Ok {| dx_policy_revision := sd_revision d; dx_resolved_template_revision := resolved;
        dx_enabled_rule_count := dg_enabled g; dx_applied_rule_count := dg_applied g; dx_stale_rule_count := dg_stale g;
        dx_rules := dg_rules g; dx_audit := audit;
        dx_omitted_rule_entries := saturating_sub (zlen (sd_rules d)) (zlen (dg_rules g));
        dx_omitted_audit_entries := saturating_sub audit_total (zlen audit) |}.

(** ** The lens and its cache *)

Inductive SidecarIdentity :=
| Absent | Present (len : Z) (modified_ns : option Z) (device inode : Z) | Unmeasurable.
#[local] Instance SidecarIdentity_eq_dec : EqDecision SidecarIdentity.
Proof. solve_decision. Defined.
Definition observe (entry : SidecarEntry) : SidecarIdentity :=
  match entry with
  | NoEntry => Absent
  | NotRegular _ | Unreadable _ => Unmeasurable
  | Regular f => Present (sf_len f) (sf_modified_ns f) (sf_device f) (sf_inode f)
  end.

Inductive SuppressionLensState := Resolved | Unavailable.
Record TrustedSuppressionLens := {
  tl_corpus_id : string; tl_state : SuppressionLensState; tl_reason : option string; tl_template_ids : list Z;
  tl_policy_revision : option Z; tl_event_revision : Z; tl_template_analysis_revision : Z;
}.
Definition authorizes (lens : TrustedSuppressionLens) (template_id : Z) : bool :=
  binary_search_is_ok template_id (tl_template_ids lens).
Record SuppressionLensApplication := {
  la_requested : Z; la_effective : Z; la_dropped : Z; la_state : SuppressionLensState;
}.
Record CachedSuppressionLens := {
  cl_sidecar : SidecarIdentity; cl_template_analysis_revision : Z; cl_lens : TrustedSuppressionLens;
}.

Definition unavailable (corpus_id reason : string) (event_revision revision : Z) : TrustedSuppressionLens :=
  {| tl_corpus_id := corpus_id; tl_state := Unavailable; tl_reason := Some reason; tl_template_ids := [];
     tl_policy_revision := None; tl_event_revision := event_revision; tl_template_analysis_revision := revision |}.
(** Ten looks to load, two for the revision, one for the events. *)
Definition resolve_lens (corpus_id : string) (looks : nat → World) (revision : Z) : TrustedSuppressionLens :=
  let events := lc_event_revision (wo_corpus (looks 12%nat)) in
  match load_suppression_document corpus_id looks with
  | Err e => unavailable corpus_id e events revision
  | Ok d =>
      if negb (bool_decide (sd_corpus_id d = corpus_id))
      then unavailable corpus_id "suppression sidecar belongs to a different corpus; no events were hidden" events revision
      else
        match enabled_template_ids_for_corpus d (lc_template_analysis_revision (wo_corpus (looks 10%nat)))
                (lc_template_analysis_revision (wo_corpus (looks 11%nat))) with
        | Err e => unavailable corpus_id e events revision
        | Ok ids =>
            {| tl_corpus_id := corpus_id; tl_state := Resolved; tl_reason := None; tl_template_ids := ids;
               tl_policy_revision := Some (sd_revision d); tl_event_revision := events;
               tl_template_analysis_revision := revision |}
        end
  end.
Definition restamp_event_revision (event_revision : Z) (lens : TrustedSuppressionLens) : TrustedSuppressionLens :=
  if tl_event_revision lens =? event_revision then lens
  else {| tl_corpus_id := tl_corpus_id lens; tl_state := tl_state lens; tl_reason := tl_reason lens;
          tl_template_ids := tl_template_ids lens; tl_policy_revision := tl_policy_revision lens;
          tl_event_revision := event_revision; tl_template_analysis_revision := tl_template_analysis_revision lens |}.

(** [cached] is what the cache holds when it is read; the second component is what the
    call stores in it. *)
Definition trusted_suppression_lens (corpus_id : string) (cached : option CachedSuppressionLens) (looks : nat → World) :
    TrustedSuppressionLens * option CachedSuppressionLens :=
  let sidecar := observe (wo_sidecar (looks 0%nat)) in
  let revision := lc_template_analysis_revision (wo_corpus (looks 1%nat)) in
  let cacheable := negb (bool_decide (sidecar = Unmeasurable)) in
  match (if cacheable
         then cached ≫= λ c, if bool_decide (cl_sidecar c = sidecar) && (cl_template_analysis_revision c =? revision)
                             then Some (cl_lens c) else None
         else None) with
  | Some lens => (restamp_event_revision (lc_event_revision (wo_corpus (looks 2%nat))) lens, None)
  | None =>
      let lens := resolve_lens corpus_id (λ k, looks (3 + k)%nat) revision in
      (lens,
       if cacheable && bool_decide (observe (wo_sidecar (looks 16%nat)) = sidecar) &&
          (lc_template_analysis_revision (wo_corpus (looks 17%nat)) =? revision)
       then Some {| cl_sidecar := sidecar; cl_template_analysis_revision := revision; cl_lens := lens |}
       else None)
  end.

(** The query's exclusions are replaced. *)
Definition apply_lens_to_query (lens : TrustedSuppressionLens) (excluded_template_ids : list Z) :
    SuppressionLensApplication * list Z :=
  let requested := set_collect excluded_template_ids in
  let effective := List.filter (authorizes lens) requested in
  ({| la_requested := zlen requested; la_effective := zlen effective; la_dropped := zlen requested - zlen effective;
      la_state := tl_state lens |}, effective).
Definition apply_trusted_suppression_lens (corpus_id : string) (cached : option CachedSuppressionLens)
    (looks : nat → World) (excluded_template_ids : list Z) :
    SuppressionLensApplication * list Z * option CachedSuppressionLens :=
  let '(lens, stored) := trusted_suppression_lens corpus_id cached looks in
  (apply_lens_to_query lens excluded_template_ids, stored).

(** ** What resolving gives *)

(** The enabled rules for a template. *)
Definition enabled_for (rules : list SuppressionRule) (id : Z) : list SuppressionRule :=
  List.filter (λ r, is_enabled r && (sp_template_id (ru_predicate r) =? id)) rules.
(** The policy authorises hiding a template: one enabled rule is about it, and its
    fingerprint is the template's. *)
Definition authorized (d : SuppressionDocument) (identities : gmap Z string) (id : Z) : Prop :=
  ∃ r, enabled_for (sd_rules d) id = [r] ∧ validate_predicate (ru_predicate r) = Ok () ∧
       identities !! id = Some (sp_template_fingerprint (ru_predicate r)).

Lemma enabled_step_length m entries id :
  length (default [] (foldl enabled_step m entries !! id)) =
  (length (default [] (m !! id)) + length (enabled_for entries.*2 id))%nat.
Proof.
  unfold enabled_for. revert m. induction entries as [|[index r] entries IH]; intros m; [cbn; lia|].
  cbn [foldl fmap list_fmap List.filter snd]. rewrite IH. unfold enabled_step. destruct (is_enabled r); cbn [andb]; [|done].
  destruct (sp_template_id (ru_predicate r) =? id) eqn:E; split_bool.
  - subst. rewrite lookup_insert_eq. cbn [from_option Datatypes.id]. rewrite length_app. cbn [length]. lia.
  - by rewrite lookup_insert_ne.
Qed.
Lemma imap_pair_snd {A} (l : list A) : (imap pair l).*2 = l.
Proof. apply list_eq. intros i. rewrite list_lookup_fmap, list_lookup_imap. by destruct (l !! i). Qed.
Lemma conflicting_spec rules id :
  id ∈ conflicting_template_ids rules ↔ (1 < length (enabled_for rules id))%nat.
Proof.
  unfold conflicting_template_ids. pose proof (enabled_step_length ∅ (imap pair rules) id) as Hlen.
  rewrite imap_pair_snd, lookup_empty in Hlen. change (foldl _ _ _) with (enabled_by_template_id rules) in Hlen. cbn [from_option Datatypes.id length] in Hlen.
  rewrite list_elem_of_omap. split.
  - intros ([k v] & Hkv%elem_of_map_to_list & Heq). cbn [fst snd] in Heq.
    destruct (_ <? _)%nat eqn:E; [|done]. injection Heq as ->. rewrite Hkv in Hlen. cbn [from_option Datatypes.id] in Hlen.
    apply Nat.ltb_lt in E. lia.
  - intros Hlt. destruct (enabled_by_template_id rules !! id) as [v|] eqn:E; cbn [from_option Datatypes.id length] in Hlen; [|lia].
    exists (id, v). rewrite elem_of_map_to_list. split; [done|]. cbn [fst snd]. by rewrite (proj2 (Nat.ltb_lt _ _)) by lia.
Qed.

Lemma template_fingerprints_spec c ids max id h :
  template_fingerprints c ids max !! id = Some h ↔ id ∈ ids ∧ lc_template_identities c !! id = Some h ∧ str_len h ≤ max.
Proof.
  unfold template_fingerprints. split.
  - intros Hl%elem_of_list_to_map_2. apply list_elem_of_omap in Hl as (k & Hk & Heq).
    destruct (lc_template_identities c !! k) as [h'|] eqn:E; cbn in Heq; [|done]. case_match; [|done]. split_bool.
    injection Heq as -> ->. done.
  - intros (Hin & Hh & Hle). apply elem_of_list_to_map_1'.
    + intros h' Hl. apply list_elem_of_omap in Hl as (k & Hk & Heq).
      destruct (lc_template_identities c !! k) as [h2|] eqn:E; cbn in Heq; [|done]. case_match; [|done]. congruence.
    + apply list_elem_of_omap. exists id. split; [done|]. rewrite Hh. cbn. by rewrite (proj2 (Z.leb_le _ _)).
Qed.

(** A rule that matches the corpus. *)
Definition matching (conflicting : list Z) (fingerprints : gmap Z string) (r : SuppressionRule) : bool :=
  is_enabled r && bool_decide (rs_kind (resolution_of conflicting fingerprints r) = MatchesCurrent).
Lemma matching_iff conflicting fingerprints r :
  matching conflicting fingerprints r = true ↔
  is_enabled r = true ∧ validate_predicate (ru_predicate r) = Ok () ∧
  sp_template_id (ru_predicate r) ∉ conflicting ∧
  fingerprints !! sp_template_id (ru_predicate r) = Some (sp_template_fingerprint (ru_predicate r)).
Proof.
  unfold matching. rewrite andb_true_iff, bool_decide_eq_true.
  unfold is_enabled. rewrite bool_decide_eq_true. unfold resolution_of. split.
  - intros [-> Hk]. split; [done|]. destruct (validate_predicate _) as [[]|]; [|done]. split; [done|].
    case_bool_decide; [done|]. split; [done|]. case_match; [|done]. case_match; [done|]. split_bool. by subst.
  - intros (-> & -> & Hc & ->). split; [done|]. rewrite bool_decide_eq_false_2 by done. by rewrite bool_decide_eq_true_2.
Qed.

(** Resolved rules never fail to be collected. *)
Lemma collect_resolved conflicting fingerprints rules :
  collect_enabled ((λ r, set_resolution r (resolution_of conflicting fingerprints r)) <$> rules) =
  Ok ((λ r, sp_template_id (ru_predicate r)) <$> List.filter (matching conflicting fingerprints) rules).
Proof.
  induction rules as [|r rules IH]; [done|]. cbn [fmap list_fmap collect_enabled List.filter]. unfold matching at 1.
  change (is_enabled (set_resolution r ?x)) with (is_enabled r). destruct (is_enabled r) eqn:E; cbn [andb]; [|exact IH].
  cbn [set_resolution ru_resolution ok_or mbind result_bind ru_predicate]. unfold is_enabled in E. split_bool.
  destruct (rs_kind (resolution_of conflicting fingerprints r)) eqn:Ek.
  - rewrite bool_decide_eq_true_2 by done. cbn [fmap list_fmap]. cbn [fmap list_fmap] in IH. by rewrite IH.
  - rewrite bool_decide_eq_false_2 by done. exact IH.
  - rewrite bool_decide_eq_false_2 by done. exact IH.
  - rewrite bool_decide_eq_false_2 by done. exact IH.
  - rewrite bool_decide_eq_false_2 by done. exact IH.
  - exfalso. revert Ek. unfold resolution_of. rewrite E. repeat case_match; done.
Qed.

Lemma enabled_for_elem rules id r : r ∈ enabled_for rules id ↔ r ∈ rules ∧ is_enabled r = true ∧ sp_template_id (ru_predicate r) = id.
Proof. unfold enabled_for. rewrite !list_elem_of_In, filter_In, andb_true_iff, Z.eqb_eq. done. Qed.
Lemma valid_ids_elem rules id :
  id ∈ (structurally_valid_enabled rules).*2 ↔
  ∃ r, r ∈ enabled_for rules id ∧ validate_predicate (ru_predicate r) = Ok ().
Proof.
  unfold structurally_valid_enabled. split.
  - intros ([index k] & -> & Hin)%list_elem_of_fmap. apply list_elem_of_omap in Hin as ([i r] & Hi & Heq). cbn [fst snd] in Heq.
    destruct (_ && _) eqn:E; [|done]. split_bool. injection Heq as -> <-. exists r. rewrite enabled_for_elem.
    destruct (validate_predicate _) as [[]|]; [|done]. split_and!; [|done..].
    apply (list_elem_of_fmap_2 snd) in Hi. by rewrite imap_pair_snd in Hi.
  - intros (r & (Hr & He & <-)%enabled_for_elem & Hv). apply list_elem_of_lookup_1 in Hr as [i Hi].
    apply list_elem_of_fmap. exists (i, sp_template_id (ru_predicate r)). split; [done|]. apply list_elem_of_omap.
    exists (i, r). cbn [fst snd]. rewrite He, Hv. split; [|done]. apply list_elem_of_lookup. exists i.
    by rewrite list_lookup_imap, Hi.
Qed.

(** The templates the resolved rules hide are those the policy authorises. *)
Lemma matching_authorized d c id :
  let conflicting := conflicting_template_ids (sd_rules d) in
  let fingerprints := template_fingerprints c (structurally_valid_enabled (sd_rules d)).*2 MAX_TEMPLATE_FINGERPRINT_BYTES in
  id ∈ (λ r, sp_template_id (ru_predicate r)) <$> List.filter (matching conflicting fingerprints) (sd_rules d) ↔
  authorized d (lc_template_identities c) id.
Proof.
  intros conflicting fingerprints. rewrite list_elem_of_fmap. unfold authorized. split.
  - intros (r & -> & Hr). rewrite list_elem_of_In, filter_In, <-list_elem_of_In, matching_iff in Hr.
    destruct Hr as (Hr & He & Hv & Hc & Hf). exists r. unfold fingerprints in Hf. rewrite template_fingerprints_spec in Hf.
    split_and!; [|done|tauto]. unfold conflicting in Hc. rewrite conflicting_spec in Hc.
    assert (r ∈ enabled_for (sd_rules d) (sp_template_id (ru_predicate r))) as Hin by by apply enabled_for_elem.
    destruct (enabled_for (sd_rules d) _) as [|a [|b l]]; [by apply elem_of_nil in Hin| |cbn in Hc; lia].
    apply list_elem_of_singleton in Hin as ->. done.
  - intros (r & Hone & Hv & Hi). assert (r ∈ enabled_for (sd_rules d) id) as Hin by (rewrite Hone; by apply list_elem_of_singleton).
    pose proof Hin as (Hr & He & Hid)%enabled_for_elem. exists r. split; [done|].
    rewrite list_elem_of_In, filter_In, <-list_elem_of_In, matching_iff. split_and!; [done..| |].
    + unfold conflicting. rewrite conflicting_spec, Hid, Hone. cbn. lia.
    + unfold fingerprints. rewrite template_fingerprints_spec, Hid. split_and!; [|done|].
      * apply valid_ids_elem. by exists r.
      * unfold validate_predicate, validate_bounded_text in Hv. inv_result. split_bool. lia.
Qed.

Lemma resolution_attempts_spec attempts looks ids revision fingerprints :
  resolution_attempts attempts looks ids = Some (revision, fingerprints) →
  ∃ k, (k + 2 < 3 * attempts)%nat ∧ lc_template_analysis_revision (looks k) = revision ∧
       lc_template_analysis_revision (looks (k + 2)%nat) = revision ∧
       fingerprints = template_fingerprints (looks (k + 1)%nat) ids MAX_TEMPLATE_FINGERPRINT_BYTES.
Proof.
  revert looks. induction attempts as [|attempts IH]; intros looks; cbn [resolution_attempts]; [done|].
  destruct (_ =? _) eqn:E; split_bool.
  - intros [= <- <-]. exists 0%nat. split_and!; [lia|done..].
  - intros (k & Hk & H1 & H2 & ->)%IH. exists (3 + k)%nat. by split_and!; [lia|..].
Qed.

(** What a resolved document authorises, and of which look at the corpus. *)
Lemma resolve_rule_statuses_spec looks d d' :
  resolve_rule_statuses looks d = Ok d' →
  ∃ k revision, (k + 2 < 9)%nat ∧ lc_template_analysis_revision (looks k) = revision ∧
    lc_template_analysis_revision (looks (k + 2)%nat) = revision ∧ sd_resolved_template_revision d' = Some revision ∧
    sd_corpus_id d' = sd_corpus_id d ∧ sd_revision d' = sd_revision d ∧
    ∃ ids, collect_enabled (sd_rules d') = Ok ids ∧
      ∀ id, id ∈ ids ↔ authorized d (lc_template_identities (looks (k + 1)%nat)) id.
Proof.
  unfold resolve_rule_statuses. intros Hr. apply bind_Ok in Hr as ([revision fingerprints] & Ha & Hr). inv_result.
  apply resolution_attempts_spec in Ha as (k & Hk & H1 & H2 & ->). exists k, revision. split_and!; [done..|].
  cbn [sd_rules]. rewrite collect_resolved. eexists. split; [done|]. intros id. apply matching_authorized.
Qed.

Record lens_ok (lens : TrustedSuppressionLens) : Prop := {
  lo_sorted : StronglySorted key_lt (tl_template_ids lens);
  lo_bounded : zlen (tl_template_ids lens) ≤ MAX_EXCLUDED_TEMPLATE_IDS;
  lo_unavailable : tl_state lens = Unavailable → tl_template_ids lens = [];
}.

Lemma resolve_lens_spec cid looks revision :
  let lens := resolve_lens cid looks revision in
  lens_ok lens ∧
  (tl_state lens = Resolved →
   ∃ d k r, load_document_from_root (Ok ()) cid (wo_sidecar (looks 0%nat)) = Ok d ∧ (1 ≤ k ≤ 7)%nat ∧
     lc_template_analysis_revision (wo_corpus (looks k)) = r ∧
     lc_template_analysis_revision (wo_corpus (looks (k + 2)%nat)) = r ∧
     ∀ id, id ∈ tl_template_ids lens ↔ authorized d (lc_template_identities (wo_corpus (looks (k + 1)%nat))) id).
Proof.
  assert (∀ reason events, lens_ok (unavailable cid reason events revision)) as Hun.
  { intros reason events. constructor; cbn; [constructor|done|done]. }
  unfold resolve_lens. destruct (load_suppression_document cid looks) as [d'|e] eqn:El; [|split; [apply Hun|done]].
  destruct (negb _); [split; [apply Hun|done]|].
  destruct (enabled_template_ids_for_corpus _ _ _) as [ids|e] eqn:Ee; [|split; [apply Hun|done]].
  unfold enabled_template_ids_for_corpus, enabled_template_ids in Ee. inv_result. split_bool.
  select (collect_enabled _ = _) (fun H => rename H into Hcol).
  split; [constructor; [apply set_collect_spec|done|done]|]. intros _.
  unfold load_suppression_document in El. apply bind_Ok in El as (d & Hd & Hres).
  apply loaded_document in Hd as (Hd & _).
  apply resolve_rule_statuses_spec in Hres as (k & r & Hk & H1 & H2 & _ & _ & _ & ids & Hids & Hiff).
  rewrite Hids in Hcol. injection Hcol as <-.
  exists d, (S k), r. cbn [tl_template_ids]. split_and!; [done|lia|lia|done|done|]. intros id.
  rewrite (proj2 (set_collect_spec _)). apply Hiff.
Qed.

(** ** Histories

    [time] is what the sidecar and the corpus are at every moment, [at_time] the moments
    at which a call looks. The cache is one cell that calls of any threads read, write
    and clear in any order, so what a call finds in it was stored by some call. *)
Section history.
Context (cid : string) (time : nat → World).

Definition identity_at (i : nat) : SidecarIdentity := observe (wo_sidecar (time i)).
Definition revision_at (i : nat) : Z := lc_template_analysis_revision (wo_corpus (time i)).
(** Every publication creates a file with a new identity, and the template revision is
    a counter that moves with every change of the templates. *)
Record well_observed : Prop := {
  wb_identity : ∀ i j k, (i ≤ j ≤ k)%nat → identity_at i = identity_at k → identity_at i ≠ Unmeasurable →
                         identity_at j = identity_at i;
  wb_revision : ∀ i j, (i ≤ j)%nat → revision_at i ≤ revision_at j;
  wb_templates : ∀ i j, revision_at i = revision_at j →
                        lc_template_identities (wo_corpus (time i)) = lc_template_identities (wo_corpus (time j));
}.
Context (Hobs : well_observed).

Definition in_order (at_time : nat → nat) : Prop := ∀ i j, (i ≤ j)%nat → (at_time i ≤ at_time j)%nat.
Definition looks_at (at_time : nat → nat) : nat → World := λ k, time (at_time k).
Inductive stored : CachedSuppressionLens → Prop :=
| Stores cached at_time c :
    (∀ c', cached = Some c' → stored c') → in_order at_time →
    (trusted_suppression_lens cid cached (looks_at at_time)).2 = Some c → stored c.

(** The document that the sidecar of a moment holds: some moment at which it has the
    same identity loads it. *)
Definition policy_at (w : World) (d : SuppressionDocument) : Prop :=
  ∃ m, identity_at m = observe (wo_sidecar w) ∧ load_document_from_root (Ok ()) cid (wo_sidecar (time m)) = Ok d.

Definition cache_sound (c : CachedSuppressionLens) : Prop :=
  lens_ok (cl_lens c) ∧
  (tl_state (cl_lens c) = Resolved →
   ∃ m n d, identity_at m = cl_sidecar c ∧ load_document_from_root (Ok ()) cid (wo_sidecar (time m)) = Ok d ∧
     revision_at n = cl_template_analysis_revision c ∧
     ∀ id, id ∈ tl_template_ids (cl_lens c) ↔ authorized d (lc_template_identities (wo_corpus (time n))) id).
Definition lens_sound (looks : nat → World) (lens : TrustedSuppressionLens) : Prop :=
  lens_ok lens ∧
  (tl_state lens = Resolved →
   ∃ i j d, (i ≤ j ≤ 17)%nat ∧ policy_at (looks i) d ∧
     ∀ id, id ∈ tl_template_ids lens ↔ authorized d (lc_template_identities (wo_corpus (looks j))) id).

Lemma restamp_ok events lens : lens_ok lens → lens_ok (restamp_event_revision events lens).
Proof. unfold restamp_event_revision. case_match; [done|]. intros [? ? ?]. by constructor. Qed.
Lemma restamp_ids events lens :
  tl_template_ids (restamp_event_revision events lens) = tl_template_ids lens ∧
  tl_state (restamp_event_revision events lens) = tl_state lens.
Proof. unfold restamp_event_revision. by case_match. Qed.

Lemma hit_sound at_time c :
  cache_sound c → cl_sidecar c = identity_at (at_time 0%nat) → cl_template_analysis_revision c = revision_at (at_time 1%nat) →
  lens_sound (looks_at at_time)
    (restamp_event_revision (lc_event_revision (wo_corpus (looks_at at_time 2%nat))) (cl_lens c)).
Proof.
  intros [Hok Hres] Hid Hrev. split; [by apply restamp_ok|]. destruct (restamp_ids (lc_event_revision (wo_corpus (looks_at at_time 2%nat))) (cl_lens c)) as [-> ->].
  intros (m & n & d & Hm & Hd & Hn & Hiff)%Hres. exists 0%nat, 1%nat, d. split_and!; [lia..|by exists m; rewrite Hm|].
  intros id. rewrite Hiff. unfold looks_at. by rewrite (wb_templates Hobs n (at_time 1%nat)) by congruence.
Qed.

Lemma call_sound cached at_time :
  (∀ c, cached = Some c → cache_sound c) → in_order at_time →
  let '(lens, st) := trusted_suppression_lens cid cached (looks_at at_time) in
  lens_sound (looks_at at_time) lens ∧ ∀ c, st = Some c → cache_sound c.
Proof.
  intros Hcached Hord. unfold trusted_suppression_lens.
  change (observe (wo_sidecar (looks_at at_time ?k))) with (identity_at (at_time k)).
  change (lc_template_analysis_revision (wo_corpus (looks_at at_time ?k))) with (revision_at (at_time k)).
  destruct (if negb _ then _ else _) as [lens|] eqn:Ehit.
  - destruct (negb _); [|done]. destruct cached as [c|]; [|done]. cbn in Ehit. case_match eqn:E; [|done]. split_bool.
    injection Ehit as <-. split; [|done]. by apply hit_sound; [apply Hcached|..].
  - clear Ehit. destruct (resolve_lens_spec cid (λ k, looks_at at_time (3 + k)%nat) (revision_at (at_time 1%nat))) as [Hok Hres].
    set (lens := resolve_lens _ _ _) in *. split.
    + split; [done|]. intros (d & k & r & Hd & Hk & _ & _ & Hiff)%Hres. exists 3%nat, (3 + (k + 1))%nat, d.
      split_and!; [lia..| |done]. by exists (at_time 3%nat).
    + intros c Hst. case_match eqn:E; [|done]. injection Hst as <-. split_bool. split; [done|]. cbn [cl_lens].
      intros (d & k & r & Hd & Hk & _ & _ & Hiff)%Hres. exists (at_time 3%nat), (at_time (3 + (k + 1))%nat), d. cbn [cl_sidecar cl_template_analysis_revision].
      split_and!; [|done| |done].
      * eapply (wb_identity Hobs _ _ (at_time 16%nat)); [split; apply Hord; lia|done|done].
      * pose proof (wb_revision Hobs (at_time 1%nat) (at_time (3 + (k + 1))%nat) ltac:(apply Hord; lia)).
        pose proof (wb_revision Hobs (at_time (3 + (k + 1))%nat) (at_time 17%nat) ltac:(apply Hord; lia)). lia.
Qed.
Lemma stored_sound c : stored c → cache_sound c.
Proof.
  induction 1 as [cached at_time c _ IH Hord Hst]. pose proof (call_sound cached at_time IH Hord) as Hcall.
  destruct (trusted_suppression_lens _ _ _) as [lens st]. by apply Hcall.
Qed.

(** Reducing a request to a lens. *)
Lemma apply_lens_spec lens excluded :
  lens_ok lens →
  let '(app, hidden) := apply_lens_to_query lens excluded in
  StronglySorted key_lt hidden ∧ zlen hidden ≤ MAX_EXCLUDED_TEMPLATE_IDS ∧
  (∀ id, id ∈ hidden ↔ id ∈ excluded ∧ id ∈ tl_template_ids lens) ∧
  la_effective app = zlen hidden ∧ la_requested app = la_effective app + la_dropped app ∧ la_state app = tl_state lens.
Proof.
  intros [Hs Hb _]. unfold apply_lens_to_query. destruct (set_collect_spec excluded) as [Hsort Hin].
  assert (∀ id, id ∈ List.filter (authorizes lens) (set_collect excluded) ↔ id ∈ excluded ∧ id ∈ tl_template_ids lens) as Hiff.
  { intros id. unfold authorizes. rewrite list_elem_of_In, filter_In, <-list_elem_of_In, Hin, binary_search_spec by done. done. }
  assert (StronglySorted key_lt (List.filter (authorizes lens) (set_collect excluded))) as Hsorted.
  { clear -Hsort. induction Hsort as [|x l _ IH Hx]; cbn; [constructor|]. case_match; [|done]. constructor; [done|].
    apply Forall_forall. intros y [Hy _]%list_elem_of_In%filter_In. rewrite Forall_forall in Hx. apply Hx. by apply list_elem_of_In. }
  split_and!; [done| |done|done|cbn; lia|done].
  etrans; [|exact Hb]. unfold zlen. apply Nat2Z.inj_le, submseteq_length, NoDup_submseteq; [by apply sorted_NoDup|].
  intros id [_ ?]%Hiff. done.
Qed.

End history.

(** ** The binding identifies the policy *)

(** What of a rule has an effect. *)
Record EffectiveRule := {
  ef_id : string; ef_origin : SuppressionRuleOrigin; ef_state : SuppressionRuleState;
  ef_predicate : SuppressionTemplatePredicate; ef_kind : SuppressionRuleResolutionKind; ef_matches_nothing : bool;
}.
Definition effective (r : SuppressionRule) : EffectiveRule :=
  {| ef_id := ru_id r; ef_origin := ru_origin r; ef_state := ru_state r; ef_predicate := ru_predicate r;
     ef_kind := default Inactive (rs_kind <$> ru_resolution r);
     ef_matches_nothing := default true (rs_matches_nothing <$> ru_resolution r) |}.
Definition effective_bytes (e : EffectiveRule) : list ascii :=
  update_policy_digest (bytes (ef_id e)) ++
  update_policy_digest (byte (suppression_origin_code (ef_origin e))) ++
  update_policy_digest (byte (suppression_state_code (ef_state e))) ++
  update_policy_digest (to_le_bytes 8 (sp_template_id (ef_predicate e))) ++
  update_policy_digest (bytes (sp_template_fingerprint (ef_predicate e))) ++
  update_policy_digest (byte (suppression_resolution_code (ef_kind e))) ++
  update_policy_digest (byte (if ef_matches_nothing e then 1 else 0)).
(** The widths of the fields. *)
Definition encodable_rule (e : EffectiveRule) : Prop :=
  u64_str (ef_id e) ∧ fits_u64 (sp_template_id (ef_predicate e)) ∧ u64_str (sp_template_fingerprint (ef_predicate e)).
Definition encodable_document (d : SuppressionDocument) : Prop :=
  u64_str (sd_corpus_id d) ∧ 0 ≤ sd_schema_version d < 256 ^ 4 ∧ fits_u64 (sd_revision d) ∧
  (∀ r, sd_resolved_template_revision d = Some r → fits_u64 r) ∧ Forall (λ r, encodable_rule (effective r)) (sd_rules d).

Lemma update_self_delimiting : self_delimiting (λ b, zlen b ≤ u64_max) update_policy_digest.
Proof.
  intros a b x y Ha Hb E. unfold update_policy_digest in E. rewrite <-!(assoc_L (++)) in E.
  apply le_u64_self_delimiting in E as [Hlen E]; [|split; [apply zlen_nonneg|done]..].
  apply app_inj_1 in E; [|unfold zlen in Hlen; lia]. done.
Qed.
Lemma update_string_delimiting : self_delimiting u64_str (λ s, update_policy_digest (bytes s)).
Proof. intros a b x y Ha Hb E. apply update_self_delimiting in E as [E ->]; [|done..]. split; [by apply (inj bytes)|done]. Qed.
Lemma update_u64_delimiting : self_delimiting fits_u64 (λ n, update_policy_digest (to_le_bytes 8 n)).
Proof.
  intros a b x y Ha Hb E. apply update_self_delimiting in E as [E ->]; [|unfold zlen; rewrite length_to_le_bytes; done..].
  split; [|done]. unfold fits_u64, u64_max in *. apply (to_le_bytes_inj 8); [cbn; lia..|done].
Qed.
Lemma update_code_delimiting {A} (code : A → Z) :
  Inj (=) (=) code → (∀ a, 0 ≤ code a < 256) → self_delimiting (λ _, True) (λ a, update_policy_digest (byte (code a))).
Proof.
  intros Hinj Hb a b x y _ _ E. apply update_self_delimiting in E as [E ->]; [|unfold byte, zlen; rewrite length_to_le_bytes; done..].
  split; [|done]. apply Hinj. apply (to_le_bytes_inj 1); [apply Hb..|done].
Qed.

Lemma effective_self_delimiting : self_delimiting encodable_rule effective_bytes.
Proof.
  intros a b x y (?&?&?) (?&?&?) E. unfold effective_bytes in E. rewrite <-!(assoc_L (++)) in E.
  apply update_string_delimiting in E as [? E]; [|done..].
  apply (update_code_delimiting suppression_origin_code) in E as [? E]; [|by intros [] []|by intros []|done..].
  apply (update_code_delimiting suppression_state_code) in E as [? E]; [|by intros [] []|by intros []|done..].
  apply update_u64_delimiting in E as [? E]; [|done..]. apply update_string_delimiting in E as [? E]; [|done..].
  apply (update_code_delimiting suppression_resolution_code) in E as [? E]; [|by intros [] []|by intros []|done..].
  apply (update_code_delimiting (λ b : bool, if b then 1 else 0)) in E as [? E]; [|by intros [] []|by intros []|done..].
  split; [|done]. destruct a as [? ? ? [] ? ?], b as [? ? ? [] ? ?]; cbn in *; by subst.
Qed.

Lemma all_rule_bytes rules bs : all_ok rule_bytes rules = Ok bs → bs = effective_bytes <$> (effective <$> rules).
Proof.
  revert bs. induction rules as [|r rules IH]; intros bs; cbn [all_ok]; [by intros [= <-]|]. intros Hb. inv_result.
  cbn [fmap list_fmap]. f_equal; [|by apply IH]. unfold rule_bytes in *. inv_result. unfold effective_bytes, effective.
  cbn. select (ru_resolution r = _) (fun H => rewrite H). done.
Qed.

Lemma header_inj d d' r r' x y :
  encodable_document d → encodable_document d' → fits_u64 r → fits_u64 r' → header_bytes d r ++ x = header_bytes d' r' ++ y →
  sd_corpus_id d = sd_corpus_id d' ∧ sd_schema_version d = sd_schema_version d' ∧ sd_revision d = sd_revision d' ∧ r = r' ∧ x = y.
Proof.
  intros (?&?&?&_) (?&?&?&_) Hr Hr' E. unfold header_bytes in E. rewrite <-!(assoc_L (++)) in E. apply app_inv_head in E.
  apply update_string_delimiting in E as [? E]; [|done..].
  apply update_self_delimiting in E as [E4 E]; [|unfold zlen; rewrite length_to_le_bytes; done..].
  apply update_u64_delimiting in E as [? E]; [|done..]. apply update_u64_delimiting in E as [? E]; [|done..].
  split_and!; [done| |done..]. by apply (to_le_bytes_inj 4).
Qed.

(** C17. The digest that binds a finding identifies the policy: equal digests of two
    documents mean the same corpus, schema, revision and template revision, and the
    same rules with their origin, state, template, fingerprint and resolution, in
    whatever order the documents list them; or a collision of SHA-256 is at hand. *)
Theorem binding_identifies_the_policy d d' revisions revisions' s s' :
  encodable_document d → encodable_document d' →
  policy_binding_snapshot d revisions = Ok s → policy_binding_snapshot d' revisions' = Ok s' →
  sb_effective_policy_sha256 s = sb_effective_policy_sha256 s' →
  (sd_corpus_id d = sd_corpus_id d' ∧ sd_schema_version d = sd_schema_version d' ∧
   sb_suppression_policy_revision s = sb_suppression_policy_revision s' ∧
   sb_resolved_template_revision s = sb_resolved_template_revision s' ∧
   effective <$> sd_rules d ≡ₚ effective <$> sd_rules d') ∨ sha_collision.
Proof.
  intros He He' Hs Hs' Heq. unfold policy_binding_snapshot in Hs, Hs'.
  apply bind_Ok in Hs as (r & Hr & Hs), Hs' as (r' & Hr' & Hs'). inv_result. cbn in *.
  select (all_ok _ (sort_by _ (sd_rules d)) = _) (fun H => apply all_rule_bytes in H as ->).
  select (all_ok _ (sort_by _ (sd_rules d')) = _) (fun H => apply all_rule_bytes in H as ->).
  apply digest_eq_or_collision in Heq as [Heq|?]; [left|by right].
  apply header_inj in Heq as (? & ? & ? & ? & Heq); [|done|done|by apply He|by apply He'].
  split_and!; [done..|]. rewrite <-(sort_by_perm rule_leb (sd_rules d)), <-(sort_by_perm rule_leb (sd_rules d')).
  apply (concat_self_delimiting_end encodable_rule) in Heq as ->; [done|apply effective_self_delimiting|done|..].
  - apply Forall_fmap. rewrite sort_by_perm. apply He.
  - apply Forall_fmap. rewrite sort_by_perm. apply He'.
Qed.

(** ** The diagnostic snapshot agrees with the lens *)

Definition template_of (r : SuppressionRule) : Z := sp_template_id (ru_predicate r).

Lemma collect_applies rules ids : collect_enabled rules = Ok ids → ids = template_of <$> List.filter applies rules.
Proof.
  revert ids. induction rules as [|r rules IH]; intros ids; cbn [collect_enabled List.filter]; [by intros [= <-]|].
  unfold applies at 1, kind_and_explanation. destruct (is_enabled r); cbn [andb]; [|apply IH].
  destruct (ru_resolution r) as [res|]; [|done]. cbn [ok_or mbind result_bind fst].
  destruct (rs_kind res); intros Hc; try (rewrite bool_decide_eq_false_2 by done; by apply IH).
  rewrite bool_decide_eq_true_2 by done. inv_result. cbn [fmap list_fmap]. f_equal. by apply IH.
Qed.

(** Elements that are the only ones with their key have different keys. *)
Lemma lone_keys_NoDup {A B} (f : A → B) (p : A → bool) (only : A → list A → list A) l :
  (∀ x y k, p y = true → f x = f y → (length (only x k) < length (only x (y :: k)))%nat) →
  (∀ x y k, (length (only x k) ≤ length (only x (y :: k)))%nat) →
  (∀ x, p x = true → (length (only x l) ≤ 1)%nat) → NoDup (f <$> List.filter p l).
Proof.
  intros Hgrow Hmono. assert (∀ x k y, y ∈ k → p y = true → f x = f y → (0 < length (only x k))%nat) as Hpos.
  { intros x k y Hy Hp Hf. induction Hy as [y k|y z k _ IH]; [specialize (Hgrow x y k Hp Hf); lia|].
    specialize (IH Hp Hf). specialize (Hmono x z k). lia. }
  induction l as [|a l IH]; intros Hone; [constructor|]. cbn [List.filter].
  assert (NoDup (f <$> List.filter p l)) as Hnd. { apply IH. intros x Hx. specialize (Hone x Hx). specialize (Hmono x a l). lia. }
  destruct (p a) eqn:Ea; [|done]. cbn [fmap list_fmap]. constructor; [|done].
  intros (y & Hf & [Hy Hp]%list_elem_of_In%filter_In)%list_elem_of_fmap. apply list_elem_of_In in Hy.
  specialize (Hpos a l y Hy Hp Hf). specialize (Hgrow a a l Ea eq_refl). specialize (Hone a Ea). lia.
Qed.

Lemma resolved_templates_differ looks d d' :
  resolve_rule_statuses looks d = Ok d' → NoDup (template_of <$> List.filter applies (sd_rules d')).
Proof.
  unfold resolve_rule_statuses. intros Hr. apply bind_Ok in Hr as ([revision fingerprints] & _ & Hr). inv_result. cbn [sd_rules].
  set (conflicting := conflicting_template_ids (sd_rules d)).
  pose proof (collect_resolved conflicting fingerprints (sd_rules d)) as Hc. apply collect_applies in Hc as <-.
  apply (lone_keys_NoDup template_of _ (λ x l, enabled_for l (template_of x))).
  - intros x y k [He _]%matching_iff Hf. unfold enabled_for. cbn [List.filter]. rewrite He. cbn [andb].
    rewrite (proj2 (Z.eqb_eq _ _)); [cbn; lia|]. by symmetry.
  - intros x y k. unfold enabled_for. cbn [List.filter]. case_match; cbn; lia.
  - intros x (_ & _ & Hn & _)%matching_iff. unfold conflicting in Hn. rewrite conflicting_spec in Hn. unfold template_of. lia.
Qed.

Lemma diagnose_spec counts rules g :
  let g' := foldl (diagnose counts) g rules in
  dg_enabled g' = dg_enabled g + zlen (List.filter is_enabled rules) ∧
  dg_applied g' = dg_applied g + zlen (List.filter applies rules) ∧
  dg_enabled g' - dg_applied g' - dg_stale g' = dg_enabled g - dg_applied g - dg_stale g ∧
  (zlen (dg_rules g) ≤ 64 →
   dg_rules g' = dg_rules g ++ take (64 - length (dg_rules g)) (diagnostic_rule counts <$> rules)).
Proof.
  revert g. induction rules as [|r rules IH]; intros g; cbn [foldl].
  - cbn [List.filter fmap list_fmap]. rewrite take_nil, app_nil_r. split_and!; [by rewrite Z.add_0_r..|done|done].
  - destruct (IH (diagnose counts g r)) as (Hen & Hap & Hst & Hru). cbv zeta in *. cbn [List.filter].
    assert (dg_enabled (diagnose counts g r) = if is_enabled r then dg_enabled g + 1 else dg_enabled g) as Een by done.
    assert (dg_applied (diagnose counts g r) = if applies r then dg_applied g + 1 else dg_applied g) as Eap by done.
    assert (dg_stale (diagnose counts g r) = if applies r then dg_stale g else if is_enabled r then dg_stale g + 1 else dg_stale g)
      as Est by done.
    assert (applies r = true → is_enabled r = true) as Himp by (unfold applies; intros [? _]%andb_true_iff; done).
    rewrite Een in Hen, Hst. rewrite Eap in Hap, Hst. rewrite Est in Hst. split_and!.
    + rewrite Hen. destruct (is_enabled r); unfold zlen; cbn [length]; lia.
    + rewrite Hap. destruct (applies r); unfold zlen; cbn [length]; lia.
    + rewrite Hst. destruct (applies r); [rewrite Himp by done; lia|]. destruct (is_enabled r); lia.
    + intros Hle. assert (dg_rules (diagnose counts g r) = if zlen (dg_rules g) <? 64 then dg_rules g ++ [diagnostic_rule counts r] else dg_rules g) as Eru by done.
      rewrite Eru in Hru. unfold zlen in *. destruct (_ <? _) eqn:E; split_bool.
      * rewrite Hru by (rewrite length_app; cbn; lia). rewrite length_app, <-(assoc_L (++)). cbn [length app fmap list_fmap].
        f_equal. destruct (64 - length (dg_rules g))%nat as [|n] eqn:En; [lia|]. cbn [take]. do 2 f_equal. lia.
      * rewrite Hru by done. assert (64 - length (dg_rules g) = 0)%nat as -> by lia. by rewrite !take_0.
Qed.

(** The diagnostic export tells the truth about the lens: it counts every enabled
    rule once, as applied or as stale; the applied ones are exactly as many as the
    templates the lens hides; the rules reported are the first 64 and the audit entries
    the last 128 with the rest counted as omitted; and a rule that reports an event is
    one whose template the lens hides. *)
Theorem diagnostic_snapshot_agrees_with_the_lens cid looks d ids x :
  load_suppression_document cid looks = Ok d → enabled_template_ids d = Ok ids →
  suppression_diagnostic_snapshot cid looks = Ok x →
  dx_enabled_rule_count x = zlen (List.filter is_enabled (sd_rules d)) ∧
  dx_enabled_rule_count x = dx_applied_rule_count x + dx_stale_rule_count x ∧ dx_applied_rule_count x = zlen ids ∧
  dr_rule_id <$> dx_rules x = take 64 (ru_id <$> sd_rules d) ∧
  zlen (dx_rules x) + dx_omitted_rule_entries x = zlen (sd_rules d) ∧
  (∃ older, sd_audit d = older ++ drop (length older) (sd_audit d) ∧
     dx_audit x = diagnostic_audit <$> drop (length older) (sd_audit d) ∧
     zlen older = dx_omitted_audit_entries x ∧ zlen (dx_audit x) ≤ 128) ∧
  ∀ e, e ∈ dx_rules x → dr_matching_event_count e ≠ 0 →
    ∃ r, r ∈ sd_rules d ∧ ru_id r = dr_rule_id e ∧ template_of r ∈ ids.
Proof.
  intros Hl Hids Hx. unfold suppression_diagnostic_snapshot in Hx. rewrite Hl in Hx. cbn [mbind result_bind] in Hx. injection Hx as <-.
  set (counts := template_count_map _). set (g0 := {| dg_enabled := 0; dg_applied := 0; dg_stale := 0; dg_rules := [] |}).
  destruct (diagnose_spec counts (sd_rules d) g0) as (Hen & Hap & Hst & Hru). cbv zeta in *.
  specialize (Hru ltac:(done)). set (g := foldl _ _ _) in *. clearbody g. cbn [g0 dg_enabled dg_applied dg_stale dg_rules app length] in *.
  unfold load_suppression_document in Hl. apply bind_Ok in Hl as (d0 & _ & Hres). apply resolved_templates_differ in Hres.
  unfold enabled_template_ids in Hids. inv_result. select (collect_enabled _ = _) (fun H => apply collect_applies in H as ->).
  cbn [dx_enabled_rule_count dx_applied_rule_count dx_stale_rule_count dx_rules dx_audit dx_omitted_rule_entries dx_omitted_audit_entries].
  destruct (set_collect_spec (template_of <$> List.filter applies (sd_rules d))) as [Hsort Helem].
  split_and!; [lia|lia| | | | |].
  - assert (set_collect (template_of <$> List.filter applies (sd_rules d)) ≡ₚ template_of <$> List.filter applies (sd_rules d)) as Hp.
    { apply NoDup_Permutation; [by apply sorted_NoDup|done|done]. }
    unfold zlen. rewrite Hp, length_fmap. unfold zlen in Hap. lia.
  - rewrite Hru, fmap_take, <-list_fmap_compose. done.
  - unfold saturating_sub, zlen. rewrite Hru, length_take, length_fmap. lia.
  - unfold saturating_sub, MAX_DIAGNOSTIC_SUPPRESSION_AUDIT, zlen.
    set (n := Z.to_nat (Z.max (Z.of_nat (length (sd_audit d)) - 128) 0)). exists (take n (sd_audit d)).
    assert (length (take n (sd_audit d)) = n) as -> by (rewrite length_take; lia).
    rewrite take_drop, length_fmap, length_drop. split_and!; [done..|lia|lia].
  - intros e He Hne. rewrite Hru in He. apply elem_of_take in He as (i & Hi & _). apply list_lookup_fmap_Some in Hi as (r & -> & Hi).
    assert (applies r = true) as Happ by (cbn [diagnostic_rule dr_matching_event_count] in Hne; by destruct (applies r)).
    apply list_elem_of_lookup_2 in Hi. exists r. split_and!; [done..|]. rewrite Helem. apply list_elem_of_fmap. exists r.
    split; [done|]. apply list_elem_of_In, filter_In. split; [by apply list_elem_of_In|done].
Qed.

(** ** A policy that loads is applied *)

Lemma filter_length_le {A} (p q : A → bool) l :
  (∀ x, p x = true → q x = true) → (length (List.filter p l) ≤ length (List.filter q l))%nat.
Proof.
  intros Himp. induction l as [|x l IH]; [done|]. cbn. destruct (p x) eqn:E; [rewrite (Himp x E); cbn; lia|].
  destruct (q x); cbn; lia.
Qed.
Lemma resolve_quiet_lens cid w d revision :
  wo_root w = Ok () → load_document_from_root (Ok ()) cid (wo_sidecar w) = Ok d →
  zlen (List.filter is_enabled (sd_rules d)) ≤ MAX_EXCLUDED_TEMPLATE_IDS →
  let lens := resolve_lens cid (λ _, w) revision in
  tl_state lens = Resolved ∧ ∀ id, id ∈ tl_template_ids lens ↔ authorized d (lc_template_identities (wo_corpus w)) id.
Proof.
  intros Hroot Hd Hfew lens. destruct (loaded_document _ _ _ _ Hd) as (_ & _ & Hcid).
  assert (tl_state lens = Resolved) as Hst; [|split; [done|]].
  - unfold lens, resolve_lens, load_suppression_document. rewrite Hroot, Hd. cbn [mbind result_bind].
    unfold resolve_rule_statuses, MAX_RESOLUTION_ATTEMPTS. cbn [resolution_attempts]. rewrite Z.eqb_refl.
    cbn [ok_or mbind result_bind sd_corpus_id]. rewrite bool_decide_eq_true_2 by done. cbn [negb].
    unfold enabled_template_ids_for_corpus, enabled_template_ids. cbn [sd_resolved_template_revision sd_rules ok_or mbind result_bind].
    rewrite Z.eqb_refl. cbn [negb reject_if mbind result_bind]. rewrite collect_resolved. cbn [mbind result_bind].
    rewrite (proj2 (Z.ltb_ge _ _)); [done|]. etrans; [|exact Hfew]. unfold zlen. apply Nat2Z.inj_le.
    set (p := matching _ _). etrans; [|apply (filter_length_le p is_enabled)].
    + rewrite <-(length_fmap (λ r, sp_template_id (ru_predicate r)) (List.filter p _)).
      destruct (set_collect_spec ((λ r, sp_template_id (ru_predicate r)) <$> List.filter p (sd_rules d))) as [Hs Hin].
      apply submseteq_length, NoDup_submseteq; [by apply sorted_NoDup|]. intros id. by rewrite Hin.
    + intros r [Hr _]%matching_iff. done.
  - destruct (resolve_lens_spec cid (λ _, w) revision) as [_ Hres]. destruct (Hres Hst) as (d0 & k & r & Hd0 & _ & _ & _ & Hiff).
    rewrite Hd in Hd0. injection Hd0 as <-. done.
Qed.

(** C16. A policy that loads is applied: when nothing changes during the call, the
    sidecar loads, at most 256 rules are enabled and the cache has no lens for this
    sidecar and these templates, the lens is resolved and the query hides exactly the
    requested templates that the policy authorises. *)
Theorem loaded_policy_is_applied cid cached w d excluded :
  wo_root w = Ok () → load_document_from_root (Ok ()) cid (wo_sidecar w) = Ok d →
  zlen (List.filter is_enabled (sd_rules d)) ≤ MAX_EXCLUDED_TEMPLATE_IDS →
  (∀ c, cached = Some c → cl_sidecar c = observe (wo_sidecar w) →
        cl_template_analysis_revision c ≠ lc_template_analysis_revision (wo_corpus w)) →
  let '(app, hidden, _) := apply_trusted_suppression_lens cid cached (λ _, w) excluded in
  la_state app = Resolved ∧
  ∀ id, id ∈ hidden ↔ id ∈ excluded ∧ authorized d (lc_template_identities (wo_corpus w)) id.
Proof.
  intros Hroot Hd Hfew Hcached. unfold apply_trusted_suppression_lens, trusted_suppression_lens.
  destruct (if negb _ then _ else _) as [lens|] eqn:Ehit.
  { destruct (negb _); [|done]. destruct cached as [c|]; [|done]. cbn in Ehit. case_match eqn:E; [|done]. split_bool.
    by destruct (Hcached c eq_refl). }
  pose proof (resolve_quiet_lens cid w d (lc_template_analysis_revision (wo_corpus w)) Hroot Hd Hfew) as [Hst Hiff].
  destruct (resolve_lens_spec cid (λ _, w) (lc_template_analysis_revision (wo_corpus w))) as [Hok _].
  set (lens := resolve_lens _ _ _) in *. pose proof (apply_lens_spec lens excluded Hok) as Hspec.
  destruct (apply_lens_to_query lens excluded) as [app hidden]. destruct Hspec as (_ & _ & Hin & _ & _ & Happ).
  split; [by rewrite Happ|]. intros id. by rewrite Hin, Hiff.
Qed.
End lens.

(** ** A lens for the rule of the demonstration *)

Module LensDemo.
Import SuppressionDemo.
#[local] Existing Instance three_documents.
#[local] Instance no_hash : Sha2 := {| sha256_hex := of_bytes |}.

Abbreviation now := {| wo_root := Ok (); wo_sidecar := ss_sidecar (holds "2"); wo_corpus := log_of "disk is full" |}.
Abbreviation lens7 := {|
  tl_corpus_id := corpus; tl_state := Resolved; tl_reason := None; tl_template_ids := [7];
  tl_policy_revision := Some 2; tl_event_revision := 5; tl_template_analysis_revision := 2 |}.
Abbreviation cached7 :=
  {| cl_sidecar := Present 1 (Some 1) 1 9; cl_template_analysis_revision := 2; cl_lens := lens7 |}.
Lemma resolves : trusted_suppression_lens corpus None (λ _, now) = (lens7, Some cached7).
Proof. vm_compute. reflexivity. Qed.
Lemma quiet : well_observed (λ _, now).
Proof. by constructor. Qed.


Lemma loaded_policy_is_applied_witness :
  let '(app, hidden, _) := apply_trusted_suppression_lens corpus None (λ _, now) [7; 8] in
  la_state app = Resolved ∧
  ∀ id, id ∈ hidden ↔ id ∈ [7; 8] ∧ authorized d2 (lc_template_identities (wo_corpus now)) id.
Proof.
  apply (loaded_policy_is_applied corpus None now d2 [7; 8]).
  - reflexivity.
  - exact active_loads.
  - by vm_compute.
  - done.
Defined.

(** The same two rules in both orders. *)
Abbreviation kept := (set_resolution rule1 (resolution MatchesCurrent "current")).
Abbreviation gone :=
  (set_resolution (set_state Disabled 1030 (new_rule (at_time 1005 "rule-0" "-" "-") preview1)) (resolution Inactive "off")).
Abbreviation of_rules rules := {|
  sd_schema_version := 1; sd_corpus_id := corpus; sd_revision := 2; sd_rules := rules; sd_previews := []; sd_audit := [];
  sd_resolved_template_revision := Some 2 |}.
Definition ok_value {A} (a : A) (r : result string A) : A := match r with Ok x => x | Err _ => a end.
Abbreviation binding := (ok_value
  {| sb_suppression_policy_revision := 0; sb_resolved_template_revision := 0; sb_effective_policy_sha256 := EmptyString |}
  (policy_binding_snapshot (of_rules [kept; gone]) (λ _, 2))).
Lemma rules_fit rules : rules ≡ₚ [kept; gone] → encodable_document (of_rules rules).
Proof.
  intros Hp. split_and!; [by vm_compute|done|done|by vm_compute|by intros r [= <-]|]. cbn [sd_rules]. rewrite Hp.
  repeat constructor; by vm_compute.
Qed.
Lemma binding_identifies_the_policy_witness :
  (corpus = corpus ∧ 1 = 1 ∧ 2 = 2 ∧ 2 = 2 ∧ effective <$> [kept; gone] ≡ₚ effective <$> [gone; kept]) ∨ sha_collision.
Proof.
  apply (binding_identifies_the_policy (of_rules [kept; gone]) (of_rules [gone; kept]) (λ _, 2) (λ _, 2) binding binding).
  - by apply rules_fit.
  - apply rules_fit. apply Permutation_swap.
  - vm_compute. reflexivity.
  - vm_compute. reflexivity.
  - reflexivity.
Defined.

Abbreviation d2r := (ok_value d2 (load_suppression_document corpus (λ _, now))).
Abbreviation exported := (ok_value
  {| dx_policy_revision := 0; dx_resolved_template_revision := 0; dx_enabled_rule_count := 0; dx_applied_rule_count := 0;
     dx_stale_rule_count := 0; dx_rules := []; dx_audit := []; dx_omitted_rule_entries := 0; dx_omitted_audit_entries := 0 |}
  (suppression_diagnostic_snapshot corpus (λ _, now))).
Lemma diagnostic_snapshot_agrees_with_the_lens_witness :
  dx_enabled_rule_count exported = zlen (List.filter is_enabled (sd_rules d2r)) ∧
  dx_enabled_rule_count exported = dx_applied_rule_count exported + dx_stale_rule_count exported ∧
  dx_applied_rule_count exported = zlen [7] ∧
  dr_rule_id <$> dx_rules exported = take 64 (ru_id <$> sd_rules d2r) ∧
  zlen (dx_rules exported) + dx_omitted_rule_entries exported = zlen (sd_rules d2r) ∧
  (∃ older, sd_audit d2r = older ++ drop (length older) (sd_audit d2r) ∧
     dx_audit exported = diagnostic_audit <$> drop (length older) (sd_audit d2r) ∧
     zlen older = dx_omitted_audit_entries exported ∧ zlen (dx_audit exported) ≤ 128) ∧
  ∀ e, e ∈ dx_rules exported → dr_matching_event_count e ≠ 0 →
    ∃ r, r ∈ sd_rules d2r ∧ ru_id r = dr_rule_id e ∧ template_of r ∈ [7].
Proof.
  apply (diagnostic_snapshot_agrees_with_the_lens corpus (λ _, now) d2r [7] exported).
  - vm_compute. reflexivity.
  - vm_compute. reflexivity.
  - vm_compute. reflexivity.
Defined.

(** A failure to read the sidecar is remembered. One call cannot open the file; the
    policy it could not establish is stored for the identity of a file that is in
    order, and the next call, in which everything works, still hides nothing, although
    without the cache it would hide the template. *)
Theorem read_failure_is_cached :
  let cannot_open := {| wo_root := Ok (); wo_corpus := log_of "disk is full";
    wo_sidecar := Regular {| sf_open := Err "too many open files"; sf_metadata := Ok (); sf_len := 1;
                             sf_bytes := Ok (bytes "2"); sf_metadata_after := Ok (); sf_len_after := 1;
                             sf_modified_ns := Some 1; sf_device := 1; sf_inode := 9 |} |} in
  let '(failed, stored) := trusted_suppression_lens corpus None (λ k, if bool_decide (k = 3%nat) then cannot_open else now) in
  tl_state failed = Unavailable ∧
  (apply_trusted_suppression_lens corpus stored (λ _, now) [7]).1.2 = [] ∧
  (apply_trusted_suppression_lens corpus None (λ _, now) [7]).1.2 = [7].
Proof. vm_compute. by split_and!. Qed.
End LensDemo.
